(* ===== verification/_CoqProject ===== *)
-Q . S2P
Prelude.v
Net.v
Sys.v
InetPton.v
InetNtop.v
InetAton.v
Cksum.v
Error.v
Wrap.v
SockAddr.v
Io.v
IoSpec.v
Connect.v
ConnectSpec.v
Mcast.v
TcpServ.v
Ends.v
TcpServSpec.v
SelectCli.v
SelectCliSpec.v
Sigio.v
SigioSpec.v
Server.v
ServerSpec.v
Pool.v
PoolSpec.v
Threads.v
ThreadsSpec.v
WebCli.v
WebCliSpec.v
Rtt.v
RttSpec.v
Gai.v
GaiSpec.v
Packet.v
Icmpd.v
IcmpdSpec.v
Ping.v
PingSpec.v
Trace.v
TraceSpec.v
Ifi.v
IfiSpec.v
Bcast.v
BcastSpec.v
Oob.v
OobSpec.v
Udp.v
UdpSpec.v
Sntp.v
SntpSpec.v
UnixDom.v
UnixDomSpec.v
Daytime.v
DaytimeSpec.v
Sock.v
SockSpec.v
Sockopt.v
Udpcksum.v
UdpcksumSpec.v
Ipopts.v
IpoptsSpec.v
