(* ===== verification/Prelude.v ===== *)
(** The socket programs of "UNIX Network Programming" kept in
    [src/unp/unpv13e/], and their correctness.

    * The program

    The repository is a collection of programs; its own C code is the library
    that every program links ([lib/], with replacements of C library functions
    in [libfree/]) and directories of clients and servers that use it.  A
    program calls wrapper functions ([Accept], [Read], ...), which call the
    system and end the process through the functions of [lib/error.c] when the
    call fails; above them stand the stream functions ([readn], [writen],
    [readline]), the address functions ([sock_ntop], [inet_pton], ...) and the
    functions that set up connections ([tcp_connect], [connect_timeo], ...).
    Programs with several processes or threads share descriptors, memory and
    locks.  The configuration modelled is the one committed in [config.h]:
    x86_64 Linux, little-endian, IPv4 and IPv6.

    * Files

    - [Prelude]: arrays indexed by [Z] with C's bounds ([aget], [aset]), counting,
      rings, and machines: executions of a step function, used for programs with
      several threads.
    - [Net]: machine integers at their width ([u32], [s32], ...), byte order,
      constants of the system headers, socket address structures.
    - [Sys]: the system interface.  A [kernel] is any function from the calls made
      so far to an answer, so that a theorem about every kernel is a theorem about
      every environment: short reads and writes, interrupted calls, failures,
      and the points where signals arrive.  A program is a function in a monad of
      the history of calls, [errno] and [daemon_proc]; its outcome is a value, an
      [exit], an [abort], or [Diverge] when the fuel of its loops runs out.  [wp]
      is its weakest precondition, with a rule for each construct; [emits] says
      which calls a program can make.
    - [InetPton], [InetNtop], [InetAton], [Cksum]: [libfree/inet_pton.c],
      [inet_ntop.c], [inet_aton.c], [in_cksum.c].
    - [Error], [Wrap]: [lib/error.c] and [lib/wrap*.c].
    - [SockAddr], [Mcast]: [lib/sock_*.c], [lib/mcast_*.c] and small functions.
    - [Io], [IoSpec]: [lib/readn.c], [writen.c], [readline.c], [read_fd.c] and
      their relatives; what they receive and send.
    - [Connect], [ConnectSpec]: [lib/tcp_connect.c], [tcp_listen.c],
      [connect_timeo.c], [connect_nonb.c], [signal.c], [daemon_init.c] and others.
    - [TcpServ], [TcpServSpec]: [tcpcliserv/].
    - [SelectCli], [SelectCliSpec]: [select/] and [nonblock/].
    - [Sigio], [SigioSpec]: [sigio/].
    - [Server], [ServerSpec]: [server/], each process or thread by itself.
    - [Pool], [PoolSpec]: the threads of [server/serv08.c] together, as a machine.
    - [Threads], [ThreadsSpec]: [threads/]: [example01.c], [example02.c],
      [example03.c] and [web03.c] as machines, under every scheduling.
    - [WebCli], [WebCliSpec]: [nonblock/web.c] and its functions.
    - [Rtt], [RttSpec]: [lib/rtt.c], [rtt/]: timeouts, retransmission, numbering.
    - [Gai], [GaiSpec]: [libgai/]: [getaddrinfo], [freeaddrinfo], [getnameinfo]
      over an arbitrary resolver and allocator.
    - [Packet]: the headers of [<netinet/*.h>] at their offsets in a buffer, and
      objects as bytes, for the programs with raw sockets.
    - [Icmpd], [IcmpdSpec]: [icmpd/]: the daemon that passes ICMP errors to its
      clients, and its client.
    - [Ping], [PingSpec]: [ping/].
    - [Trace], [TraceSpec]: [traceroute/].
    - [Ifi], [IfiSpec]: [lib/get_ifi_info.c] and [ioctl/prifinfo.c]: the interfaces
      of the host.
    - [Bcast], [BcastSpec]: [bcast/] and [mcast/]: six ways to end a wait for
      replies by [SIGALRM], and the multicast programs.
    - [Oob], [OobSpec]: [oob/]: the heartbeat functions, the client and the server
      that use them, and the programs with urgent data.
    - [Udp], [UdpSpec]: [udpcliserv/] and the programs of [advio/].
    - [Sntp], [SntpSpec]: [ssntp/] and [mysdr/].
    - [UnixDom], [UnixDomSpec]: [unixdomain/]: the echo programs, and [my_open],
      which opens a file in a child process and receives its descriptor.
    - [Daytime], [DaytimeSpec]: the daytime clients and servers of [intro/],
      [names/], [inetd/] and [unixdomain/], and other programs of [names/].
    - [Sock], [SockSpec]: [sock/]: the [sock] tool, from its options to its loops.
    - [Sockopt]: [sockopt/].
    - [Udpcksum], [UdpcksumSpec]: [udpcksum/]: IP datagrams written by hand, and the
      replies captured through libpcap, whose functions are calls.
    - [Ipopts], [IpoptsSpec]: [ipopts/]: source routes.
    - [Ends]: a rule for each construct to show that a program ends, or exits only
      with the status of an error.

    A definition has the name of the C function it translates; a loop is [iter]
    over the variables it changes, or a [Fixpoint] when its bound is structural; an
    output argument is part of the result.

    * The theorems

    Parsers and printers: each accepts exactly the addresses of its grammar,
    stores their bytes, and the printers and parsers are inverse to each other,
    within the caller's buffer; the checksum is the sum of RFC 1071 and verifies.

    Streams: whatever the sizes of the kernel's answers and whichever calls are
    interrupted, [readn], [writen], [readline] and the echo functions lose,
    duplicate and reorder nothing, and take an interrupted call for no end.

    Connections: no descriptor leaks on any path, and handlers, alarms and file
    flags are restored; exceptions are stated as such.

    Servers: invariants of the state of the select server, of the
    descriptor-passing server, of the signal-driven server's ring and of the
    non-blocking client's two buffers; the prethreaded server refines a bounded
    FIFO queue and settles in a bounded number of steps.

    Clients: the mutex and condition variable examples end with the right
    counts under every scheduling, and [web03.c] has a deadlock; the counters and
    descriptor sets of the non-blocking web client describe its connections; the
    reliable UDP client returns after at most four transmissions, each but the
    first on a timeout, with the reply to its request.

    Resolver: what [getaddrinfo] returns is well formed, owns exactly the memory
    it allocated, has one structure per service, and inverts [getnameinfo].

    Raw sockets: the ICMP daemon writes an error, with the bytes of its structure, to
    exactly the slots of its table in use that record the family and port it
    quotes, and keeps its table and descriptor set true; the requests of [ping] are
    numbered in order, verify, and what [send_v4] has sent is recognised when it
    comes back; the probes of [traceroute] go out in order under their TTL, the
    answers to them are told from other messages, and the program ends when the
    alarms that it sets arrive.

    Interfaces and broadcasting: the buffer loop of [get_ifi_info] ends with all the
    records, and its list owns exactly what was allocated; three of the six
    broadcast clients end their wait wherever the alarm comes, and the other three
    lose it when it comes between two calls of [recvfrom].

    Urgent data and datagrams: the heartbeat ends the client and the server after
    six alarms without an answer and not before; the programs that clear the
    exception set read no urgent byte twice; the server of every address binds each
    of them; the clock difference printed is exact within the range of an [int], and
    an announcement is printed as it was sent.

    Processes and tools: [my_open], over the two processes that [fork] leaves, gives
    the descriptor or the error that opening the file in the child gave; the line
    that a daytime client prints is the one its server made; the [sock] tool copies
    its standard streams to and from a TCP connection exactly, however it writes,
    and the conversions of its lines are inverse to each other; the datagrams that
    [udpcksum] writes verify as RFC 768 asks, and it asks three times at most; a source
    route is built within its memory and printed as it was built.

    * Fuel

    Every [for ( ; ; )] takes fuel.  Theorems about histories hold for every fuel,
    also of executions that have not ended, since they speak of the calls made so
    far; theorems that a function returns give the fuel that is enough (for
    instance the number of bytes asked plus the interruptions, for [readn]).  The
    parsers, printers and the checksum recurse on their input and have none.

    * Signals

    A handler runs where the program can be interrupted; [Cdeliver signo] marks
    such a point in a program and answers how often the handler runs there.  The
    points are placed where the handler's effect differs from one point to the
    next (around the masking of the signal and the calls that wait for it).

    * Not modelled

    A program that blocks a signal has no point for it while it is blocked, and the
    points of one wait stand before and behind it; a wait with several rounds of
    signals is a loop of points ([hb_wait]).  The kernel, the C library and the name servers are parameters; for the
    programs of [lib/] also [getaddrinfo], since the configuration links the one
    of the C library.  Text printed for numbers of type [double] is a parameter.
    In [rtt/] a signal that arrives before [sigsetjmp] was called is not
    modelled: the C program's behaviour is undefined there.  In [unixdomain/] the
    programs that print credentials need [SCM_CREDS], and [sockopt/checkopts.c] needs
    [SO_USELOOPBACK], which Linux does not have; the server of [ipopts/udpserv01.c]
    needs the control information of a datagram as bytes; [hostent2.c], [hostent3.c] and
    [test1.c] of [names/] read the static result of a lookup after a later lookup has
    stored over it.  The directories of
    [src/unp/unpv13e/] that no file above names, the test programs, [web01.c] and
    [web02.c], and the C++ exercises beside [unp/] ([leetcode/],
    [data_structure/], ...) are not part of the development. *)

From stdpp Require Export prelude list gmap strings.
From Stdlib Require Export ZArith Lia Ascii.

#[global] Open Scope Z_scope.

(** * Notations and tactics of the development *)

Declare Scope unp_scope.
Delimit Scope unp_scope with unp.
#[global] Open Scope unp_scope.

Create HintDb unp discriminated.

(** Split a goal or hypothesis on the first decision it is stuck on. *)
Ltac break_if :=
  match goal with
  | |- context [if ?b then _ else _] => destruct b eqn:?
  | H : context [if ?b then _ else _] |- _ => destruct b eqn:?
  end.

(** Case analysis on every [decide] in sight, closing contradictory branches
    by arithmetic. *)
Ltac decide_all :=
  repeat (case_decide; try (exfalso; (lia || naive_solver lia))).

(** Prove a closed decidable proposition by evaluating its decision. *)
Ltac by_decide := apply (bool_decide_unpack _); vm_compute; exact I.

(** Close a goal by arithmetic after splitting conjunctions. *)
Ltac split_lia := repeat split; simpl in *; try lia.

(** * Bytes and C strings *)

(** A byte is an integer of [0, 255]; buffers and C strings are lists of
    bytes, a C string being the bytes before its terminating NUL. *)
Definition is_byte (b : Z) : Prop := 0 <= b < 256.
Definition bytes (l : list Z) : Prop := Forall is_byte l.
#[global] Instance is_byte_dec b : Decision (is_byte b).
Proof. unfold is_byte. apply _. Defined.
#[global] Instance bytes_dec l : Decision (bytes l).
Proof. unfold bytes. apply _. Defined.

Definition chr (a : Ascii.ascii) : Z := Z.of_N (Ascii.N_of_ascii a).

Fixpoint str (s : string) : list Z :=
  match s with
  | EmptyString => []
  | String a s' => chr a :: str s'
  end.

Abbreviation ch_nl := 10%Z (only parsing).
Abbreviation ch_dot := 46%Z (only parsing).
Abbreviation ch_slash := 47%Z (only parsing).
Abbreviation ch_colon := 58%Z (only parsing).
Abbreviation ch_zero := 48%Z (only parsing).
Abbreviation ch_lbrack := 91%Z (only parsing).
Abbreviation ch_rbrack := 93%Z (only parsing).

(** [strchr(s, c)] for a non-NUL [c]: the index of the first occurrence. *)
Fixpoint strchr (s : list Z) (c : Z) : option Z :=
  match s with
  | [] => None
  | x :: s' => if decide (x = c) then Some 0 else option_map Z.succ (strchr s' c)
  end.

(** [snprintf(buf, size, ...)] of a fully expanded text: at most [size - 1]
    bytes and the NUL are stored. *)
Definition snprintf_trunc (size : Z) (s : list Z) : list Z :=
  take (Z.to_nat (size - 1)) s.

Fixpoint join (sep : list Z) (ls : list (list Z)) : list Z :=
  match ls with
  | [] => []
  | [l] => l
  | l :: ls' => l ++ sep ++ join sep ls'
  end.

(** * Numerals *)

(** Digits of [n >= 0] in base [b], most significant first; a number has at
    most as many digits as bits, so that much fuel is enough. *)
Fixpoint digits_fuel (fuel : nat) (b n : Z) (acc : list Z) : list Z :=
  match fuel with
  | O => acc
  | S fuel' =>
      if decide (n < b) then n :: acc
      else digits_fuel fuel' b (n / b) ((n mod b) :: acc)
  end.
Definition digits (b n : Z) : list Z :=
  digits_fuel (S (Z.to_nat (Z.log2 n))) b n [].

Definition digit_char (d : Z) : Z := if decide (d < 10) then 48 + d else 87 + d.

(** [sprintf("%u")], [sprintf("%d")] and [sprintf("%x")]. *)
Definition fmt_u (n : Z) : list Z := map digit_char (digits 10 n).
Definition fmt_x (n : Z) : list Z := map digit_char (digits 16 n).
Definition fmt_d (n : Z) : list Z :=
  if decide (n < 0) then 45 :: fmt_u (- n) else fmt_u n.

(** Value of a digit list in base [b]. *)
Definition base_val (b : Z) (ds : list Z) : Z := foldl (λ a d, a * b + d) 0 ds.

(** [atoi]: blanks, an optional sign, digits; no overflow. *)
Definition is_space (c : Z) : bool := bool_decide (c = 32 ∨ 9 <= c <= 13).
Fixpoint atoi_digits (s : list Z) (acc : Z) : Z :=
  match s with
  | c :: s' => if decide (48 <= c <= 57) then atoi_digits s' (acc * 10 + (c - 48)) else acc
  | [] => acc
  end.
Fixpoint atoi (s : list Z) : Z :=
  match s with
  | [] => 0
  | c :: s' =>
      if is_space c then atoi s'
      else if decide (c = 45) then - atoi_digits s' 0
      else if decide (c = 43) then atoi_digits s' 0
      else atoi_digits s 0
  end.

(** [%ld] of [sscanf]: blanks, a sign, digits; the value saturates at 64 bits.
    [None] when there is no number. *)
Fixpoint scan_digits (s : list Z) (acc : option Z) : option Z * list Z :=
  match s with
  | c :: s' =>
      if decide (48 <= c <= 57) then scan_digits s' (Some (default 0 acc * 10 + (c - 48)))
      else (acc, s)
  | [] => (acc, [])
  end.
Definition sat64 (n : Z) : Z := Z.max (- 2 ^ 63) (Z.min n (2 ^ 63 - 1)).
Fixpoint scan_ld (s : list Z) : option (Z * list Z) :=
  match s with
  | [] => None
  | c :: s' =>
      if is_space c then scan_ld s'
      else
        let '(neg, ds) := if decide (c = 45) then (true, s')
                          else if decide (c = 43) then (false, s') else (false, s) in
        match scan_digits ds None with
        | (Some n, rest) => Some (sat64 (if neg : bool then - n else n), rest)
        | (None, _) => None
        end
  end.

Definition is_digit (c : Z) : Prop := 48 <= c <= 57.
#[global] Instance is_digit_dec c : Decision (is_digit c).
Proof. unfold is_digit. apply _. Defined.
Definition is_xdigit (c : Z) : Prop := 48 <= c <= 57 \/ 97 <= c <= 102 \/ 65 <= c <= 70.
#[global] Instance is_xdigit_dec c : Decision (is_xdigit c).
Proof. unfold is_xdigit. apply _. Defined.

(** * Array accesses *)

(** [a[i]] for an in-range [i]. *)
Definition aget {A} (l : list A) (i : Z) : option A :=
  if decide (0 <= i) then l !! Z.to_nat i else None.

(** [a[i] = x] for an in-range [i]. *)
Definition aset {A} (l : list A) (i : Z) (x : A) : list A :=
  if decide (0 <= i) then <[Z.to_nat i := x]> l else l.

(** * Lemmas on numerals *)

Lemma base_val_acc b x l :
  foldl (λ a d, a * b + d) x l = x * b ^ Z.of_nat (length l) + base_val b l.
Proof.
  unfold base_val. revert x. induction l as [|d l IH]; intros x.
  - simpl. lia.
  - cbn [foldl length]. rewrite IH, (IH (0 * b + d)).
    rewrite Nat2Z.inj_succ, Z.pow_succ_r by lia. lia.
Qed.

Lemma base_val_app b l1 l2 :
  base_val b (l1 ++ l2) = base_val b l1 * b ^ Z.of_nat (length l2) + base_val b l2.
Proof. unfold base_val at 1. rewrite foldl_app. apply base_val_acc. Qed.

Lemma digits_fuel_val f b n acc :
  1 < b → 0 <= n < b ^ Z.of_nat f →
  ∃ ds, digits_fuel f b n acc = ds ++ acc ∧ base_val b ds = n ∧
        Forall (λ d, 0 <= d < b) ds.
Proof.
  intros Hb. revert n acc. induction f as [|f IH]; intros n acc Hn.
  - exists []. simpl in *. split; [done|]. split; [unfold base_val; simpl; lia|done].
  - simpl. case_decide as Hlt.
    + exists [n]. split; [done|]. split; [unfold base_val; simpl; lia|].
      constructor; [lia|done].
    + rewrite Nat2Z.inj_succ, Z.pow_succ_r in Hn by lia.
      destruct (IH (n / b) (n mod b :: acc)) as (ds & -> & Hv & HF).
      { split; [apply Z.div_pos; lia|]. apply Z.div_lt_upper_bound; lia. }
      exists (ds ++ [n mod b]). rewrite <-app_assoc. split; [done|].
      rewrite base_val_app, Hv. simpl. split.
      * unfold base_val. simpl. pose proof (Z.div_mod n b). lia.
      * apply Forall_app. split; [done|]. constructor; [|done].
        pose proof (Z.mod_pos_bound n b). lia.
Qed.

Lemma log2_fuel b n : 1 < b → 0 <= n → n < b ^ Z.of_nat (S (Z.to_nat (Z.log2 n))).
Proof.
  intros Hb Hn. rewrite Nat2Z.inj_succ, Z2Nat.id by apply Z.log2_nonneg.
  destruct (decide (n = 0)) as [->|Hne]; [simpl; lia|].
  apply Z.lt_le_trans with (2 ^ Z.succ (Z.log2 n)).
  - apply Z.log2_spec. lia.
  - apply Z.pow_le_mono_l. lia.
Qed.

Lemma digits_val b n : 1 < b → 0 <= n → base_val b (digits b n) = n.
Proof.
  intros Hb Hn. unfold digits.
  destruct (digits_fuel_val (S (Z.to_nat (Z.log2 n))) b n []) as (ds & -> & Hv & _); [done| |].
  - split; [done|]. by apply log2_fuel.
  - by rewrite app_nil_r.
Qed.

Lemma digits_range b n : 1 < b → 0 <= n → Forall (λ d, 0 <= d < b) (digits b n).
Proof.
  intros Hb Hn. unfold digits.
  destruct (digits_fuel_val (S (Z.to_nat (Z.log2 n))) b n []) as (ds & -> & _ & HF); [done| |].
  - split; [done|]. by apply log2_fuel.
  - by rewrite app_nil_r.
Qed.

Lemma digits_fuel_length f b n acc k :
  1 < b → (0 < k)%nat → 0 <= n < b ^ Z.of_nat k →
  (length (digits_fuel f b n acc) <= k + length acc)%nat.
Proof.
  intros Hb. revert n acc k. induction f as [|f IH]; intros n acc k Hk Hn; simpl; [lia|].
  case_decide as Hlt; simpl; [lia|].
  destruct k as [|[|k]]; [lia| |].
  - simpl in Hn. lia.
  - etrans; [apply (IH _ _ (S k)); [lia|]|simpl; lia].
    rewrite (Nat2Z.inj_succ (S k)), Z.pow_succ_r in Hn by lia.
    split; [apply Z.div_pos; lia|apply Z.div_lt_upper_bound; lia].
Qed.

Lemma digits_length b n k :
  1 < b → (0 < k)%nat → 0 <= n < b ^ Z.of_nat k → (length (digits b n) <= k)%nat.
Proof.
  intros Hb Hk Hn. unfold digits.
  etrans; [by apply (digits_fuel_length _ _ _ _ k)|simpl; lia].
Qed.

Lemma digits_fuel_ne f b n acc : digits_fuel (S f) b n acc ≠ [].
Proof.
  revert n acc. induction f as [|f IH]; intros n acc.
  - simpl. case_decide; done.
  - change (digits_fuel (S (S f)) b n acc) with
      (if decide (n < b) then n :: acc
       else digits_fuel (S f) b (n / b) ((n mod b) :: acc)).
    case_decide; [done|]. apply IH.
Qed.

Lemma digits_ne b n : digits b n ≠ [].
Proof. apply digits_fuel_ne. Qed.

(** * Lemmas on arrays *)

Lemma aset_length {A} (l : list A) i x : length (aset l i x) = length l.
Proof. unfold aset. case_decide; [apply length_insert|done]. Qed.

Lemma aget_aset_eq {A} (l : list A) i x :
  0 <= i < Z.of_nat (length l) → aget (aset l i x) i = Some x.
Proof.
  intros [? ?]. unfold aget, aset. rewrite !decide_True by done.
  apply list_lookup_insert_eq. lia.
Qed.

Lemma aget_aset_ne {A} (l : list A) i j x :
  i ≠ j → aget (aset l i x) j = aget l j.
Proof.
  intros Hij. unfold aget, aset. repeat case_decide; try done.
  apply list_lookup_insert_ne. lia.
Qed.

Lemma aget_Some {A} (l : list A) i x :
  aget l i = Some x → 0 <= i < Z.of_nat (length l).
Proof.
  unfold aget. case_decide; [|done]. intros H1%lookup_lt_Some. lia.
Qed.

Lemma aget_in_range {A} (l : list A) i :
  0 <= i < Z.of_nat (length l) → ∃ x, aget l i = Some x.
Proof.
  intros [? ?]. unfold aget. rewrite decide_True by done.
  destruct (l !! Z.to_nat i) eqn:E; [eauto|].
  apply lookup_ge_None in E. lia.
Qed.

Lemma insert_mid {A} (l1 : list A) x y l2 i :
  i = length l1 → <[i := y]> (l1 ++ x :: l2) = l1 ++ y :: l2.
Proof.
  intros ->. induction l1 as [|z l1 IH]; [done|]. simpl. by f_equal.
Qed.

Lemma lookup_repeat_lt {A} (x : A) n i : (i < n)%nat → repeat x n !! i = Some x.
Proof.
  revert i. induction n as [|n IH]; intros [|i] Hi; [lia..|done|]. apply IH. lia.
Qed.

Create Rewrite HintDb unp.
#[export] Hint Rewrite @aset_length @length_insert : unp.
#[export] Hint Resolve digits_range digits_val digits_ne : unp.

(** * Lemmas on bit operations *)

Lemma lor_add a d k :
  0 <= k → 0 <= d < 2 ^ k → Z.lor (a * 2 ^ k) d = a * 2 ^ k + d.
Proof.
  intros Hk Hd. assert (Hand : Z.land (a * 2 ^ k) d = 0).
  { apply Z.bits_inj'. intros n Hn. rewrite Z.land_spec, Z.bits_0.
    destruct (Z.lt_ge_cases n k).
    - rewrite Z.mul_pow2_bits_low by lia. done.
    - rewrite <-(Z.mod_small d (2 ^ k)) by lia.
      rewrite Z.mod_pow2_bits_high by lia. by rewrite andb_false_r. }
  rewrite Z.add_nocarry_lxor by done. by rewrite Z.lxor_lor.
Qed.

Lemma land_255 x : Z.land x 255 = x mod 256.
Proof. change 255 with (Z.ones 8). by rewrite Z.land_ones by lia. Qed.

(** * Lemmas on strings *)

Lemma join_cons c f fs : join [c] (f :: fs) = f ++ concat (map (cons c) fs).
Proof.
  revert f. induction fs as [|g fs IH]; intros f; simpl; [by rewrite app_nil_r|].
  change (f ++ [c] ++ join [c] (g :: fs) = f ++ (c :: g) ++ concat (map (cons c) fs)).
  by rewrite IH.
Qed.

Lemma join_length c ls k :
  Forall (λ l : list Z, (length l <= k)%nat) ls →
  (length (join [c] ls) <= (k + 1) * length ls)%nat.
Proof.
  intros H. induction H as [|l ls Hl Hls IH]; [simpl; lia|].
  destruct ls as [|l' ls]; [simpl; lia|].
  change (join [c] (l :: l' :: ls)) with (l ++ [c] ++ join [c] (l' :: ls)).
  rewrite !length_app. cbn [length] in *. lia.
Qed.

Lemma strchr_Some s c i : strchr s c = Some i → 0 <= i < Z.of_nat (length s).
Proof.
  revert i. induction s as [|x s IH]; intros i; simpl; [done|].
  case_decide; [intros [= <-]; lia|].
  destruct (strchr s c) as [j|]; [|done]. simpl. intros [= <-].
  specialize (IH j eq_refl). lia.
Qed.

(** [%d] of a number below [10 ^ k]. *)
Lemma fmt_d_length n (k : nat) :
  0 <= n < 10 ^ Z.of_nat k → (1 <= k)%nat → (length (fmt_d n) <= k)%nat.
Proof.
  intros Hn Hk. unfold fmt_d, fmt_u. rewrite decide_False, length_map by lia.
  by apply digits_length.
Qed.

Lemma snprintf_trunc_length size s :
  1 <= size → Z.of_nat (length (snprintf_trunc size s)) <= size - 1.
Proof. intros H. unfold snprintf_trunc. rewrite length_take. lia. Qed.

Lemma snprintf_trunc_id size s :
  Z.of_nat (length s) < size → snprintf_trunc size s = s.
Proof. intros H. unfold snprintf_trunc. apply take_ge. lia. Qed.

(** * Counting the elements of a list *)

(** * Sums *)

(** Sums over a list: of integers, and of natural numbers. *)
Definition sumZ {B} (f : B → Z) (l : list B) : Z := foldr (λ x a, f x + a) 0 l.

Lemma sumZ_insert {B} (f : B → Z) (l : list B) i x y :
  l !! i = Some x → sumZ f (<[i := y]> l) = sumZ f l - f x + f y.
Proof.
  revert i. induction l as [|z l IH]; intros [|i]; try done; simpl.
  - intros [= ->]. lia.
  - intros Hi. specialize (IH i Hi). lia.
Qed.

Lemma sumZ_ext {B} (f g : B → Z) (l : list B) :
  (∀ i x, l !! i = Some x → f x = g x) → sumZ f l = sumZ g l.
Proof.
  induction l as [|z l IH]; simpl; [done|]. intros H. rewrite (H 0%nat z eq_refl), IH; [done|].
  intros i x Hi. by apply (H (S i)).
Qed.

Lemma sumZ_bound {B} (f : B → Z) (l : list B) b :
  (∀ i x, l !! i = Some x → 0 <= f x <= b) → 0 <= sumZ f l <= Z.of_nat (length l) * b.
Proof.
  induction l as [|z l IH]; simpl; [lia|]. intros H. assert (Hz := H 0%nat z eq_refl).
  destruct IH; [|lia]. intros i x Hi. by apply (H (S i)).
Qed.

Lemma sum_list_insert {B} (w : B → nat) (l : list B) i x y :
  l !! i = Some x →
  (sum_list_with w (<[i := y]> l) + w x = sum_list_with w l + w y)%nat.
Proof.
  revert i. induction l as [|z l IH]; intros [|i]; try done; simpl.
  - intros [= ->]. lia.
  - intros Hi. specialize (IH i Hi). lia.
Qed.

(** [count P l]: how many elements satisfy [P]. *)
Definition count {A} (P : A → Prop) `{∀ x, Decision (P x)} (l : list A) : Z :=
  Z.of_nat (length (filter P l)).

Section count.
Context {A : Type} (P : A → Prop) `{∀ x, Decision (P x)}.

Lemma count_nonneg l : 0 <= count P l.
Proof. unfold count. lia. Qed.

Lemma count_cons x l : count P (x :: l) = (if decide (P x) then 1 else 0) + count P l.
Proof. unfold count. rewrite filter_cons. destruct (decide (P x)); cbn [length]; lia. Qed.

Lemma count_repeat x n : count P (repeat x n) = (if decide (P x) then Z.of_nat n else 0).
Proof.
  induction n as [|n IH]; simpl repeat; [by destruct (decide (P x))|].
  rewrite count_cons, IH. destruct (decide (P x)); lia.
Qed.

Lemma count_insert l i x y :
  l !! i = Some x →
  count P (<[i := y]> l) =
    count P l - (if decide (P x) then 1 else 0) + (if decide (P y) then 1 else 0).
Proof.
  revert i. induction l as [|z l IH]; intros [|i] Hi; try done.
  - injection Hi as ->. change (<[0%nat:=y]> (x :: l)) with (y :: l). rewrite !count_cons. lia.
  - change (<[S i:=y]> (z :: l)) with (z :: <[i:=y]> l). rewrite !count_cons, (IH i Hi). lia.
Qed.

Lemma count_full l : (∀ i x, l !! i = Some x → P x) → count P l = Z.of_nat (length l).
Proof.
  induction l as [|z l IH]; intros Hl; [done|]. rewrite count_cons, decide_True by (by apply (Hl 0%nat)).
  rewrite IH by (intros i x Hi; by apply (Hl (S i))). simpl length. lia.
Qed.

Lemma count_none l : (∀ i x, l !! i = Some x → ¬ P x) → count P l = 0.
Proof.
  induction l as [|z l IH]; intros Hl; [done|]. rewrite count_cons, decide_False by (by apply (Hl 0%nat)).
  rewrite IH by (intros i x Hi; by apply (Hl (S i))). done.
Qed.

Lemma count_pos l : 0 < count P l → ∃ i x, l !! i = Some x ∧ P x.
Proof.
  induction l as [|z l IH]; [done|]. rewrite count_cons. intros Hc.
  destruct (decide (P z)); [by exists 0%nat, z|].
  destruct IH as (i & x & Hi & Hx); [lia|]. by exists (S i), x.
Qed.

Lemma count_zero l i x : count P l = 0 → l !! i = Some x → ¬ P x.
Proof.
  revert i. induction l as [|z l IH]; intros i Hc Hi; [done|].
  rewrite count_cons in Hc. pose proof (count_nonneg l). destruct i as [|i].
  - injection Hi as ->. destruct (decide (P x)); [lia|done].
  - apply (IH i); [destruct (decide (P z)); lia|done].
Qed.
End count.

(** * Rings *)

(** The [n] elements of a ring of size [N] from index [b] on, [f] giving the
    element at an index. *)
Definition ringl {A} (N : Z) (f : Z → A) (b n : Z) : list A :=
  map (λ i, f ((b + i) mod N)) (seqZ 0 n).

Section ring.
Context {A : Type} (N : Z) (HN : 0 < N).
Implicit Types (f g : Z → A) (b n : Z).

Lemma ringl_len f b n : length (ringl N f b n) = Z.to_nat n.
Proof. unfold ringl. by rewrite length_map, length_seqZ. Qed.

Lemma ringl_ext f g b n :
  (∀ i, 0 <= i < n → f ((b + i) mod N) = g ((b + i) mod N)) → ringl N f b n = ringl N g b n.
Proof using.
  intros H. unfold ringl. apply map_ext_in. intros i Hi.
  apply list_elem_of_In, elem_of_seqZ in Hi. apply H. lia.
Qed.

Lemma ringl_snoc f b n :
  0 <= n → ringl N f b (n + 1) = ringl N f b n ++ [f ((b + n) mod N)].
Proof using.
  intros Hn. unfold ringl. rewrite seqZ_app, map_app by lia. simpl.
  by replace (seqZ (0 + n) 1) with [n].
Qed.

Lemma ringl_cons f b n :
  0 <= b < N → 0 < n → ringl N f b n = f b :: ringl N f ((b + 1) mod N) (n - 1).
Proof.
  intros Hb Hn. unfold ringl. rewrite (seqZ_cons 0 n) by lia. cbn [map]. f_equal.
  - by rewrite Z.add_0_r, Z.mod_small.
  - replace (seqZ (Z.succ 0) (Z.pred n)) with (map (Z.add 1) (seqZ 0 (n - 1)))
      by (rewrite <-(fmap_add_seqZ 1 0); by replace (Z.pred n) with (n - 1) by lia).
    rewrite map_map. apply map_ext. intros i. f_equal.
    rewrite Z.add_mod_idemp_l by lia. f_equal. lia.
Qed.

Lemma ring_apart b n i : 0 <= i < n → n < N → (b + i) mod N ≠ (b + n) mod N.
Proof using HN.
  intros Hi Hn Heq. 
  assert (H1 := Z.div_mod (b + i) N ltac:(lia)). assert (H2 := Z.div_mod (b + n) N ltac:(lia)).
  rewrite Heq in H1. revert H1 H2. generalize ((b + i) / N), ((b + n) / N), ((b + n) mod N).
  clear Heq. intros q1 q2 r H1 H2. assert (Hq : n - i = N * (q2 - q1)) by lia.
  clear H1 H2. destruct (Z.le_gt_cases (q2 - q1) 0); nia.
Qed.
End ring.

(** * Machines: executions of a step function *)

(** A machine makes a step on an event, or not: several threads are a machine
    whose events say which of them goes on. *)
Section machine.
Context {E S : Type} (step : E → S → option S).

Fixpoint run (es : list E) (s : S) : option S :=
  match es with
  | [] => Some s
  | e :: es' => s' ← step e s; run es' s'
  end.

Definition reachable (s0 s : S) : Prop := ∃ es, run es s0 = Some s.

Lemma run_app es1 es2 s : run (es1 ++ es2) s = run es1 s ≫= run es2.
Proof.
  revert s. induction es1 as [|e es1 IH]; intros s; simpl; [done|].
  destruct (step e s); [|done]. apply IH.
Qed.

(** A measure that every step lowers bounds the length of every run. *)
Lemma run_bound (I : S → Prop) (m : S → nat) es s s' :
  I s → (∀ e s1 s2, I s1 → step e s1 = Some s2 → I s2 ∧ (m s2 < m s1)%nat) →
  run es s = Some s' → I s' ∧ (length es + m s' ≤ m s)%nat.
Proof.
  intros H0 Hstep. revert s H0. induction es as [|e es IH]; intros s H0; simpl.
  - by intros [= <-].
  - destruct (step e s) as [s1|] eqn:Hs; [|done]. simpl. intros Hr.
    destruct (Hstep e s s1 H0 Hs) as [H1 Hlt]. destruct (IH s1 H1 Hr). split; [done|lia].
Qed.

Lemma run_inv (I : S → Prop) es s0 s :
  I s0 → (∀ e s s', I s → step e s = Some s' → I s') → run es s0 = Some s → I s.
Proof.
  intros H0 Hstep. revert s0 H0. induction es as [|e es IH]; intros s0 H0; simpl.
  - by intros [= <-].
  - destruct (step e s0) as [s1|] eqn:Hs; [|done]. simpl. apply IH. by eapply Hstep.
Qed.

Lemma reachable_inv (I : S → Prop) s0 s :
  I s0 → (∀ e s s', I s → step e s = Some s' → I s') → reachable s0 s → I s.
Proof. intros H0 Hstep [es Hes]. by eapply run_inv. Qed.

Lemma reachable_step s0 s s' e : reachable s0 s → step e s = Some s' → reachable s0 s'.
Proof. intros [es Hes] Hs. exists (es ++ [e]). rewrite run_app, Hes. simpl. by rewrite Hs. Qed.
End machine.
