(* ===== verification/Net.v ===== *)
(** Machine integers, byte order, the constants of the system headers the
    programs use, and socket address structures.

    The configuration is the one committed in [config.h]
    (x86_64-unknown-linux-gnu): little-endian, LP64, [IPV6] and [UNIXdomain]
    defined, no [sa_len] member and no [sockaddr_dl]. *)

From S2P Require Import Prelude.

(** * Fixed-width integers *)

Definition u8 (x : Z) : Z := x mod 2 ^ 8.
Definition u16 (x : Z) : Z := x mod 2 ^ 16.
Definition u32 (x : Z) : Z := x mod 2 ^ 32.
Definition u64 (x : Z) : Z := x mod 2 ^ 64.
Definition s32 (x : Z) : Z := (x + 2 ^ 31) mod 2 ^ 32 - 2 ^ 31.

Definition s64 (x : Z) : Z := (x + 2 ^ 63) mod 2 ^ 64 - 2 ^ 63.

Definition is_u16 (x : Z) : Prop := 0 <= x < 2 ^ 16.
Definition is_u32 (x : Z) : Prop := 0 <= x < 2 ^ 32.

(** [htons]/[ntohs] and [htonl]/[ntohl] of a little-endian host. *)
Definition swap16 (x : Z) : Z := (x mod 256) * 256 + (x / 256) mod 256.
Definition htons (x : Z) : Z := swap16 (u16 x).
Definition ntohs (x : Z) : Z := swap16 (u16 x).
Definition swap32 (x : Z) : Z :=
  (x mod 256) * 2 ^ 24 + ((x / 2 ^ 8) mod 256) * 2 ^ 16
  + ((x / 2 ^ 16) mod 256) * 2 ^ 8 + (x / 2 ^ 24) mod 256.
Definition htonl (x : Z) : Z := swap32 (u32 x).
Definition ntohl (x : Z) : Z := swap32 (u32 x).

(** The bytes of a big-endian 16- or 32-bit field, and back. *)
Definition be16 (x : Z) : list Z := [(x / 256) mod 256; x mod 256].
Definition be32 (x : Z) : list Z :=
  [(x / 2 ^ 24) mod 256; (x / 2 ^ 16) mod 256; (x / 2 ^ 8) mod 256; x mod 256].
Definition of_be (l : list Z) : Z := foldl (λ a b, a * 256 + b) 0 l.

(** * Constants *)

Definition AF_UNSPEC : Z := 0.
Definition AF_UNIX : Z := 1.
Definition AF_LOCAL : Z := 1.
Definition AF_INET : Z := 2.
Definition AF_INET6 : Z := 10.
Definition SOCK_STREAM : Z := 1.
Definition SOCK_DGRAM : Z := 2.
Definition SOCK_RAW : Z := 3.
Definition IPPROTO_IP : Z := 0.
Definition IPPROTO_ICMP : Z := 1.
Definition IPPROTO_UDP : Z := 17.
Definition IPPROTO_IPV6 : Z := 41.
Definition IPPROTO_ICMPV6 : Z := 58.
Definition SOL_SOCKET : Z := 1.
Definition SO_REUSEADDR : Z := 2.
Definition SO_ERROR : Z := 4.
Definition SHUT_WR : Z := 1.
Definition F_GETFL : Z := 3.
Definition F_SETFL : Z := 4.
Definition O_NONBLOCK : Z := 2048.

Definition EINTR : Z := 4.
Definition ENXIO : Z := 6.
Definition EWOULDBLOCK : Z := 11.
Definition EINVAL : Z := 22.
Definition ENOSPC : Z := 28.
Definition EPROTO : Z := 71.
Definition EMSGSIZE : Z := 90.
Definition EAFNOSUPPORT : Z := 97.
Definition ECONNABORTED : Z := 103.
Definition ECONNRESET : Z := 104.
Definition ETIMEDOUT : Z := 110.
Definition ECONNREFUSED : Z := 111.
Definition EHOSTUNREACH : Z := 113.
Definition EINPROGRESS : Z := 115.

Definition STDIN_FILENO : Z := 0.
Definition STDOUT_FILENO : Z := 1.
Definition STDERR_FILENO : Z := 2.
Definition FD_SETSIZE : Z := 1024.
Definition SIGALRM : Z := 14.
Definition SIGHUP : Z := 1.
Definition SIGPIPE : Z := 13.
Definition SIGCHLD : Z := 17.
Definition SIGIO : Z := 29.

(** [unp.h] *)
Definition MAXLINE : Z := 4096.
Definition LISTENQ : Z := 1024.
Definition SERV_PORT : Z := 9877.
Definition INET_ADDRSTRLEN : Z := 16.
Definition INET6_ADDRSTRLEN : Z := 46.

(** * Socket addresses *)

(** A [struct sockaddr], tagged by [sa_family].  Ports are the values of the
    16-bit members, in network byte order; addresses are their bytes in
    memory order; [sun_path] is the pathname before its NUL. *)
Inductive sockaddr :=
  | SaIn (sin_port : Z) (sin_addr : list Z)
  | SaIn6 (sin6_port : Z) (sin6_addr : list Z)
  | SaUn (sun_path : list Z)
  | SaOther (family : Z).

Definition sa_family (sa : sockaddr) : Z :=
  match sa with
  | SaIn _ _ => AF_INET
  | SaIn6 _ _ => AF_INET6
  | SaUn _ => AF_UNIX
  | SaOther f => f
  end.

#[global] Instance sockaddr_eq_dec : EqDecision sockaddr.
Proof. solve_decision. Defined.

(** The tag of [SaOther] is none of the families with a constructor, and the
    members have their widths. *)
Definition sockaddr_wf (sa : sockaddr) : Prop :=
  match sa with
  | SaIn p a => is_u16 p ∧ bytes a ∧ length a = 4%nat
  | SaIn6 p a => is_u16 p ∧ bytes a ∧ length a = 16%nat
  | SaUn path => bytes path ∧ Forall (λ c, c ≠ 0) path ∧ (length path < 108)%nat
  | SaOther f => f ≠ AF_INET ∧ f ≠ AF_INET6 ∧ f ≠ AF_UNIX
  end.

Definition INADDR_ANY : list Z := [0; 0; 0; 0].
Definition in6addr_any : list Z := repeat 0 16.

(** * Byte-order lemmas *)

Lemma swap16_range x : is_u16 (swap16 x).
Proof.
  unfold is_u16, swap16. pose proof (Z.mod_pos_bound x 256).
  pose proof (Z.mod_pos_bound (x / 256) 256). lia.
Qed.

Lemma swap16_involutive x : is_u16 x → swap16 (swap16 x) = x.
Proof.
  intros [H0 H1]. unfold swap16.
  assert (Hd : 0 <= x / 256 < 256).
  { split; [apply Z.div_pos; lia|apply Z.div_lt_upper_bound; lia]. }
  rewrite (Z.mod_small (x / 256)) by lia.
  pose proof (Z.mod_pos_bound x 256).
  replace ((x mod 256 * 256 + x / 256) / 256) with (x mod 256).
  - replace ((x mod 256 * 256 + x / 256) mod 256) with (x / 256).
    + rewrite Z.mod_mod by lia. pose proof (Z.div_mod x 256). lia.
    + rewrite Z.add_comm, Z.mod_add by lia. rewrite Z.mod_small; lia.
  - rewrite Z.add_comm, Z.div_add by lia. rewrite Z.div_small; lia.
Qed.

Lemma u16_id x : is_u16 x → u16 x = x.
Proof. intros H. unfold u16. apply Z.mod_small. exact H. Qed.

Lemma u16_range x : is_u16 (u16 x).
Proof. unfold is_u16, u16. apply Z.mod_pos_bound. lia. Qed.

Lemma htons_range x : is_u16 (htons x).
Proof. apply swap16_range. Qed.

Lemma ntohs_range x : is_u16 (ntohs x).
Proof. apply swap16_range. Qed.

Lemma ntohs_htons x : ntohs (htons x) = u16 x.
Proof.
  unfold ntohs, htons. rewrite u16_id by apply swap16_range.
  apply swap16_involutive, u16_range.
Qed.

Lemma htons_ntohs x : is_u16 x → htons (ntohs x) = x.
Proof.
  intros H. unfold ntohs, htons. rewrite (u16_id x) by done.
  rewrite u16_id by apply swap16_range. by apply swap16_involutive.
Qed.

Lemma htons_inj x y : is_u16 x → is_u16 y → htons x = htons y → x = y.
Proof.
  intros Hx Hy Heq. apply (f_equal ntohs) in Heq.
  rewrite !ntohs_htons, !u16_id in Heq by done. done.
Qed.

Lemma s32_small x : - 2 ^ 31 <= x < 2 ^ 31 → s32 x = x.
Proof. intros H. unfold s32. rewrite Z.mod_small; lia. Qed.

#[export] Hint Resolve u16_range htons_range ntohs_range swap16_range : unp.
