(* ===== verification/Sys.v ===== *)
(** The system interface: the calls the programs make, the kernel that
    answers them, and the monad in which the programs run.

    The kernel and the C library are not part of the modelled sources, so they
    are a parameter: a [kernel] answers each call as an arbitrary function of
    the calls made so far, so that quantifying over kernels covers every
    behaviour of the environment.  A program is a function of the kernel and
    of the process state (the calls made so far, [errno], and the [daemon_proc]
    flag of [error.c]); it returns, exits, or runs out of the fuel given to
    its loops. *)

From S2P Require Import Prelude Net.

(** * Calls and their answers *)

(** A fallible call gives a value, or fails and sets [errno]. *)
Inductive res (A : Type) :=
  | ROk (a : A)
  | RErr (e : Z).
Arguments ROk {_} _.
Arguments RErr {_} _.

(** [struct addrinfo]; a successful [getaddrinfo] answers the first structure
    of the list and the others. *)
Record addrinfo := Addrinfo {
  ai_flags : Z;
  ai_family : Z;
  ai_socktype : Z;
  ai_protocol : Z;
  ai_addr : sockaddr;
  ai_canonname : option (list Z)
}.

(** The part of [hints] that the callers of [getaddrinfo] fill in. *)
Record gai_hints := GaiHints {
  h_flags : Z;
  h_family : Z;
  h_socktype : Z;
  h_protocol : Z
}.

(** One control message carrying a descriptor. *)
Record cmsg := Cmsg { cmsg_len : Z; cmsg_level : Z; cmsg_type : Z; cmsg_fd : Z }.

Inductive handler := SIG_DFL | SIG_IGN | Handler (name : string).

(** Operations on signal sets, which are named by their address. *)
Inductive sigset_op :=
  | So_add (set signo : Z)
  | So_del (set signo : Z)
  | So_empty (set : Z)
  | So_fill (set : Z)
  | So_ismember (set signo : Z)
  | So_pending (set : Z)
  | So_procmask (how set oset : Z).

(** The pthread functions, which return an error number; objects are named by
    their address. *)
Inductive pthread_op :=
  | Pt_create (attr : Z) (func : string) (arg : Z)
  | Pt_join (tid : Z)
  | Pt_detach (tid : Z)
  | Pt_kill (tid signo : Z)
  | Pt_mutexattr_init (attr : Z)
  | Pt_mutexattr_setpshared (attr flag : Z)
  | Pt_mutex_init (m attr : Z)
  | Pt_mutex_lock (m : Z)
  | Pt_mutex_unlock (m : Z)
  | Pt_cond_broadcast (c : Z)
  | Pt_cond_signal (c : Z)
  | Pt_cond_wait (c m : Z)
  | Pt_cond_timedwait (c m : Z) (abstime : Z * Z)
  | Pt_once (once : Z) (func : string)
  | Pt_key_create (key : Z) (func : string)
  | Pt_setspecific (key value : Z).

(** The routing-header functions of RFC 3542, on buffers named by address. *)
Inductive rth_op :=
  | Rth_space (type segments : Z)
  | Rth_init (buf len type segments : Z)
  | Rth_add (buf : Z) (addr : list Z)
  | Rth_reverse (from to : Z)
  | Rth_segments (buf : Z)
  | Rth_getaddr (buf idx : Z).

(** The functions of libpcap. *)
Inductive pcap_op :=
  | Pc_lookupdev
  | Pc_open_live (device : list Z) (snaplen promisc to_ms : Z)
  | Pc_lookupnet (device : list Z)
  | Pc_compile (pd : Z) (text : list Z) (optimize : Z) (netmask : list Z)
  | Pc_setfilter (pd : Z)
  | Pc_datalink (pd : Z)
  | Pc_next (pd : Z)
  | Pc_stats (pd : Z)
  | Pc_geterr (pd : Z).

Inductive call :=
  | Cread (fd n : Z)
  | Cwrite (fd : Z) (data : list Z)
  | Crecvfrom (fd n : Z)
  | Csendto (fd : Z) (data : list Z) (sa : sockaddr)
  | Crecvmsg (fd n : Z)
  | Csendmsg (fd : Z) (data : list Z) (dest : option sockaddr) (ctl : option cmsg)
  | Caccept (fd : Z)
  | Cclose (fd : Z)
  | Csocket (family type protocol : Z)
  | Cbind (fd : Z) (sa : sockaddr)
  | Cconnect (fd : Z) (sa : sockaddr)
  | Clisten (fd backlog : Z)
  | Cgetsockname (fd : Z)
  | Cgetsockopt (fd level opt : Z)
  | Csetsockopt (fd level opt : Z) (val : list Z)
  | Cfcntl (fd cmd arg : Z)
  | Cioctl (fd request arg : Z)
  | Cshutdown (fd how : Z)
  | Cselect (nfds : Z) (rset wset : gset Z) (timeout : option (Z * Z))
  | Cpoll (fds : list (Z * Z)) (timeout : Z)
  | Calarm (sec : Z)
  | Csigaction (signo flags : Z) (act : handler)
  | Cgettimeofday
  | Cgetaddrinfo (host serv : option (list Z)) (hints : gai_hints)
  | Cgai_strerror (n : Z)
  | Cfreeaddrinfo
  | Cstrerror (e : Z)
  | Cfputs (fd : Z) (text : list Z)
  | Cfgets (n : Z)
  | Cfflush (fd : Z)
  | Csyslog (level : Z) (text : list Z)
  | Cgetenv (name : list Z)
  | Cmalloc (size : Z)
  | Ccalloc (n size : Z)
  | Cstrdup (text : list Z)
  | Cdup2 (fd1 fd2 : Z)
  | Cmkstemp (template : list Z)
  | Cmmap (addr len prot flags fd offset : Z)
  | Cpipe
  | Csysconf (name : Z)
  | Csysctl (name : list Z) (oldlen : Z) (new : list Z)
  | Cwait
  | Cwaitpid (pid options : Z)
  | Csigset (op : sigset_op)
  | Cpthread (op : pthread_op)
  | Crth (op : rth_op)
  | Cgetpeername (fd : Z)
  | Crecv (fd n flags : Z)
  | Csend (fd : Z) (data : list Z) (flags : Z)
  | Csockatmark (fd : Z)
  | Csocketpair (family type protocol : Z)
  | Csetsockopt_group (fd level opt ifindex : Z) (addrs : list sockaddr)
  | Cif_indextoname (index : Z)
  | Csiocgifaddr (fd : Z) (name : list Z)
  | Cctime (t : Z)
  | Csleep (sec : Z)
  | Csetitimer (usec : Z)
  | Ctime
  | Cgetpid
  | Cfclose (fp : Z)
  | Cfdopen (fd : Z) (type : list Z)
  | Cfopen (filename mode : list Z)
  | Cgethostbyname (host : list Z) (family : Z)
  | Cgethostbyaddr (addr : list Z) (family : Z)
  | Cgetservbyname (serv proto : list Z)
  | Cgetservbyport (port : Z) (proto : option (list Z))
  | Cuname
  | Cunlink (path : list Z)
  | Cif_nametoindex (name : list Z)
  | Cfork
  | Csetsid
  | Cchdir (path : list Z)
  | Copen (path : list Z) (flags mode : Z)
  | Copenlog (ident : list Z) (option facility : Z)
  | Ckill (pid signo : Z)
  | Cgetppid
  | Cpause
  | Csigsuspend (set : Z)
  | Cdeliver (signo : Z)
  | Clock (fd cmd type : Z)
  | Cexec (path : list Z) (argv : list (list Z))
  | Cgetrusage (who : Z)
  | Cpthread_self
  | Cfree (p : Z)
  | Cgetuid
  | Csetuid (uid : Z)
  | Crecvmsg_ctl (fd n : Z)
  | Cgetnameinfo (sa : sockaddr) (hostlen servlen flags : Z)
  | Cpselect (nfds : Z) (rset wset : gset Z) (timeout : option (Z * Z)) (mask : Z)
  | Crecvmsg_flags (fd n flags : Z)
  | Cioctl_mem (fd request : Z) (arg : list Z) (len : Z)
  | Ctmpnam
  | Cselect_x (nfds : Z) (rset xset : gset Z)
  | Cgetsockopt_mem (fd level opt len : Z)
  | Cpcap (op : pcap_op).

(** [struct hostent] and [struct servent], as far as the sources read them. *)
Record hostent := Hostent {
  h_name : option (list Z);
  h_addrtype : Z;
  h_addr_list : list (list Z);
  h_aliases : list (list Z)
}.
Record servent := Servent { s_name : option (list Z); s_port : Z }.

(** An error text or the result; a captured packet; the counts of packets. *)
Definition pcap_ans (op : pcap_op) : Type :=
  match op with
  | Pc_lookupdev => list Z + list Z
  | Pc_open_live _ _ _ _ => list Z + Z
  | Pc_lookupnet _ => list Z + (list Z * list Z)
  | Pc_compile _ _ _ _ | Pc_setfilter _ | Pc_datalink _ => Z
  | Pc_next _ => option (list Z)
  | Pc_stats _ => option (Z * Z)
  | Pc_geterr _ => list Z
  end%type.

Definition ans (c : call) : Type :=
  match c with
  | Cread _ _ => res (list Z)
  | Cwrite _ _ | Csendto _ _ _ | Csendmsg _ _ _ _ => res Z
  | Crecvfrom _ _ => res (list Z * sockaddr)
  | Crecvmsg _ _ => res (list Z * option cmsg)
  | Caccept _ => res (Z * sockaddr)
  | Csocket _ _ _ => res Z
  | Cclose _ | Cbind _ _ | Cconnect _ _ | Clisten _ _ => res unit
  | Csetsockopt _ _ _ _ | Cshutdown _ _ | Cunlink _ => res unit
  | Cgetsockname _ => res sockaddr
  | Cgetsockopt _ _ _ | Cfcntl _ _ _ | Cioctl _ _ _ => res Z
  | Cselect _ _ _ _ => res (Z * gset Z * gset Z)
  | Cpoll _ _ => res (Z * list Z)
  | Calarm _ => Z
  | Csigaction _ _ _ => res handler
  | Cgettimeofday => res (Z * Z)
  | Cgetaddrinfo _ _ _ => Z + addrinfo * list addrinfo
  | Cgai_strerror _ | Cstrerror _ => list Z
  | Cfputs _ _ => bool
  | Cfgets _ => res (option (list Z))
  | Cfreeaddrinfo | Cfflush _ | Csyslog _ _ | Copenlog _ _ _ => unit
  | Cgetenv _ => option (list Z)
  | Cmalloc _ | Ccalloc _ _ | Cstrdup _ | Cmmap _ _ _ _ _ _ => res Z
  | Cmkstemp _ => res (Z * list Z)
  | Cdup2 _ _ | Csysconf _ | Csysctl _ _ _ | Csockatmark _ | Csigset _ => res Z
  | Cpipe | Csocketpair _ _ _ => res (Z * Z)
  | Cwait | Cwaitpid _ _ => res (Z * Z)
  | Cpthread _ | Crth _ => Z
  | Cgetpeername _ => res sockaddr
  | Crecv _ _ _ => res (list Z)
  | Csend _ _ _ => res Z
  | Csetsockopt_group _ _ _ _ _ => res unit
  | Cif_indextoname _ => option (list Z)
  | Csiocgifaddr _ _ => res sockaddr
  | Cctime _ => list Z
  | Csleep _ | Ctime | Cgetpid => Z
  | Csetitimer _ => res unit
  | Cfclose _ => bool
  | Cfdopen _ _ | Cfopen _ _ => res Z
  | Cgethostbyname _ _ => Z + hostent
  | Cgethostbyaddr _ _ => option hostent
  | Cgetservbyname _ _ | Cgetservbyport _ _ => option servent
  | Cuname => res (list Z)
  | Cif_nametoindex _ => Z
  | Cfork | Csetsid | Copen _ _ _ => res Z
  | Cchdir _ | Ckill _ _ | Clock _ _ _ | Cexec _ _ => res unit
  | Cgetppid | Csigsuspend _ | Cpthread_self => Z
  | Cgetrusage _ => res ((Z * Z) * (Z * Z))
  | Cpause | Cfree _ => unit
  | Cgetuid => Z
  | Csetuid _ => res unit
  | Crecvmsg_ctl _ _ => res (list Z * sockaddr * list (Z * Z * Z))
  | Cgetnameinfo _ _ _ _ => option (list Z * list Z)
  | Cpselect _ _ _ _ _ => res (Z * gset Z * gset Z)
  | Crecvmsg_flags _ _ _ => res (list Z * sockaddr * Z * list (Z * Z * Z))
  | Cioctl_mem _ _ _ _ => res (list Z)
  | Ctmpnam => list Z
  | Cselect_x _ _ _ => res (Z * gset Z * gset Z)
  | Cgetsockopt_mem _ _ _ _ => res (list Z)
  | Cpcap op => pcap_ans op
  | Cdeliver _ => nat
  end%type.

(** [Crecvmsg_ctl] is [recvmsg] with a name and a control buffer: it answers the
    data, the source, and the level, type and integer value of each ancillary
    object.  [getnameinfo] answers the host and the service, or nothing.
    [Cpselect] names its signal set by its address.  [Crecvmsg_flags] answers also
    [msg_flags], and the length, level and type of each ancillary object.
    [Cioctl_mem] is [ioctl] on an object of memory: it is given the bytes of the
    object and the room there is, and answers the bytes stored.  [Cselect_x] is
    [select] with a set for exceptional conditions in place of the one for writing.
    [Cgetsockopt_mem] is [getsockopt] of an option of variable length: it answers the
    bytes stored, at most [len].

    Two of the calls concern the delivery of signals, which happens at a point
    of the program and not at its request: [Cdeliver signo] stands at a point
    where [signo] is not blocked and answers how often its handler runs there,
    and [Csigsuspend] answers the signal that ended the wait.

    A kernel: the calls made so far, the latest first, determine nothing; any
    function is allowed. *)
Definition kernel : Type := list call → ∀ c : call, ans c.

(** A kernel in which every fallible call fails, to build concrete kernels
    from. *)
Definition default_ans (c : call) : ans c.
Proof.
  destruct c; try match goal with op : pcap_op |- _ => destruct op end; cbn;
    first [ exact (RErr EINVAL) | exact tt | exact true | exact 0 | exact (@None _)
          | exact (inl 0) | exact (inl []) | exact [] | exact 0%nat ].
Defined.

(** * Process state and programs *)

Record world := World {
  w_calls : list call;
  w_errno : Z;
  w_daemon : bool
}.

Inductive outcome (A : Type) :=
  | Val (a : A)
  | Exit (status : Z)
  | Aborted
  | Diverge.
Arguments Val {_} _.
Arguments Exit {_} _.
Arguments Aborted {_}.
Arguments Diverge {_}.

Definition M (A : Type) : Type := kernel → world → outcome A * world.

#[global] Instance M_ret : MRet M := λ A a K w, (Val a, w).
#[global] Instance M_bind : MBind M := λ A B f m K w,
  match m K w with
  | (Val a, w') => f a K w'
  | (Exit c, w') => (Exit c, w')
  | (Aborted, w') => (Aborted, w')
  | (Diverge, w') => (Diverge, w')
  end.

Definition sys (c : call) : M (ans c) := λ K w,
  (Val (K (w_calls w) c), World (c :: w_calls w) (w_errno w) (w_daemon w)).
Definition get_errno : M Z := λ K w, (Val (w_errno w), w).
Definition set_errno (e : Z) : M unit := λ K w,
  (Val tt, World (w_calls w) e (w_daemon w)).
Definition get_daemon : M bool := λ K w, (Val (w_daemon w), w).
Definition set_daemon (b : bool) : M unit := λ K w,
  (Val tt, World (w_calls w) (w_errno w) b).
Definition exit {A} (status : Z) : M A := λ K w, (Exit status, w).
Definition abort {A} : M A := λ K w, (Aborted, w).
Definition diverge {A} : M A := λ K w, (Diverge, w).

(** A failing call stores its error in [errno]. *)
Definition checked {A} (m : M (res A)) : M (res A) :=
  r ← m;
  match r with
  | ROk _ => mret r
  | RErr e => set_errno e;; mret r
  end.

(** [for ( ; ; )] with the loop's variables as a state: the body goes round
    again with [inl], leaves the loop with [inr]. *)
Fixpoint iter {S R} (fuel : nat) (body : S → M (S + R)) (s : S) : M R :=
  match fuel with
  | O => diverge
  | Datatypes.S fuel' =>
      r ← body s;
      match r with
      | inl s' => iter fuel' body s'
      | inr x => mret x
      end
  end.

(** A loop over a list with early exit. *)
Fixpoint for_each {A S} (l : list A) (f : A → S → M S) (s : S) : M S :=
  match l with
  | [] => mret s
  | x :: l' => s' ← f x s; for_each l' f s'
  end.

(** * Weakest preconditions *)

Definition wp {A} (K : kernel) (m : M A) (w : world)
    (Q : outcome A → world → Prop) : Prop :=
  Q (m K w).1 (m K w).2.

(** Continue with [k] on a returned value, with [Q] on an exit. *)
Definition bind_post {A B} (k : A → world → Prop) (Q : outcome B → world → Prop)
    (o : outcome A) (w : world) : Prop :=
  match o with
  | Val a => k a w
  | Exit c => Q (Exit c) w
  | Aborted => Q Aborted w
  | Diverge => Q Diverge w
  end.

(** States of a loop reached after some number of complete rounds. *)
Inductive rounds {S R} (K : kernel) (body : S → M (S + R))
    : S → world → S → world → Prop :=
  | rounds_refl s w : rounds K body s w s w
  | rounds_step s w s1 w1 s2 w2 :
      rounds K body s w s1 w1 →
      body s1 K w1 = (Val (inl s2), w2) →
      rounds K body s w s2 w2.

Section wp.
Context (K : kernel).

Lemma wp_ret {A} (a : A) w Q : Q (Val a) w → wp K (mret a) w Q.
Proof. done. Qed.

Lemma wp_bind {A B} (m : M A) (f : A → M B) w Q :
  wp K m w (bind_post (λ a w', wp K (f a) w' Q) Q) → wp K (m ≫= f) w Q.
Proof.
  unfold wp, mbind, M_bind. destruct (m K w) as [[a|c| |] w']; simpl; done.
Qed.

Lemma wp_bind_inv {A B} (m : M A) (f : A → M B) w Q :
  wp K (m ≫= f) w Q → wp K m w (bind_post (λ a w', wp K (f a) w' Q) Q).
Proof.
  unfold wp, mbind, M_bind. destruct (m K w) as [[a|c| |] w']; simpl; done.
Qed.

(** Regroup a sequence, to run its first step. *)
Lemma wp_assoc {A B C} (m : M A) (f : A → M B) (g : B → M C) w Q :
  wp K (m ≫= λ a, f a ≫= g) w Q → wp K ((m ≫= f) ≫= g) w Q.
Proof. unfold wp, mbind, M_bind. by destruct (m K w) as [[] ?]. Qed.

Lemma wp_sys c w Q :
  Q (Val (K (w_calls w) c)) (World (c :: w_calls w) (w_errno w) (w_daemon w)) →
  wp K (sys c) w Q.
Proof. done. Qed.

Lemma wp_get_errno w Q : Q (Val (w_errno w)) w → wp K get_errno w Q.
Proof. done. Qed.

Lemma wp_set_errno e w Q :
  Q (Val tt) (World (w_calls w) e (w_daemon w)) → wp K (set_errno e) w Q.
Proof. done. Qed.

Lemma wp_get_daemon w Q : Q (Val (w_daemon w)) w → wp K get_daemon w Q.
Proof. done. Qed.

Lemma wp_set_daemon b w Q :
  Q (Val tt) (World (w_calls w) (w_errno w) b) → wp K (set_daemon b) w Q.
Proof. done. Qed.

Lemma wp_exit {A} c w (Q : outcome A → world → Prop) : Q (Exit c) w → wp K (exit c) w Q.
Proof. done. Qed.

Lemma wp_abort {A} w (Q : outcome A → world → Prop) : Q Aborted w → wp K abort w Q.
Proof. done. Qed.

Lemma wp_diverge {A} w (Q : outcome A → world → Prop) : Q Diverge w → wp K diverge w Q.
Proof. done. Qed.

Lemma wp_mono {A} (m : M A) w (Q Q' : outcome A → world → Prop) :
  wp K m w Q → (∀ o w', Q o w' → Q' o w') → wp K m w Q'.
Proof. unfold wp. eauto. Qed.

Lemma wp_iff {A} (m : M A) w (Q : outcome A → world → Prop) o w' :
  m K w = (o, w') → wp K m w Q ↔ Q o w'.
Proof. unfold wp. by intros ->. Qed.

Lemma wp_checked {A} (m : M (res A)) w Q :
  wp K m w (bind_post (λ r w', match r with
                        | ROk a => Q (Val (ROk a)) w'
                        | RErr e => Q (Val (RErr e)) (World (w_calls w') e (w_daemon w'))
                        end) Q) →
  wp K (checked m) w Q.
Proof.
  intros H. apply wp_bind. eapply wp_mono; [exact H|].
  intros [[a|e]|c| |] w'; simpl; done.
Qed.

(** Partial correctness of a loop. *)
Lemma wp_iter {S R} (I : S → world → Prop) (body : S → M (S + R)) fuel s w Q :
  I s w →
  (∀ s w, I s w → wp K (body s) w
     (bind_post (λ r w', match r with inl s' => I s' w' | inr x => Q (Val x) w' end) Q)) →
  (∀ s w, I s w → Q Diverge w) →
  wp K (iter fuel body s) w Q.
Proof.
  intros HI Hbody Hdiv. revert s w HI. induction fuel as [|fuel IH]; intros s w HI; simpl.
  - apply (Hdiv _ _ HI).
  - apply wp_bind. eapply wp_mono; [apply Hbody, HI|].
    intros [[s'|x]|c| |] w'; simpl; [apply IH|done..].
Qed.

(** Total correctness: a measure below the fuel decreases. *)
Lemma wp_iter_total {S R} (I : S → world → Prop) (μ : S → nat)
    (body : S → M (S + R)) fuel s w Q :
  I s w → (μ s < fuel)%nat →
  (∀ s w, I s w → wp K (body s) w
     (bind_post (λ r w', match r with
                   | inl s' => I s' w' ∧ (μ s' < μ s)%nat
                   | inr x => Q (Val x) w' end) Q)) →
  wp K (iter fuel body s) w Q.
Proof.
  intros HI Hμ Hbody. revert s w HI Hμ.
  induction fuel as [|fuel IH]; intros s w HI Hμ; [lia|simpl].
  apply wp_bind. eapply wp_mono; [apply Hbody, HI|].
  intros [[s'|x]|c| |] w'; simpl; [|done..].
  intros [HI' Hμ']. apply IH; [done|lia].
Qed.

(** Total correctness up to stuttering: every round decreases the measure
    unless [E] holds, so that running out of fuel means [E] or too little fuel. *)
Lemma wp_iter_stutter {S R} (E : Prop) (I : S → world → Prop) (μ : S → nat)
    (body : S → M (S + R)) fuel s w Q :
  I s w →
  (∀ s w, I s w → wp K (body s) w
     (bind_post (λ r w', match r with
                   | inl s' => I s' w' ∧ (E ∨ (μ s' < μ s)%nat)
                   | inr x => Q (Val x) w' end) Q)) →
  (∀ s' w', I s' w' → E ∨ (fuel <= μ s)%nat → Q Diverge w') →
  wp K (iter fuel body s) w Q.
Proof.
  intros HI Hbody. revert s w HI.
  induction fuel as [|fuel IH]; intros s w HI HD; simpl.
  - apply (HD _ _ HI). right. lia.
  - apply wp_bind. eapply wp_mono; [apply Hbody, HI|].
    intros [[s'|x]|c| |] w'; simpl; [|done..].
    intros [HI' Hμ]. apply IH; [done|]. intros s2 w2 HI2 HE. apply (HD _ _ HI2).
    destruct HE, Hμ; auto. right. lia.
Qed.

(** A loop whose invariant counts the complete rounds. *)
Lemma wp_iter_count {S R} (I : nat → S → world → Prop) (body : S → M (S + R)) fuel s w Q :
  I 0%nat s w →
  (∀ k s w, I k s w → wp K (body s) w
     (bind_post (λ r w', match r with
                   | inl s' => I (Datatypes.S k) s' w' | inr x => Q (Val x) w' end) Q)) →
  (∀ s w, I fuel s w → Q Diverge w) →
  wp K (iter fuel body s) w Q.
Proof.
  intros HI Hbody Hdiv.
  enough (H : ∀ n k s w, (n + k = fuel)%nat → I k s w → wp K (iter n body s) w Q).
  { apply (H fuel 0%nat); [lia|done]. }
  induction n as [|n IH]; intros k s1 w1 Hk HI1; simpl.
  - apply (Hdiv s1 w1). by replace fuel with k by lia.
  - apply wp_bind. eapply wp_mono; [apply Hbody, HI1|].
    intros [[s'|x]|c| |] w'; simpl; [|done..]. intros HI'. apply (IH (Datatypes.S k)); [lia|done].
Qed.

Lemma wp_for_each {A S} (I : list A → S → world → Prop) (f : A → S → M S) l s w Q :
  I l s w →
  (∀ x l' s w, I (x :: l') s w →
     wp K (f x s) w (bind_post (λ s' w', I l' s' w') Q)) →
  (∀ s w, I [] s w → Q (Val s) w) →
  wp K (for_each l f s) w Q.
Proof.
  intros HI Hf Hnil. revert s w HI. induction l as [|x l IH]; intros s w HI; simpl.
  - apply Hnil, HI.
  - apply wp_bind. eapply wp_mono; [apply Hf, HI|].
    intros [s'|c| |] w'; simpl; [apply IH|done..].
Qed.

(** An invariant of the rounds of a loop. *)
Lemma rounds_inv {S R} (I : S → world → Prop) (body : S → M (S + R)) s w s' w' :
  I s w →
  (∀ s w s1 w1, I s w → body s K w = (Val (inl s1), w1) → I s1 w1) →
  rounds K body s w s' w' → I s' w'.
Proof. intros HI Hstep. induction 1; eauto. Qed.

(** More fuel does not change an answer. *)
Lemma iter_fuel_mono {S R} (body : S → M (S + R)) f f' s w x w' :
  iter f body s K w = (Val x, w') → (f <= f')%nat →
  iter f' body s K w = (Val x, w').
Proof.
  revert f' s w. induction f as [|f IH]; intros f' s w; [done|].
  destruct f' as [|f']; [lia|]. simpl. unfold mbind, M_bind.
  destruct (body s K w) as [[[s'|y]|c| |] w1]; try done.
  intros H Hle. apply IH; [done|lia].
Qed.
End wp.

(** One round of a loop. *)
Lemma iter_step {S R} (K : kernel) (body : S → M (S + R)) fuel s w :
  iter (Datatypes.S fuel) body s K w =
    match body s K w with
    | (Val (inl s'), w') => iter fuel body s' K w'
    | (Val (inr x), w') => (Val x, w')
    | (Exit c, w') => (Exit c, w')
    | (Aborted, w') => (Aborted, w')
    | (Diverge, w') => (Diverge, w')
    end.
Proof.
  cbn [iter]. unfold mbind at 1, M_bind at 1.
  by destruct (body s K w) as [[[s'|x]|c| |] w'].
Qed.

(** Run one step of the program under a [wp]. *)
Ltac wp_step :=
  lazymatch goal with
  | |- wp _ (mret _) _ _ => apply wp_ret
  | |- wp _ (_ ≫= _) _ _ => apply wp_bind
  | |- wp ?K (sys ?c) ?w ?Q =>
      change (Q (Val (K (w_calls w) c)) (World (c :: w_calls w) (w_errno w) (w_daemon w)))
  | |- wp _ (checked _) _ _ => apply wp_checked
  | |- wp _ get_errno _ _ => apply wp_get_errno
  | |- wp _ (set_errno _) _ _ => apply wp_set_errno
  | |- wp _ get_daemon _ _ => apply wp_get_daemon
  | |- wp _ (set_daemon _) _ _ => apply wp_set_daemon
  | |- wp _ (exit _) _ _ => apply wp_exit
  | |- wp _ abort _ _ => apply wp_abort
  | |- wp _ diverge _ _ => apply wp_diverge
  end; cbn [bind_post fst snd w_calls w_errno w_daemon].

(** Case analysis on the condition the program tests next. *)
Ltac wp_if :=
  match goal with |- wp _ (if ?d then _ else _) _ _ => destruct d end.

(** * The calls that a program can make *)

(** Whatever the kernel answers, [m] makes only calls that satisfy [P]. *)
Definition emits {A} (P : call → Prop) (m : M A) : Prop :=
  ∀ K w, ∃ cs, w_calls (m K w).2 = cs ++ w_calls w ∧ Forall P cs.

Section emits.
Context (P : call → Prop).

Lemma emits_quiet {A} (m : M A) : (∀ K w, w_calls (m K w).2 = w_calls w) → emits P m.
Proof. intros H K w. exists []. by split. Qed.

Lemma emits_ret {A} (a : A) : emits P (mret a).
Proof. by apply emits_quiet. Qed.
Lemma emits_get_errno : emits P get_errno.
Proof. by apply emits_quiet. Qed.
Lemma emits_set_errno e : emits P (set_errno e).
Proof. by apply emits_quiet. Qed.
Lemma emits_get_daemon : emits P get_daemon.
Proof. by apply emits_quiet. Qed.
Lemma emits_exit {A} c : emits P (exit (A := A) c).
Proof. by apply emits_quiet. Qed.
Lemma emits_abort {A} : emits P (abort (A := A)).
Proof. by apply emits_quiet. Qed.
Lemma emits_diverge {A} : emits P (diverge (A := A)).
Proof. by apply emits_quiet. Qed.

Lemma emits_sys c : P c → emits P (sys c).
Proof. intros Hc K w. exists [c]. by repeat constructor. Qed.

Lemma emits_bind {A B} (m : M A) (f : A → M B) :
  emits P m → (∀ a, emits P (f a)) → emits P (m ≫= f).
Proof.
  intros Hm Hf K w. destruct (Hm K w) as (cs & Hw & Hcs). unfold mbind, M_bind.
  destruct (m K w) as [[a|c| |] w1]; simpl in *; [|by exists cs..].
  destruct (Hf a K w1) as (cs1 & Hw1 & Hcs1). exists (cs1 ++ cs).
  rewrite Hw1, Hw, app_assoc. split; [done|]. by apply Forall_app.
Qed.

Lemma emits_checked {A} (m : M (res A)) : emits P m → emits P (checked m).
Proof.
  intros Hm. apply emits_bind; [done|]. intros [a|e]; [apply emits_ret|].
  apply emits_bind; [apply emits_set_errno|]. intros []. apply emits_ret.
Qed.

Lemma emits_iter {S R} fuel (body : S → M (S + R)) s :
  (∀ s, emits P (body s)) → emits P (iter fuel body s).
Proof.
  intros Hb. revert s. induction fuel as [|fuel IH]; intros s; simpl; [apply emits_diverge|].
  apply emits_bind; [apply Hb|]. intros [s'|x]; [apply IH|apply emits_ret].
Qed.

Lemma emits_for_each {A S} (l : list A) (f : A → S → M S) s :
  (∀ x s, emits P (f x s)) → emits P (for_each l f s).
Proof.
  intros Hf. revert s. induction l as [|x l IH]; intros s; simpl; [apply emits_ret|].
  apply emits_bind; [apply Hf|]. intros s'. apply IH.
Qed.

Lemma emits_if {A} (b : bool) (m1 m2 : M A) :
  emits P m1 → emits P m2 → emits P (if b then m1 else m2).
Proof. by destruct b. Qed.

Lemma emits_decide {A} Q `{!Decision Q} (m1 m2 : M A) :
  emits P m1 → emits P m2 → emits P (if decide Q then m1 else m2).
Proof. intros H1 H2. by destruct (decide Q). Qed.
End emits.

Lemma emits_mono {A} (P Q : call → Prop) (m : M A) :
  emits P m → (∀ c, P c → Q c) → emits Q m.
Proof.
  intros Hm HPQ K w. destruct (Hm K w) as (cs & Hw & Hcs). exists cs. split; [done|].
  by eapply Forall_impl.
Qed.

(** What a program emits, as a step of another. *)
Lemma wp_emits {A} (K : kernel) (P : call → Prop) (m : M A) w (Q : outcome A → world → Prop) :
  emits P m →
  (∀ o cs w', Forall P cs → w_calls w' = cs ++ w_calls w → Q o w') →
  wp K m w Q.
Proof.
  intros Hm HQ. destruct (Hm K w) as (cs & Hw & Hcs). unfold wp. by apply (HQ _ cs).
Qed.

#[export] Hint Resolve emits_ret emits_get_errno emits_set_errno emits_get_daemon emits_exit
  emits_abort emits_diverge emits_sys emits_bind emits_checked emits_iter emits_for_each
  emits_if emits_decide : unp.

(** Walk through a program, leaving the calls that need an argument. *)
Ltac emits_step :=
  lazymatch goal with
  | |- emits _ (mret _) => apply emits_ret
  | |- emits _ (_ ≫= _) => apply emits_bind; [|intros ?]
  | |- emits _ (sys _) => apply emits_sys
  | |- emits _ (checked _) => apply emits_checked
  | |- emits _ get_errno => apply emits_get_errno
  | |- emits _ (set_errno _) => apply emits_set_errno
  | |- emits _ get_daemon => apply emits_get_daemon
  | |- emits _ (exit _) => apply emits_exit
  | |- emits _ abort => apply emits_abort
  | |- emits _ diverge => apply emits_diverge
  | |- emits _ (iter _ _ _) => apply emits_iter; intros ?
  | |- emits _ (for_each _ _ _) => apply emits_for_each; intros ? ?
  | |- emits _ (if decide _ then _ else _) => apply emits_decide
  | |- emits _ (match ?x with _ => _ end) => destruct x
  | |- emits _ (let '(_, _) := ?x in _) => destruct x
  end.
Ltac emits_tac := repeat (emits_step; cbn beta iota).
