(* ===== verification/InetPton.v ===== *)
(** [libfree/inet_pton.c]: presentation to network conversion of IPv4 and IPv6
    addresses.

    A source string is the list of its bytes before the NUL; the recursion on
    it is the [while ((ch = *src++) != '\0')] loop.  The output pointer [tp]
    is the end of the list of bytes stored so far, which grows at [*tp++]. *)

From S2P Require Import Prelude Net Sys.

(** * inet_pton4 *)

Definition IN6ADDRSZ : Z := 16.
Definition INADDRSZ : Z := 4.
Definition INT16SZ : Z := 2.

(** The locals of the loop; [p4_tmp] is [tmp] before [tp], [p4_cur] is [*tp]. *)
Record pton4 := Pton4 {
  p4_saw : bool;
  p4_octets : Z;
  p4_tmp : list Z;
  p4_cur : Z
}.

Definition pton4_step (st : pton4) (ch : Z) : option pton4 :=
  let '(Pton4 saw_digit octets tmp cur) := st in
  match strchr (str "0123456789") ch with
  | Some d =>
      let new := u32 (cur * 10 + d) in
      if decide (255 < new) then None
      else if saw_digit then Some (Pton4 true octets tmp (u8 new))
      else if decide (4 < octets + 1) then None
      else Some (Pton4 true (octets + 1) tmp (u8 new))
  | None =>
      if decide (ch = ch_dot ∧ saw_digit = true) then
        if decide (octets = 4) then None
        else Some (Pton4 false octets (tmp ++ [cur]) 0)
      else None
  end.

Fixpoint pton4_loop (src : list Z) (st : pton4) : option pton4 :=
  match src with
  | [] => Some st
  | ch :: src' => st' ← pton4_step st ch; pton4_loop src' st'
  end.

Definition inet_pton4 (src : list Z) : option (list Z) :=
  st ← pton4_loop src (Pton4 false 0 [] 0);
  if decide (p4_octets st < 4) then None else Some (p4_tmp st ++ [p4_cur st]).

(** * inet_pton6 *)

Definition xdigits_l : list Z := str "0123456789abcdef".
Definition xdigits_u : list Z := str "0123456789ABCDEF".

(** The locals of the loop; [p6_tmp] is [tmp] before [tp], [p6_colonp] an
    offset into it. *)
Record pton6 := Pton6 {
  p6_tmp : list Z;
  p6_colonp : option Z;
  p6_curtok : list Z;
  p6_saw : bool;
  p6_val : Z
}.

Definition tp (tmp : list Z) : Z := Z.of_nat (length tmp).

(** [*tp++ = (u_char) (val >> 8) & 0xff; *tp++ = (u_char) val & 0xff;] *)
Definition put16 (tmp : list Z) (val : Z) : list Z :=
  tmp ++ [Z.land (u8 (Z.shiftr val 8)) 255; Z.land (u8 val) 255].

Fixpoint pton6_loop (src : list Z) (st : pton6) : option pton6 :=
  let '(Pton6 tmp colonp curtok saw_xdigit val) := st in
  match src with
  | [] => Some st
  | ch :: src' =>
      match match strchr xdigits_l ch with
            | Some i => Some i
            | None => strchr xdigits_u ch
            end with
      | Some i =>
          let val := Z.lor (u32 (Z.shiftl val 4)) i in
          if decide (65535 < val) then None
          else pton6_loop src' (Pton6 tmp colonp curtok true val)
      | None =>
          if decide (ch = ch_colon) then
            if negb saw_xdigit then
              match colonp with
              | Some _ => None
              | None => pton6_loop src' (Pton6 tmp (Some (tp tmp)) src' saw_xdigit val)
              end
            else if decide (tp tmp + INT16SZ > IN6ADDRSZ) then None
            else pton6_loop src' (Pton6 (put16 tmp val) colonp src' false 0)
          else if decide (ch = ch_dot ∧ tp tmp + INADDRSZ <= IN6ADDRSZ) then
            match inet_pton4 curtok with
            | Some b => Some (Pton6 (tmp ++ b) colonp curtok false val)
            | None => None
            end
          else None
      end
  end.

(** [for (i = 1; i <= n; i++) { endp[- i] = colonp[n - i]; colonp[n - i] = 0; }]
    on the 16-byte array, [colonp] an index into it. *)
Fixpoint shift_run (k : nat) (i n colonp : Z) (a : list Z) : option (list Z) :=
  match k with
  | O => Some a
  | S k' =>
      x ← aget a (colonp + (n - i));
      let a := aset a (IN6ADDRSZ - i) x in
      let a := aset a (colonp + (n - i)) 0 in
      shift_run k' (i + 1) n colonp a
  end.

(** What follows the loop: the last group, the [::] and the final checks. *)
Definition pton6_finish (st : pton6) : option (list Z) :=
  let '(Pton6 tmp colonp _ saw_xdigit val) := st in
  tmp ← (if saw_xdigit then
           if decide (tp tmp + INT16SZ > IN6ADDRSZ) then None else Some (put16 tmp val)
         else Some tmp);
  match colonp with
  | Some colonp =>
      let n := tp tmp - colonp in
      shift_run (Z.to_nat n) 1 n colonp
        (tmp ++ repeat 0 (Z.to_nat (IN6ADDRSZ - tp tmp)))
  | None => if decide (tp tmp ≠ IN6ADDRSZ) then None else Some tmp
  end.

Definition inet_pton6 (src : list Z) : option (list Z) :=
  src ← match src with
        | c :: src' =>
            if decide (c = ch_colon) then
              match src' with
              | c' :: _ => if decide (c' = ch_colon) then Some src' else None
              | [] => None
              end
            else Some src
        | [] => Some src
        end;
  st ← pton6_loop src (Pton6 [] None src false 0);
  pton6_finish st.

(** * inet_pton *)

(** The C function's result: [1] with the bytes stored through [dst], [0], or
    [-1] with [errno] set; [dst] is untouched in the last two cases. *)
Inductive pton_result := Pton1 (dst : list Z) | Pton0 | PtonErr (errno : Z).

Definition of_pton (o : option (list Z)) : pton_result :=
  match o with Some b => Pton1 b | None => Pton0 end.

Definition inet_pton (af : Z) (src : list Z) : pton_result :=
  if decide (af = AF_INET) then of_pton (inet_pton4 src)
  else if decide (af = AF_INET6) then of_pton (inet_pton6 src)
  else PtonErr EAFNOSUPPORT.

(** * Specification of the accepted strings *)

Definition dec_val (f : list Z) : Z := base_val 10 (map (λ c, c - 48) f).

(** A field of a dotted quad: decimal digits of value at most 255. *)
Definition dec_field (f : list Z) (v : Z) : Prop :=
  f ≠ [] ∧ Forall is_digit f ∧ dec_val f = v ∧ v <= 255.

Definition hexval (c : Z) : Z :=
  if decide (c <= 57) then c - 48 else if decide (97 <= c) then c - 87 else c - 55.
Definition hex_val (f : list Z) : Z := base_val 16 (map hexval f).

(** A group of an IPv6 address: hexadecimal digits of value below 2^16. *)
Definition hex_field (f : list Z) (v : Z) : Prop :=
  f ≠ [] ∧ Forall is_xdigit f ∧ hex_val f = v ∧ v <= 65535.

#[global] Instance dec_field_dec f v : Decision (dec_field f v).
Proof. unfold dec_field. apply _. Defined.
#[global] Instance hex_field_dec f v : Decision (hex_field f v).
Proof. unfold hex_field. apply _. Defined.

(** * Lemmas on the scanners *)

#[local] Arguments pton4_step : simpl never.
#[local] Arguments strchr : simpl never.

Lemma strchr_digit c : is_digit c → strchr (str "0123456789") c = Some (c - 48).
Proof.
  unfold is_digit. intros Hc.
  change (str "0123456789") with [48; 49; 50; 51; 52; 53; 54; 55; 56; 57].
  cbv [strchr]. repeat case_decide; cbn; f_equal; lia.
Qed.

Lemma strchr_not_digit c : ¬ is_digit c → strchr (str "0123456789") c = None.
Proof.
  unfold is_digit. intros Hc.
  change (str "0123456789") with [48; 49; 50; 51; 52; 53; 54; 55; 56; 57].
  cbv [strchr]. repeat case_decide; cbn; first [done|lia].
Qed.

(** The value of a digit string read from [v]. *)
Definition dec_acc (v : Z) (f : list Z) : Z := foldl (λ a c, a * 10 + (c - 48)) v f.

Lemma dec_acc_0 f : dec_acc 0 f = dec_val f.
Proof.
  unfold dec_acc, dec_val, base_val. generalize 0. induction f as [|c f IH]; intros v; simpl; auto.
Qed.

Lemma dec_acc_mono f v : 0 <= v → Forall is_digit f → v <= dec_acc v f.
Proof.
  revert v. induction f as [|c f IH]; intros v Hv; simpl; [lia|].
  intros [Hc Hf]%Forall_cons. unfold is_digit in Hc.
  specialize (IH (v * 10 + (c - 48))). unfold dec_acc in *. simpl. etrans; [|apply IH]; [lia|lia|done].
Qed.

Lemma pton4_step_digit saw o t v c :
  0 <= v <= 255 → is_digit c → v * 10 + (c - 48) <= 255 → saw = true ∨ o < 4 →
  pton4_step (Pton4 saw o t v) c =
    Some (Pton4 true (if saw then o else o + 1) t (v * 10 + (c - 48))).
Proof.
  intros Hv Hc Hle Ho. unfold is_digit in Hc. unfold pton4_step.
  rewrite strchr_digit by done.
  unfold u32, u8. rewrite !Z.mod_small by lia.
  rewrite decide_False by lia. destruct saw; [done|].
  destruct Ho; [done|]. by rewrite decide_False by lia.
Qed.

Lemma pton4_step_digit_inv saw o t v c st :
  0 <= v <= 255 → is_digit c → pton4_step (Pton4 saw o t v) c = Some st →
  v * 10 + (c - 48) <= 255 ∧ (saw = true ∨ o < 4) ∧
  st = Pton4 true (if saw then o else o + 1) t (v * 10 + (c - 48)).
Proof.
  intros Hv Hc Hs. assert (H := Hs). unfold pton4_step in H.
  rewrite strchr_digit in H by done. unfold is_digit in Hc.
  unfold u32 in H. rewrite (Z.mod_small (v * 10 + (c - 48))) in H by lia.
  case_decide; [done|]. destruct saw.
  - rewrite pton4_step_digit in Hs by (auto || lia). split; [lia|]. split; [auto|congruence].
  - case_decide; [done|].
    rewrite pton4_step_digit in Hs by (auto || lia). split; [lia|]. split; [lia|congruence].
Qed.

Lemma pton4_step_dot_inv saw o t v c st :
  ¬ is_digit c → pton4_step (Pton4 saw o t v) c = Some st →
  c = ch_dot ∧ saw = true ∧ o ≠ 4 ∧ st = Pton4 false o (t ++ [v]) 0.
Proof.
  intros Hc Hs. unfold pton4_step in Hs. rewrite strchr_not_digit in Hs by done.
  case_decide as Hd; [|done]. case_decide; [done|]. destruct Hd. naive_solver.
Qed.

Lemma pton4_loop_app s1 s2 st :
  pton4_loop (s1 ++ s2) st = pton4_loop s1 st ≫= pton4_loop s2.
Proof.
  revert st. induction s1 as [|c s1 IH]; intros st; simpl; [done|].
  destruct (pton4_step st c); simpl; auto.
Qed.

(** Scanning the digits of one field. *)
Lemma pton4_loop_digits o t v f :
  0 <= v → Forall is_digit f → dec_acc v f <= 255 →
  pton4_loop f (Pton4 true o t v) = Some (Pton4 true o t (dec_acc v f)).
Proof.
  intros Hv Hf. revert v Hv. induction Hf as [|c f Hc Hf IH]; intros v Hv Hle; [done|].
  simpl. assert (v * 10 + (c - 48) <= 255).
  { etrans; [|exact Hle]. simpl. apply dec_acc_mono; [unfold is_digit in Hc; lia|done]. }
  unfold is_digit in Hc.
  rewrite pton4_step_digit by (unfold is_digit; auto || lia). simpl. apply IH; [lia|done].
Qed.

Lemma pton4_loop_field o t f v :
  dec_field f v → o < 4 →
  pton4_loop f (Pton4 false o t 0) = Some (Pton4 true (o + 1) t v).
Proof.
  intros (Hne & Hd & <- & Hle) Ho. destruct f as [|c f]; [done|].
  rewrite <-dec_acc_0 in *. apply Forall_cons in Hd as [Hc Hd]. simpl.
  assert (0 * 10 + (c - 48) <= 255) by (unfold is_digit in Hc; lia).
  rewrite pton4_step_digit by (auto || lia). simpl.
  rewrite pton4_loop_digits; [done| |done|done]. unfold is_digit in Hc. lia.
Qed.

Lemma pton4_step_dot o t v :
  o ≠ 4 → pton4_step (Pton4 true o t v) ch_dot = Some (Pton4 false o (t ++ [v]) 0).
Proof.
  intros Ho. unfold pton4_step. rewrite strchr_not_digit by (unfold is_digit; lia).
  rewrite decide_True by done. by rewrite decide_False.
Qed.

(** The fields that a successful scan has read, from any state of the loop. *)
Lemma pton4_loop_sound src saw o t v st :
  0 <= v <= 255 → o <= 4 → (saw = false → v = 0 ∧ o < 4) →
  pton4_loop src (Pton4 saw o t v) = Some st → 4 <= p4_octets st →
  ∃ f fs vs, src = f ++ concat (map (cons ch_dot) fs) ∧ Forall is_digit f ∧
    (saw = false → f ≠ []) ∧ dec_acc v f <= 255 ∧ Forall2 dec_field fs vs ∧
    p4_tmp st ++ [p4_cur st] = t ++ dec_acc v f :: vs ∧
    p4_octets st = o + (if saw then 0 else 1) + Z.of_nat (length fs) ∧
    p4_octets st <= 4.
Proof.
  revert saw o t v. induction src as [|c src IH]; intros saw o t v Hv Ho4 Hsaw; simpl.
  - intros [= <-]; simpl. intros Ho. destruct saw; [|destruct (Hsaw eq_refl); lia].
    exists [], [], []. simpl. repeat split; try done; lia.
  - destruct (pton4_step (Pton4 saw o t v) c) as [st1|] eqn:Hs; [|done]. simpl.
    intros Hl Ho. destruct (decide (is_digit c)) as [Hc|Hc].
    + apply pton4_step_digit_inv in Hs as (Hle & Hso & ->); [|done..].
      assert (Hc' := Hc). unfold is_digit in Hc'.
      assert (Ho5 : (if saw then o else o + 1) <= 4) by (destruct saw, Hso; (lia || done)).
      destruct (IH true _ t (v * 10 + (c - 48)) ltac:(lia) Ho5 ltac:(done) Hl Ho)
        as (f & fs & vs & -> & Hf & _ & Hle' & Hfs & Heq & Hoct & Hoct4).
      exists (c :: f), fs, vs. repeat split; try done; [by constructor|].
      rewrite Hoct. destruct saw; lia.
    + apply pton4_step_dot_inv in Hs as (-> & -> & Ho' & ->); [|done].
      destruct (IH false o (t ++ [v]) 0 ltac:(lia) Ho4 ltac:(lia) Hl Ho)
        as (f & fs & vs & -> & Hf & Hne & Hle' & Hfs & Heq & Hoct & Hoct4).
      rewrite dec_acc_0 in *.
      exists [], (f :: fs), (dec_val f :: vs). repeat split; try done.
      * unfold dec_acc; simpl; lia.
      * constructor; [|done]. split; [by apply Hne|]. done.
      * rewrite Heq, <-app_assoc. done.
      * rewrite Hoct. simpl. lia.
Qed.

Lemma pton4_fields_complete fs vs o t v :
  Forall2 dec_field fs vs → o + Z.of_nat (length fs) <= 4 →
  ∃ t' v', pton4_loop (concat (map (cons ch_dot) fs)) (Pton4 true o t v)
             = Some (Pton4 true (o + Z.of_nat (length fs)) t' v') ∧
           t' ++ [v'] = t ++ v :: vs.
Proof.
  intros Hfs. revert o t v. induction Hfs as [|f x fs vs Hf Hfs IH]; intros o t v Ho.
  - exists t, v. simpl in *. rewrite Z.add_0_r. done.
  - simpl in Ho. cbn [map concat app pton4_loop].
    rewrite pton4_step_dot by lia. simpl.
    rewrite pton4_loop_app, (pton4_loop_field _ _ _ x) by (done || lia). simpl.
    destruct (IH (o + 1) (t ++ [v]) x) as (t' & v' & Hl & Heq); [simpl in *; lia|].
    exists t', v'. rewrite Hl, Heq, <-app_assoc. split; [|done].
    do 2 f_equal. cbn [length]. lia.
Qed.

Lemma pton4_accepts src b :
  inet_pton4 src = Some b ↔
  ∃ fs, length fs = 4%nat ∧ src = join [ch_dot] fs ∧ Forall2 dec_field fs b.
Proof.
  unfold inet_pton4. split.
  - destruct (pton4_loop src _) as [st|] eqn:Hl; [|done]. simpl.
    case_decide as Ho; [done|]. intros [= <-].
    destruct (pton4_loop_sound src false 0 [] 0 st ltac:(lia) ltac:(lia) ltac:(lia) Hl ltac:(lia))
      as (f & fs & vs & -> & Hf & Hne & Hle & Hfs & -> & Hoct & Hoct4).
    exists (f :: fs). split; [simpl; lia|]. rewrite join_cons. split; [done|].
    rewrite dec_acc_0 in *. constructor; [|done]. split; [by apply Hne|]. done.
  - intros (fs & Hlen & -> & Hfs). inversion Hfs as [|f v fs' vs Hf Hfs']; subst; [done|].
    simpl in Hlen. rewrite join_cons, pton4_loop_app.
    rewrite (pton4_loop_field _ _ _ v) by (done || lia). simpl.
    destruct (pton4_fields_complete fs' vs (0 + 1) [] v) as (t' & v' & -> & Heq); [done|lia|].
    simpl. rewrite decide_False by lia. by rewrite Heq.
Qed.

(** C1: [inet_pton4] accepts exactly the strings of four dot-separated decimal
    fields of value at most 255 (any number of leading zeros), and then
    stores exactly the values of the fields. *)
Theorem inet_pton4_spec src b :
  inet_pton4 src = Some b ↔
  ∃ fs, length fs = 4%nat ∧ src = join [ch_dot] fs ∧ Forall2 dec_field fs b.
Proof. apply pton4_accepts. Qed.

(** * The IPv6 scanner *)

(** Value of a hexadecimal digit, as both [strchr] calls find it. *)
Definition xdigit_index (c : Z) : option Z :=
  match strchr xdigits_l c with Some i => Some i | None => strchr xdigits_u c end.

Lemma xdigit_index_spec c :
  xdigit_index c = if decide (is_xdigit c) then Some (hexval c) else None.
Proof.
  unfold xdigit_index, xdigits_l, xdigits_u, is_xdigit, hexval.
  change (str "0123456789abcdef") with
    [48; 49; 50; 51; 52; 53; 54; 55; 56; 57; 97; 98; 99; 100; 101; 102].
  change (str "0123456789ABCDEF") with
    [48; 49; 50; 51; 52; 53; 54; 55; 56; 57; 65; 66; 67; 68; 69; 70].
  cbv [strchr].
  do 22 (try (case_decide; [cbn; repeat case_decide; first [f_equal; lia | lia]|])).
  case_decide; [lia|done].
Qed.

Lemma hexval_range c : is_xdigit c → 0 <= hexval c < 16.
Proof. unfold is_xdigit, hexval. intros Hc. repeat case_decide; lia. Qed.

(** [val <<= 4; val |= d] is [val * 16 + d]. *)
Lemma hex_shift_or val d :
  0 <= val <= 65535 → 0 <= d < 16 → Z.lor (u32 (Z.shiftl val 4)) d = val * 16 + d.
Proof.
  intros Hv Hd. unfold u32. rewrite Z.shiftl_mul_pow2 by lia.
  rewrite Z.mod_small by lia. apply (lor_add val d 4); lia.
Qed.

Definition hex_acc (v : Z) (f : list Z) : Z := foldl (λ a c, a * 16 + hexval c) v f.

Lemma hex_acc_0 f : hex_acc 0 f = hex_val f.
Proof.
  unfold hex_acc, hex_val, base_val. generalize 0. induction f as [|c f IH]; intros v; simpl; auto.
Qed.

Lemma hex_acc_mono f v : 0 <= v → Forall is_xdigit f → v <= hex_acc v f.
Proof.
  revert v. induction f as [|c f IH]; intros v Hv; [simpl; lia|].
  intros [Hc Hf]%Forall_cons. apply hexval_range in Hc.
  specialize (IH (v * 16 + hexval c)). simpl. etrans; [|apply IH]; [lia|lia|done].
Qed.

(** One round of the loop, by the class of the character. *)
Lemma pton6_loop_xdigit c src tmp cp tok saw v :
  is_xdigit c → 0 <= v → v * 16 + hexval c <= 65535 →
  pton6_loop (c :: src) (Pton6 tmp cp tok saw v) =
    pton6_loop src (Pton6 tmp cp tok true (v * 16 + hexval c)).
Proof.
  intros Hc Hv Hle. pose proof (hexval_range c Hc). cbn [pton6_loop].
  fold (xdigit_index c). rewrite xdigit_index_spec, decide_True by done.
  rewrite hex_shift_or by lia. by rewrite decide_False by lia.
Qed.

Lemma xdigit_index_colon : xdigit_index ch_colon = None.
Proof. reflexivity. Qed.

Lemma pton6_loop_colon src tmp cp tok v :
  tp tmp + 2 <= 16 →
  pton6_loop (ch_colon :: src) (Pton6 tmp cp tok true v) =
    pton6_loop src (Pton6 (put16 tmp v) cp src false 0).
Proof.
  intros Htp. cbn [pton6_loop]. fold (xdigit_index ch_colon).
  rewrite xdigit_index_colon, decide_True by done. simpl.
  by rewrite decide_False by (unfold INT16SZ, IN6ADDRSZ; lia).
Qed.

Lemma pton6_loop_colon_run src tmp tok v :
  pton6_loop (ch_colon :: src) (Pton6 tmp None tok false v) =
    pton6_loop src (Pton6 tmp (Some (tp tmp)) src false v).
Proof. reflexivity. Qed.

Lemma pton6_loop_digits f src tmp cp tok saw v :
  0 <= v → Forall is_xdigit f → f ≠ [] → hex_acc v f <= 65535 →
  pton6_loop (f ++ src) (Pton6 tmp cp tok saw v) =
    pton6_loop src (Pton6 tmp cp tok true (hex_acc v f)).
Proof.
  intros Hv Hf. revert saw v Hv.
  induction Hf as [|c f Hc Hf IH]; intros saw v Hv Hne Hle; [done|].
  pose proof (hexval_range c Hc).
  assert (v * 16 + hexval c <= 65535).
  { etrans; [|exact Hle]. simpl. apply hex_acc_mono; [lia|done]. }
  cbn [app]. rewrite pton6_loop_xdigit by (done || lia).
  destruct f as [|c' f]; [done|]. apply IH; [lia|done|done].
Qed.

Lemma put16_bytes tmp v : 0 <= v <= 65535 → put16 tmp v = tmp ++ be16 v.
Proof.
  intros Hv. unfold put16, be16, u8. rewrite !land_255, Z.shiftr_div_pow2 by lia.
  rewrite !Z.mod_mod by lia. done.
Qed.

Lemma hex_field_nonneg f v : hex_field f v → 0 <= v <= 65535.
Proof.
  intros (_ & Hf & <- & Hle). split; [|done]. rewrite <-hex_acc_0. by apply hex_acc_mono.
Qed.

(** The bytes of a list of 16-bit groups. *)
Definition groups (vs : list Z) : list Z := concat (map be16 vs).

Lemma groups_length vs : length (groups vs) = (2 * length vs)%nat.
Proof. unfold groups. induction vs; simpl; lia. Qed.

Lemma groups_app vs ws : groups (vs ++ ws) = groups vs ++ groups ws.
Proof. unfold groups. by rewrite map_app, concat_app. Qed.

(** Scanning one group that a colon ends. *)
Lemma pton6_loop_group f v src tmp cp tok :
  hex_field f v → tp tmp + 2 <= 16 →
  pton6_loop (f ++ ch_colon :: src) (Pton6 tmp cp tok false 0) =
    pton6_loop src (Pton6 (tmp ++ be16 v) cp src false 0).
Proof.
  intros Hf Htp. pose proof (hex_field_nonneg _ _ Hf).
  destruct Hf as (Hne & Hd & Hv & Hle). subst v. rewrite <-hex_acc_0 in *.
  rewrite pton6_loop_digits by (done || lia).
  rewrite pton6_loop_colon by done. by rewrite put16_bytes.
Qed.

(** Scanning groups that each end in a colon: what is left is scanned in the
    state after them, [curtok] being the rest unless there was no group. *)
Lemma pton6_loop_groups fs vs src tmp cp tok :
  Forall2 hex_field fs vs → tp tmp + 2 * Z.of_nat (length fs) <= 16 →
  pton6_loop (concat (map (λ f, f ++ [ch_colon]) fs) ++ src) (Pton6 tmp cp tok false 0) =
    pton6_loop src (Pton6 (tmp ++ groups vs) cp
                      (match fs with [] => tok | _ => src end) false 0).
Proof.
  intros Hfs. revert tmp tok. induction Hfs as [|f v fs vs Hf Hfs IH]; intros tmp tok Htp.
  - simpl. unfold groups. simpl. by rewrite app_nil_r.
  - cbn [map concat]. rewrite <-!app_assoc. cbn [app].
    cbn [length] in Htp.
    rewrite (pton6_loop_group _ v) by (done || lia).
    rewrite IH by (unfold tp in *; rewrite length_app; simpl; lia).
    unfold groups. simpl. rewrite <-app_assoc. simpl. by destruct fs.
Qed.

(** Groups joined by colons are groups ended by colons and a last one. *)
Lemma join_ended f fs :
  ∃ g, join [ch_colon] (f :: fs) =
       concat (map (λ f, f ++ [ch_colon]) (removelast (f :: fs))) ++ g ∧
       last (f :: fs) = Some g.
Proof.
  revert f. induction fs as [|f' fs IH]; intros f.
  - exists f. simpl. done.
  - destruct (IH f') as (g & Hj & Hl). exists g.
    change (join [ch_colon] (f :: f' :: fs)) with
      (f ++ [ch_colon] ++ join [ch_colon] (f' :: fs)).
    rewrite Hj. change (removelast (f :: f' :: fs)) with (f :: removelast (f' :: fs)).
    cbn [map concat]. rewrite <-!app_assoc. split; [done|]. by rewrite <-Hl.
Qed.

(** The end of the scan: the state after the groups [fs] at the end of the
    string, and what [pton6_finish] then does with it. *)
Lemma pton6_loop_last f v tmp cp tok :
  hex_field f v → tp tmp + 2 <= 16 →
  (st ← pton6_loop f (Pton6 tmp cp tok false 0); pton6_finish st) =
  pton6_finish (Pton6 (tmp ++ be16 v) cp tok false 0).
Proof.
  intros Hf Htp. pose proof (hex_field_nonneg _ _ Hf).
  destruct Hf as (Hne & Hd & Hv & Hle). subst v. rewrite <-hex_acc_0 in *.
  rewrite <-(app_nil_r f) at 1. rewrite pton6_loop_digits by (done || lia).
  cbn [pton6_loop mbind option_bind]. unfold pton6_finish at 1.
  rewrite decide_False by (unfold INT16SZ, IN6ADDRSZ; lia).
  cbn [mbind option_bind]. by rewrite put16_bytes by lia.
Qed.

(** [pton6_finish] does not look at [curtok]. *)
Lemma pton6_finish_tok tmp cp tok tok' saw v :
  pton6_finish (Pton6 tmp cp tok saw v) = pton6_finish (Pton6 tmp cp tok' saw v).
Proof. done. Qed.

(** Scanning groups joined by colons up to the end of the string. *)
Lemma pton6_loop_join fs vs tmp cp tok :
  Forall2 hex_field fs vs → tp tmp + 2 * Z.of_nat (length fs) <= 16 →
  (st ← pton6_loop (join [ch_colon] fs) (Pton6 tmp cp tok false 0); pton6_finish st) =
  pton6_finish (Pton6 (tmp ++ groups vs) cp tok false 0).
Proof.
  intros Hfs Htp. destruct fs as [|f fs].
  { inversion Hfs; subst. simpl. unfold groups. simpl. by rewrite app_nil_r. }
  revert f vs tmp tok Hfs Htp. induction fs as [|f' fs IH]; intros f vs tmp tok Hfs Htp.
  - inversion Hfs as [|? v ? ? Hf Hnil]; subst. inversion Hnil; subst. simpl.
    rewrite (pton6_loop_last f v) by (done || (simpl in Htp; lia)).
    unfold groups. simpl. done.
  - inversion Hfs as [|? v ? vs' Hf Hfs']; subst. cbn [length] in Htp.
    change (join [ch_colon] (f :: f' :: fs)) with
      (f ++ ch_colon :: join [ch_colon] (f' :: fs)).
    rewrite (pton6_loop_group _ v) by (done || lia).
    rewrite (IH f' vs') by (done || (unfold tp in *; rewrite length_app; simpl; lia)).
    unfold groups. simpl. rewrite <-app_assoc. simpl. done.
Qed.

(** The groups of a string, each ended by a colon, are not affected by the
    test of the first character. *)
Lemma hex_field_head f v :
  hex_field f v → ∃ c f', f = c :: f' ∧ c ≠ ch_colon.
Proof.
  intros (Hne & Hd & _). destruct f as [|c f']; [done|].
  apply Forall_cons in Hd as [Hc _]. exists c, f'. split; [done|].
  unfold is_xdigit in Hc. lia.
Qed.

(** What [inet_pton6] does when the first character is not a colon. *)
Lemma inet_pton6_nocolon c src :
  c ≠ ch_colon →
  inet_pton6 (c :: src) =
    (st ← pton6_loop (c :: src) (Pton6 [] None (c :: src) false 0); pton6_finish st).
Proof. intros Hc. unfold inet_pton6. by rewrite decide_False. Qed.

(** One round of the shift: the last of the bytes still to move goes to the
    last free cell, and its own cell is cleared. *)
Lemma shift_round A B1 x B2 g :
  let a := A ++ (B1 ++ [x]) ++ repeat 0 (S g) ++ B2 in
  a !! (length A + length B1)%nat = Some x ∧
  <[(length A + length B1)%nat := 0]>
    (<[(length A + length B1 + 1 + g)%nat := x]> a) =
  A ++ B1 ++ repeat 0 (S g) ++ x :: B2.
Proof.
  intros a.
  assert (Ha : a = (A ++ B1) ++ x :: (repeat 0 g ++ 0 :: B2)).
  { unfold a. rewrite <-!app_assoc. cbn [app]. do 3 f_equal.
    change (repeat 0 (S g)) with (0 :: repeat 0 g). rewrite repeat_cons, <-app_assoc. done. }
  split.
  - rewrite Ha, <-length_app. apply list_lookup_middle. done.
  - replace a with ((A ++ B1 ++ x :: repeat 0 g) ++ 0 :: B2)
      by (rewrite Ha, <-!app_assoc; done).
    rewrite (insert_mid (A ++ B1 ++ x :: repeat 0 g))
      by (rewrite !length_app; cbn [length]; rewrite repeat_length; lia).
    replace ((A ++ B1 ++ x :: repeat 0 g) ++ x :: B2)
      with ((A ++ B1) ++ x :: repeat 0 g ++ x :: B2) by (rewrite <-!app_assoc; done).
    rewrite (insert_mid (A ++ B1)) by (rewrite length_app; lia).
    rewrite <-!app_assoc. done.
Qed.

Lemma shift_run_spec A B1 B2 g i n cp :
  cp = Z.of_nat (length A) →
  (length A + length B1 + S g + length B2)%nat = 16%nat →
  i = Z.of_nat (length B2) + 1 → n = Z.of_nat (length B1 + length B2) →
  shift_run (length B1) i n cp (A ++ B1 ++ repeat 0 (S g) ++ B2) =
    Some (A ++ repeat 0 (S g) ++ B1 ++ B2).
Proof.
  intros Hcp. revert i B2. induction B1 as [|x B1 IH] using rev_ind; intros i B2 Hlen Hi Hn.
  { done. }
  rewrite !length_app in *. cbn [length] in *. rewrite Nat.add_1_r. cbn [shift_run].
  unfold aget, aset, IN6ADDRSZ. rewrite !decide_True by lia.
  replace (Z.to_nat (cp + (n - i))) with (length A + length B1)%nat by lia.
  replace (Z.to_nat (16 - i)) with (length A + length B1 + 1 + g)%nat by lia.
  destruct (shift_round A B1 x B2 g) as [Hx Ha]. cbn zeta in Hx, Ha.
  rewrite Hx. cbn [mbind option_bind]. cbn zeta. rewrite !decide_True by lia. rewrite Ha.
  rewrite (IH (i + 1) (x :: B2)) by (cbn [length]; lia).
  rewrite <-!app_assoc. done.
Qed.

(** When there is no free cell, every byte after the [::] is lost. *)
Lemma shift_run_full A B1 B2 i n cp :
  cp = Z.of_nat (length A) → (length A + length B1 + length B2)%nat = 16%nat →
  i = Z.of_nat (length B2) + 1 → n = Z.of_nat (length B1 + length B2) →
  shift_run (length B1) i n cp (A ++ B1 ++ B2) =
    Some (A ++ repeat 0 (length B1) ++ B2).
Proof.
  intros Hcp. revert i B2. induction B1 as [|x B1 IH] using rev_ind; intros i B2 Hlen Hi Hn.
  { done. }
  rewrite !length_app in *. cbn [length] in *. rewrite Nat.add_1_r. cbn [shift_run].
  unfold aget, aset, IN6ADDRSZ. rewrite !decide_True by lia.
  replace (Z.to_nat (cp + (n - i))) with (length A + length B1)%nat by lia.
  replace (Z.to_nat (16 - i)) with (length A + length B1)%nat by lia.
  replace (A ++ (B1 ++ [x]) ++ B2) with ((A ++ B1) ++ x :: B2) by (rewrite <-!app_assoc; done).
  rewrite list_lookup_middle by (rewrite length_app; lia). cbn [mbind option_bind].
  cbn zeta. rewrite !decide_True by lia. rewrite !insert_mid by (rewrite length_app; lia). rewrite <-app_assoc.
  rewrite (IH (i + 1) (0 :: B2)) by (cbn [length]; lia).
  cbn [repeat]. rewrite repeat_cons, <-!app_assoc. done.
Qed.

(** [pton6_finish] expands a [::] seen after the bytes [A] and before [B]. *)
Lemma pton6_finish_gap A B tok v :
  (length A + length B < 16)%nat →
  pton6_finish (Pton6 (A ++ B) (Some (tp A)) tok false v) =
    Some (A ++ repeat 0 (16 - (length A + length B)) ++ B).
Proof.
  intros Hlen. unfold pton6_finish, IN6ADDRSZ, tp. cbn [mbind option_bind].
  rewrite !length_app.
  replace (Z.to_nat (Z.of_nat (length A + length B) - Z.of_nat (length A)))
    with (length B) by lia.
  destruct (16 - (length A + length B))%nat as [|g] eqn:Hg; [lia|].
  replace (Z.to_nat (16 - Z.of_nat (length A + length B))) with (S g) by lia.
  rewrite <-app_assoc.
  pose proof (shift_run_spec A B [] g 1 (Z.of_nat (length A + length B) - Z.of_nat (length A))
    (Z.of_nat (length A))) as H.
  rewrite !app_nil_r in H. apply H; simpl; lia.
Qed.

Lemma pton6_finish_gap_full A B tok v :
  (length A + length B)%nat = 16%nat →
  pton6_finish (Pton6 (A ++ B) (Some (tp A)) tok false v) =
    Some (A ++ repeat 0 (length B)).
Proof.
  intros Hlen. unfold pton6_finish, IN6ADDRSZ, tp. cbn [mbind option_bind].
  rewrite !length_app.
  replace (Z.to_nat (Z.of_nat (length A + length B) - Z.of_nat (length A)))
    with (length B) by lia.
  replace (Z.to_nat (16 - Z.of_nat (length A + length B))) with 0%nat by lia.
  cbn [repeat]. rewrite app_nil_r.
  pose proof (shift_run_full A B [] 1 (Z.of_nat (length A + length B) - Z.of_nat (length A))
    (Z.of_nat (length A))) as H.
  rewrite !app_nil_r in H. apply H; simpl; lia.
Qed.

(** * Properties of inet_pton6 *)

Lemma pton6_full fs vs :
  length fs = 8%nat → Forall2 hex_field fs vs →
  inet_pton6 (join [ch_colon] fs) = Some (groups vs).
Proof.
  intros Hlen Hfs. destruct fs as [|f fs]; [done|].
  inversion Hfs as [|? v ? vs' Hf Hfs']; subst.
  destruct (hex_field_head _ _ Hf) as (c & f' & -> & Hc).
  assert (Hj : join [ch_colon] ((c :: f') :: fs) =
               c :: f' ++ concat (map (cons ch_colon) fs)) by apply join_cons.
  rewrite Hj, inet_pton6_nocolon, <-Hj by done.
  rewrite (pton6_loop_join _ (v :: vs')) by (done || (unfold tp; simpl in *; lia)).
  unfold pton6_finish. cbn [mbind option_bind].
  apply Forall2_length in Hfs'. simpl in Hlen.
  rewrite decide_False; [done|]. unfold tp, IN6ADDRSZ. simpl app.
  rewrite groups_length. simpl. lia.
Qed.

(** Eight groups joined by colons give the sixteen bytes of the groups. *)
Theorem inet_pton6_full fs vs :
  length fs = 8%nat → Forall2 hex_field fs vs →
  inet_pton6 (join [ch_colon] fs) = Some (groups vs).
Proof. apply pton6_full. Qed.

Lemma inet_pton6_full_witness :
  inet_pton6 (str "1:22:333:4444:A:b:0:ffff") =
    Some (groups [1; 34; 819; 17476; 10; 11; 0; 65535]).
Proof.
  apply (inet_pton6_full [str "1"; str "22"; str "333"; str "4444"; str "A"; str "b";
                          str "0"; str "ffff"]); by_decide.
Defined.

(** Scanning the groups before the [::], and the [::] itself. *)
Lemma pton6_loop_pre pre vs rest tok :
  Forall2 hex_field pre vs → 2 * Z.of_nat (length pre) <= 16 → pre ≠ [] →
  pton6_loop (join [ch_colon] pre ++ ch_colon :: ch_colon :: rest)
    (Pton6 [] None tok false 0) =
  pton6_loop rest (Pton6 (groups vs) (Some (tp (groups vs))) rest false 0).
Proof.
  intros Hpre Hlen Hne.
  assert (Hj : ∀ l : list (list Z), l ≠ [] → ∀ r,
    join [ch_colon] l ++ ch_colon :: r = concat (map (λ f, f ++ [ch_colon]) l) ++ r).
  { induction l as [|f [|f' l] IH]; intros Hl r; [done| |].
    - simpl. rewrite app_nil_r, <-app_assoc. done.
    - change (join [ch_colon] (f :: f' :: l)) with
        (f ++ [ch_colon] ++ join [ch_colon] (f' :: l)).
      rewrite <-!app_assoc, IH by done. cbn [map concat]. rewrite <-!app_assoc. done. }
  rewrite Hj by done.
  rewrite (pton6_loop_groups pre vs) by (done || (unfold tp; simpl; lia)).
  simpl app. by rewrite pton6_loop_colon_run.
Qed.

(** The scan of a string with one [::] ends in [pton6_finish] with [colonp]
    between the two runs of groups. *)
Lemma inet_pton6_scan pre post vs ws :
  Forall2 hex_field pre vs → Forall2 hex_field post ws →
  (length pre + length post <= 8)%nat →
  inet_pton6 (join [ch_colon] pre ++ ch_colon :: ch_colon :: join [ch_colon] post) =
    pton6_finish (Pton6 (groups vs ++ groups ws) (Some (tp (groups vs))) [] false 0).
Proof.
  intros Hpre Hpost Hlen.
  assert (Hlv := Forall2_length _ _ _ Hpre).
  assert (Htp : tp (groups vs) + 2 * Z.of_nat (length post) <= 16).
  { unfold tp. rewrite groups_length. lia. }
  destruct pre as [|f pre].
  - inversion Hpre; subst.
    exact (pton6_loop_join _ _ _ _ (join [ch_colon] post) Hpost Htp).
  - inversion Hpre as [|? v ? vs' Hf Hpre']; subst.
    destruct (hex_field_head _ _ Hf) as (c & f' & -> & Hc).
    assert (Hj : join [ch_colon] ((c :: f') :: pre) =
               c :: f' ++ concat (map (cons ch_colon) pre)) by apply join_cons.
    rewrite Hj. cbn [app]. rewrite inet_pton6_nocolon by done.
    rewrite app_comm_cons, <-Hj.
    rewrite (pton6_loop_pre _ (v :: vs')) by (done || lia).
    exact (pton6_loop_join _ _ _ _ _ Hpost Htp).
Qed.

Lemma pton6_gap pre post vs ws :
  Forall2 hex_field pre vs → Forall2 hex_field post ws →
  (length pre + length post <= 7)%nat →
  inet_pton6 (join [ch_colon] pre ++ str "::" ++ join [ch_colon] post) =
    Some (groups vs ++ repeat 0 (16 - 2 * (length pre + length post)) ++ groups ws).
Proof.
  intros Hpre Hpost Hlen.
  change (str "::" ++ join [ch_colon] post) with
    (ch_colon :: ch_colon :: join [ch_colon] post).
  rewrite (inet_pton6_scan _ _ _ _ Hpre Hpost) by lia.
  apply Forall2_length in Hpre, Hpost.
  rewrite pton6_finish_gap by (rewrite !groups_length; lia).
  do 4 f_equal. rewrite !groups_length. lia.
Qed.

(** At most seven groups around one [::] give the groups with the gap
    filled by zero bytes, wherever the [::] stands. *)
Theorem inet_pton6_compressed pre post vs ws :
  Forall2 hex_field pre vs → Forall2 hex_field post ws →
  (length pre + length post <= 7)%nat →
  inet_pton6 (join [ch_colon] pre ++ str "::" ++ join [ch_colon] post) =
    Some (groups vs ++ repeat 0 (16 - 2 * (length pre + length post)) ++ groups ws).
Proof. apply pton6_gap. Qed.

Lemma inet_pton6_compressed_witness :
  inet_pton6 (str "fe80::a:1") = Some (groups [65152] ++ repeat 0 10 ++ groups [10; 1]).
Proof.
  apply (inet_pton6_compressed [str "fe80"] [str "a"; str "1"] [65152] [10; 1]); by_decide.
Defined.

(** A [::] among eight full groups is accepted, but everything after it is
    then stored as zeros. *)
Theorem inet_pton6_full_gap pre post vs ws :
  Forall2 hex_field pre vs → Forall2 hex_field post ws →
  (length pre + length post = 8)%nat →
  inet_pton6 (join [ch_colon] pre ++ str "::" ++ join [ch_colon] post) =
    Some (groups vs ++ repeat 0 (2 * length post)).
Proof.
  intros Hpre Hpost Hlen.
  change (str "::" ++ join [ch_colon] post) with
    (ch_colon :: ch_colon :: join [ch_colon] post).
  rewrite (inet_pton6_scan _ _ _ _ Hpre Hpost) by lia.
  apply Forall2_length in Hpre, Hpost.
  rewrite pton6_finish_gap_full by (rewrite !groups_length; lia).
  do 3 f_equal. rewrite !groups_length. lia.
Qed.

Lemma inet_pton6_full_gap_witness :
  inet_pton6 (str "1:2:3:4::5:6:7:8") = Some (groups [1; 2; 3; 4] ++ repeat 0 8).
Proof.
  apply (inet_pton6_full_gap [str "1"; str "2"; str "3"; str "4"]
           [str "5"; str "6"; str "7"; str "8"] [1; 2; 3; 4] [5; 6; 7; 8]); by_decide.
Defined.

(** * Addresses that end in a dotted quad *)

Lemma dec_val_snoc f c : dec_val (f ++ [c]) = dec_val f * 10 + (c - 48).
Proof.
  unfold dec_val. rewrite map_app, base_val_app. unfold base_val. simpl. lia.
Qed.

Lemma hex_val_snoc f c : hex_val (f ++ [c]) = hex_val f * 16 + hexval c.
Proof.
  unfold hex_val. rewrite map_app, base_val_app. unfold base_val. simpl. lia.
Qed.

Lemma dec_val_nonneg f : Forall is_digit f → 0 <= dec_val f.
Proof. intros Hf. rewrite <-dec_acc_0. by apply dec_acc_mono. Qed.

(** A decimal numeral read in base 16 has no more digits than in base 10. *)
Lemma dec_hex_bound f k :
  Forall is_digit f → dec_val f < 10 ^ Z.of_nat k → hex_val f < 16 ^ Z.of_nat k.
Proof.
  intros Hf. revert k. induction f as [|c f IH] using rev_ind; intros k Hk.
  { apply Z.pow_pos_nonneg; lia. }
  apply Forall_app in Hf as [Hf Hc]. apply Forall_cons in Hc as [Hc _].
  rewrite dec_val_snoc in Hk. rewrite hex_val_snoc.
  pose proof (dec_val_nonneg f Hf). unfold is_digit in Hc.
  assert (Hh : hexval c = c - 48) by (unfold hexval; rewrite decide_True; lia).
  rewrite Hh. destruct k as [|k].
  - simpl in Hk. specialize (IH Hf 0%nat). simpl in IH. simpl. lia.
  - rewrite Nat2Z.inj_succ, Z.pow_succ_r in * by lia.
    specialize (IH Hf k ltac:(lia)). lia.
Qed.

Lemma is_digit_xdigit c : is_digit c → is_xdigit c.
Proof. unfold is_digit, is_xdigit. lia. Qed.

(** The scan of a dotted quad: [inet_pton4] takes over at its first dot. *)
Lemma pton6_loop_quad fs vs tmp cp :
  length fs = 4%nat → Forall2 dec_field fs vs → tp tmp + 4 <= 16 →
  let q := join [ch_dot] fs in
  ∃ v, pton6_loop q (Pton6 tmp cp q false 0) = Some (Pton6 (tmp ++ vs) cp q false v).
Proof.
  intros Hlen Hfs Htp q.
  assert (Hq : inet_pton4 q = Some vs) by (apply pton4_accepts; eauto).
  destruct fs as [|f [|f1 fs]]; [done|done|].
  inversion Hfs as [|? x ? xs Hf Hfs']; subst.
  destruct Hf as (Hne & Hd & <- & Hle).
  assert (Hb : hex_acc 0 f < 16 ^ Z.of_nat 3).
  { rewrite hex_acc_0. apply dec_hex_bound; [done|simpl; lia]. }
  assert (Hqe : q = f ++ ch_dot :: join [ch_dot] (f1 :: fs)) by done.
  exists (hex_acc 0 f). rewrite Hqe at 1.
  rewrite pton6_loop_digits; [|done| |done|change (16 ^ Z.of_nat 3) with 4096 in Hb; lia].
  2: { eapply Forall_impl; [exact Hd|]. apply is_digit_xdigit. }
  cbn [pton6_loop]. fold (xdigit_index ch_dot).
  assert (Hdot : xdigit_index ch_dot = None) by reflexivity. rewrite Hdot.
  rewrite decide_False by lia.
  rewrite decide_True by (unfold INADDRSZ, IN6ADDRSZ; lia). by rewrite Hq.
Qed.

(** [::], groups that end in colons, then a dotted quad. *)
Lemma inet_pton6_tail post ws fs vs :
  Forall2 hex_field post ws → (length post <= 5)%nat →
  length fs = 4%nat → Forall2 dec_field fs vs →
  inet_pton6 (str "::" ++ concat (map (λ f, f ++ [ch_colon]) post) ++ join [ch_dot] fs) =
    Some (repeat 0 (12 - 2 * length post) ++ groups ws ++ vs).
Proof.
  intros Hpost Hlp Hlen Hfs.
  set (q := join [ch_dot] fs). set (p := concat (map (λ f, f ++ [ch_colon]) post) ++ q).
  change (inet_pton6 (str "::" ++ p)) with
    (st ← pton6_loop p (Pton6 [] (Some 0) p false 0); pton6_finish st).
  unfold p. rewrite (pton6_loop_groups post ws) by (done || (unfold tp; simpl; lia)).
  assert (Hq : match post with [] => p | _ => q end = q) by (unfold p; by destruct post).
  fold p. rewrite Hq. simpl app.
  assert (Hlw := Forall2_length _ _ _ Hpost). assert (Hlv := Forall2_length _ _ _ Hfs).
  destruct (pton6_loop_quad fs vs (groups ws) (Some 0) Hlen Hfs) as [v Hv].
  { unfold tp. rewrite groups_length. lia. }
  fold q in Hv. rewrite Hv. cbn [mbind option_bind].
  pose proof (pton6_finish_gap [] (groups ws ++ vs) q v) as Hfin.
  rewrite !length_app, groups_length in Hfin. cbn [length app] in Hfin.
  change (Some 0) with (Some (tp [])). rewrite Hfin by lia. do 3 f_equal. lia.
Qed.

(** * The size of the addresses *)

Lemma inet_pton4_length src b : inet_pton4 src = Some b → length b = 4%nat.
Proof.
  unfold inet_pton4. destruct (pton4_loop src _) as [st|] eqn:Hl; [|done]. simpl.
  case_decide as Ho; [done|]. intros [= <-].
  destruct (pton4_loop_sound src false 0 [] 0 st ltac:(lia) ltac:(lia) ltac:(lia) Hl ltac:(lia))
    as (f & fs & vs & _ & _ & _ & _ & Hfs & Heq & Hoct & Hoct4).
  rewrite Heq. apply Forall2_length in Hfs. cbn [length app]. lia.
Qed.

Lemma put16_length tmp val : tp (put16 tmp val) = tp tmp + 2.
Proof. unfold tp, put16. rewrite length_app. simpl. lia. Qed.

Lemma pton6_loop_fits src tmp cp tok saw v st :
  tp tmp <= 16 → pton6_loop src (Pton6 tmp cp tok saw v) = Some st → tp (p6_tmp st) <= 16.
Proof.
  revert tmp cp tok saw v. induction src as [|c src IH]; intros tmp cp tok saw v Htp; simpl.
  - by intros [= <-].
  - destruct (match strchr xdigits_l c with Some i => Some i | None => strchr xdigits_u c end).
    { case_decide; [done|]. by apply IH. }
    case_decide as Hc; [destruct saw; simpl|].
    + case_decide as H16; [done|]. apply IH. rewrite put16_length. unfold INT16SZ, IN6ADDRSZ in *. lia.
    + destruct cp; [done|]. by apply IH.
    + case_decide as Hd; [|done]. destruct (inet_pton4 tok) as [b|] eqn:Hb; [|done].
      intros [= <-]. apply inet_pton4_length in Hb. unfold tp in *. simpl. rewrite length_app.
      unfold INADDRSZ, IN6ADDRSZ in *. lia.
Qed.

Lemma shift_run_length k i n cp a a' : shift_run k i n cp a = Some a' → length a' = length a.
Proof.
  revert i a. induction k as [|k IH]; intros i a; simpl; [by intros [= ->]|].
  destruct (aget a (cp + (n - i))); simpl; [|done]. intros ->%IH. by rewrite !aset_length.
Qed.

Lemma inet_pton6_length src b : inet_pton6 src = Some b → length b = 16%nat.
Proof.
  unfold inet_pton6. destruct (match src with [] => _ | _ => _ end) as [src'|]; [|done]. simpl.
  destruct (pton6_loop src' _) as [[tmp cp tok saw v]|] eqn:Hl; [|done]. simpl.
  apply pton6_loop_fits in Hl; [|unfold tp; simpl; lia]. simpl in Hl.
  destruct (if saw then _ else Some tmp) as [tmp'|] eqn:Ht; [|done]. simpl.
  assert (Htp : tp tmp' <= 16).
  { destruct saw; [|by injection Ht as <-]. case_decide; [done|]. injection Ht as <-.
    rewrite put16_length. unfold INT16SZ, IN6ADDRSZ in *. lia. }
  destruct cp as [cp|].
  - intros ->%shift_run_length. rewrite length_app, repeat_length. unfold tp, IN6ADDRSZ in *. lia.
  - destruct (decide (tp tmp' ≠ IN6ADDRSZ)) as [|H16]; [done|]. intros [= <-].
    apply dec_stable in H16. unfold tp, IN6ADDRSZ in *. lia.
Qed.

(** The size of the address of a family. *)
Definition addr_size (af : Z) : nat := if decide (af = AF_INET) then 4 else 16.

Lemma inet_pton_length af src b : inet_pton af src = Pton1 b → length b = addr_size af.
Proof.
  unfold inet_pton, addr_size, of_pton. case_decide; [|case_decide; [|done]].
  - destruct (inet_pton4 src) eqn:H4; [|done]. intros [= <-]. by apply inet_pton4_length in H4.
  - destruct (inet_pton6 src) eqn:H6; [|done]. intros [= <-]. by apply inet_pton6_length in H6.
Qed.

(** * The texts of addresses *)

Lemma inet_pton4_text src b :
  inet_pton4 src = Some b → (ch_colon ∉ src) ∧ ∃ c src', src = c :: src' ∧ is_digit c.
Proof.
  unfold inet_pton4. destruct (pton4_loop src _) as [st|] eqn:Hl; [|done]. simpl.
  case_decide as Ho; [done|]. intros _.
  destruct (pton4_loop_sound src false 0 [] 0 st ltac:(lia) ltac:(lia) ltac:(lia) Hl ltac:(lia))
    as (f & fs & vs & -> & Hf & Hne & _ & Hfs & _). split.
  - assert (Hdig : ∀ g, Forall is_digit g → ch_colon ∉ g).
    { intros g Hg Hin. rewrite Forall_forall in Hg. apply Hg in Hin. unfold is_digit in Hin. lia. }
    rewrite elem_of_app. intros [Hin|Hin]; [by apply (Hdig f)|]. revert Hin. clear -Hfs Hdig.
    induction Hfs as [|g x fs vs (_ & Hg & _) _ IH]; simpl; [by intros ?%elem_of_nil|].
    rewrite elem_of_cons, elem_of_app. intros [Hd|[Hd|Hd]]; [done|by apply (Hdig g)|by apply IH].
  - destruct f as [|c f]; [by destruct (Hne eq_refl)|]. inversion Hf. by eexists _, _.
Qed.

Lemma pton6_loop_nocolon src tok saw v st :
  ch_colon ∉ src → pton6_loop src (Pton6 [] None tok saw v) = Some st →
  p6_colonp st = None ∧ (if p6_saw st then p6_tmp st = [] else tp (p6_tmp st) <= 4).
Proof.
  revert tok saw v. induction src as [|c src IH]; intros tok saw v; simpl.
  - intros _ [= <-]. simpl. by destruct saw.
  - rewrite not_elem_of_cons. intros [Hc Hsrc].
    destruct (match strchr xdigits_l c with Some i => Some i | None => strchr xdigits_u c end).
    { case_decide; [done|]. by apply IH. }
    rewrite decide_False by done. case_decide; [|done].
    destruct (inet_pton4 tok) as [b|] eqn:Hb; [|done]. intros [= <-]. simpl. split; [done|].
    apply inet_pton4_length in Hb. unfold tp. lia.
Qed.

Lemma inet_pton6_text src b :
  inet_pton6 src = Some b → ch_colon ∈ src ∧ ∃ c src', src = c :: src' ∧ (is_xdigit c ∨ c = ch_colon).
Proof.
  destruct src as [|c src']; [done|]. unfold inet_pton6.
  destruct (decide (c = ch_colon)) as [->|Hc].
  { intros _. split; [by left|]. eexists _, _. split; [done|]. by right. }
  cbn [mbind option_bind].
  destruct (pton6_loop (c :: src') _) as [st|] eqn:Hl; [|done]. intros Hfin. split.
  - destruct (decide (ch_colon ∈ c :: src')) as [|Hn]; [done|exfalso].
    apply pton6_loop_nocolon in Hl as [Hcol Hsaw]; [|done]. destruct st as [tmp cp tok saw v].
    simpl in *. subst cp. destruct saw; simpl in *.
    + subst tmp. done.
    + destruct (decide (tp tmp ≠ IN6ADDRSZ)) as [|H16]; [done|].
      apply dec_stable in H16. unfold IN6ADDRSZ in H16. lia.
  - eexists _, _. split; [done|]. left. destruct (decide (is_xdigit c)) as [|Hx]; [done|exfalso].
    cbn [pton6_loop] in Hl. fold (xdigit_index c) in Hl.
    rewrite xdigit_index_spec, (decide_False _ _ Hx), (decide_False _ _ Hc) in Hl.
    destruct (decide _) as [[-> _]|]; [|done].
    destruct (inet_pton4 (ch_dot :: src')) eqn:H4; [|done].
    apply inet_pton4_text in H4 as (_ & c & s & [= <- <-] & Hd). unfold is_digit in Hd. lia.
Qed.
