(* ===== verification/InetNtop.v ===== *)
(** [libfree/inet_ntop.c] and [libfree/inet_ntop_ipv4.c]: network to
    presentation conversion of IPv4 and IPv6 addresses, and the round trip with
    the parsers of [InetPton]. *)

From S2P Require Import Prelude Net Sys InetPton.

(** The result of a conversion: the bytes stored from [dst] on (the text and
    its NUL), or [NULL] with [errno] set and nothing stored. *)
Inductive ntop_result := NtopOk (stored : list Z) | NtopErr (errno : Z).

(** * inet_ntop4 *)

(** [sprintf(tmp, "%u.%u.%u.%u", ...)] *)
Definition quad (src : list Z) : list Z :=
  fmt_u (nth 0 src 0) ++ ch_dot :: fmt_u (nth 1 src 0) ++ ch_dot ::
  fmt_u (nth 2 src 0) ++ ch_dot :: fmt_u (nth 3 src 0).

Definition strlen (s : list Z) : Z := Z.of_nat (length s).

Definition inet_ntop4 (src : list Z) (size : Z) : ntop_result :=
  let tmp := quad src in
  if decide (strlen tmp > size) then NtopErr ENOSPC else NtopOk (tmp ++ [0]).

(** [inet_ntop_ipv4.c]: [snprintf] into 16 bytes, and [>=] in the test. *)
Definition inet_ntop_ipv4 (family : Z) (p : list Z) (len : Z) : ntop_result :=
  if decide (family = AF_INET) then
    let temp := snprintf_trunc INET_ADDRSTRLEN
      (fmt_d (nth 0 p 0) ++ ch_dot :: fmt_d (nth 1 p 0) ++ ch_dot ::
       fmt_d (nth 2 p 0) ++ ch_dot :: fmt_d (nth 3 p 0)) in
    if decide (strlen temp >= len) then NtopErr ENOSPC else NtopOk (temp ++ [0])
  else NtopErr EAFNOSUPPORT.

(** * inet_ntop6 *)

(** [struct { int base, len; }]; [len] is not read before it is set, so its
    value where the source leaves it uninitialised does not matter. *)
Record run := Run { r_base : Z; r_len : Z }.

(** [words[i / 2] |= (src[i] << ((1 - (i % 2)) << 3))] for [i] from 0 to 15. *)
Definition words_of (src : list Z) : list Z :=
  foldl (λ words i,
    aset words (i / 2)
      (Z.lor (nth (Z.to_nat (i / 2)) words 0)
         (Z.shiftl (nth (Z.to_nat i) src 0) (Z.shiftl (1 - i mod 2) 3))))
    (repeat 0 8) (seqZ 0 IN6ADDRSZ).

(** One round of the loop that looks for the longest run of zero words. *)
Definition run_step (words : list Z) (st : run * run) (i : Z) : run * run :=
  let '(best, cur) := st in
  if decide (nth (Z.to_nat i) words 0 = 0) then
    if decide (r_base cur = -1) then (best, Run i 1)
    else (best, Run (r_base cur) (r_len cur + 1))
  else if decide (r_base cur ≠ -1) then
    ((if decide (r_base best = -1 ∨ r_len cur > r_len best) then cur else best),
     Run (-1) (r_len cur))
  else (best, cur).

Definition best_run (words : list Z) : run :=
  let '(best, cur) := foldl (run_step words) (Run (-1) 0, Run (-1) 0) (seqZ 0 8) in
  let best := if decide (r_base cur ≠ -1) then
                if decide (r_base best = -1 ∨ r_len cur > r_len best) then cur else best
              else best in
  if decide (r_base best ≠ -1 ∧ r_len best < 2) then Run (-1) (r_len best) else best.

(** The formatting loop over the remaining indices, [tp] being the text so
    far; [None] is the [return (NULL)] of a failing [inet_ntop4]. *)
Fixpoint ntop6_loop (idx : list Z) (src words : list Z) (best : run) (tp : list Z)
    : option (list Z) :=
  match idx with
  | [] => Some tp
  | i :: idx' =>
      if decide (r_base best ≠ -1 ∧ i >= r_base best ∧ i < r_base best + r_len best)
      then
        ntop6_loop idx' src words best
          (if decide (i = r_base best) then tp ++ [ch_colon] else tp)
      else
        let tp := if decide (i ≠ 0) then tp ++ [ch_colon] else tp in
        if decide (i = 6 ∧ r_base best = 0 ∧
                   (r_len best = 6 ∨ r_len best = 5 ∧ nth 5 words 0 = 65535))
        then
          match inet_ntop4 (drop 12 src) (INET6_ADDRSTRLEN - strlen tp) with
          | NtopOk stored => Some (tp ++ removelast stored)
          | NtopErr _ => None
          end
        else ntop6_loop idx' src words best (tp ++ fmt_x (nth (Z.to_nat i) words 0))
  end.

Definition inet_ntop6 (src : list Z) (size : Z) : ntop_result :=
  let words := words_of src in
  let best := best_run words in
  match ntop6_loop (seqZ 0 8) src words best [] with
  | None => NtopErr ENOSPC
  | Some tp =>
      let tp := if decide (r_base best ≠ -1 ∧ r_base best + r_len best = 8)
                then tp ++ [ch_colon] else tp in
      let tmp := tp ++ [0] in
      if decide (strlen tmp > size) then NtopErr ENOSPC else NtopOk tmp
  end.

Definition inet_ntop (af : Z) (src : list Z) (size : Z) : ntop_result :=
  if decide (af = AF_INET) then inet_ntop4 src size
  else if decide (af = AF_INET6) then inet_ntop6 src size
  else NtopErr EAFNOSUPPORT.

(** * Numerals and dotted quads *)

#[local] Arguments Z.to_nat : simpl nomatch.

Lemma digit_char_dec d : 0 <= d < 10 → is_digit (digit_char d) ∧ digit_char d - 48 = d.
Proof. intros Hd. unfold digit_char, is_digit. rewrite decide_True; lia. Qed.

Lemma digit_char_hex d : 0 <= d < 16 → is_xdigit (digit_char d) ∧ hexval (digit_char d) = d.
Proof.
  intros Hd. unfold digit_char, is_xdigit, hexval. repeat case_decide; lia.
Qed.

(** The numerals [sprintf] prints are fields of the parsers. *)
Lemma fmt_u_field b : 0 <= b <= 255 → dec_field (fmt_u b) b.
Proof.
  intros Hb. unfold fmt_u.
  assert (Hr : Forall (λ d, 0 <= d < 10) (digits 10 b)) by (apply digits_range; lia).
  split; [|split; [|split; [|lia]]].
  - intros ?%map_eq_nil. by eapply digits_ne.
  - apply Forall_map. eapply Forall_impl; [exact Hr|]. intros d Hd. simpl. by apply digit_char_dec.
  - unfold dec_val. rewrite map_map.
    rewrite (map_ext_Forall _ id), map_id, digits_val; try lia.
    eapply Forall_impl; [exact Hr|]. intros d Hd. simpl. by apply digit_char_dec.
Qed.

Lemma fmt_x_field v : 0 <= v <= 65535 → hex_field (fmt_x v) v.
Proof.
  intros Hb. unfold fmt_x.
  assert (Hr : Forall (λ d, 0 <= d < 16) (digits 16 v)) by (apply digits_range; lia).
  split; [|split; [|split; [|lia]]].
  - intros ?%map_eq_nil. by eapply digits_ne.
  - apply Forall_map. eapply Forall_impl; [exact Hr|]. intros d Hd. simpl. by apply digit_char_hex.
  - unfold hex_val. rewrite map_map.
    rewrite (map_ext_Forall _ id), map_id, digits_val; try lia.
    eapply Forall_impl; [exact Hr|]. intros d Hd. simpl. by apply digit_char_hex.
Qed.

Lemma fmt_u_length b : 0 <= b <= 255 → (length (fmt_u b) <= 3)%nat.
Proof. intros Hb. unfold fmt_u. rewrite length_map. apply digits_length; lia. Qed.

Lemma fmt_x_length v : 0 <= v <= 65535 → (length (fmt_x v) <= 4)%nat.
Proof. intros Hb. unfold fmt_x. rewrite length_map. apply digits_length; lia. Qed.

Lemma quad_join src :
  length src = 4%nat → quad src = join [ch_dot] (map fmt_u src).
Proof. destruct src as [|a [|b [|c [|d [|]]]]]; done. Qed.

Lemma quad_fields src : bytes src → Forall2 dec_field (map fmt_u src) src.
Proof.
  induction 1 as [|b src Hb Hs IH]; simpl; constructor; [|done].
  apply fmt_u_field. unfold is_byte in Hb. lia.
Qed.

Lemma quad_length src : bytes src → length src = 4%nat → strlen (quad src) <= 15.
Proof.
  intros Hb Hl. destruct src as [|a [|b [|c [|d [|]]]]]; try done.
  unfold bytes in Hb. rewrite !Forall_cons in Hb.
  destruct Hb as (Ha & Hb & Hc & Hd & _). unfold is_byte in *.
  unfold strlen, quad. cbn [nth]. rewrite !length_app. cbn [length].
  rewrite !length_app. cbn [length]. rewrite !length_app. cbn [length].
  pose proof (fmt_u_length a ltac:(lia)). pose proof (fmt_u_length b ltac:(lia)).
  pose proof (fmt_u_length c ltac:(lia)). pose proof (fmt_u_length d ltac:(lia)). lia.
Qed.

Lemma quad_pton4 src :
  bytes src → length src = 4%nat → inet_pton4 (quad src) = Some src.
Proof.
  intros Hb Hl. apply pton4_accepts. exists (map fmt_u src).
  rewrite length_map, quad_join by done. split; [done|]. split; [done|]. by apply quad_fields.
Qed.

Lemma ntop4_round_trip src size :
  bytes src → length src = 4%nat → INET_ADDRSTRLEN <= size →
  ∃ s, inet_ntop4 src size = NtopOk (s ++ [0]) ∧ inet_pton4 s = Some src ∧
       strlen (s ++ [0]) <= size.
Proof.
  intros Hb Hl Hs. pose proof (quad_length src Hb Hl) as Hq.
  unfold INET_ADDRSTRLEN in Hs. exists (quad src). split; [|split].
  - unfold inet_ntop4. by rewrite decide_False by lia.
  - by apply quad_pton4.
  - unfold strlen in *. rewrite length_app. simpl. lia.
Qed.

(** An IPv4 address printed into a buffer of [INET_ADDRSTRLEN] bytes or
    more is read back as the same four bytes, and the text and its NUL fit. *)
Theorem inet_ntop4_pton4 src size :
  bytes src → length src = 4%nat → INET_ADDRSTRLEN <= size →
  ∃ s, inet_ntop4 src size = NtopOk (s ++ [0]) ∧ inet_pton4 s = Some src ∧
       strlen (s ++ [0]) <= size.
Proof. apply ntop4_round_trip. Qed.

Lemma inet_ntop4_pton4_witness :
  ∃ s, inet_ntop4 [192; 168; 0; 255] 16 = NtopOk (s ++ [0]) ∧
       inet_pton4 s = Some [192; 168; 0; 255] ∧ strlen (s ++ [0]) <= 16.
Proof. apply inet_ntop4_pton4; by_decide. Defined.

(** The size test of [inet_ntop4] forgets the NUL: it refuses exactly when
    the text alone is longer than the buffer, and for a text as long as the
    buffer it stores one byte more than [size]; the test of
    [inet_ntop_ipv4.c] is the right one. *)
Theorem inet_ntop4_size src size :
  bytes src → length src = 4%nat →
  (strlen (quad src) > size → inet_ntop4 src size = NtopErr ENOSPC) ∧
  (strlen (quad src) < size →
     ∃ w, inet_ntop4 src size = NtopOk w ∧ strlen w <= size ∧
          inet_ntop_ipv4 AF_INET src size = NtopOk w) ∧
  (strlen (quad src) = size →
     (∃ w, inet_ntop4 src size = NtopOk w ∧ strlen w = size + 1) ∧
     inet_ntop_ipv4 AF_INET src size = NtopErr ENOSPC).
Proof.
  intros Hb Hl. pose proof (quad_length src Hb Hl) as Hq.
  assert (Hd : ∀ b, is_byte b → fmt_d b = fmt_u b).
  { intros b Hbb. unfold is_byte in Hbb. unfold fmt_d. by rewrite decide_False by lia. }
  assert (Hsame : snprintf_trunc INET_ADDRSTRLEN
      (fmt_d (nth 0 src 0) ++ ch_dot :: fmt_d (nth 1 src 0) ++ ch_dot ::
       fmt_d (nth 2 src 0) ++ ch_dot :: fmt_d (nth 3 src 0)) = quad src).
  { destruct src as [|a [|b [|c [|d [|]]]]]; try done. unfold bytes in Hb.
    rewrite !Forall_cons in Hb. destruct Hb as (Ha & Hb & Hc & Hdd & _).
    cbn [nth]. rewrite !Hd by done. apply snprintf_trunc_id.
    apply (Z.le_lt_trans _ 15); [exact Hq|reflexivity]. }
  unfold inet_ntop_ipv4. rewrite decide_True, Hsame by done. unfold inet_ntop4.
  assert (Hw : strlen (quad src ++ [0]) = strlen (quad src) + 1).
  { unfold strlen. rewrite length_app. simpl. lia. }
  split; [|split].
  - intros ?. by rewrite decide_True by lia.
  - intros ?. rewrite !decide_False by lia. exists (quad src ++ [0]).
    split; [done|]. split; [lia|done].
  - intros ?. rewrite decide_False, decide_True by lia. split; [|done].
    exists (quad src ++ [0]). split; [done|lia].
Qed.

Lemma inet_ntop4_size_witness :
  inet_ntop4 [1; 2; 3; 4] 6 = NtopErr ENOSPC ∧
  (∃ w, inet_ntop4 [1; 2; 3; 4] 7 = NtopOk w ∧ strlen w = 8).
Proof.
  split.
  - destruct (inet_ntop4_size [1; 2; 3; 4] 6) as [H _]; [by_decide..|].
    apply H. by_decide.
  - destruct (inet_ntop4_size [1; 2; 3; 4] 7) as (_ & _ & H); [by_decide..|].
    apply H. by_decide.
Defined.

(** * The words of an IPv6 address *)

Lemma bytes_lor x y : is_byte x → is_byte y → Z.lor (Z.shiftl x 8) y = x * 256 + y.
Proof.
  unfold is_byte. intros Hx Hy. rewrite Z.shiftl_mul_pow2 by lia. apply (lor_add x y 8); lia.
Qed.

Lemma be16_val x y : is_byte x → is_byte y → be16 (x * 256 + y) = [x; y].
Proof.
  unfold is_byte. intros Hx Hy. unfold be16.
  rewrite Z.div_add_l, (Z.div_small y), Z.add_0_r, (Z.mod_small x) by lia.
  rewrite Z.add_comm, Z.mod_add, (Z.mod_small y) by lia. done.
Qed.

Lemma words_of_spec src :
  bytes src → length src = 16%nat →
  src = groups (words_of src) ∧ length (words_of src) = 8%nat ∧
  Forall (λ w, 0 <= w <= 65535) (words_of src).
Proof.
  intros Hb Hl. do 17 (destruct src as [|? src]; try done). clear Hl.
  unfold bytes in Hb. rewrite !Forall_cons in Hb. destruct_and! Hb.
  match goal with |- context [words_of ?l] =>
    let t := eval lazy -[Z.lor Z.shiftl] in (words_of l) in change (words_of l) with t
  end.
  rewrite !Z.shiftl_0_l, !Z.shiftl_0_r, !Z.lor_0_l.
  change (Z.shiftl 1 3) with 8. rewrite !bytes_lor by done.
  split; [|split; [done|]].
  - unfold groups. cbn [map concat]. rewrite !be16_val by done. done.
  - unfold is_byte in *. repeat constructor; lia.
Qed.

(** * The longest run of zero words *)

Definition word (words : list Z) (i : Z) : Z := nth (Z.to_nat i) words 0.

(** [l] zero words from [b] on. *)
Definition zero_run (words : list Z) (b l : Z) : Prop :=
  0 <= b ∧ 1 <= l ∧ b + l <= 8 ∧ Forall (λ i, word words i = 0) (seqZ b l).

(** The run [::] stands for: the leftmost of the longest runs of at least two
    zero words. *)
Definition longest_run (words : list Z) (r : run) : Prop :=
  if decide (r_base r = -1) then
    Forall (λ b, Forall (λ l, zero_run words b l → l < 2) (seqZ 1 8)) (seqZ 0 8)
  else
    zero_run words (r_base r) (r_len r) ∧ 2 <= r_len r ∧
    Forall (λ b, Forall (λ l, zero_run words b l →
      l < r_len r ∨ l = r_len r ∧ r_base r <= b) (seqZ 1 8)) (seqZ 0 8).

#[global] Instance zero_run_dec ws b l : Decision (zero_run ws b l).
Proof. unfold zero_run. apply _. Defined.
#[global] Instance longest_run_dec ws r : Decision (longest_run ws r).
Proof. unfold longest_run. case_decide; apply _. Defined.

(** Only which words are zero matters. *)
Definition zpat (words : list Z) : list Z :=
  map (λ w, if decide (w = 0) then 0 else 1) words.

Lemma word_zpat ws i :
  0 <= i < Z.of_nat (length ws) → word (zpat ws) i = 0 ↔ word ws i = 0.
Proof.
  intros Hi. unfold word, zpat.
  rewrite (nth_indep _ 0 ((λ w, if decide (w = 0) then 0 else 1) 0))
    by (rewrite length_map; lia).
  rewrite (map_nth (λ w, if decide (w = 0) then 0 else 1)). case_decide; lia.
Qed.

Lemma best_run_zpat ws : length ws = 8%nat → best_run (zpat ws) = best_run ws.
Proof.
  intros Hl. unfold best_run. f_equal.
  assert (H : ∀ l st, Forall (λ i, 0 <= i < 8) l →
    foldl (run_step (zpat ws)) st l = foldl (run_step ws) st l).
  { induction l as [|i l IH]; intros st Hf; [done|].
    apply Forall_cons in Hf as [Hi Hf]. cbn [foldl]. rewrite IH by done. f_equal.
    destruct st as [best cur]. unfold run_step. fold (word (zpat ws) i) (word ws i).
    assert (Hz := word_zpat ws i ltac:(lia)).
    destruct (decide (word ws i = 0)) as [Hw|Hw].
    - by rewrite (decide_True (P := word (zpat ws) i = 0)) by (by apply Hz).
    - by rewrite (decide_False (P := word (zpat ws) i = 0)) by (by rewrite Hz). }
  rewrite H; [done|]. by_decide.
Qed.

Lemma zero_run_zpat ws b l :
  length ws = 8%nat → zero_run (zpat ws) b l ↔ zero_run ws b l.
Proof.
  intros Hl. unfold zero_run.
  split; intros (H0 & H1 & H2 & H); (split; [done|]; split; [done|]; split; [done|]);
    apply Forall_forall; intros i Hi; rewrite Forall_forall in H; specialize (H i Hi);
    apply elem_of_seqZ in Hi; apply (word_zpat ws i); (lia || done).
Qed.

Fixpoint patterns (n : nat) : list (list Z) :=
  match n with
  | O => [[]]
  | S n' => map (cons 0) (patterns n') ++ map (cons 1) (patterns n')
  end.

Lemma zpat_pattern ws : zpat ws ∈ patterns (length ws).
Proof.
  induction ws as [|w ws IH]; [set_solver|]. cbn [length patterns].
  apply elem_of_app. rewrite !list_elem_of_fmap.
  unfold zpat. cbn [map]. case_decide; [left|right]; eauto.
Qed.

Lemma best_run_patterns : Forall (λ ws, longest_run ws (best_run ws)) (patterns 8).
Proof. by_decide. Qed.

Lemma best_run_longest ws : length ws = 8%nat → longest_run ws (best_run ws).
Proof.
  intros Hl. pose proof (zpat_pattern ws) as Hp. rewrite Hl in Hp.
  pose proof best_run_patterns as H. rewrite Forall_forall in H.
  specialize (H _ Hp). rewrite best_run_zpat in H by done. revert H.
  unfold longest_run. case_decide.
  - intros H1. eapply Forall_impl; [exact H1|]. intros b H2.
    eapply Forall_impl; [exact H2|]. intros l H3 Hz. by apply H3, zero_run_zpat.
  - rewrite (zero_run_zpat ws) by done. intros (Hz & Hr & H1). split; [done|]. split; [done|].
    eapply Forall_impl; [exact H1|]. intros b H2.
    eapply Forall_impl; [exact H2|]. intros l H3 Hzr. by apply H3, zero_run_zpat.
Qed.

(** The loop over the words finds the leftmost longest run of at least two
    zero words, or says that there is none. *)
Theorem best_run_spec ws : length ws = 8%nat → longest_run ws (best_run ws).
Proof. apply best_run_longest. Qed.

Lemma best_run_spec_witness :
  longest_run [1; 0; 0; 2; 0; 0; 0; 3] (best_run [1; 0; 0; 2; 0; 0; 0; 3]) ∧
  best_run [1; 0; 0; 2; 0; 0; 0; 3] = Run 4 3.
Proof. split; [apply best_run_spec; done|reflexivity]. Defined.

(** * The text of an IPv6 address *)

(** The text [inet_ntop6] builds in [tmp], without its NUL. *)
Definition ntop6_text (src words : list Z) (best : run) : option (list Z) :=
  tp ← ntop6_loop (seqZ 0 8) src words best [];
  Some (if decide (r_base best ≠ -1 ∧ r_base best + r_len best = 8)
        then tp ++ [ch_colon] else tp).

(** The last six bytes are printed as a dotted quad. *)
Definition quad_case (words : list Z) (best : run) : Prop :=
  r_base best = 0 ∧ (r_len best = 6 ∨ r_len best = 5 ∧ nth 5 words 0 = 65535).

Lemma loop_in i idx src ws b l tp :
  b ≠ -1 → b <= i < b + l →
  ntop6_loop (i :: idx) src ws (Run b l) tp =
    ntop6_loop idx src ws (Run b l) (if decide (i = b) then tp ++ [ch_colon] else tp).
Proof. intros Hb Hi. cbn [ntop6_loop r_base r_len]. by rewrite decide_True by lia. Qed.

Lemma loop_hex i idx src ws b l tp :
  (b = -1 ∨ i < b ∨ b + l <= i) → (i = 6 → ¬ quad_case ws (Run b l)) →
  ntop6_loop (i :: idx) src ws (Run b l) tp =
    ntop6_loop idx src ws (Run b l)
      ((if decide (i ≠ 0) then tp ++ [ch_colon] else tp) ++ fmt_x (word ws i)).
Proof.
  intros Hb Hq. cbn [ntop6_loop r_base r_len]. rewrite decide_False by lia.
  rewrite decide_False; [done|]. intros (Hi & ? & ?). by apply Hq.
Qed.

Lemma loop_quad idx src ws b l tp :
  quad_case ws (Run b l) → bytes src → length src = 16%nat → strlen tp <= 29 →
  ntop6_loop (6 :: idx) src ws (Run b l) tp =
    Some (tp ++ ch_colon :: quad (drop 12 src)).
Proof.
  intros Hq Hb Hl Htp. assert (Hq' := Hq). destruct Hq' as [Hb0 Hl0]. simpl in Hb0, Hl0.
  cbn [ntop6_loop r_base r_len]. rewrite decide_False by lia.
  rewrite (decide_True (P := 6 ≠ 0)) by lia.
  rewrite decide_True by done.
  unfold inet_ntop4.
  pose proof (quad_length (drop 12 src) (Forall_drop _ 12 _ Hb)) as Hlen.
  rewrite length_drop in Hlen. specialize (Hlen ltac:(lia)).
  rewrite decide_False.
  - rewrite removelast_last, <-app_assoc. done.
  - unfold strlen in *. unfold INET6_ADDRSTRLEN. rewrite length_app. simpl. lia.
Qed.

(** Run the loop on the concrete indices. *)
Ltac run_loop :=
  unfold ntop6_text; change (seqZ 0 8) with [0; 1; 2; 3; 4; 5; 6; 7];
  repeat first
    [ rewrite loop_in by lia
    | rewrite loop_hex by first [lia | intros ?; done | unfold quad_case; simpl; lia] ];
  cbn [ntop6_loop mbind option_bind r_base r_len].

Lemma ntop6_text_norun src ws :
  length ws = 8%nat →
  ntop6_text src ws (Run (-1) 0) = Some (join [ch_colon] (map fmt_x ws)).
Proof.
  intros Hl. do 9 (destruct ws as [|? ws]; try done).
  run_loop. f_equal. lazy -[fmt_x app]. rewrite <-?app_assoc. done.
Qed.

Lemma ntop6_text_run src ws b l :
  length ws = 8%nat → 0 <= b → 2 <= l → b + l <= 8 → ¬ quad_case ws (Run b l) →
  ntop6_text src ws (Run b l) =
    Some (join [ch_colon] (map fmt_x (take (Z.to_nat b) ws)) ++ str "::" ++
          join [ch_colon] (map fmt_x (drop (Z.to_nat (b + l)) ws))).
Proof.
  intros Hlen Hb Hl Hbl Hq. do 9 (destruct ws as [|? ws]; try done).
  assert (Hc : b ∈ [0;1;2;3;4;5;6]).
  { change [0;1;2;3;4;5;6] with (seqZ 0 7). apply elem_of_seqZ. lia. }
  assert (Hc' : l ∈ [2;3;4;5;6;7;8]).
  { change [2;3;4;5;6;7;8] with (seqZ 2 7). apply elem_of_seqZ. lia. }
  rewrite !elem_of_cons in Hc, Hc'.
  destruct_or! Hc; destruct_or! Hc'; subst; try lia; try set_solver.
  all: run_loop; f_equal; lazy -[fmt_x app]; rewrite <-?app_assoc; done.
Qed.

Lemma ntop6_text_quad src ws b l :
  length ws = 8%nat → quad_case ws (Run b l) → bytes src → length src = 16%nat →
  ntop6_text src ws (Run b l) =
    Some (str "::" ++
          concat (map (λ f, f ++ [ch_colon]) (if decide (l = 5) then [fmt_x 65535] else [])) ++
          quad (drop 12 src)).
Proof.
  intros Hlen Hq Hb Hl. assert (Hq' := Hq). destruct Hq' as [Hb0 Hl0].
  simpl in Hb0, Hl0. subst b.
  unfold ntop6_text; change (seqZ 0 8) with [0; 1; 2; 3; 4; 5; 6; 7].
  destruct Hl0 as [-> | [-> Hw]].
  - rewrite !loop_in by lia. rewrite loop_quad by done. done.
  - rewrite !loop_in by lia. rewrite loop_hex by lia.
    unfold word. change (Z.to_nat 5) with 5%nat. rewrite Hw.
    rewrite loop_quad by done. done.
Qed.

Lemma map_fmt_x_fields ws :
  Forall (λ w, 0 <= w <= 65535) ws → Forall2 hex_field (map fmt_x ws) ws.
Proof. induction 1; simpl; constructor; [by apply fmt_x_field|done]. Qed.

Lemma groups_zero n : groups (repeat 0 n) = repeat 0 (2 * n).
Proof.
  induction n as [|n IH]; [done|]. unfold groups in *. cbn [repeat map concat].
  rewrite IH. replace (2 * S n)%nat with (S (S (2 * n))) by lia. done.
Qed.

Lemma fmt_x_join_length ws :
  Forall (λ w, 0 <= w <= 65535) ws →
  (length (join [ch_colon] (map fmt_x ws)) <= 5 * length ws)%nat.
Proof.
  intros H. pose proof (join_length ch_colon (map fmt_x ws) 4) as Hj.
  rewrite length_map in Hj. apply Hj. apply Forall_map.
  eapply Forall_impl; [exact H|]. intros w Hw. by apply fmt_x_length.
Qed.

(** The words of a zero run are zero bytes. *)
Lemma zero_run_groups ws b l :
  length ws = 8%nat → zero_run ws b l →
  groups ws = groups (take (Z.to_nat b) ws) ++ repeat 0 (2 * Z.to_nat l) ++
              groups (drop (Z.to_nat (b + l)) ws).
Proof.
  intros Hlen (Hb & Hl & Hbl & Hz).
  assert (Hmid : take (Z.to_nat l) (drop (Z.to_nat b) ws) = repeat 0 (Z.to_nat l)).
  { apply list_eq. intros i. destruct (decide (i < Z.to_nat l)%nat) as [Hi|Hi].
    - rewrite lookup_take_lt, lookup_drop by done.
      rewrite lookup_repeat_lt by done.
      rewrite Forall_forall in Hz. specialize (Hz (b + Z.of_nat i)).
      unfold word in Hz. rewrite nth_lookup in Hz.
      replace (Z.to_nat (b + Z.of_nat i)) with (Z.to_nat b + i)%nat in Hz by lia.
      destruct (ws !! (Z.to_nat b + i)%nat) as [w|] eqn:Hw.
      + simpl in Hz. f_equal. apply Hz. apply elem_of_seqZ. lia.
      + apply lookup_ge_None in Hw. lia.
    - rewrite lookup_take_ge by lia. symmetry. apply lookup_ge_None.
      rewrite repeat_length. lia. }
  rewrite <-(take_drop (Z.to_nat b) ws) at 1.
  rewrite <-(take_drop (Z.to_nat l) (drop (Z.to_nat b) ws)), Hmid, drop_drop.
  replace (Z.to_nat b + Z.to_nat l)%nat with (Z.to_nat (b + l)) by lia.
  rewrite !groups_app. f_equal. f_equal. apply groups_zero.
Qed.

(** The text, its length, and what [inet_pton6] reads from it. *)
Lemma ntop6_text_spec src ws r :
  bytes src → length src = 16%nat → src = groups ws → length ws = 8%nat →
  Forall (λ w, 0 <= w <= 65535) ws → longest_run ws r → (r_base r = -1 → r_len r = 0) →
  ∃ s, ntop6_text src ws r = Some s ∧ inet_pton6 s = Some src ∧ strlen s <= 40.
Proof.
  intros Hb Hl Hg Hlen Hr Hrun Hr0. assert (Hf := map_fmt_x_fields ws Hr).
  unfold strlen.
  destruct r as [b l]. unfold longest_run in Hrun. simpl in Hrun, Hr0.
  case_decide as Hbase.
  { rewrite Hbase, (Hr0 Hbase), ntop6_text_norun by done. eexists. split; [done|].
    rewrite (pton6_full _ ws); [|by rewrite length_map|done].
    split; [by rewrite Hg|]. pose proof (fmt_x_join_length ws Hr). lia. }
  destruct Hrun as (Hz & Hl2 & _). assert (Hz' := Hz). destruct Hz' as (Hb0 & _ & Hbl & _).
  assert (Hgr := zero_run_groups ws b l Hlen Hz). rewrite <-Hg in Hgr.
  destruct (decide (quad_case ws (Run b l))) as [Hq|Hq].
  - rewrite ntop6_text_quad by done. eexists. split; [done|].
    assert (Hd12 : length (drop 12 src) = 4%nat) by (rewrite length_drop; lia).
    rewrite quad_join by done.
    assert (Hqf := quad_fields (drop 12 src) (Forall_drop _ 12 _ Hb)).
    destruct Hq as [Hb0' Hl']. simpl in Hb0', Hl'. subst b. simpl in Hgr.
    rewrite (inet_pton6_tail _ (if decide (l = 5) then [65535] else []) _ (drop 12 src));
      [|case_decide; [constructor; [by apply fmt_x_field|constructor]|constructor]
       |by case_decide; simpl; lia|by rewrite length_map|done].
    assert (Hc : (length (concat (map (λ f, f ++ [ch_colon])
      (if decide (l = 5)%Z then [fmt_x 65535%Z] else []))) <= 5)%nat) by (case_decide; by_decide).
    assert (Hql := quad_length (drop 12 src) (Forall_drop _ 12 _ Hb) Hd12).
    unfold strlen in Hql. rewrite quad_join in Hql by done.
    split; [|rewrite !length_app; change (length (str "::")) with 2%nat; lia].
    clear Hql Hc.
    f_equal. rewrite <-(take_drop 12 src) at 2. rewrite app_assoc. f_equal.
    destruct Hl' as [-> | [-> Hw]]; rewrite Hgr.
    + simpl. done.
    + do 9 (destruct ws as [|? ws]; try done). simpl in Hw. subst. done.
  - rewrite ntop6_text_run by (done || lia). eexists. split; [done|].
    rewrite (pton6_gap _ _ (take (Z.to_nat b) ws) (drop (Z.to_nat (b + l)) ws)).
    + split; [rewrite Hgr, !length_map, length_take, length_drop; do 4 f_equal; lia|].
      pose proof (fmt_x_join_length _ (Forall_take _ (Z.to_nat b) _ Hr)) as H1.
      pose proof (fmt_x_join_length _ (Forall_drop _ (Z.to_nat (b + l)) _ Hr)) as H2.
      rewrite length_take in H1. rewrite length_drop in H2.
      rewrite !length_app. cbn [str length]. lia.
    + apply map_fmt_x_fields. by apply Forall_take.
    + apply map_fmt_x_fields. by apply Forall_drop.
    + rewrite !length_map, length_take, length_drop. lia.
Qed.

Lemma best_run_norun ws : length ws = 8%nat → r_base (best_run ws) = -1 →
  ∀ src, ntop6_text src ws (best_run ws) = ntop6_text src ws (Run (-1) 0).
Proof.
  intros _ Hb src. destruct (best_run ws) as [b l]. simpl in Hb. subst b.
  unfold ntop6_text. cbn [r_base].
  assert (Hq : ∀ k, ¬ quad_case ws (Run (-1) k)) by (intros k [H _]; done).
  change (seqZ 0 8) with [0; 1; 2; 3; 4; 5; 6; 7].
  rewrite !loop_hex by (by left || (intros _; apply Hq)).
  cbn [ntop6_loop mbind option_bind r_base r_len]. rewrite !decide_False by naive_solver. done.
Qed.

Lemma longest_run_none ws r :
  longest_run ws r → r_base r = -1 → longest_run ws (Run (-1) 0).
Proof.
  unfold longest_run. intros H Hr. rewrite decide_True in H by exact Hr.
  rewrite decide_True by reflexivity. exact H.
Qed.

Lemma inet_ntop6_text src size :
  inet_ntop6 src size =
    match ntop6_text src (words_of src) (best_run (words_of src)) with
    | None => NtopErr ENOSPC
    | Some s => if decide (strlen (s ++ [0]) > size) then NtopErr ENOSPC
                else NtopOk (s ++ [0])
    end.
Proof.
  unfold inet_ntop6, ntop6_text. generalize (words_of src). intros ws.
  generalize (best_run ws). intros r. generalize (ntop6_loop (seqZ 0 8) src ws r []).
  intros [tp|]; reflexivity.
Qed.

Lemma ntop6_round_trip src size :
  bytes src → length src = 16%nat → INET6_ADDRSTRLEN <= size →
  ∃ s, inet_ntop6 src size = NtopOk (s ++ [0]) ∧ inet_pton6 s = Some src ∧
       strlen (s ++ [0]) <= INET6_ADDRSTRLEN.
Proof.
  intros Hb Hl Hs. destruct (words_of_spec src Hb Hl) as (Hg & Hlen & Hr).
  pose proof (best_run_longest _ Hlen) as Hrun.
  assert (Ht : ∃ s, ntop6_text src (words_of src) (best_run (words_of src)) = Some s ∧
                    inet_pton6 s = Some src ∧ strlen s <= 40).
  { destruct (decide (r_base (best_run (words_of src)) = -1)) as [Hm|Hm].
    - rewrite best_run_norun by done.
      exact (ntop6_text_spec src _ _ Hb Hl Hg Hlen Hr (longest_run_none _ _ Hrun Hm)
               (λ _, eq_refl)).
    - exact (ntop6_text_spec src _ _ Hb Hl Hg Hlen Hr Hrun (λ H, False_ind _ (Hm H))). }
  destruct Ht as (s & Ht & Hp & Hle). exists s.
  assert (Hs1 : strlen (s ++ [0]) <= 41).
  { unfold strlen in *. rewrite length_app. simpl. lia. }
  unfold INET6_ADDRSTRLEN in *. split; [|split; [done|lia]].
  rewrite inet_ntop6_text, Ht. apply decide_False. lia.
Qed.

(** C2: an IPv6 address printed into a buffer of [INET6_ADDRSTRLEN] bytes or
    more is read back by [inet_pton6] as the same sixteen bytes (with [::], and
    with the dotted quad of the compatible and mapped addresses), and the
    internal buffer of 46 bytes holds the text. *)
Theorem inet_ntop6_pton6 src size :
  bytes src → length src = 16%nat → INET6_ADDRSTRLEN <= size →
  ∃ s, inet_ntop6 src size = NtopOk (s ++ [0]) ∧ inet_pton6 s = Some src ∧
       strlen (s ++ [0]) <= INET6_ADDRSTRLEN.
Proof. apply ntop6_round_trip. Qed.

Lemma inet_ntop6_pton6_witness :
  ∃ s, inet_ntop6 (repeat 0 10 ++ [255; 255; 10; 0; 0; 1]) 46 = NtopOk (s ++ [0]) ∧
       inet_pton6 s = Some (repeat 0 10 ++ [255; 255; 10; 0; 0; 1]) ∧
       strlen (s ++ [0]) <= INET6_ADDRSTRLEN.
Proof. apply inet_ntop6_pton6; by_decide. Defined.
