(* ===== verification/InetAton.v ===== *)
(** [libfree/inet_aton.c] and [libfree/inet_pton_ipv4.c]: the older parser of
    IPv4 addresses. *)

From S2P Require Import Prelude Net Sys InetPton.

(** * inet_aton *)

(** The [do ... while ( *cp++)] loop from the locals [dots], [acc] and [addr],
    both 64-bit [u_long]s; [None] is [return 0]. *)
Fixpoint aton_loop (cp : list Z) (dots acc addr : Z) : option (Z * Z) :=
  match cp with
  | [] => if decide (acc > 255) then None
          else Some (dots, Z.lor (u64 (Z.shiftl addr 8)) acc)
  | cc :: cp' =>
      if decide (is_digit cc) then aton_loop cp' dots (u64 (acc * 10 + (cc - ch_zero))) addr
      else if decide (cc = ch_dot) then
        if decide (dots + 1 > 3) then None
        else if decide (acc > 255) then None
        else aton_loop cp' (dots + 1) 0 (Z.lor (u64 (Z.shiftl addr 8)) acc)
      else None
  end.

(** [ap->s_addr] on success. *)
Definition inet_aton (cp : list Z) : option Z :=
  '(dots, addr) ← aton_loop cp 0 0 0;
  let addr := if decide (dots < 3) then u64 (Z.shiftl addr (8 * (3 - dots))) else addr in
  Some (htonl addr).

(** The bytes in memory of a 32-bit integer of a little-endian host. *)
Definition mem32 (x : Z) : list Z :=
  [x mod 256; (x / 2 ^ 8) mod 256; (x / 2 ^ 16) mod 256; (x / 2 ^ 24) mod 256].

(** [inet_pton_ipv4.c] *)
Definition inet_pton_ipv4 (family : Z) (strptr : list Z) : pton_result :=
  if decide (family = AF_INET) then
    match inet_aton strptr with
    | Some in_val => Pton1 (mem32 in_val)
    | None => Pton0
    end
  else PtonErr EAFNOSUPPORT.

(** * Properties *)

(** A field of the older parser: digits, possibly none, whose value is taken
    modulo [2^64] before it is compared with 255. *)
Definition aton_field (f : list Z) (v : Z) : Prop :=
  Forall is_digit f ∧ dec_val f mod 2 ^ 64 = v ∧ v <= 255.

#[global] Instance aton_field_dec f v : Decision (aton_field f v).
Proof. unfold aton_field. apply _. Defined.

(** [addr = addr << 8 | acc] over the fields. *)
Definition aton_addr (addr : Z) (vs : list Z) : Z :=
  foldl (λ a v, Z.lor (u64 (Z.shiftl a 8)) v) addr vs.

Definition aton_acc (acc : Z) (f : list Z) : Z :=
  foldl (λ a c, u64 (a * 10 + (c - ch_zero))) acc f.

Lemma aton_acc_mod acc f :
  aton_acc (acc mod 2 ^ 64) f = dec_acc acc f mod 2 ^ 64.
Proof.
  revert acc. induction f as [|c f IH]; intros acc; [done|].
  unfold aton_acc, dec_acc in *. cbn [foldl]. rewrite <-IH. f_equal. unfold u64.
  rewrite Z.add_mod, Z.mul_mod, Z.mod_mod, <-Z.mul_mod, <-Z.add_mod by lia. done.
Qed.

Lemma aton_acc_field f : aton_acc 0 f = dec_val f mod 2 ^ 64.
Proof. rewrite <-dec_acc_0. exact (aton_acc_mod 0 f). Qed.

Lemma aton_loop_digits f src dots acc addr :
  Forall is_digit f →
  aton_loop (f ++ src) dots acc addr = aton_loop src dots (aton_acc acc f) addr.
Proof.
  intros Hf. revert acc. induction Hf as [|c f Hc Hf IH]; intros acc; [done|].
  cbn [app aton_loop]. rewrite decide_True by done. apply IH.
Qed.

Lemma aton_loop_sound src dots acc addr d a :
  aton_loop src dots acc addr = Some (d, a) → dots <= 3 →
  ∃ f fs vs, src = f ++ concat (map (cons ch_dot) fs) ∧ Forall is_digit f ∧
    aton_acc acc f <= 255 ∧ Forall2 aton_field fs vs ∧
    d = dots + Z.of_nat (length fs) ∧ d <= 3 ∧
    a = aton_addr addr (aton_acc acc f :: vs).
Proof.
  revert dots acc addr. induction src as [|c src IH]; intros dots acc addr; cbn [aton_loop].
  - case_decide; [done|]. intros [= <- <-] Hd. exists [], [], []. cbn.
    split_and!; try done; lia.
  - case_decide as Hc.
    + intros H Hd. destruct (IH _ _ _ H Hd) as (f & fs & vs & -> & Hf & Hle & Hfs & -> & ? & ->).
      exists (c :: f), fs, vs. split_and!; try done. by constructor.
    + case_decide as Hdot; [|done]. case_decide; [done|]. case_decide; [done|].
      intros H' Hd. subst c.
      destruct (IH _ _ _ H' ltac:(lia)) as (f & fs & vs & -> & Hf & Hle & Hfs & -> & ? & ->).
      rewrite aton_acc_field in *.
      exists [], (f :: fs), (dec_val f mod 2 ^ 64 :: vs). cbn [length].
      split_and!; try done; try (cbn; lia). by constructor.
Qed.

Lemma aton_loop_complete fs vs dots acc addr :
  Forall2 aton_field fs vs → dots + Z.of_nat (length fs) <= 3 → acc <= 255 →
  aton_loop (concat (map (cons ch_dot) fs)) dots acc addr =
    Some (dots + Z.of_nat (length fs), aton_addr addr (acc :: vs)).
Proof.
  intros Hfs. revert dots acc addr.
  induction Hfs as [|f v fs vs (Hf & Hv & Hle) Hfs IH]; intros dots acc addr Hd Hacc.
  - cbn. rewrite decide_False by lia. do 2 f_equal. lia.
  - cbn [map concat app aton_loop length] in *. rewrite decide_False by (unfold is_digit; lia).
    rewrite decide_True by done. rewrite !decide_False by lia.
    rewrite aton_loop_digits, aton_acc_field, Hv by done.
    rewrite IH by lia. do 2 f_equal. lia.
Qed.

(** The bytes that the fields of an accepted string give. *)
Lemma aton_addr_bytes vs :
  bytes vs → (1 <= length vs <= 4)%nat →
  let d := Z.of_nat (length vs) - 1 in
  let a := aton_addr 0 vs in
  mem32 (htonl (if decide (d < 3) then u64 (Z.shiftl a (8 * (3 - d))) else a)) =
    vs ++ repeat 0 (4 - length vs).
Proof.
  assert (Hstep : ∀ a v, 0 <= a < 2 ^ 24 → is_byte v →
            Z.lor (u64 (Z.shiftl a 8)) v = a * 256 + v).
  { unfold is_byte. intros a v Ha Hv. unfold u64. rewrite Z.shiftl_mul_pow2 by lia.
    rewrite Z.mod_small by lia. apply (lor_add a v 8); lia. }
  assert (Hmem : ∀ w x y z, is_byte w → is_byte x → is_byte y → is_byte z →
            mem32 (htonl (((w * 256 + x) * 256 + y) * 256 + z)) = [w; x; y; z]).
  { unfold is_byte. intros. unfold mem32, htonl, swap32, u32.
    rewrite (Z.mod_small (((w * 256 + x) * 256 + y) * 256 + z)) by lia.
    change (2 ^ 8) with 256. change (2 ^ 16) with (256 * 256).
    change (2 ^ 24) with (256 * 256 * 256).
    repeat f_equal; Z.div_mod_to_equations; lia. }
  intros Hb Hlen d a. unfold bytes in Hb.
  destruct vs as [|w [|x [|y [|z [|]]]]]; simpl in Hlen; try lia;
    rewrite ?Forall_cons in Hb; destruct_and? Hb; subst a d; cbn [length];
    unfold aton_addr; cbn [foldl]; unfold is_byte in *.
  all: change (Z.lor (u64 (Z.shiftl 0 8)) w) with w.
  all: rewrite ?(Hstep w x), ?(Hstep (w * 256 + x) y), ?(Hstep ((w * 256 + x) * 256 + y) z)
    by (unfold is_byte; lia).
  all: try (rewrite decide_False by lia; rewrite Hmem by (unfold is_byte; lia); done).
  all: rewrite decide_True by lia; unfold u64; rewrite Z.shiftl_mul_pow2 by lia;
    rewrite Z.mod_small by lia.
  - replace (w * 2 ^ (8 * (3 - (Z.of_nat 1 - 1)))) with (((w * 256 + 0) * 256 + 0) * 256 + 0) by lia.
    rewrite Hmem by (unfold is_byte; lia). done.
  - replace ((w * 256 + x) * 2 ^ (8 * (3 - (Z.of_nat 2 - 1))))
      with (((w * 256 + x) * 256 + 0) * 256 + 0) by lia.
    rewrite Hmem by (unfold is_byte; lia). done.
  - replace (((w * 256 + x) * 256 + y) * 2 ^ (8 * (3 - (Z.of_nat 3 - 1))))
      with (((w * 256 + x) * 256 + y) * 256 + 0) by lia.
    rewrite Hmem by (unfold is_byte; lia). done.
Qed.

Lemma aton_field_bytes fs vs : Forall2 aton_field fs vs → bytes vs.
Proof.
  induction 1 as [|f v fs vs (Hf & Hv & Hle) Hfs IH]; constructor; [|done].
  unfold is_byte. pose proof (Z.mod_pos_bound (dec_val f) (2 ^ 64)). lia.
Qed.

(** What the parser returns on fields that it accepts. *)
Lemma inet_aton_fields fs vs :
  (1 <= length fs <= 4)%nat → Forall2 aton_field fs vs →
  ∃ a, inet_aton (join [ch_dot] fs) = Some (htonl a) ∧
    mem32 (htonl a) = vs ++ repeat 0 (4 - length fs).
Proof.
  intros Hlen Hall. assert (Hb := aton_field_bytes _ _ Hall).
  assert (Hl := Forall2_length _ _ _ Hall).
  destruct Hall as [|f v fs vs (Hf & Hv & Hle) Hfs]; [simpl in Hlen; lia|]. cbn [length] in *.
  unfold inet_aton. rewrite join_cons, aton_loop_digits, aton_acc_field, Hv by done.
  rewrite (aton_loop_complete fs vs) by (done || lia). cbn [mbind option_bind].
  eexists. split; [reflexivity|]. pose proof (aton_addr_bytes (v :: vs) Hb) as H.
  cbn [length] in H. specialize (H ltac:(lia)). cbn zeta in H.
  replace (Z.of_nat (S (length vs)) - 1) with (0 + Z.of_nat (length fs)) in H by lia.
  rewrite <-Hl in H. exact H.
Qed.

Lemma inet_aton_accepts cp a :
  inet_aton cp = Some a →
  ∃ fs vs, cp = join [ch_dot] fs ∧ (1 <= length fs <= 4)%nat ∧ Forall2 aton_field fs vs.
Proof.
  unfold inet_aton. destruct (aton_loop cp 0 0 0) as [[d addr]|] eqn:Hl; [|done].
  intros _. destruct (aton_loop_sound _ _ _ _ _ _ Hl ltac:(lia))
    as (f & fs & vs & -> & Hf & Hle & Hfs & -> & Hd & ->).
  rewrite aton_acc_field in *. exists (f :: fs), (dec_val f mod 2 ^ 64 :: vs). cbn [length].
  split; [by rewrite join_cons|]. split; [lia|]. by repeat constructor.
Qed.

Lemma htonl_range x : 0 <= htonl x < 2 ^ 32.
Proof.
  unfold htonl, swap32, u32. change (2 ^ 32) with (256 * (256 * (256 * 256))).
  change (2 ^ 24) with (256 * (256 * 256)). change (2 ^ 16) with (256 * 256).
  change (2 ^ 8) with 256. Z.div_mod_to_equations; lia.
Qed.

(** A 32-bit integer is determined by its bytes. *)
Lemma mem32_inj x y : 0 <= x < 2 ^ 32 → 0 <= y < 2 ^ 32 → mem32 x = mem32 y → x = y.
Proof.
  unfold mem32. change (2 ^ 32) with (256 * (256 * (256 * 256))).
  change (2 ^ 24) with (256 * (256 * 256)). change (2 ^ 16) with (256 * 256).
  change (2 ^ 8) with 256. intros Hx Hy [= H0 H1 H2 H3]. Z.div_mod_to_equations; lia.
Qed.

(** C3: [inet_aton] accepts a string exactly when it is one to four
    dot-separated fields of digits whose values modulo [2^64] are at most 255
    (empty fields included), and the address it stores is the 32-bit value
    whose bytes in memory are those values, followed by zero bytes when fields
    are missing; every other string is refused. *)
Theorem inet_aton_spec cp a :
  inet_aton cp = Some a ↔
  0 <= a < 2 ^ 32 ∧
  ∃ fs vs, cp = join [ch_dot] fs ∧ (1 <= length fs <= 4)%nat ∧
    Forall2 aton_field fs vs ∧ mem32 a = vs ++ repeat 0 (4 - length fs).
Proof.
  split.
  - intros H. destruct (inet_aton_accepts _ _ H) as (fs & vs & -> & Hlen & Hall).
    destruct (inet_aton_fields _ _ Hlen Hall) as (a' & H' & Hm).
    rewrite H' in H. injection H as <-. split; [apply htonl_range|]. by exists fs, vs.
  - intros (Ha & fs & vs & -> & Hlen & Hall & Hm).
    destruct (inet_aton_fields _ _ Hlen Hall) as (a' & -> & Hm').
    f_equal. apply mem32_inj; [apply htonl_range|done|congruence].
Qed.

Lemma inet_aton_spec_witness :
  inet_aton (str "127.1") = Some (htonl (127 * 2 ^ 24 + 1 * 2 ^ 16)).
Proof.
  apply inet_aton_spec. split; [vm_compute; split; congruence|].
  exists [str "127"; str "1"], [127; 1]. split; [reflexivity|]. split; [simpl; lia|].
  split; [|vm_compute; reflexivity].
  repeat (apply Forall2_cons; split; [apply (bool_decide_unpack _); vm_compute; exact I|]).
  apply Forall2_nil; exact I.
Defined.

(** On every dotted quad that [inet_pton4] accepts the two parsers store
    the same four bytes; but the older one also accepts fields that overflow
    the 64-bit accumulator. *)
Theorem inet_pton_ipv4_agrees src b :
  (inet_pton4 src = Some b → inet_pton_ipv4 AF_INET src = Pton1 b) ∧
  inet_pton4 (str "1.2.3.18446744073709551620") = None ∧
  inet_pton_ipv4 AF_INET (str "1.2.3.18446744073709551620") = Pton1 [1; 2; 3; 4].
Proof.
  split; [|split; reflexivity].
  intros (fs & Hlen & -> & Hfs)%pton4_accepts.
  assert (Hfs' : Forall2 aton_field fs b).
  { eapply Forall2_impl; [exact Hfs|]. intros f v (Hne & Hd & Hv & Hle).
    pose proof (dec_val_nonneg f Hd). split; [done|]. split; [|done].
    rewrite Hv. apply Z.mod_small. lia. }
    destruct (inet_aton_fields fs b ltac:(lia) Hfs') as (a & H & Hm).
  unfold inet_pton_ipv4. rewrite decide_True by done. rewrite H, Hm, Hlen. f_equal.
  apply app_nil_r.
Qed.

Lemma inet_pton_ipv4_agrees_witness :
  inet_pton_ipv4 AF_INET (str "10.0.0.255") = Pton1 [10; 0; 0; 255].
Proof. apply (inet_pton_ipv4_agrees (str "10.0.0.255")). reflexivity. Defined.
