(* ===== verification/Cksum.v ===== *)
(** [libfree/in_cksum.c]: the Internet checksum, on a little-endian host. *)

From S2P Require Import Prelude Net.

(** * in_cksum *)

(** The [while (nleft > 1)] loop and the odd byte: [w] walks over 16-bit words
    in host order, and [sum] is a [uint32_t]. *)
Fixpoint cksum_sum (w : list Z) (sum : Z) : Z :=
  match w with
  | b0 :: b1 :: w' => cksum_sum w' (u32 (sum + (b0 + 256 * b1)))
  | [b] => u32 (sum + b)
  | [] => sum
  end.

Definition in_cksum (addr : list Z) : Z :=
  let sum := cksum_sum addr 0 in
  let sum := u32 (Z.shiftr sum 16 + Z.land sum 65535) in
  let sum := u32 (sum + Z.shiftr sum 16) in
  u16 (Z.lnot sum).

(** * Specification: RFC 1071, on the words in network order *)

Fixpoint be_sum (l : list Z) : Z :=
  match l with
  | b0 :: b1 :: l' => 256 * b0 + b1 + be_sum l'
  | [b] => 256 * b
  | [] => 0
  end.

(** One's complement addition folds carries back, so that the sum of [n] is its
    residue modulo [2^16 - 1], zero being represented by [65535] unless [n] is
    zero itself. *)
Definition ones_fold (n : Z) : Z :=
  if decide (n = 0) then 0 else 1 + (n - 1) mod 65535.

Definition rfc1071 (l : list Z) : Z := 65535 - ones_fold (be_sum l).

(** * Lemmas *)

Fixpoint le_sum (l : list Z) : Z :=
  match l with
  | b0 :: b1 :: l' => b0 + 256 * b1 + le_sum l'
  | [b] => b
  | [] => 0
  end.

(** Induction over pairs of bytes. *)
Lemma pair_ind (P : list Z → Prop) :
  P [] → (∀ b, P [b]) → (∀ b0 b1 l, P l → P (b0 :: b1 :: l)) → ∀ l, P l.
Proof.
  intros H0 H1 H2 l. enough (P l ∧ ∀ b, P (b :: l)) by tauto.
  induction l as [|b l [IH1 IH2]]; [auto|]. split; [apply IH2|]. intros b'. by apply H2.
Qed.

Lemma le_sum_bound l :
  bytes l → 0 <= le_sum l ∧ 2 * le_sum l <= 65535 * (Z.of_nat (length l) + 1).
Proof.
  unfold bytes. induction l as [|b|b0 b1 l IH] using pair_ind; rewrite ?Forall_cons;
    unfold is_byte in *; cbn [le_sum length]; intros; destruct_and?; [lia|lia|].
  destruct IH; [done|]. lia.
Qed.

Lemma cksum_sum_exact l s :
  bytes l → 0 <= s → s + le_sum l < 2 ^ 32 → cksum_sum l s = s + le_sum l.
Proof.
  unfold bytes. revert s.
  induction l as [|b|b0 b1 l IH] using pair_ind; intros s; cbn [le_sum cksum_sum];
    rewrite ?Forall_cons; unfold is_byte in *; intros; destruct_and?.
  - lia.
  - unfold u32. rewrite Z.mod_small; lia.
  - destruct (le_sum_bound l) as [? _]; [done|]. unfold u32.
    rewrite Z.mod_small, IH by (done || lia). lia.
Qed.

Lemma ones_fold_range n : 0 <= n → 0 <= ones_fold n <= 65535.
Proof.
  intros Hn. unfold ones_fold. case_decide; [lia|].
  pose proof (Z.mod_pos_bound (n - 1) 65535). lia.
Qed.

(** The two folding steps of the code compute [ones_fold]. *)
Lemma fold_steps n :
  0 <= n < 2 ^ 32 →
  let s := u32 (Z.shiftr n 16 + Z.land n 65535) in
  u32 (s + Z.shiftr s 16) mod 2 ^ 16 = ones_fold n.
Proof.
  intros Hn. change 65535 with (Z.ones 16). rewrite Z.land_ones by lia.
  cbn zeta. rewrite !Z.shiftr_div_pow2 by lia. unfold u32, ones_fold.
  change (2 ^ 16) with 65536. change (2 ^ 32) with 4294967296 in *.
  case_decide; [subst; done|]. Z.div_mod_to_equations. lia.
Qed.

Lemma in_cksum_val l :
  bytes l → Z.of_nat (length l) <= 131072 → in_cksum l = 65535 - ones_fold (le_sum l).
Proof.
  intros Hb Hl. destruct (le_sum_bound l Hb) as [H0 H1].
  unfold in_cksum. rewrite cksum_sum_exact by (done || lia). rewrite Z.add_0_l.
  pose proof (fold_steps (le_sum l) ltac:(lia)) as Hf. cbn zeta in *.
  set (s := u32 (Z.shiftr _ 16 + _)) in *. set (t := u32 (s + _)) in *.
  unfold u16, Z.lnot. rewrite <-Hf. change (2 ^ 16) with 65536.
  Z.div_mod_to_equations. lia.
Qed.

(** Swapping the bytes of every word multiplies the sum by 256 modulo 65535. *)
Lemma be_le_sum l : bytes l → be_sum l mod 65535 = (256 * le_sum l) mod 65535.
Proof.
  unfold bytes. induction l as [|b|b0 b1 l IH] using pair_ind; cbn [be_sum le_sum];
    rewrite ?Forall_cons; intros; destruct_and?; [done|done|].
  rewrite Z.add_mod, IH, <-Z.add_mod by (done || lia).
  replace (256 * (b0 + 256 * b1 + le_sum l))
    with (256 * b0 + b1 + 256 * le_sum l + b1 * 65535) by lia.
  by rewrite Z.mod_add by lia.
Qed.

Lemma sums_zero l : bytes l → be_sum l = 0 ↔ le_sum l = 0.
Proof.
  intros Hb. assert (H : 0 <= be_sum l ∧ 0 <= le_sum l ∧ (be_sum l = 0 ↔ le_sum l = 0)); [|tauto].
  revert Hb. unfold bytes.
  induction l as [|b|b0 b1 l IH] using pair_ind; cbn [be_sum le_sum];
    rewrite ?Forall_cons; unfold is_byte in *; intros; destruct_and?; [lia|lia|].
  destruct IH as (? & ? & ?); [done|]. lia.
Qed.

Lemma be_sum_nonneg l : bytes l → 0 <= be_sum l.
Proof.
  unfold bytes. induction l as [|b|b0 b1 l IH] using pair_ind; cbn [be_sum];
    rewrite ?Forall_cons; unfold is_byte in *; intros; destruct_and?; [lia|lia|].
  specialize (IH ltac:(done)). lia.
Qed.

Lemma ones_fold_swap m n :
  0 <= m → 0 <= n → n mod 65535 = (256 * m) mod 65535 → (n = 0 ↔ m = 0) →
  swap16 (ones_fold m) = ones_fold n.
Proof.
  intros Hm Hn Hc Hz. unfold ones_fold. repeat case_decide; try lia; [done|].
  set (f := 1 + (m - 1) mod 65535).
  assert (Hf : 1 <= f <= 65535 ∧ f mod 65535 = m mod 65535).
  { unfold f. pose proof (Z.mod_pos_bound (m - 1) 65535). split; [lia|].
    Z.div_mod_to_equations. lia. }
  clearbody f. destruct Hf as [Hf1 Hf2]. unfold swap16.
  assert (Hs : (256 * f) mod 65535 = n mod 65535).
  { rewrite Hc, Z.mul_mod, Hf2, <-Z.mul_mod by lia. done. }
  clear Hc Hf2. Z.div_mod_to_equations. lia.
Qed.

Lemma not_swap f :
  0 <= f <= 65535 →
  [(65535 - f) mod 256; (65535 - f) / 256] = be16 (65535 - swap16 f).
Proof.
  intros Hf. unfold be16, swap16.
  assert (Hh : 0 <= f / 256 < 256) by (Z.div_mod_to_equations; lia).
  assert (Hl : 0 <= f mod 256 < 256) by (apply Z.mod_pos_bound; lia).
  rewrite (Z.mod_small (f / 256)) by lia.
  pose proof (Z.div_mod f 256 ltac:(lia)) as Hd.
  revert Hd Hh Hl. generalize (f / 256) (f mod 256). intros h l -> Hh Hl.
  replace (65535 - (256 * h + l)) with ((255 - h) * 256 + (255 - l)) by lia.
  replace (65535 - (l * 256 + h)) with ((255 - l) * 256 + (255 - h)) by lia.
  rewrite !Z.div_add_l, !Z.div_small, !Z.add_0_r by lia.
  rewrite (Z.mod_small (255 - l)) by lia.
  rewrite !(Z.add_comm (_ * 256)), !Z.mod_add, !Z.mod_small by lia. done.
Qed.

Lemma le_sum_app l1 l2 :
  Nat.Even (length l1) → le_sum (l1 ++ l2) = le_sum l1 + le_sum l2.
Proof.
  induction l1 as [|b|b0 b1 l IH] using pair_ind; cbn [app le_sum length]; intros He.
  - lia.
  - destruct He. lia.
  - rewrite IH; [lia|]. destruct He as [k Hk]. exists (k - 1)%nat. lia.
Qed.

Lemma cksum_verifies pre post :
  bytes pre → bytes post → Nat.Even (length pre) →
  Z.of_nat (length pre + 2 + length post) <= 131072 →
  let sum := in_cksum (pre ++ [0; 0] ++ post) in
  in_cksum (pre ++ [sum mod 256; sum / 256] ++ post) = 0.
Proof.
  intros Hpre Hpost He Hlen sum.
  assert (Hb0 : bytes (pre ++ [0; 0] ++ post)).
  { apply Forall_app; split; [done|]. by repeat (constructor; [done|]). }
  assert (Hs : sum = 65535 - ones_fold (le_sum pre + le_sum post)).
  { unfold sum. rewrite in_cksum_val by (done || rewrite !length_app; simpl; lia).
    rewrite !le_sum_app by (done || by exists 1%nat). done. }
  pose proof (le_sum_bound pre Hpre) as [Hp _]. pose proof (le_sum_bound post Hpost) as [Hq _].
  pose proof (ones_fold_range (le_sum pre + le_sum post) ltac:(lia)) as Hr.
  rewrite in_cksum_val; [| |rewrite !length_app; simpl; lia].
  - rewrite !le_sum_app by (done || by exists 1%nat). cbn [le_sum].
    replace (sum mod 256 + 256 * (sum / 256) + 0) with sum
      by (pose proof (Z.div_mod sum 256); lia).
    rewrite Hs. unfold ones_fold in *. repeat case_decide; Z.div_mod_to_equations; lia.
  - apply Forall_app; split; [done|]. unfold is_byte.
    repeat (constructor; [unfold is_byte; Z.div_mod_to_equations; lia|]). done.
Qed.

(** * Properties *)

(** C4: for packets of up to 131072 bytes the accumulator never overflows,
    and the two bytes of the answer are in memory the checksum of RFC 1071,
    whatever the byte order of the host. *)
Theorem in_cksum_rfc1071 l :
  bytes l → Z.of_nat (length l) <= 131072 →
  [in_cksum l mod 256; in_cksum l / 256] = be16 (rfc1071 l).
Proof.
  intros Hb Hl. rewrite in_cksum_val by done. unfold rfc1071.
  pose proof (le_sum_bound l Hb) as [H0 _]. pose proof (be_sum_nonneg l Hb) as H1.
  rewrite <-(ones_fold_swap (le_sum l) (be_sum l) H0 H1 (be_le_sum l Hb) (sums_zero l Hb)).
  pose proof (ones_fold_range _ H0) as Hr. set (f := ones_fold (le_sum l)) in *. clearbody f.
  apply not_swap. lia.
Qed.

Lemma in_cksum_rfc1071_witness :
  [in_cksum [69; 0; 0; 1; 242; 3; 244] mod 256; in_cksum [69; 0; 0; 1; 242; 3; 244] / 256]
    = be16 (rfc1071 [69; 0; 0; 1; 242; 3; 244]).
Proof. apply in_cksum_rfc1071; by_decide. Defined.

(** A packet whose checksum field, at an even offset, was computed with
    the field zero verifies: its checksum is then 0. *)
Theorem in_cksum_verifies pre post :
  bytes pre → bytes post → Nat.Even (length pre) →
  Z.of_nat (length pre + 2 + length post) <= 131072 →
  let sum := in_cksum (pre ++ [0; 0] ++ post) in
  in_cksum (pre ++ [sum mod 256; sum / 256] ++ post) = 0.
Proof. apply cksum_verifies. Qed.

Lemma in_cksum_verifies_witness :
  let sum := in_cksum ([69; 0; 0; 84] ++ [0; 0] ++ [1; 2; 3]) in
  in_cksum ([69; 0; 0; 84] ++ [sum mod 256; sum / 256] ++ [1; 2; 3]) = 0.
Proof.
  apply in_cksum_verifies; [by_decide|by_decide| |by_decide]. by exists 2%nat.
Defined.
