(* ===== verification/Error.v ===== *)
(** [lib/error.c]: the error-reporting functions every program uses, and the
    shape of the wrapper functions built on them. *)

From S2P Require Import Prelude Net Sys.

Definition LOG_ERR : Z := 3.
Definition LOG_INFO : Z := 6.
Definition stdout : Z := 1.
Definition stderr : Z := 2.

(** The text [buf] holds after the formatting; [msg] is the caller's format
    with its arguments expanded. *)
Definition err_buf (errnoflag : bool) (msg strerr : list Z) : list Z :=
  let buf := snprintf_trunc MAXLINE msg in
  let n := Z.of_nat (length buf) in
  let buf := if errnoflag then buf ++ snprintf_trunc (MAXLINE - n) (str ": " ++ strerr)
             else buf in
  buf ++ [ch_nl].

Definition err_doit (errnoflag : bool) (level : Z) (msg : list Z) : M unit :=
  errno_save ← get_errno;
  strerr ← (if errnoflag then sys (Cstrerror errno_save) else mret []);
  let buf := err_buf errnoflag msg strerr in
  daemon_proc ← get_daemon;
  if (daemon_proc : bool) then sys (Csyslog level buf)
  else
    sys (Cfflush stdout);;
    sys (Cfputs stderr buf);;
    sys (Cfflush stderr).

Definition err_ret (msg : list Z) : M unit := err_doit true LOG_INFO msg.
Definition err_sys {A} (msg : list Z) : M A :=
  err_doit true LOG_ERR msg;; exit 1.
Definition err_dump {A} (msg : list Z) : M A :=
  err_doit true LOG_ERR msg;; abort.
Definition err_msg (msg : list Z) : M unit := err_doit false LOG_INFO msg.
Definition err_quit {A} (msg : list Z) : M A :=
  err_doit false LOG_ERR msg;; exit 1.

(** [if (call() fails) err_sys(msg);] and its value otherwise. *)
Definition or_err_sys {A} (msg : list Z) (m : M (res A)) : M A :=
  r ← checked m;
  match r with ROk a => mret a | RErr _ => err_sys msg end.

(** * Properties *)

(** The calls that reporting an error makes. *)
Definition report_call (c : call) : Prop :=
  match c with
  | Cstrerror _ | Csyslog _ _ | Cfflush _ => True
  | Cfputs fd _ => fd = stderr
  | _ => False
  end.

Section wp.
Context (K : kernel).

(** [err_doit] returns, whatever the kernel answers, with [errno] and
    [daemon_proc] as they were. *)
Lemma wp_err_doit f l msg w Q :
  (∀ cs, Forall report_call cs → Q (Val tt) (World (cs ++ w_calls w) (w_errno w) (w_daemon w))) →
  wp K (err_doit f l msg) w Q.
Proof.
  intros HQ. unfold err_doit. repeat wp_step. destruct w as [cs e d]. simpl in *.
  assert (Hrest : ∀ strerr cs0,
    (∀ cs1, Forall report_call cs1 → Q (Val tt) (World (cs1 ++ cs0) e d)) →
    wp K (daemon_proc ← get_daemon;
          if (daemon_proc : bool) then sys (Csyslog l (err_buf f msg strerr))
          else sys (Cfflush stdout);; sys (Cfputs stderr (err_buf f msg strerr));;
               sys (Cfflush stderr)) (World cs0 e d) Q).
  { intros strerr cs0 H. repeat wp_step. destruct d; repeat wp_step.
    - match goal with |- Q (Val ?u) _ => destruct u end. apply (H [_]). by repeat constructor.
    - match goal with |- Q (Val ?u) _ => destruct u end. apply (H [_; _; _]). by repeat constructor. }
  destruct f.
  - repeat wp_step. apply Hrest. intros cs1 Hc. specialize (HQ (cs1 ++ [Cstrerror e])).
    rewrite <-app_assoc in HQ. apply HQ. apply Forall_app. split; [done|]. by repeat constructor.
  - repeat wp_step. apply Hrest. exact HQ.
Qed.

Lemma wp_err_sys {A} msg w (Q : outcome A → world → Prop) :
  (∀ cs, Forall report_call cs → Q (Exit 1) (World (cs ++ w_calls w) (w_errno w) (w_daemon w))) →
  wp K (err_sys msg) w Q.
Proof.
  intros HQ. unfold err_sys. wp_step. apply wp_err_doit. intros cs Hc. exact (HQ cs Hc).
Qed.

Lemma wp_err_quit {A} msg w (Q : outcome A → world → Prop) :
  (∀ cs, Forall report_call cs → Q (Exit 1) (World (cs ++ w_calls w) (w_errno w) (w_daemon w))) →
  wp K (err_quit msg) w Q.
Proof.
  intros HQ. unfold err_quit. wp_step. apply wp_err_doit. intros cs Hc. exact (HQ cs Hc).
Qed.

Lemma wp_err_ret msg w (Q : outcome unit → world → Prop) :
  (∀ cs, Forall report_call cs → Q (Val tt) (World (cs ++ w_calls w) (w_errno w) (w_daemon w))) →
  wp K (err_ret msg) w Q.
Proof. intros HQ. by apply wp_err_doit. Qed.

Lemma wp_err_msg msg w (Q : outcome unit → world → Prop) :
  (∀ cs, Forall report_call cs → Q (Val tt) (World (cs ++ w_calls w) (w_errno w) (w_daemon w))) →
  wp K (err_msg msg) w Q.
Proof. intros HQ. by apply wp_err_doit. Qed.

(** A wrapper returns the call's value, or exits with status 1 with [errno]
    holding the call's error. *)
Lemma wp_or_err_sys {A} msg (m : M (res A)) w (Q : outcome A → world → Prop) :
  wp K m w (bind_post (λ r w', match r with
      | ROk a => Q (Val a) w'
      | RErr e => ∀ cs, Forall report_call cs → Q (Exit 1) (World (cs ++ w_calls w') e (w_daemon w'))
      end) Q) →
  wp K (or_err_sys msg m) w Q.
Proof.
  intros H. unfold or_err_sys. repeat wp_step. eapply wp_mono; [exact H|].
  intros [[a|e]|c| |] w'; simpl; try done. intros HQ. by apply wp_err_sys.
Qed.
End wp.

(** What [err_sys] does to the process. *)
Lemma err_sys_exit {A} (K : kernel) msg w :
  ∃ cs, Forall report_call cs ∧
    err_sys (A := A) msg K w = (Exit 1, World (cs ++ w_calls w) (w_errno w) (w_daemon w)).
Proof.
  assert (H : wp K (err_sys (A := A) msg) w (λ o w', ∃ cs, Forall report_call cs ∧
    o = Exit 1 ∧ w' = World (cs ++ w_calls w) (w_errno w) (w_daemon w))).
  { apply wp_err_sys. eauto. }
  unfold wp in H. destruct (err_sys msg K w) as [o w']. naive_solver.
Qed.

(** whatever the message and the error text, [err_doit] never stores
    beyond its [buf[MAXLINE + 1]]: text, newline and NUL fit. *)
Theorem err_buf_bound f msg strerr :
  Z.of_nat (length (err_buf f msg strerr ++ [0])) <= MAXLINE + 1 ∧
  last (err_buf f msg strerr) = Some ch_nl.
Proof.
  unfold err_buf. split; [|by rewrite last_snoc].
  pose proof (snprintf_trunc_length MAXLINE msg) as H1. unfold MAXLINE in *.
  destruct f; rewrite !length_app; cbn [length]; [|lia].
  pose proof (snprintf_trunc_length (4096 - Z.of_nat (length (snprintf_trunc 4096 msg)))
                (str ": " ++ strerr)) as H2. lia.
Qed.

(** Reporting an error makes calls of [report_call] only. *)
Section emits.
Context (P : call → Prop) (HP : ∀ c, report_call c → P c).

Lemma emits_err_doit f l msg : emits P (err_doit f l msg).
Proof.
  intros K w. assert (H : wp K (err_doit f l msg) w (λ _ w', ∃ cs,
    w_calls w' = cs ++ w_calls w ∧ Forall P cs)).
  { apply wp_err_doit. intros cs Hcs. exists cs. split; [done|]. by eapply Forall_impl. }
  exact H.
Qed.

Lemma emits_err_sys {A} msg : emits P (err_sys (A := A) msg).
Proof. apply emits_bind; [apply emits_err_doit|]. intros []. apply emits_exit. Qed.
Lemma emits_err_quit {A} msg : emits P (err_quit (A := A) msg).
Proof. apply emits_bind; [apply emits_err_doit|]. intros []. apply emits_exit. Qed.
Lemma emits_err_ret msg : emits P (err_ret msg).
Proof. apply emits_err_doit. Qed.
Lemma emits_err_msg msg : emits P (err_msg msg).
Proof. apply emits_err_doit. Qed.

Lemma emits_or_err_sys {A} msg (m : M (res A)) : emits P m → emits P (or_err_sys msg m).
Proof.
  intros Hm. apply emits_bind; [by apply emits_checked|].
  intros [a|e]; [apply emits_ret|apply emits_err_sys].
Qed.
End emits.

#[export] Hint Resolve emits_err_doit emits_err_sys emits_err_quit emits_err_ret emits_err_msg
  emits_or_err_sys : unp.
