(* ===== verification/Wrap.v ===== *)
(** The wrapper functions: [lib/wrapunix.c], [lib/wrapsock.c],
    [lib/wrapstdio.c], [lib/wrappthread.c] and [lib/wraplib.c].

    Memory that a wrapper only hands on (signal sets, thread objects, routing
    header buffers, streams) is named by its address; what a call stores
    through a pointer argument is part of its answer. *)

From S2P Require Import Prelude Net Sys Error InetPton InetNtop.

(** A result the source drops. *)
Definition void {A} (m : M A) : M unit := m;; mret tt.

(** * wrapunix.c *)

Definition Calloc (n size : Z) : M Z := or_err_sys (str "calloc error") (sys (Ccalloc n size)).
Definition Close (fd : Z) : M unit := or_err_sys (str "close error") (sys (Cclose fd)).
Definition Dup2 (fd1 fd2 : Z) : M unit :=
  void (or_err_sys (str "dup2 error") (sys (Cdup2 fd1 fd2))).
Definition Fcntl (fd cmd arg : Z) : M Z :=
  or_err_sys (str "fcntl error") (sys (Cfcntl fd cmd arg)).
Definition Gettimeofday : M (Z * Z) :=
  or_err_sys (str "gettimeofday error") (sys Cgettimeofday).
Definition Ioctl (fd request arg : Z) : M Z :=
  or_err_sys (str "ioctl error") (sys (Cioctl fd request arg)).
Definition Fork : M Z := or_err_sys (str "fork error") (sys Cfork).
Definition Malloc (size : Z) : M Z := or_err_sys (str "malloc error") (sys (Cmalloc size)).

(** [HAVE_MKSTEMP] is defined; the failure is reported with [err_quit].  The
    result is the descriptor and the template with the name filled in. *)
Definition Mkstemp (template : list Z) : M (Z * list Z) :=
  i ← checked (sys (Cmkstemp template));
  match i with ROk i => mret i | RErr _ => err_quit (str "mkstemp error") end.

Definition Mmap (addr len prot flags fd offset : Z) : M Z :=
  or_err_sys (str "mmap error") (sys (Cmmap addr len prot flags fd offset)).
Definition Open (pathname : list Z) (oflag mode : Z) : M Z :=
  or_err_sys (str "open error for " ++ pathname) (sys (Copen pathname oflag mode)).
Definition Pipe : M (Z * Z) := or_err_sys (str "pipe error") (sys Cpipe).
Definition Read (fd nbytes : Z) : M (list Z) :=
  or_err_sys (str "read error") (sys (Cread fd nbytes)).
Definition Sigaddset (set signo : Z) : M unit :=
  void (or_err_sys (str "sigaddset error") (sys (Csigset (So_add set signo)))).
Definition Sigdelset (set signo : Z) : M unit :=
  void (or_err_sys (str "sigdelset error") (sys (Csigset (So_del set signo)))).
Definition Sigemptyset (set : Z) : M unit :=
  void (or_err_sys (str "sigemptyset error") (sys (Csigset (So_empty set)))).
Definition Sigfillset (set : Z) : M unit :=
  void (or_err_sys (str "sigfillset error") (sys (Csigset (So_fill set)))).
Definition Sigismember (set signo : Z) : M Z :=
  or_err_sys (str "sigismember error") (sys (Csigset (So_ismember set signo))).
Definition Sigpending (set : Z) : M unit :=
  void (or_err_sys (str "sigpending error") (sys (Csigset (So_pending set)))).
Definition Sigprocmask (how set oset : Z) : M unit :=
  void (or_err_sys (str "sigprocmask error") (sys (Csigset (So_procmask how set oset)))).
Definition Strdup (text : list Z) : M Z := or_err_sys (str "strdup error") (sys (Cstrdup text)).
Definition Sysconf (name : Z) : M Z :=
  set_errno 0;;
  or_err_sys (str "sysconf error") (sys (Csysconf name)).
Definition Sysctl (name : list Z) (oldlen : Z) (new : list Z) : M unit :=
  void (or_err_sys (str "sysctl error") (sys (Csysctl name oldlen new))).
Definition Unlink (pathname : list Z) : M unit :=
  or_err_sys (str "unlink error for " ++ pathname) (sys (Cunlink pathname)).
Definition Wait : M (Z * Z) := or_err_sys (str "wait error") (sys Cwait).
Definition Waitpid (pid options : Z) : M (Z * Z) :=
  or_err_sys (str "waitpid error") (sys (Cwaitpid pid options)).

(** [Write], [Send], [Sendto] and [Sendmsg] also report a short count. *)
Definition all_or_err_sys (msg : list Z) (nbytes : Z) (m : M (res Z)) : M unit :=
  r ← checked m;
  match r with
  | ROk n => if decide (n ≠ nbytes) then err_sys msg else mret tt
  | RErr _ => err_sys msg
  end.

Definition Write (fd : Z) (ptr : list Z) : M unit :=
  all_or_err_sys (str "write error") (Z.of_nat (length ptr)) (sys (Cwrite fd ptr)).

(** * wrapsock.c *)

(** [goto again] is a loop; the system has [EPROTO]. *)
Definition Accept (fuel : nat) (fd : Z) : M (Z * sockaddr) :=
  iter fuel (λ _ : unit,
    r ← checked (sys (Caccept fd));
    match r with
    | ROk n => mret (inr n)
    | RErr _ =>
        errno ← get_errno;
        if decide (errno = EPROTO ∨ errno = ECONNABORTED) then mret (inl tt)
        else err_sys (str "accept error")
    end) tt.

Definition Bind (fd : Z) (sa : sockaddr) : M unit :=
  or_err_sys (str "bind error") (sys (Cbind fd sa)).
Definition Connect (fd : Z) (sa : sockaddr) : M unit :=
  or_err_sys (str "connect error") (sys (Cconnect fd sa)).
Definition Getpeername (fd : Z) : M sockaddr :=
  or_err_sys (str "getpeername error") (sys (Cgetpeername fd)).
Definition Getsockname (fd : Z) : M sockaddr :=
  or_err_sys (str "getsockname error") (sys (Cgetsockname fd)).
Definition Getsockopt (fd level optname : Z) : M Z :=
  or_err_sys (str "getsockopt error") (sys (Cgetsockopt fd level optname)).

(** The functions on routing headers return a negative number or a null
    pointer, and the failure is reported with [err_quit]. *)
Definition neg_err_quit (msg : list Z) (c : rth_op) : M Z :=
  ret ← sys (Crth c);
  if decide (ret < 0) then err_quit msg else mret ret.
Definition null_err_quit (msg : list Z) (c : rth_op) : M Z :=
  ret ← sys (Crth c);
  if decide (ret = 0) then err_quit msg else mret ret.

Definition Inet6_rth_space (type segments : Z) : M Z :=
  neg_err_quit (str "inet6_rth_space error") (Rth_space type segments).
Definition Inet6_rth_init (rthbuf rthlen type segments : Z) : M Z :=
  null_err_quit (str "inet6_rth_init error") (Rth_init rthbuf rthlen type segments).
Definition Inet6_rth_add (rthbuf : Z) (addr : list Z) : M unit :=
  void (neg_err_quit (str "inet6_rth_add error") (Rth_add rthbuf addr)).
Definition Inet6_rth_reverse (inp out : Z) : M unit :=
  void (neg_err_quit (str "inet6_rth_reverse error") (Rth_reverse inp out)).
Definition Inet6_rth_segments (rthbuf : Z) : M Z :=
  neg_err_quit (str "inet6_rth_segments error") (Rth_segments rthbuf).
Definition Inet6_rth_getaddr (rthbuf idx : Z) : M Z :=
  null_err_quit (str "inet6_rth_getaddr error") (Rth_getaddr rthbuf idx).

Definition Listen (fd backlog : Z) : M unit :=
  ptr ← sys (Cgetenv (str "LISTENQ"));
  let backlog := match ptr with Some v => atoi v | None => backlog end in
  or_err_sys (str "listen error") (sys (Clisten fd backlog)).

Definition Poll (fdarray : list (Z * Z)) (timeout : Z) : M (Z * list Z) :=
  or_err_sys (str "poll error") (sys (Cpoll fdarray timeout)).
Definition Recv (fd nbytes flags : Z) : M (list Z) :=
  or_err_sys (str "recv error") (sys (Crecv fd nbytes flags)).
Definition Recvfrom (fd nbytes : Z) : M (list Z * sockaddr) :=
  or_err_sys (str "recvfrom error") (sys (Crecvfrom fd nbytes)).
Definition Recvmsg (fd nbytes : Z) : M (list Z * option cmsg) :=
  or_err_sys (str "recvmsg error") (sys (Crecvmsg fd nbytes)).
Definition Select (nfds : Z) (rset wset : gset Z) (timeout : option (Z * Z))
    : M (Z * gset Z * gset Z) :=
  or_err_sys (str "select error") (sys (Cselect nfds rset wset timeout)).
Definition Send (fd : Z) (ptr : list Z) (flags : Z) : M unit :=
  all_or_err_sys (str "send error") (Z.of_nat (length ptr)) (sys (Csend fd ptr flags)).
Definition Sendto (fd : Z) (ptr : list Z) (sa : sockaddr) : M unit :=
  all_or_err_sys (str "sendto error") (Z.of_nat (length ptr)) (sys (Csendto fd ptr sa)).

(** [iov] is the array of buffers of the message. *)
Definition Sendmsg (fd : Z) (iov : list (list Z)) (dest : option sockaddr)
    (ctl : option cmsg) : M unit :=
  let nbytes := foldl (λ n b, n + Z.of_nat (length b)) 0 iov in
  all_or_err_sys (str "sendmsg error") nbytes (sys (Csendmsg fd (concat iov) dest ctl)).

Definition Setsockopt (fd level optname : Z) (optval : list Z) : M unit :=
  or_err_sys (str "setsockopt error") (sys (Csetsockopt fd level optname optval)).
Definition Shutdown (fd how : Z) : M unit :=
  or_err_sys (str "shutdown error") (sys (Cshutdown fd how)).
Definition Sockatmark (fd : Z) : M Z :=
  or_err_sys (str "sockatmark error") (sys (Csockatmark fd)).
Definition Socket (family type protocol : Z) : M Z :=
  or_err_sys (str "socket error") (sys (Csocket family type protocol)).
Definition Socketpair (family type protocol : Z) : M (Z * Z) :=
  or_err_sys (str "socketpair error") (sys (Csocketpair family type protocol)).

(** * wrapstdio.c *)

Definition Fclose (fp : Z) : M unit :=
  ok ← sys (Cfclose fp);
  if (ok : bool) then mret tt else err_sys (str "fclose error").
Definition Fdopen (fd : Z) (type : list Z) : M Z :=
  or_err_sys (str "fdopen error") (sys (Cfdopen fd type)).

(** [fgets] answers a line, end-of-file ([None]), or an error. *)
Definition Fgets (n : Z) : M (option (list Z)) :=
  or_err_sys (str "fgets error") (sys (Cfgets n)).
Definition Fopen (filename mode : list Z) : M Z :=
  or_err_sys (str "fopen error") (sys (Cfopen filename mode)).
Definition Fputs (ptr : list Z) (stream : Z) : M unit :=
  ok ← sys (Cfputs stream ptr);
  if (ok : bool) then mret tt else err_sys (str "fputs error").

(** * wraplib.c *)

(** [strptr] is [None] for a null pointer. *)
Definition Inet_ntop (family : Z) (addr : list Z) (strptr : option unit) (len : Z)
    : M (list Z) :=
  match strptr with
  | None => err_quit (str "NULL 3rd argument to inet_ntop")
  | Some _ =>
      match inet_ntop family addr len with
      | NtopOk s => mret s
      | NtopErr e => set_errno e;; err_sys (str "inet_ntop error")
      end
  end.

Definition Inet_pton (family : Z) (strptr : list Z) : M (list Z) :=
  match inet_pton family strptr with
  | PtonErr e => set_errno e;; err_sys (str "inet_pton error for " ++ strptr)
  | Pton0 => err_quit (str "inet_pton error for " ++ strptr)
  | Pton1 dst => mret dst
  end.

(** * wrappthread.c: the functions return an error number *)

Definition pthread_wrap (msg : list Z) (op : pthread_op) : M unit :=
  n ← sys (Cpthread op);
  if decide (n = 0) then mret tt else set_errno n;; err_sys msg.

Definition Pthread_create (attr : Z) (func : string) (arg : Z) : M unit :=
  pthread_wrap (str "pthread_create error") (Pt_create attr func arg).
Definition Pthread_join (tid : Z) : M unit :=
  pthread_wrap (str "pthread_join error") (Pt_join tid).
Definition Pthread_detach (tid : Z) : M unit :=
  pthread_wrap (str "pthread_detach error") (Pt_detach tid).
Definition Pthread_kill (tid signo : Z) : M unit :=
  pthread_wrap (str "pthread_kill error") (Pt_kill tid signo).
Definition Pthread_mutexattr_init (attr : Z) : M unit :=
  pthread_wrap (str "pthread_mutexattr_init error") (Pt_mutexattr_init attr).
Definition Pthread_mutexattr_setpshared (attr flag : Z) : M unit :=
  pthread_wrap (str "pthread_mutexattr_setpshared error") (Pt_mutexattr_setpshared attr flag).
Definition Pthread_mutex_init (mptr attr : Z) : M unit :=
  pthread_wrap (str "pthread_mutex_init error") (Pt_mutex_init mptr attr).
Definition Pthread_mutex_lock (mptr : Z) : M unit :=
  pthread_wrap (str "pthread_mutex_lock error") (Pt_mutex_lock mptr).
Definition Pthread_mutex_unlock (mptr : Z) : M unit :=
  pthread_wrap (str "pthread_mutex_unlock error") (Pt_mutex_unlock mptr).
Definition Pthread_cond_broadcast (cptr : Z) : M unit :=
  pthread_wrap (str "pthread_cond_broadcast error") (Pt_cond_broadcast cptr).
Definition Pthread_cond_signal (cptr : Z) : M unit :=
  pthread_wrap (str "pthread_cond_signal error") (Pt_cond_signal cptr).
Definition Pthread_cond_wait (cptr mptr : Z) : M unit :=
  pthread_wrap (str "pthread_cond_wait error") (Pt_cond_wait cptr mptr).
Definition Pthread_cond_timedwait (cptr mptr : Z) (ts : Z * Z) : M unit :=
  pthread_wrap (str "pthread_cond_timedwait error") (Pt_cond_timedwait cptr mptr ts).
Definition Pthread_once (ptr : Z) (func : string) : M unit :=
  pthread_wrap (str "pthread_once error") (Pt_once ptr func).
Definition Pthread_key_create (key : Z) (func : string) : M unit :=
  pthread_wrap (str "pthread_key_create error") (Pt_key_create key func).
Definition Pthread_setspecific (key value : Z) : M unit :=
  pthread_wrap (str "pthread_setspecific error") (Pt_setspecific key value).
