(* ===== verification/SockAddr.v ===== *)
(** The [sock_XXX] functions of [lib/]: reading, writing, comparing and
    printing socket address structures. *)

From S2P Require Import Prelude Net Sys Error Wrap InetPton InetNtop.

(** * Comparing *)

(** [memcmp] and [strcmp]: only the sign of the result is specified; the
    difference of the first bytes that differ is returned here. *)
Fixpoint memcmp (a b : list Z) : Z :=
  match a, b with
  | x :: a', y :: b' => if decide (x = y) then memcmp a' b' else x - y
  | _, _ => 0
  end.

Definition strcmp (a b : list Z) : Z := memcmp (a ++ [0]) (b ++ [0]).

Definition sock_cmp_addr (sa1 sa2 : sockaddr) : Z :=
  if decide (sa_family sa1 ≠ sa_family sa2) then -1
  else match sa1, sa2 with
       | SaIn _ a1, SaIn _ a2 => memcmp a1 a2
       | SaIn6 _ a1, SaIn6 _ a2 => memcmp a1 a2
       | SaUn p1, SaUn p2 => strcmp p1 p2
       | _, _ => -1
       end.

Definition sock_cmp_port (sa1 sa2 : sockaddr) : Z :=
  if decide (sa_family sa1 ≠ sa_family sa2) then -1
  else match sa1, sa2 with
       | SaIn p1 _, SaIn p2 _ => if decide (p1 = p2) then 1 else 0
       | SaIn6 p1 _, SaIn6 p2 _ => if decide (p1 = p2) then 1 else 0
       | _, _ => -1
       end.

(** * Members *)

Definition sock_get_port (sa : sockaddr) : Z :=
  match sa with
  | SaIn p _ => p
  | SaIn6 p _ => p
  | _ => -1
  end.

(** The [int] is converted to the 16-bit member. *)
Definition sock_set_port (sa : sockaddr) (port : Z) : sockaddr :=
  match sa with
  | SaIn _ a => SaIn (u16 port) a
  | SaIn6 _ a => SaIn6 (u16 port) a
  | _ => sa
  end.

(** [addr] holds at least the bytes of the family's address. *)
Definition sock_set_addr (sa : sockaddr) (addr : list Z) : sockaddr :=
  match sa with
  | SaIn p _ => SaIn p (take 4 addr)
  | SaIn6 p _ => SaIn6 p (take 16 addr)
  | _ => sa
  end.

Definition sock_set_wild (sa : sockaddr) : sockaddr :=
  match sa with
  | SaIn _ _ => sock_set_addr sa INADDR_ANY
  | SaIn6 _ _ => sock_set_addr sa in6addr_any
  | _ => sa
  end.

(** * Printing *)

(** The text in the static buffer [str[128]] that the returned pointer names;
    an [inet_ntop] failure is a null pointer with [errno] set. *)
Definition sock_ntop (sa : sockaddr) (salen : Z) : res (list Z) :=
  match sa with
  | SaIn port addr =>
      match inet_ntop AF_INET addr 128 with
      | NtopErr e => RErr e
      | NtopOk stored =>
          let text := removelast stored in
          if decide (ntohs port ≠ 0) then
            let portstr := snprintf_trunc 8 (str ":" ++ fmt_d (ntohs port)) in
            ROk (text ++ portstr)
          else ROk text
      end
  | SaIn6 port addr =>
      match inet_ntop AF_INET6 addr (128 - 1) with
      | NtopErr e => RErr e
      | NtopOk stored =>
          let text := str "[" ++ removelast stored in
          if decide (ntohs port ≠ 0) then
            let portstr := snprintf_trunc 8 (str "]:" ++ fmt_d (ntohs port)) in
            ROk (text ++ portstr)
          else ROk (drop 1 text)
      end
  | SaUn path =>
      match path with
      | [] => ROk (str "(no pathname bound)")
      | _ => ROk (snprintf_trunc 128 path)
      end
  | SaOther f =>
      ROk (snprintf_trunc 128
             (str "sock_ntop: unknown AF_xxx: " ++ fmt_d f ++ str ", len " ++ fmt_d salen))
  end.

Definition Sock_ntop (sa : sockaddr) (salen : Z) : M (list Z) :=
  or_err_sys (str "sock_ntop error") (mret (sock_ntop sa salen)).

Definition sock_ntop_host (sa : sockaddr) (salen : Z) : res (list Z) :=
  match sa with
  | SaIn port addr =>
      match inet_ntop AF_INET addr 128 with
      | NtopErr e => RErr e
      | NtopOk stored => ROk (removelast stored)
      end
  | SaIn6 port addr =>
      match inet_ntop AF_INET6 addr 128 with
      | NtopErr e => RErr e
      | NtopOk stored => ROk (removelast stored)
      end
  | SaUn path =>
      match path with
      | [] => ROk (str "(no pathname bound)")
      | _ => ROk (snprintf_trunc 128 path)
      end
  | SaOther f =>
      ROk (snprintf_trunc 128
             (str "sock_ntop_host: unknown AF_xxx: " ++ fmt_d f ++ str ", len " ++ fmt_d salen))
  end.

Definition Sock_ntop_host (sa : sockaddr) (salen : Z) : M (list Z) :=
  or_err_sys (str "sock_ntop_host error") (mret (sock_ntop_host sa salen)).

(** * Sockets *)

Definition family_to_level (family : Z) : Z :=
  if decide (family = AF_INET) then IPPROTO_IP
  else if decide (family = AF_INET6) then IPPROTO_IPV6
  else -1.

Definition Family_to_level (family : Z) : M Z :=
  let rc := family_to_level family in
  if decide (rc < 0) then err_sys (str "family_to_level error") else mret rc.

Definition sockfd_to_family (sockfd : Z) : M Z :=
  r ← checked (sys (Cgetsockname sockfd));
  match r with
  | RErr _ => mret (-1)
  | ROk ss => mret (sa_family ss)
  end.

Definition Sockfd_to_family (sockfd : Z) : M Z :=
  rc ← sockfd_to_family sockfd;
  if decide (rc < 0) then err_sys (str "sockfd_to_family error") else mret rc.

(** The port member of the name the kernel stores into a [sockaddr_in] or
    [sockaddr_in6]: a socket of the family has a name of the family. *)
Definition sock_bind_wild (sockfd family : Z) : M Z :=
  let bind_wild (sa : sockaddr) : M Z :=
    r ← checked (sys (Cbind sockfd sa));
    match r with
    | RErr _ => mret (-1)
    | ROk _ =>
        r ← checked (sys (Cgetsockname sockfd));
        match r with
        | RErr _ => mret (-1)
        | ROk name => mret (sock_get_port name)
        end
    end in
  if decide (family = AF_INET) then bind_wild (SaIn (htons 0) INADDR_ANY)
  else if decide (family = AF_INET6) then bind_wild (SaIn6 (htons 0) in6addr_any)
  else mret (-1).

Definition Sock_bind_wild (sockfd family : Z) : M Z :=
  port ← sock_bind_wild sockfd family;
  if decide (port < 0) then err_sys (str "sock_bind_wild error") else mret port.

(** * Properties *)

Lemma memcmp_eq a b :
  length a = length b → memcmp a b = 0 ↔ a = b.
Proof.
  revert b. induction a as [|x a IH]; intros [|y b]; simpl; try done.
  intros [= Hl]. case_decide as Hx.
  - subst. rewrite IH by done. split; [by intros ->|by intros [= ->]].
  - split; [lia|by intros [= -> _]].
Qed.

Lemma strcmp_eq a b :
  Forall (λ c, c ≠ 0) a → Forall (λ c, c ≠ 0) b → strcmp a b = 0 ↔ a = b.
Proof.
  unfold strcmp. intros Ha. revert b.
  induction Ha as [|x a Hx Ha IH]; intros b Hb; destruct Hb as [|y b Hy Hb]; simpl.
  - done.
  - rewrite decide_False by done. split; [lia|done].
  - rewrite decide_False by done. split; [lia|done].
  - case_decide as Hxy.
    + subst. rewrite IH by done. split; [by intros ->|by intros [= ->]].
    + split; [lia|by intros [= -> _]].
Qed.

(** The address of a structure without its port. *)
Definition addr_of (sa : sockaddr) : list Z :=
  match sa with SaIn _ a | SaIn6 _ a | SaUn a => a | SaOther _ => [] end.

(** On the families they know, [sock_cmp_addr] returns 0 exactly when the
    two structures have the same family and address, but [sock_cmp_port]
    returns 1, not 0, exactly when they have the same family and port. *)
Theorem sock_cmp_spec sa1 sa2 :
  sockaddr_wf sa1 → sockaddr_wf sa2 → sa_family sa1 ∈ [AF_INET; AF_INET6] →
  (sock_cmp_addr sa1 sa2 = 0 ↔
     sa_family sa1 = sa_family sa2 ∧ addr_of sa1 = addr_of sa2) ∧
  (sock_cmp_port sa1 sa2 = 1 ↔
     sa_family sa1 = sa_family sa2 ∧ sock_get_port sa1 = sock_get_port sa2).
Proof.
  unfold sock_cmp_addr, sock_cmp_port. intros H1 H2 Hf.
  rewrite !elem_of_cons, elem_of_nil in Hf.
  destruct (decide (sa_family sa1 = sa_family sa2)) as [He|He].
  2: { rewrite !decide_True by done. split; (split; [lia|by intros [? _]]). }
  rewrite !decide_False by tauto.
  destruct sa1 as [p a|p a|p|f]; simpl in Hf, He;
    [| |unfold AF_INET, AF_INET6, AF_UNIX in *; lia
     |simpl in H1; unfold AF_INET, AF_INET6, AF_UNIX in *; lia];
    destruct sa2 as [p' a'|p' a'|p'|f']; simpl in He; try done; try (simpl in H2; unfold AF_INET, AF_INET6, AF_UNIX in *; lia).
  all: simpl in H1, H2; destruct H1 as (_ & _ & Hl1), H2 as (_ & _ & Hl2).
  all: cbn [addr_of sock_get_port sa_family]; rewrite memcmp_eq by congruence.
  all: split; [tauto|]; case_decide; split; [tauto|tauto|lia|tauto].
Qed.

Lemma sock_cmp_spec_witness :
  sock_cmp_addr (SaIn 1 [127; 0; 0; 1]) (SaIn 2 [127; 0; 0; 1]) = 0 ∧
  sock_cmp_port (SaIn 7 [127; 0; 0; 1]) (SaIn 7 [127; 0; 0; 2]) = 1.
Proof.
  split.
  - apply (sock_cmp_spec (SaIn 1 [127; 0; 0; 1]) (SaIn 2 [127; 0; 0; 1]));
      [by_decide|by_decide|by_decide|done].
  - apply (sock_cmp_spec (SaIn 7 [127; 0; 0; 1]) (SaIn 7 [127; 0; 0; 2]));
      [by_decide|by_decide|by_decide|done].
Defined.

(** Setting the port or the wildcard address of an IPv4 or IPv6 structure
    keeps it well formed and changes nothing else; the port read back is the
    one set, modulo [2^16]. *)
Theorem sock_set_get sa port :
  sockaddr_wf sa → sa_family sa ∈ [AF_INET; AF_INET6] →
  sockaddr_wf (sock_set_port sa port) ∧ sockaddr_wf (sock_set_wild sa) ∧
  sock_get_port (sock_set_port sa port) = u16 port ∧
  addr_of (sock_set_port sa port) = addr_of sa ∧
  sock_get_port (sock_set_wild sa) = sock_get_port sa ∧
  addr_of (sock_set_wild sa) = repeat 0 (length (addr_of sa)).
Proof.
  intros Hw Hf. rewrite !elem_of_cons, elem_of_nil in Hf.
  destruct sa as [p a|p a|p|f]; simpl in Hf, Hw;
    [| |unfold AF_INET, AF_INET6, AF_UNIX in *; lia|unfold AF_INET, AF_INET6, AF_UNIX in *; lia].
  all: destruct Hw as (Hp & Ha & Hl); cbn -[in6addr_any].
  all: split_and!; try done; try apply u16_range; try by_decide; by rewrite Hl.
Qed.

Lemma sock_set_get_witness :
  sock_get_port (sock_set_port (SaIn 0 [1; 2; 3; 4]) 65543) = u16 65543.
Proof. apply (sock_set_get (SaIn 0 [1; 2; 3; 4]) 65543); by_decide. Defined.

Lemma fmt_d_port port : is_u16 port → fmt_d port = fmt_u port ∧ (length (fmt_u port) <= 5)%nat.
Proof.
  intros Hp. unfold is_u16 in Hp. unfold fmt_d. rewrite decide_False by lia.
  split; [done|]. unfold fmt_u. rewrite length_map. apply digits_length; lia.
Qed.

Lemma inet_ntop_AF_INET6 src size : inet_ntop AF_INET6 src size = inet_ntop6 src size.
Proof. unfold inet_ntop. rewrite decide_False, decide_True by done. reflexivity. Qed.

Lemma inet_pton_AF_INET6 s : inet_pton AF_INET6 s = of_pton (inet_pton6 s).
Proof. unfold inet_pton. rewrite decide_False, decide_True by done. reflexivity. Qed.

Lemma sock_ntop4 a :
  bytes a → length a = 4%nat →
  ∃ s, inet_ntop AF_INET a 128 = NtopOk (s ++ [0]) ∧ inet_pton AF_INET s = Pton1 a ∧
       (length s <= 15)%nat.
Proof.
  intros Ha Hlen. pose proof (quad_length a Ha Hlen) as Hq. exists (quad a). split; [|split].
  - change (inet_ntop AF_INET a 128) with (inet_ntop4 a 128).
    unfold inet_ntop4. apply decide_False. lia.
  - change (inet_pton AF_INET (quad a)) with (of_pton (inet_pton4 (quad a))).
    by rewrite quad_pton4.
  - unfold strlen in Hq. lia.
Qed.

(** C5: an IPv4 or IPv6 structure always prints, as the address followed by
    [:port], the IPv6 address in brackets, when the port is not zero; the
    address part is read back by [inet_pton], [portstr] is never truncated, and
    the text with its NUL fits in [str[128]] with room to spare. *)
Theorem sock_ntop_text sa salen :
  sockaddr_wf sa → sa_family sa ∈ [AF_INET; AF_INET6] →
  let port := ntohs (sock_get_port sa) in
  ∃ a text, sock_ntop sa salen = ROk text ∧
    inet_pton (sa_family sa) a = Pton1 (addr_of sa) ∧
    text = (if decide (port ≠ 0) then
              if decide (sa_family sa = AF_INET) then a ++ str ":" ++ fmt_u port
              else str "[" ++ a ++ str "]:" ++ fmt_u port
            else a) ∧
    Z.of_nat (length (text ++ [0])) <= 54.
Proof.
  intros Hw Hf port. rewrite !elem_of_cons, elem_of_nil in Hf.
  destruct (fmt_d_port port (ntohs_range _)) as [Hd Hl].
  destruct sa as [p a|p a|p|f]; simpl in Hf, Hw;
    [| |unfold AF_INET, AF_INET6, AF_UNIX in *; lia|unfold AF_INET, AF_INET6, AF_UNIX in *; lia].
  - destruct Hw as (Hp & Ha & Hlen).
    destruct (sock_ntop4 a Ha Hlen) as (s & Hs & Hps & Hle).
    cbn [sock_ntop sock_get_port addr_of sa_family] in *.
    change (ntohs p) with port. rewrite Hs, removelast_last, Hd, snprintf_trunc_id by (rewrite length_app; simpl; lia).
    exists s. destruct (decide (port ≠ 0)); eexists; (split; [reflexivity|]);
      (split; [done|]); (split; [done|]); rewrite ?length_app; simpl; lia.
  - destruct Hw as (Hp & Ha & Hlen).
    destruct (ntop6_round_trip a 127 Ha Hlen ltac:(done)) as (s & Hs & Hps & Hle).
    rewrite <-inet_ntop_AF_INET6 in Hs. unfold INET6_ADDRSTRLEN, strlen in Hle.
    rewrite length_app in Hle. cbn [length] in Hle.
    cbn [sock_ntop sock_get_port addr_of sa_family] in *. change (ntohs p) with port.
    change (128 - 1) with 127.
    rewrite Hs, removelast_last, Hd, snprintf_trunc_id by (rewrite length_app; simpl; lia).
    assert (Hp6 : inet_pton AF_INET6 s = Pton1 a).
    { by rewrite inet_pton_AF_INET6, Hps. }
    clear Hd. revert Hl. generalize (fmt_u port). intros d Hl.
    exists s. destruct (decide (port ≠ 0)); eexists; (split; [reflexivity|]);
      (split; [done|]); (split; [done|]); apply (Nat2Z.inj_le _ 54); cbn; rewrite ?length_app; cbn; rewrite ?length_app;
      cbn; rewrite ?drop_0; lia.
Qed.

Lemma sock_ntop_text_witness :
  ∃ a text, sock_ntop (SaIn (htons 80) [10; 0; 0; 1]) 16 = ROk text ∧
    inet_pton AF_INET a = Pton1 [10; 0; 0; 1] ∧
    text = a ++ str ":" ++ fmt_u 80 ∧ Z.of_nat (length (text ++ [0])) <= 54.
Proof. apply (sock_ntop_text (SaIn (htons 80) [10; 0; 0; 1]) 16); by_decide. Defined.
