(* ===== verification/Io.v ===== *)
(** Stream I/O of [lib/]: [readn.c], [writen.c], [readline.c], [read_fd.c],
    [write_fd.c], [readable_timeo.c], [writable_timeo.c], and the versions of
    [readline] of [server/] and [threads/].

    Loops that can repeat without progress (a call interrupted by a signal) take
    fuel.  Statements about the bytes of a descriptor are about the history of
    calls: [received] and [sent] are what the kernel has answered and accepted. *)

From S2P Require Import Prelude Net Sys Error Wrap.

(** * readn *)

(** The result and the bytes stored from [vptr] on. *)
Definition readn (fuel : nat) (fd n : Z) : M (Z * list Z) :=
  iter fuel (λ '(nleft, buf),
    if decide (nleft > 0) then
      r ← checked (sys (Cread fd nleft));
      match r with
      | RErr _ =>
          errno ← get_errno;
          if decide (errno = EINTR) then mret (inl (nleft, buf))
          else mret (inr (-1, buf))
      | ROk data =>
          let nread := Z.of_nat (length data) in
          if decide (nread = 0) then mret (inr (n - nleft, buf))
          else mret (inl (nleft - nread, buf ++ data))
      end
    else mret (inr (n - nleft, buf))) (n, []).

Definition Readn (fuel : nat) (fd nbytes : Z) : M (Z * list Z) :=
  '(n, buf) ← readn fuel fd nbytes;
  if decide (n < 0) then err_sys (str "readn error") else mret (n, buf).

(** * writen *)

Definition writen (fuel : nat) (fd : Z) (vptr : list Z) : M Z :=
  iter fuel (λ '(nleft, ptr),
    if decide (nleft > 0) then
      r ← checked (sys (Cwrite fd ptr));
      match r with
      | RErr _ =>
          errno ← get_errno;
          if decide (errno = EINTR) then mret (inl (nleft, ptr)) else mret (inr (-1))
      | ROk nwritten =>
          if decide (nwritten <= 0) then mret (inr (-1))
          else mret (inl (nleft - nwritten, drop (Z.to_nat nwritten) ptr))
      end
    else mret (inr (Z.of_nat (length vptr)))) (Z.of_nat (length vptr), vptr).

Definition Writen (fuel : nat) (fd : Z) (ptr : list Z) : M unit :=
  n ← writen fuel fd ptr;
  if decide (n ≠ Z.of_nat (length ptr)) then err_sys (str "writen error") else mret tt.

(** * readline *)

(** The static buffer: [read_cnt], and the bytes from [read_ptr] on. *)
Record rline := Rline { read_cnt : Z; read_ptr : list Z }.

(** The answer of [my_read]: [1] with the character, [0] or [-1]. *)
Inductive my_read_rc := Rd1 (c : Z) | Rd0 | RdErr.

(** [again: read_cnt = read(fd, read_buf, sizeof(read_buf))] and its tests:
    [inr] is the [return] of the function. *)
Definition refill (fuel : nat) (fd : Z) : M (rline * option my_read_rc) :=
  iter fuel (λ _ : unit,
    r ← checked (sys (Cread fd MAXLINE));
    match r with
    | RErr _ =>
        errno ← get_errno;
        if decide (errno = EINTR) then mret (inl tt)
        else mret (inr (Rline (-1) [], Some RdErr))
    | ROk data =>
        let read_cnt := Z.of_nat (length data) in
        if decide (read_cnt = 0) then mret (inr (Rline 0 [], Some Rd0))
        else mret (inr (Rline read_cnt data, None))
    end) tt.

Definition my_read (fuel : nat) (st : rline) (fd : Z) : M (rline * my_read_rc) :=
  '(st, rc) ← (if decide (read_cnt st <= 0) then refill fuel fd else mret (st, None));
  match rc with
  | Some rc => mret (st, rc)
  | None =>
      mret (Rline (read_cnt st - 1) (drop 1 (read_ptr st)), Rd1 (hd 0 (read_ptr st)))
  end.

(** The [for] loop, [k] being the rounds left; the bytes stored from [vptr] on
    are returned with the result. *)
Fixpoint readline_loop (k fuel : nat) (st : rline) (fd n : Z) (buf : list Z)
    : M (rline * Z * list Z) :=
  match k with
  | O => mret (st, n, buf ++ [0])
  | S k' =>
      '(st, rc) ← my_read fuel st fd;
      match rc with
      | Rd1 c =>
          if decide (c = ch_nl) then mret (st, n, buf ++ [c; 0])
          else readline_loop k' fuel st fd (n + 1) (buf ++ [c])
      | Rd0 => mret (st, n - 1, buf ++ [0])
      | RdErr => mret (st, -1, buf)
      end
  end.

Definition readline (fuel : nat) (st : rline) (fd maxlen : Z) : M (rline * Z * list Z) :=
  readline_loop (Z.to_nat (maxlen - 1)) fuel st fd 1 [].

(** [*vptrptr] is set only when there are buffered bytes. *)
Definition readlinebuf (st : rline) : Z * option (list Z) :=
  (read_cnt st, if decide (read_cnt st ≠ 0) then Some (read_ptr st) else None).

Definition Readline (fuel : nat) (st : rline) (fd maxlen : Z) : M (rline * Z * list Z) :=
  '(st, n, buf) ← readline fuel st fd maxlen;
  if decide (n < 0) then err_sys (str "readline error") else mret (st, n, buf).

(** * server/readline_r.c *)

Record rline_r := RlineR {
  read_fd_r : Z;
  read_maxlen : Z;
  rl : rline
}.

Definition my_read_r (fuel : nat) (rptr : rline_r) : M (rline_r * my_read_rc) :=
  '(st, rc) ← my_read fuel (rl rptr) (read_fd_r rptr);
  mret (RlineR (read_fd_r rptr) (read_maxlen rptr) st,
        match rc with Rd1 c => Rd1 (Z.land c 255) | _ => rc end).

Definition readline_rinit (fd maxlen : Z) : rline_r := RlineR fd maxlen (Rline 0 []).

Fixpoint readline_r_loop (k fuel : nat) (rptr : rline_r) (n : Z) (buf : list Z)
    : M (rline_r * Z * list Z) :=
  match k with
  | O => mret (rptr, n, buf ++ [0])
  | S k' =>
      '(rptr, rc) ← my_read_r fuel rptr;
      match rc with
      | Rd1 c =>
          if decide (c = ch_nl) then mret (rptr, n, buf ++ [c; 0])
          else readline_r_loop k' fuel rptr (n + 1) (buf ++ [c])
      | Rd0 =>
          if decide (n = 1) then mret (rptr, 0, buf)
          else mret (rptr, n, buf ++ [0])
      | RdErr => mret (rptr, -1, buf)
      end
  end.

Definition readline_r (fuel : nat) (rptr : rline_r) : M (rline_r * Z * list Z) :=
  readline_r_loop (Z.to_nat (read_maxlen rptr - 1)) fuel rptr 1 [].

Definition Readline_r (fuel : nat) (rptr : rline_r) : M (rline_r * Z * list Z) :=
  '(rptr, n, buf) ← readline_r fuel rptr;
  if decide (n = -1) then err_sys (str "readline_r error") else mret (rptr, n, buf).

(** * server/readline.c: one [read] per character, not restarted *)

Fixpoint readline1_loop (k : nat) (fd n : Z) (buf : list Z) : M (Z * list Z) :=
  match k with
  | O => mret (n, buf ++ [0])
  | S k' =>
      r ← checked (sys (Cread fd 1));
      match r with
      | ROk [c] =>
          if decide (c = ch_nl) then mret (n, buf ++ [c; 0])
          else readline1_loop k' fd (n + 1) (buf ++ [c])
      | ROk [] =>
          if decide (n = 1) then mret (0, buf) else mret (n, buf ++ [0])
      | ROk _ => mret (-1, buf)
      | RErr _ => mret (-1, buf)
      end
  end.

Definition readline1 (fd maxlen : Z) : M (Z * list Z) :=
  readline1_loop (Z.to_nat (maxlen - 1)) fd 1 [].

Definition Readline1 (fd maxlen : Z) : M (Z * list Z) :=
  '(n, buf) ← readline1 fd maxlen;
  if decide (n = -1) then err_sys (str "readline error") else mret (n, buf).

(** * threads/readline.c: a buffer per thread *)

Section ThreadReadline.
Context (rl_once rl_key sizeof_Rline : Z).

Definition readline_once : M unit := Pthread_key_create rl_key "readline_destructor".

(** [pthread_getspecific(rl_key)] is the thread's buffer, if it has one; the
    zeroed memory of a new one is an empty buffer. *)
Definition readline_thr (fuel : nat) (specific : option rline) (fd maxlen : Z)
    : M (rline * Z * list Z) :=
  Pthread_once rl_once "readline_once";;
  tsd ← match specific with
        | Some tsd => mret tsd
        | None =>
            tsd ← Calloc 1 sizeof_Rline;
            Pthread_setspecific rl_key tsd;;
            mret (Rline 0 [])
        end;
  readline fuel tsd fd maxlen.

Definition Readline_thr (fuel : nat) (specific : option rline) (fd maxlen : Z)
    : M (rline * Z * list Z) :=
  '(st, n, buf) ← readline_thr fuel specific fd maxlen;
  if decide (n < 0) then err_sys (str "readline error") else mret (st, n, buf).
End ThreadReadline.

(** * Passing descriptors *)

Definition sizeof_int : Z := 4.
Definition sizeof_cmsghdr : Z := 16.
Definition CMSG_LEN (size : Z) : Z := sizeof_cmsghdr + size.
Definition SCM_RIGHTS : Z := 1.

(** The result, the bytes stored through [ptr], and [*recvfd] when it is set. *)
Definition read_fd (fd nbytes : Z) : M (Z * list Z * option Z) :=
  r ← checked (sys (Crecvmsg fd nbytes));
  match r with
  | RErr _ => mret (-1, [], None)
  | ROk (data, cm) =>
      let n := Z.of_nat (length data) in
      if decide (n <= 0) then mret (n, data, None)
      else
        recvfd ← match cm with
                 | Some cm =>
                     if decide (cmsg_len cm = CMSG_LEN sizeof_int) then
                       if decide (cmsg_level cm ≠ SOL_SOCKET) then
                         err_quit (str "control level != SOL_SOCKET")
                       else if decide (cmsg_type cm ≠ SCM_RIGHTS) then
                         err_quit (str "control type != SCM_RIGHTS")
                       else mret (cmsg_fd cm)
                     else mret (-1)
                 | None => mret (-1)
                 end;
        mret (n, data, Some recvfd)
  end.

Definition Read_fd (fd nbytes : Z) : M (Z * list Z * option Z) :=
  '(n, data, recvfd) ← read_fd fd nbytes;
  if decide (n < 0) then err_sys (str "read_fd error") else mret (n, data, recvfd).

Definition res_int (r : res Z) : Z := match r with ROk n => n | RErr _ => -1 end.

Definition write_fd (fd : Z) (ptr : list Z) (sendfd : Z) : M Z :=
  r ← checked (sys (Csendmsg fd ptr None
                      (Some (Cmsg (CMSG_LEN sizeof_int) SOL_SOCKET SCM_RIGHTS sendfd))));
  mret (res_int r).

Definition Write_fd (fd : Z) (ptr : list Z) (sendfd : Z) : M Z :=
  n ← write_fd fd ptr sendfd;
  if decide (n < 0) then err_sys (str "write_fd error") else mret n.

(** * Waiting with a time limit *)

Definition select_n (r : res (Z * gset Z * gset Z)) : Z :=
  match r with ROk (n, _, _) => n | RErr _ => -1 end.

Definition readable_timeo (fd sec : Z) : M Z :=
  r ← checked (sys (Cselect (fd + 1) {[fd]} ∅ (Some (sec, 0))));
  mret (select_n r).

Definition Readable_timeo (fd sec : Z) : M Z :=
  n ← readable_timeo fd sec;
  if decide (n < 0) then err_sys (str "readable_timeo error") else mret n.

Definition writable_timeo (fd sec : Z) : M Z :=
  r ← checked (sys (Cselect (fd + 1) ∅ {[fd]} (Some (sec, 0))));
  mret (select_n r).

Definition Writable_timeo (fd sec : Z) : M Z :=
  n ← writable_timeo fd sec;
  if decide (n < 0) then err_sys (str "writable_timeo error") else mret n.

(** * Echo servers and clients *)

(** A NUL ends a string: [strlen] of the bytes of a buffer. *)
Definition c_str (buf : list Z) : list Z :=
  match list_find (λ c, c = 0) buf with Some (i, _) => take i buf | None => buf end.

(** [n < 0 && errno == EINTR] goes back to the loop. *)
Definition str_echo (fuel : nat) (sockfd : Z) : M unit :=
  iter fuel (λ _ : unit,
    r ← checked (sys (Cread sockfd MAXLINE));
    match r with
    | RErr _ =>
        errno ← get_errno;
        if decide (errno = EINTR) then mret (inl tt)
        else err_sys (str "str_echo: read error")
    | ROk buf =>
        let n := Z.of_nat (length buf) in
        if decide (n > 0) then Writen fuel sockfd buf;; mret (inl tt)
        else mret (inr tt)
    end) tt.

Definition str_cli (fuel : nat) (st : rline) (sockfd : Z) : M rline :=
  iter fuel (λ st,
    sendline ← Fgets MAXLINE;
    match sendline with
    | None => mret (inr st)
    | Some sendline =>
        Writen fuel sockfd (c_str sendline);;
        '(st, n, recvline) ← Readline fuel st sockfd MAXLINE;
        (if decide (n = 0) then err_quit (str "str_cli: server terminated prematurely")
         else mret tt);;
        Fputs (c_str recvline) stdout;;
        mret (inl st)
    end) st.

Definition dg_echo (fuel : nat) (sockfd : Z) : M unit :=
  iter fuel (λ _ : unit,
    '(mesg, pcliaddr) ← Recvfrom sockfd MAXLINE;
    Sendto sockfd mesg pcliaddr;;
    mret (inl tt)) tt.

Definition dg_cli (fuel : nat) (sockfd : Z) (servaddr : sockaddr) : M unit :=
  iter fuel (λ _ : unit,
    sendline ← Fgets MAXLINE;
    match sendline with
    | None => mret (inr tt)
    | Some sendline =>
        Sendto sockfd (c_str sendline) servaddr;;
        '(recvline, _) ← Recvfrom sockfd MAXLINE;
        Fputs (c_str (recvline ++ [0])) stdout;;
        mret (inl tt)
    end) tt.
