(* ===== verification/IoSpec.v ===== *)
(** Properties of [Io]: the bytes of a descriptor are neither lost, duplicated
    nor reordered, whatever the sizes of the kernel's answers and whichever
    calls are interrupted. *)

From S2P Require Import Prelude Net Sys Error Wrap Io.

(** What the kernel documents about the counts it answers. *)
Class KernelIo (K : kernel) : Prop := {
  read_count cs fd n l : K cs (Cread fd n) = ROk l → Z.of_nat (length l) <= n;
  read_bytes cs fd n l : K cs (Cread fd n) = ROk l → bytes l;
  write_count cs fd d n : K cs (Cwrite fd d) = ROk n → 0 <= n <= Z.of_nat (length d)
}.

(** A concrete kernel: reads are answered by a script, one answer per read, and
    end-of-file after it; writes accept at most [wmax] bytes. *)
Fixpoint count_reads (cs : list call) : nat :=
  match cs with
  | [] => 0
  | Cread _ _ :: cs' => S (count_reads cs')
  | _ :: cs' => count_reads cs'
  end.

Definition script_kernel (rd : list (res (list Z))) (wmax : Z) : kernel := λ cs c,
  match c as c return ans c with
  | Cread fd n =>
      if decide (n < 0) then RErr EINVAL
      else match nth (count_reads cs) rd (ROk []) with
           | ROk l => ROk (take (Z.to_nat n) (map u8 l))
           | RErr e => RErr e
           end
  | Cwrite fd d => ROk (Z.max 0 (Z.min wmax (Z.of_nat (length d))))
  | c => default_ans c
  end.

#[global] Instance script_kernel_io rd wmax : KernelIo (script_kernel rd wmax).
Proof.
  assert (Hu : ∀ l k, bytes (take k (map u8 l))).
  { intros l k. apply Forall_take, Forall_map, Forall_true. intros x.
    unfold is_byte, u8. apply Z.mod_pos_bound. lia. }
  split; intros cs fd n; simpl.
  - intros l. case_decide; [done|]. destruct (nth _ _ _) as [l'|]; [|done].
    intros [= <-]. rewrite length_take. lia.
  - intros l. case_decide; [done|]. destruct (nth _ _ _) as [l'|]; [|done].
    intros [= <-]. apply Hu.
  - intros m [= <-]. lia.
Qed.

Definition world0 : world := World [] 0 false.

(** * The bytes of a descriptor *)

Section streams.
Context (K : kernel) (fd : Z).

Definition read_data (cs : list call) (c : call) : list Z :=
  match c as c return ans c → list Z with
  | Cread fd' n => λ a, if decide (fd' = fd) then
                          match a with ROk l => l | RErr _ => [] end
                        else []
  | _ => λ _, []
  end (K cs c).

Definition write_data (cs : list call) (c : call) : list Z :=
  match c as c return ans c → list Z with
  | Cwrite fd' d => λ a, if decide (fd' = fd) then
                           match a with ROk n => take (Z.to_nat n) d | RErr _ => [] end
                         else []
  | _ => λ _, []
  end (K cs c).

(** The bytes read from and written to [fd] by a history of calls. *)
Fixpoint received (cs : list call) : list Z :=
  match cs with [] => [] | c :: cs' => received cs' ++ read_data cs' c end.
Fixpoint sent (cs : list call) : list Z :=
  match cs with [] => [] | c :: cs' => sent cs' ++ write_data cs' c end.

(** The latest call of a history is a [read] of [fd] with the answer [r]. *)
Definition last_read (cs : list call) (r : res (list Z)) : Prop :=
  ∃ cs' n, cs = Cread fd n :: cs' ∧ K cs' (Cread fd n) = r.

(** The latest [k] calls are [read]s of [fd] that were interrupted. *)
Fixpoint interrupted_run (k : nat) (cs : list call) : Prop :=
  match k with
  | O => True
  | S k' => ∃ cs' n, cs = Cread fd n :: cs' ∧ K cs' (Cread fd n) = RErr EINTR ∧ interrupted_run k' cs'
  end.

Definition interrupted_read : Prop := ∃ cs n, K cs (Cread fd n) = RErr EINTR.
Definition interrupted_write : Prop := ∃ cs d, K cs (Cwrite fd d) = RErr EINTR.

Lemma received_report cs cs' : Forall report_call cs → received (cs ++ cs') = received cs'.
Proof.
  induction 1 as [|c cs Hc Hcs IH]; [done|]. simpl. rewrite IH.
  destruct c; try done; unfold read_data; by rewrite app_nil_r.
Qed.

Lemma sent_report cs cs' : Forall report_call cs → sent (cs ++ cs') = sent cs'.
Proof.
  induction 1 as [|c cs Hc Hcs IH]; [done|]. simpl. rewrite IH.
  destruct c; try done; unfold write_data; by rewrite app_nil_r.
Qed.

Lemma received_read n cs :
  received (Cread fd n :: cs) =
    received cs ++ match K cs (Cread fd n) with ROk l => l | RErr _ => [] end.
Proof. simpl. unfold read_data. by rewrite decide_True. Qed.

Lemma sent_write d cs :
  sent (Cwrite fd d :: cs) =
    sent cs ++ match K cs (Cwrite fd d) with ROk n => take (Z.to_nat n) d | RErr _ => [] end.
Proof. simpl. unfold write_data. by rewrite decide_True. Qed.

Lemma received_write fd' d cs : received (Cwrite fd' d :: cs) = received cs.
Proof. simpl. apply app_nil_r. Qed.

Lemma sent_read fd' n cs : sent (Cread fd' n :: cs) = sent cs.
Proof. simpl. apply app_nil_r. Qed.
End streams.

#[global] Arguments received : simpl never.
#[global] Arguments sent : simpl never.

(** * writen *)

Section writen.
Context (K : kernel) `{!KernelIo K}.

(** The calls in between are writes to [fd]. *)
Definition only_writes (fd : Z) (w w' : world) : Prop :=
  ∃ ds, w_calls w' = map (Cwrite fd) ds ++ w_calls w.

Lemma only_writes_cons fd w w1 d w2 :
  only_writes fd w w1 → w_calls w2 = Cwrite fd d :: w_calls w1 → only_writes fd w w2.
Proof. intros [ds Hds] Hw. exists (d :: ds). simpl. by rewrite Hw, Hds. Qed.

Lemma wp_writen fuel fd data w (Q : outcome Z → world → Prop) :
  (∀ w', sent K fd (w_calls w') = sent K fd (w_calls w) ++ data →
     received K fd (w_calls w') = received K fd (w_calls w) →
     only_writes fd w w' →
     Q (Val (Z.of_nat (length data))) w') →
  (∀ w' d, d `prefix_of` data →
     sent K fd (w_calls w') = sent K fd (w_calls w) ++ d →
     received K fd (w_calls w') = received K fd (w_calls w) →
     Q (Val (-1)) w' ∧
     (interrupted_write K fd ∨ (fuel <= length data)%nat → Q Diverge w')) →
  wp K (writen fuel fd data) w Q.
Proof.
  intros Hok Herr. unfold writen.
  set (I := λ (s : Z * list Z) w', ∃ d, data = d ++ s.2 ∧ s.1 = Z.of_nat (length s.2) ∧
    sent K fd (w_calls w') = sent K fd (w_calls w) ++ d ∧
    received K fd (w_calls w') = received K fd (w_calls w) ∧ only_writes fd w w').
  apply (wp_iter_stutter _ (interrupted_write K fd) I (λ s, length s.2)).
  - exists []. rewrite app_nil_r. split_and!; try done. by exists [].
  - intros [nleft ptr] w1 (d & Hd & Hn & Hs & Hr & Hdm). simpl in Hd, Hn. subst nleft.
    case_decide as Hpos.
    + do 3 wp_step. destruct (K (w_calls w1) (Cwrite fd ptr)) as [n|e] eqn:HK.
      * destruct (write_count _ _ _ _ HK) as [Hn0 Hn1]. case_decide as Hz; wp_step; simpl.
        -- apply (Herr _ d); [by exists ptr|..]; simpl.
           ++ rewrite sent_write, HK, Hs. replace (Z.to_nat n) with 0%nat by lia.
              by rewrite app_nil_r.
           ++ by rewrite received_write.
        -- split; [|right; rewrite length_drop; lia].
           exists (d ++ take (Z.to_nat n) ptr). simpl.
           rewrite sent_write, HK, Hs, <-!app_assoc, take_drop.
           split; [done|]. split; [rewrite length_drop; lia|]. split; [done|].
           rewrite received_write. split; [done|]. by eapply only_writes_cons.
      * do 2 wp_step. case_decide as He; wp_step; simpl.
        -- split; [|left; subst e; by eexists _, _]. exists d. simpl.
           rewrite sent_write, HK, received_write, app_nil_r.
           split_and!; try done. by eapply only_writes_cons.
        -- apply (Herr _ d); [by exists ptr|..]; simpl;
             rewrite ?sent_write, ?HK, ?received_write, ?app_nil_r; done.
    + wp_step. destruct ptr; [|simpl in Hpos; lia]. rewrite app_nil_r in Hd. subst d.
      by apply Hok.
  - intros [nleft ptr] w' (d & Hd & _ & Hs & Hr & Hdm) HE. simpl in Hd.
    apply (Herr w' d); try done. by exists ptr.
Qed.
End writen.

Lemma wp_Writen (K : kernel) `{!KernelIo K} fuel fd data w (Q : outcome unit → world → Prop) :
  (∀ w', sent K fd (w_calls w') = sent K fd (w_calls w) ++ data →
     received K fd (w_calls w') = received K fd (w_calls w) →
     only_writes fd w w' → Q (Val tt) w') →
  (∀ w' d, d `prefix_of` data →
     sent K fd (w_calls w') = sent K fd (w_calls w) ++ d →
     received K fd (w_calls w') = received K fd (w_calls w) →
     Q (Exit 1) w' ∧
     (interrupted_write K fd ∨ (fuel <= length data)%nat → Q Diverge w')) →
  wp K (Writen fuel fd data) w Q.
Proof.
  intros Hok Herr. unfold Writen. wp_step. apply wp_writen; [done| |].
  - intros w' Hs Hr Hd. simpl. case_decide; [done|]. wp_step. by apply Hok.
  - intros w' d Hd Hs Hr. simpl. split; [|by apply (Herr w' d)].
    case_decide; [|lia]. apply wp_err_sys. intros cs Hcs.
    apply (Herr _ d); [done|..]; simpl;
      by rewrite ?sent_report, ?received_report.
Qed.

(** * readn *)

Section readn.
Context (K : kernel) `{!KernelIo K}.

(** C6: [readn] stores the next bytes of the descriptor, in order and without
    gaps, at most [n] of them; it returns their number, which is less than [n]
    only at end-of-file, or -1 on an error other than an interruption.  Unless
    reads are interrupted, [n + 1] rounds are enough. *)
Theorem readn_spec fuel fd n w :
  0 <= n →
  let '(o, w') := readn fuel fd n K w in
  match o with
  | Val (r, buf) =>
      received K fd (w_calls w') = received K fd (w_calls w) ++ buf ∧
      Z.of_nat (length buf) <= n ∧
      (r = -1 ∧ w_errno w' ≠ EINTR ∨
       r = Z.of_nat (length buf) ∧
       (r = n ∨ ∃ cs m, w_calls w' = Cread fd m :: cs ∧ 0 < m ∧
                        K cs (Cread fd m) = ROk []))
  | Diverge => interrupted_read K fd ∨ Z.of_nat fuel <= n
  | _ => False
  end.
Proof.
  intros Hn.
  enough (H : wp K (readn fuel fd n) w (λ o w', match o with
    | Val (r, buf) =>
      received K fd (w_calls w') = received K fd (w_calls w) ++ buf ∧
      Z.of_nat (length buf) <= n ∧
      (r = -1 ∧ w_errno w' ≠ EINTR ∨
       r = Z.of_nat (length buf) ∧
       (r = n ∨ ∃ cs m, w_calls w' = Cread fd m :: cs ∧ 0 < m ∧
                        K cs (Cread fd m) = ROk []))
    | Diverge => interrupted_read K fd ∨ Z.of_nat fuel <= n
    | _ => False end)).
  { unfold wp in H. by destruct (readn fuel fd n K w). }
  set (I := λ (s : Z * list Z) w', 0 <= s.1 ∧ s.1 + Z.of_nat (length s.2) = n ∧
    received K fd (w_calls w') = received K fd (w_calls w) ++ s.2).
  apply (wp_iter_stutter _ (interrupted_read K fd) I (λ s, Z.to_nat s.1)).
  - unfold I. simpl. rewrite app_nil_r. split; [done|]. split; [lia|done].
  - intros [nleft buf] w1 (H0 & H1 & Hr). simpl in *. case_decide as Hpos.
    + do 3 wp_step. destruct (K (w_calls w1) (Cread fd nleft)) as [l|e] eqn:HK.
      * pose proof (read_count _ _ _ _ HK) as Hl. case_decide as Hz; wp_step; simpl.
        -- destruct l; [|simpl in Hz; lia]. rewrite received_read, HK, Hr, app_nil_r.
           split; [done|]. split; [lia|]. right. split; [lia|]. right.
           exists (w_calls w1), nleft. split; [done|]. split; [lia|done].
        -- unfold I. simpl. rewrite received_read, HK, Hr, length_app, app_assoc.
           split; [|right; lia]. split; [lia|]. split; [lia|done].
      * do 2 wp_step. case_decide as He; wp_step; simpl.
        -- unfold I. simpl. rewrite received_read, HK, app_nil_r.
           split; [done|]. left. subst e. by eexists _, _.
        -- rewrite received_read, HK, Hr, app_nil_r. split; [done|]. split; [lia|]. by left.
    + wp_step. simpl. split; [done|]. split; [lia|]. right. split; [lia|]. left. lia.
  - intros [nleft buf] w' (H0 & H1 & _) [HE|HE]; [by left|]. right. simpl in *. lia.
Qed.
End readn.

Lemma readn_spec_witness :
  let K := script_kernel [ROk [1; 2]; RErr EINTR; ROk [3; 4; 5]] 10 in
  let '(o, w') := readn 10 7 4 K world0 in
  o = Val (4, [1; 2; 3; 4]) ∧
  received K 7 (w_calls w') = [] ++ [1; 2; 3; 4] ∧ Z.of_nat (length [1; 2; 3; 4]) <= 4.
Proof.
  intros K. pose proof (readn_spec K 10 7 4 world0 ltac:(lia)) as H.
  split; [reflexivity|]. split; apply H.
Defined.

(** * str_echo *)

(** C7: [str_echo] sends back exactly the bytes it receives, in order: at
    every return, exit or pause what was sent is a prefix of what was received,
    and on end-of-file it is all of it. *)
Theorem str_echo_spec (K : kernel) `{!KernelIo K} fuel fd w :
  let '(o, w') := str_echo fuel fd K w in
  ∃ s r, sent K fd (w_calls w') = sent K fd (w_calls w) ++ s ∧
         received K fd (w_calls w') = received K fd (w_calls w) ++ r ∧
         s `prefix_of` r ∧
         match o with Val _ => s = r | Exit c => c = 1 | Aborted => False | Diverge => True end.
Proof.
  set (P := λ (o : outcome unit) w', ∃ s r,
         sent K fd (w_calls w') = sent K fd (w_calls w) ++ s ∧
         received K fd (w_calls w') = received K fd (w_calls w) ++ r ∧
         s `prefix_of` r ∧
         match o with Val _ => s = r | Exit c => c = 1 | Aborted => False | Diverge => True end).
  enough (H : wp K (str_echo fuel fd) w P).
  { unfold wp in H. by destruct (str_echo fuel fd K w). }
  set (I := λ (_ : unit) w', ∃ s,
         sent K fd (w_calls w') = sent K fd (w_calls w) ++ s ∧
         received K fd (w_calls w') = received K fd (w_calls w) ++ s).
  apply (wp_iter _ I).
  - exists []. by rewrite !app_nil_r.
  - intros [] w1 (s & Hs & Hr). do 3 wp_step.
    destruct (K (w_calls w1) (Cread fd MAXLINE)) as [l|e] eqn:HK.
    + case_decide as Hz.
      * wp_step. apply wp_Writen; [done|..]; simpl.
        -- intros w' Hs' Hr' _. wp_step. exists (s ++ l).
           by rewrite Hs', Hr', sent_read, received_read, HK, Hs, Hr, !app_assoc.
        -- intros w' d Hd Hs' Hr'. rewrite sent_read, Hs in Hs'.
           rewrite received_read, HK, Hr in Hr'. rewrite <-app_assoc in Hs', Hr'.
           assert (Hp : (s ++ d) `prefix_of` (s ++ l)) by by apply prefix_app.
           split; [|intros _]; exists (s ++ d), (s ++ l); done.
      * destruct l; [|simpl in Hz; lia]. wp_step. exists s, s. simpl.
        rewrite sent_read, received_read, HK, app_nil_r. done.
    + do 2 wp_step. case_decide.
      * wp_step. exists s. simpl. rewrite sent_read, received_read, HK, app_nil_r. done.
      * apply wp_err_sys. intros cs Hcs. exists s, s. simpl.
        rewrite sent_report, received_report, sent_read, received_read, HK, app_nil_r by done.
        done.
  - intros [] w' (s & Hs & Hr). by exists s, s.
Qed.

Lemma str_echo_spec_witness :
  let K := script_kernel [ROk [1; 2]; RErr EINTR; ROk [3; 4; 5]] 2 in
  ∃ s, sent K 7 (w_calls (str_echo 20 7 K world0).2) = [] ++ s ∧ s = [1; 2; 3; 4; 5].
Proof.
  intros K. destruct (str_echo_spec K 20 7 world0) as (s & r & Hs & Hr & _ & Heq).
  exists s. split; [exact Hs|]. transitivity r; [exact Heq|].
  symmetry. exact Hr.
Defined.

(** * readline *)

(** The buffered bytes not yet returned. *)
Definition pending (st : rline) : list Z :=
  if decide (read_cnt st <= 0) then [] else read_ptr st.

Definition rline_ok (st : rline) : Prop :=
  0 < read_cnt st → read_cnt st = Z.of_nat (length (read_ptr st)).

Section readline.
Context (K : kernel) `{!KernelIo K} (fuel : nat) (fd : Z).

Lemma wp_my_read st w (Q : outcome (rline * my_read_rc) → world → Prop) :
  rline_ok st → (0 < fuel)%nat →
  (∀ st' c w' delta, rline_ok st' →
     received K fd (w_calls w') = received K fd (w_calls w) ++ delta →
     pending st ++ delta = c :: pending st' → Q (Val (st', Rd1 c)) w') →
  (∀ st' rc w', rline_ok st' →
     rc = Rd0 ∧ last_read K fd (w_calls w') (ROk []) ∨
     rc = RdErr ∧ last_read K fd (w_calls w') (RErr (w_errno w')) ∧ w_errno w' ≠ EINTR →
     received K fd (w_calls w') = received K fd (w_calls w) →
     pending st = [] → pending st' = [] → Q (Val (st', rc)) w') →
  (∀ w', interrupted_run K fd fuel (w_calls w') → Q Diverge w') →
  wp K (my_read fuel st fd) w Q.
Proof.
  intros Hst Hfuel H1 H0 HD. unfold my_read. wp_step.
  assert (Htake : ∀ (st1 : rline) delta w', rline_ok st1 → 0 < read_cnt st1 →
    received K fd (w_calls w') = received K fd (w_calls w) ++ delta →
    pending st ++ delta = read_ptr st1 →
    Q (Val (Rline (read_cnt st1 - 1) (drop 1 (read_ptr st1)), Rd1 (hd 0 (read_ptr st1)))) w').
  { intros st1 delta w' Hok Hpos Hr Hp. specialize (Hok Hpos).
    destruct (read_ptr st1) as [|c l] eqn:Hl; [simpl in *; lia|].
    apply (H1 _ _ _ delta); [|done|].
    - intros _. simpl. rewrite drop_0. simpl in Hok. lia.
    - rewrite Hp. unfold pending. simpl. rewrite drop_0. f_equal.
      case_decide; [|done]. simpl in Hok. destruct l; [done|simpl in *; lia]. }
  destruct (decide (read_cnt st <= 0)) as [Hc|Hc].
  - assert (Hp0 : pending st = []) by (unfold pending; by rewrite decide_True).
    unfold refill.
    apply (wp_iter_count _ (λ k _ w', received K fd (w_calls w') = received K fd (w_calls w) ∧
      interrupted_run K fd k (w_calls w'))); [done| |].
    + intros k [] w1 [Hr Hrun]. do 3 wp_step.
      destruct (K (w_calls w1) (Cread fd MAXLINE)) as [l|e] eqn:HK.
      * case_decide as Hz; wp_step; simpl; wp_step.
        -- destruct l; [|simpl in Hz; lia]. apply H0; try done; [left; split; [done|]; by eexists _, _|].
           simpl. by rewrite received_read, HK, app_nil_r.
        -- apply (Htake (Rline (Z.of_nat (length l)) l) l); [done|simpl; lia| |by rewrite Hp0].
           simpl. by rewrite received_read, HK, Hr.
      * do 2 wp_step. case_decide as He; wp_step; simpl.
        -- rewrite received_read, HK, app_nil_r. split; [done|]. subst e. by eexists _, _.
        -- wp_step. apply H0; try done; [right; split; [done|]; split; [by eexists _, _|done]|].
           simpl. by rewrite received_read, HK, app_nil_r.
    + intros [] w' [_ Hrun]. by apply HD.
  - wp_step. simpl. wp_step. apply (Htake st []); [done|lia|by rewrite app_nil_r|].
    rewrite app_nil_r. unfold pending. by rewrite decide_False.
Qed.

(** How a line ended: a newline, end-of-file, or no room left. *)
Definition line_end (k : nat) (n r : Z) (line : list Z) (st' : rline) (w' : world) : Prop :=
  (∃ l, line = l ++ [ch_nl] ∧ (ch_nl ∉ l) ∧ r = n + Z.of_nat (length l) ∧
        (length line <= k)%nat) ∨
  ((ch_nl ∉ line) ∧ (pending st' = [] ∧ last_read K fd (w_calls w') (ROk [])) ∧
   r = n - 1 + Z.of_nat (length line) ∧ (length line < k)%nat) ∨
  ((ch_nl ∉ line) ∧ length line = k ∧ r = n + Z.of_nat k).

Definition line_post (k : nat) (st : rline) (n : Z) (buf : list Z) (w : world)
    (o : outcome (rline * Z * list Z)) (w' : world) : Prop :=
  match o with
  | Val (st', r, stored) =>
      rline_ok st' ∧
      ∃ line delta, received K fd (w_calls w') = received K fd (w_calls w) ++ delta ∧
        pending st ++ delta = line ++ pending st' ∧
        (r = -1 ∧ stored = buf ++ line ∧
            last_read K fd (w_calls w') (RErr (w_errno w')) ∧ w_errno w' ≠ EINTR ∨
          stored = buf ++ line ++ [0] ∧ line_end k n r line st' w')
  | Diverge => interrupted_run K fd fuel (w_calls w')
  | _ => False
  end.

Lemma wp_readline_loop k st n buf w :
  rline_ok st → (0 < fuel)%nat →
  wp K (readline_loop k fuel st fd n buf) w (line_post k st n buf w).
Proof.
  intros Hst Hfuel. revert st n buf w Hst.
  induction k as [|k IH]; intros st n buf w Hst; simpl.
  - wp_step. split; [done|]. exists [], []. rewrite !app_nil_r. split; [done|]. split; [done|].
    right. split; [done|]. right. right. split; [set_solver|]. split; [done|lia].
  - wp_step. apply wp_my_read; [done|done|..].
    + intros st1 c w1 delta Hok Hr Hp. simpl. case_decide as Hc.
      * wp_step. split; [done|]. exists [c], delta. split; [done|]. split; [done|].
        right. split; [done|]. left. exists []. subst c. split; [done|].
        split; [set_solver|]. simpl. split; lia.
      * eapply wp_mono; [by apply IH|]. intros [[[st' r] stored]|?| |] w'; try done.
        intros (Hok' & line & delta' & Hr' & Hp' & Hend). split; [done|].
        exists (c :: line), (delta ++ delta').
        rewrite Hr', Hr, <-app_assoc. split; [done|].
        rewrite app_assoc, Hp. simpl. rewrite Hp'. split; [done|].
        destruct Hend as [(-> & -> & He)|(-> & Hend)]; rewrite <-app_assoc; simpl; [by left|].
        right. split; [done|]. unfold line_end in *.
        destruct Hend as [(l & -> & Hl & -> & Hk)|[(Hl & Hpe & -> & Hk)|(Hl & Hk & ->)]].
        -- left. exists (c :: l). split; [done|]. split; [set_solver|]. simpl in *. split; lia.
        -- right. left. split; [set_solver|]. split; [done|]. simpl. split; lia.
        -- right. right. split; [set_solver|]. simpl. split; lia.
    + intros st1 rc w1 Hok Hrc Hr Hp Hp'. simpl. destruct Hrc as [[-> He]|[-> He]]; wp_step.
      * split; [done|]. exists [], []. rewrite Hr, Hp, Hp', !app_nil_r.
        split; [done|]. split; [done|]. right. split; [done|].
        right. left. split; [set_solver|]. split; [done|]. simpl. split; lia.
      * split; [done|]. exists [], []. rewrite Hr, Hp, Hp', !app_nil_r.
        split; [done|]. split; [done|]. by left.
    + done.
Qed.
End readline.

(** C8: [readline] returns the next line of the byte stream, whatever the sizes
    of the kernel's answers: the bytes buffered before and those read by the
    call are the bytes of the line followed by those buffered after.  The line
    ends at its first newline or at end-of-file, and its length is returned;
    a line longer than [maxlen - 1] bytes is cut there, and then [maxlen], one
    more than the bytes stored, is returned.  A line ends at end-of-file only
    when the last [read] answered no bytes, and [-1] is returned only when the
    last [read] failed with an error that is not [EINTR]: an interrupted [read]
    ends neither the line nor the stream, it is made again; and only [fuel]
    interruptions in a row keep the call from returning. *)
Theorem readline_spec (K : kernel) `{!KernelIo K} fuel st fd maxlen w :
  rline_ok st → (0 < fuel)%nat → 1 <= maxlen →
  let '(o, w') := readline fuel st fd maxlen K w in
  match o with
  | Val (st', r, stored) =>
      rline_ok st' ∧
      ∃ line delta, received K fd (w_calls w') = received K fd (w_calls w) ++ delta ∧
        pending st ++ delta = line ++ pending st' ∧
        (r = -1 ∧ stored = line ∧
           last_read K fd (w_calls w') (RErr (w_errno w')) ∧ w_errno w' ≠ EINTR ∨
         stored = line ++ [0] ∧ Z.of_nat (length stored) <= maxlen ∧
         ((∃ l, line = l ++ [ch_nl] ∧ (ch_nl ∉ l) ∧ r = Z.of_nat (length line)) ∨
          ((ch_nl ∉ line) ∧ (pending st' = [] ∧ last_read K fd (w_calls w') (ROk [])) ∧
           r = Z.of_nat (length line)) ∨
          ((ch_nl ∉ line) ∧ Z.of_nat (length line) = maxlen - 1 ∧ r = maxlen)))
  | Diverge => interrupted_run K fd fuel (w_calls w')
  | _ => False
  end.
Proof.
  intros Hst Hfuel Hmax.
  pose proof (wp_readline_loop K fuel fd (Z.to_nat (maxlen - 1)) st 1 [] w Hst Hfuel) as H.
  unfold readline. unfold wp, line_post in H.
  destruct (readline_loop _ _ _ _ _ _ K w) as [[[[st' r] stored]|?| |] w']; simpl in H; try done.
  destruct H as (Hok & line & delta & Hr & Hp & H). split; [done|].
  exists line, delta. split; [done|]. split; [done|].
  destruct H as [H|[-> H]]; [by left|]. right. split; [done|].
  rewrite length_app. cbn [length].
  destruct H as [(l & -> & Hl & -> & Hk)|[(Hl & Hpe & -> & Hk)|(Hl & Hk & ->)]].
  - rewrite length_app in *. cbn [length] in *. split; [lia|]. left. exists l.
    split; [done|]. split; [done|lia].
  - split; [lia|]. right. left. split; [done|]. split; [done|lia].
  - split; [lia|]. right. right. split; [done|lia].
Qed.

Lemma readline_spec_witness :
  let K := script_kernel [ROk [97; 98]; RErr EINTR; ROk [10; 99]] 10 in
  let '(o, w') := readline 10 (Rline 0 []) 7 10 K world0 in
  o = Val (Rline 1 [99], 3, [97; 98; 10; 0]) ∧
  ∃ line delta, received K 7 (w_calls w') = [] ++ delta ∧ [] ++ delta = line ++ [99].
Proof.
  intros K.
  pose proof (readline_spec K 10 (Rline 0 []) 7 10 world0 ltac:(done) ltac:(lia) ltac:(lia)) as H.
  split; [reflexivity|]. destruct H as (_ & line & delta & H1 & H2 & _).
  exists line, delta. split; [exact H1|exact H2].
Defined.

(** * readline_r *)

Lemma received_bytes (K : kernel) `{!KernelIo K} fd cs : bytes (received K fd cs).
Proof.
  induction cs as [|c cs IH]; [by apply Forall_nil|].
  change (received K fd (c :: cs)) with (received K fd cs ++ read_data K fd cs c).
  apply Forall_app. split; [done|].
  destruct c; try by apply Forall_nil.
  unfold read_data. case_decide; [|by apply Forall_nil].
  destruct (K cs (Cread fd0 n)) as [l|e] eqn:HK; [|by apply Forall_nil].
  exact (read_bytes _ _ _ _ HK).
Qed.

Section readline_r.
Context (K : kernel) `{!KernelIo K} (fuel : nat).

Definition rline_r_ok (rptr : rline_r) : Prop :=
  rline_ok (rl rptr) ∧ bytes (pending (rl rptr)).

Definition line_r_post (k : nat) (rptr : rline_r) (n : Z) (buf : list Z) (w : world)
    (o : outcome (rline_r * Z * list Z)) (w' : world) : Prop :=
  let fd := read_fd_r rptr in
  match o with
  | Val (rptr', r, stored) =>
      rline_r_ok rptr' ∧ read_fd_r rptr' = fd ∧
      ∃ line delta, received K fd (w_calls w') = received K fd (w_calls w) ++ delta ∧
        pending (rl rptr) ++ delta = line ++ pending (rl rptr') ∧
        (r = -1 ∧ stored = buf ++ line ∧ w_errno w' ≠ EINTR ∨
         r = 0 ∧ n = 1 ∧ line = [] ∧ stored = buf ∧ pending (rl rptr') = [] ∨
         stored = buf ++ line ++ [0] ∧ (length line <= k)%nat ∧
         ((∃ l, line = l ++ [ch_nl] ∧ (ch_nl ∉ l) ∧ r = n + Z.of_nat (length l)) ∨
          (ch_nl ∉ line) ∧ pending (rl rptr') = [] ∧ (length line < k)%nat ∧
          r = n + Z.of_nat (length line) ∨
          (ch_nl ∉ line) ∧ length line = k ∧ r = n + Z.of_nat k))
  | Diverge => interrupted_read K fd
  | _ => False
  end.

Lemma wp_readline_r_loop k rptr n buf w :
  rline_r_ok rptr → (0 < fuel)%nat → 1 <= n →
  wp K (readline_r_loop k fuel rptr n buf) w (line_r_post k rptr n buf w).
Proof.
  intros Hst Hfuel. revert rptr n buf w Hst.
  induction k as [|k IH]; intros rptr n buf w Hst Hn; cbn [readline_r_loop].
  - wp_step. split; [done|]. split; [done|]. exists [], []. rewrite !app_nil_r.
    split; [done|]. split; [done|]. right. right. split; [done|]. split; [done|].
    right. right. split; [set_solver|]. split; [done|lia].
  - destruct Hst as [Hst Hpb]. wp_step. unfold my_read_r. wp_step.
    apply (wp_my_read K fuel (read_fd_r rptr)); [done|done|..].
    + intros st1 c w1 delta Hok Hr Hp. cbn [bind_post]. wp_step.
      assert (Hall : bytes (c :: pending st1)).
      { rewrite <-Hp. apply Forall_app. split; [done|].
        pose proof (received_bytes K (read_fd_r rptr) (w_calls w1)) as Hb.
        rewrite Hr in Hb. by apply Forall_app in Hb as [_ Hb]. }
      apply Forall_cons in Hall as [Hcb Hall].
      assert (Hland : Z.land c 255 = c).
      { rewrite land_255. apply Z.mod_small. exact Hcb. }
      rewrite Hland. case_decide as Hc.
      * wp_step. split; [done|]. split; [done|]. exists [c], delta.
        split; [done|]. split; [done|]. right. right. split; [by subst c|].
        split; [cbn [length]; lia|]. left. exists []. subst c. split; [done|].
        split; [set_solver|]. cbn [length]. lia.
      * set (rptr1 := RlineR (read_fd_r rptr) (read_maxlen rptr) st1).
        eapply wp_mono; [apply (IH rptr1); [done|lia]|].
        intros [[[rptr' r] stored]|?| |] w'; try done.
        intros (Hok' & Hfd & line & delta' & Hr' & Hp' & Hend).
        split; [done|]. split; [done|]. exists (c :: line), (delta ++ delta').
        cbn [rl read_fd_r rptr1] in *. rewrite Hr', Hr, <-app_assoc. split; [done|].
        rewrite app_assoc, Hp. cbn [app]. rewrite Hp'. split; [done|].
        destruct Hend as [(-> & -> & He)|[(-> & Hn1 & _)|(-> & Hlen & Hend)]];
          rewrite <-?app_assoc; [by left|lia|].
        right. right. split; [done|]. split; [cbn [length]; lia|].
        destruct Hend as [(l & -> & Hl & ->)|[(Hl & Hpe & Hk & ->)|(Hl & Hk & ->)]].
        -- left. exists (c :: l). split; [done|]. split; [set_solver|]. cbn [length]. lia.
        -- right. left. split; [set_solver|]. cbn [length]. split_and!; [done|lia|lia].
        -- right. right. split; [set_solver|]. cbn [length]. split; lia.
    + intros st1 rc w1 Hok Hrc Hr Hp Hp'. cbn [bind_post]. wp_step.
      assert (Hok1 : rline_r_ok (RlineR (read_fd_r rptr) (read_maxlen rptr) st1)).
      { split; [done|]. cbn [rl]. rewrite Hp'. constructor. }
      destruct Hrc as [[-> _]|(-> & _ & He)]; cbv beta iota; [case_decide as Hn1|]; wp_step;
        (split; [done|]); (split; [done|]); exists [], []; cbn [rl];
        rewrite Hr, Hp, Hp', !app_nil_r; (split; [done|]); (split; [done|]).
      * right. by left.
      * right. right. split; [done|]. split; [cbn [length]; lia|]. right. left.
        split; [set_solver|]. cbn [length]. split_and!; [done|lia|lia].
      * by left.
    + intros w1 HE. destruct fuel as [|j]; [lia|]. destruct HE as (cs & m & _ & HK & _). by exists cs, m.
Qed.
End readline_r.

(** [readline_r] returns the next line of the stream like [readline], but a
    partial line that end-of-file ends is counted with one byte too many: the
    result is [length + 1]. *)
Theorem readline_r_spec (K : kernel) `{!KernelIo K} fuel rptr w :
  rline_r_ok rptr → (0 < fuel)%nat → 1 <= read_maxlen rptr →
  let fd := read_fd_r rptr in
  let '(o, w') := readline_r fuel rptr K w in
  match o with
  | Val (rptr', r, stored) =>
      rline_r_ok rptr' ∧
      ∃ line delta, received K fd (w_calls w') = received K fd (w_calls w) ++ delta ∧
        pending (rl rptr) ++ delta = line ++ pending (rl rptr') ∧
        (r = -1 ∧ stored = line ∧ w_errno w' ≠ EINTR ∨
         r = 0 ∧ line = [] ∧ stored = [] ∧ pending (rl rptr') = [] ∨
         stored = line ++ [0] ∧ Z.of_nat (length stored) <= read_maxlen rptr ∧
         ((∃ l, line = l ++ [ch_nl] ∧ (ch_nl ∉ l) ∧ r = Z.of_nat (length line)) ∨
          (ch_nl ∉ line) ∧ r = Z.of_nat (length line) + 1 ∧
          (pending (rl rptr') = [] ∨ r = read_maxlen rptr)))
  | Diverge => interrupted_read K fd
  | _ => False
  end.
Proof.
  intros Hst Hfuel Hmax fd.
  pose proof (wp_readline_r_loop K fuel (Z.to_nat (read_maxlen rptr - 1)) rptr 1 [] w
                Hst Hfuel ltac:(lia)) as H.
  unfold readline_r. unfold wp, line_r_post in H.
  destruct (readline_r_loop _ _ _ _ _ K w) as [[[[rptr' r] stored]|?| |] w']; simpl in H; try done.
  destruct H as (Hok & _ & line & delta & Hr & Hp & H). split; [done|].
  exists line, delta. split; [done|]. split; [done|].
  destruct H as [H|[(-> & _ & -> & -> & H)|(-> & Hk & H)]]; [by left|by right; left|].
  right. right. split; [done|]. rewrite length_app. cbn [length]. split; [lia|].
  destruct H as [(l & -> & Hl & ->)|[(Hl & Hpe & Hk' & ->)|(Hl & Hk' & ->)]].
  - left. exists l. rewrite length_app. cbn [length]. split_and!; [done|done|lia].
  - right. split_and!; [done|lia|by left].
  - right. split_and!; [done|lia|right; lia].
Qed.

Lemma readline_r_spec_witness :
  let K := script_kernel [ROk [97; 98]] 10 in
  let '(o, w') := readline_r 10 (readline_rinit 7 10) K world0 in
  o = Val (RlineR 7 10 (Rline 0 []), 3, [97; 98; 0]) ∧
  ∃ line delta, received K 7 (w_calls w') = [] ++ delta ∧ [] ++ delta = line ++ [].
Proof.
  intros K.
  pose proof (readline_r_spec K 10 (readline_rinit 7 10) world0) as H.
  specialize (H ltac:(split; [done|by_decide]) ltac:(lia) ltac:(done)).
  split; [reflexivity|]. destruct H as (_ & line & delta & H1 & H2 & _).
  exists line, delta. split; [exact H1|exact H2].
Defined.

(** * The calls of the stream functions *)

Section emits_io.
Context (P : call → Prop) (HP : ∀ c, report_call c → P c).

Lemma emits_writen fuel fd data : (∀ d, P (Cwrite fd d)) → emits P (writen fuel fd data).
Proof. intros Hw. unfold writen. emits_tac; auto. Qed.

Lemma emits_Writen fuel fd data : (∀ d, P (Cwrite fd d)) → emits P (Writen fuel fd data).
Proof.
  intros Hw. unfold Writen. emits_tac; [by apply emits_writen|by apply emits_err_sys].
Qed.

Lemma emits_my_read fuel st fd : (∀ n, P (Cread fd n)) → emits P (my_read fuel st fd).
Proof. intros Hr. unfold my_read, refill. emits_tac; auto. Qed.

Lemma emits_Readline fuel st fd maxlen :
  (∀ n, P (Cread fd n)) → emits P (Readline fuel st fd maxlen).
Proof.
  intros Hr. unfold Readline, readline. emits_tac; [|by apply emits_err_sys].
  generalize (Z.to_nat (maxlen - 1)) as k. generalize 1 as n. generalize (@nil Z) as buf.
  intros buf n k. revert st n buf. induction k as [|k IH]; intros st n buf; simpl; [apply emits_ret|].
  apply emits_bind; [by apply emits_my_read|]. intros [st' [c| |]]; [|apply emits_ret..].
  apply emits_decide; [apply emits_ret|apply IH].
Qed.
End emits_io.
