(* ===== verification/Connect.v ===== *)
(** Protocol-independent connection functions of [lib/]: [tcp_listen.c],
    [tcp_connect.c], [udp_client.c], [udp_connect.c], [udp_server.c],
    [host_serv.c], [connect_nonb.c], [connect_timeo.c], and the signal and
    daemon functions [signal.c], [signal_intr.c], [pselect.c], [daemon_init.c],
    [daemon_inetd.c]. *)

From S2P Require Import Prelude Net Sys Error Wrap Io.

Definition AI_PASSIVE : Z := 1.
Definition AI_CANONNAME : Z := 2.

(** [%s] of a pointer that may be null. *)
Definition opt_str (s : option (list Z)) : list Z := default (str "(null)") s.

Definition sa_len (sa : sockaddr) : Z :=
  match sa with SaIn _ _ => 16 | SaIn6 _ _ => 28 | SaUn _ => 110 | SaOther _ => 128 end.
Definition ai_addrlen (ai : addrinfo) : Z := sa_len (ai_addr ai).

(** The message of a failed name lookup. *)
Definition gai_err_quit {A} (who : list Z) (host serv : option (list Z)) (n : Z) : M A :=
  e ← sys (Cgai_strerror n);
  err_quit (who ++ str " error for " ++ opt_str host ++ str ", " ++ opt_str serv
            ++ str ": " ++ e).

(** [do { ... } while ((res = res->ai_next) != NULL)]: the first structure for
    which [try] gives a descriptor, [None] when [res] reaches the end. *)
Fixpoint ai_loop (try : addrinfo → M (option Z)) (res : addrinfo) (rest : list addrinfo)
    : M (option (Z * addrinfo)) :=
  fd ← try res;
  match fd with
  | Some fd => mret (Some (fd, res))
  | None =>
      match rest with
      | [] => mret None
      | res' :: rest' => ai_loop try res' rest'
      end
  end.

(** * tcp_listen, tcp_connect *)

Definition listen_try (res : addrinfo) : M (option Z) :=
  r ← checked (sys (Csocket (ai_family res) (ai_socktype res) (ai_protocol res)));
  match r with
  | RErr _ => mret None
  | ROk listenfd =>
      Setsockopt listenfd SOL_SOCKET SO_REUSEADDR [1; 0; 0; 0];;
      r ← checked (sys (Cbind listenfd (ai_addr res)));
      match r with
      | ROk _ => mret (Some listenfd)
      | RErr _ => Close listenfd;; mret None
      end
  end.

(** The descriptor and [*addrlenp]. *)
Definition tcp_listen (host serv : option (list Z)) : M (Z * Z) :=
  r ← sys (Cgetaddrinfo host serv (GaiHints AI_PASSIVE AF_UNSPEC SOCK_STREAM 0));
  match r with
  | inl n => gai_err_quit (str "tcp_listen") host serv n
  | inr (res, rest) =>
      f ← ai_loop listen_try res rest;
      match f with
      | None => err_sys (str "tcp_listen error for " ++ opt_str host ++ str ", " ++ opt_str serv)
      | Some (listenfd, res) =>
          Listen listenfd LISTENQ;;
          sys Cfreeaddrinfo;;
          mret (listenfd, ai_addrlen res)
      end
  end.

Definition Tcp_listen (host serv : option (list Z)) : M (Z * Z) := tcp_listen host serv.

Definition connect_try (res : addrinfo) : M (option Z) :=
  r ← checked (sys (Csocket (ai_family res) (ai_socktype res) (ai_protocol res)));
  match r with
  | RErr _ => mret None
  | ROk sockfd =>
      r ← checked (sys (Cconnect sockfd (ai_addr res)));
      match r with
      | ROk _ => mret (Some sockfd)
      | RErr _ => Close sockfd;; mret None
      end
  end.

Definition tcp_connect (host serv : option (list Z)) : M Z :=
  r ← sys (Cgetaddrinfo host serv (GaiHints 0 AF_UNSPEC SOCK_STREAM 0));
  match r with
  | inl n => gai_err_quit (str "tcp_connect") host serv n
  | inr (res, rest) =>
      f ← ai_loop connect_try res rest;
      match f with
      | None => err_sys (str "tcp_connect error for " ++ opt_str host ++ str ", " ++ opt_str serv)
      | Some (sockfd, _) => sys Cfreeaddrinfo;; mret sockfd
      end
  end.

Definition Tcp_connect (host serv : option (list Z)) : M Z := tcp_connect host serv.

(** * udp_client, udp_connect, udp_server *)

Definition socket_try (res : addrinfo) : M (option Z) :=
  r ← checked (sys (Csocket (ai_family res) (ai_socktype res) (ai_protocol res)));
  match r with ROk sockfd => mret (Some sockfd) | RErr _ => mret None end.

(** The descriptor, the copy [*saptr] and its length [*lenp]. *)
Definition udp_client (host serv : option (list Z)) : M (Z * sockaddr * Z) :=
  r ← sys (Cgetaddrinfo host serv (GaiHints 0 AF_UNSPEC SOCK_DGRAM 0));
  match r with
  | inl n => gai_err_quit (str "udp_client") host serv n
  | inr (res, rest) =>
      f ← ai_loop socket_try res rest;
      match f with
      | None => err_sys (str "udp_client error for " ++ opt_str host ++ str ", " ++ opt_str serv)
      | Some (sockfd, res) =>
          Malloc (ai_addrlen res);;
          sys Cfreeaddrinfo;;
          mret (sockfd, ai_addr res, ai_addrlen res)
      end
  end.

Definition Udp_client (host serv : option (list Z)) : M (Z * sockaddr * Z) :=
  udp_client host serv.

Definition udp_connect (host serv : option (list Z)) : M Z :=
  r ← sys (Cgetaddrinfo host serv (GaiHints 0 AF_UNSPEC SOCK_DGRAM 0));
  match r with
  | inl n => gai_err_quit (str "udp_connect") host serv n
  | inr (res, rest) =>
      f ← ai_loop connect_try res rest;
      match f with
      | None => err_sys (str "udp_connect error for " ++ opt_str host ++ str ", " ++ opt_str serv)
      | Some (sockfd, _) => sys Cfreeaddrinfo;; mret sockfd
      end
  end.

Definition Udp_connect (host serv : option (list Z)) : M Z :=
  n ← udp_connect host serv;
  if decide (n < 0) then gai_err_quit (str "udp_connect") host serv (- n) else mret n.

Definition bind_try (res : addrinfo) : M (option Z) :=
  r ← checked (sys (Csocket (ai_family res) (ai_socktype res) (ai_protocol res)));
  match r with
  | RErr _ => mret None
  | ROk sockfd =>
      r ← checked (sys (Cbind sockfd (ai_addr res)));
      match r with
      | ROk _ => mret (Some sockfd)
      | RErr _ => Close sockfd;; mret None
      end
  end.

Definition udp_server (host serv : option (list Z)) : M (Z * Z) :=
  r ← sys (Cgetaddrinfo host serv (GaiHints AI_PASSIVE AF_UNSPEC SOCK_DGRAM 0));
  match r with
  | inl n => gai_err_quit (str "udp_server") host serv n
  | inr (res, rest) =>
      f ← ai_loop bind_try res rest;
      match f with
      | None => err_sys (str "udp_server error for " ++ opt_str host ++ str ", " ++ opt_str serv)
      | Some (sockfd, res) => sys Cfreeaddrinfo;; mret (sockfd, ai_addrlen res)
      end
  end.

Definition Udp_server (host serv : option (list Z)) : M (Z * Z) := udp_server host serv.

(** * host_serv *)

Definition host_serv (host serv : option (list Z)) (family socktype : Z)
    : M (option (addrinfo * list addrinfo)) :=
  r ← sys (Cgetaddrinfo host serv (GaiHints AI_CANONNAME family socktype 0));
  match r with inl _ => mret None | inr res => mret (Some res) end.

Definition Host_serv (host serv : option (list Z)) (family socktype : Z)
    : M (addrinfo * list addrinfo) :=
  r ← sys (Cgetaddrinfo host serv (GaiHints AI_CANONNAME family socktype 0));
  match r with
  | inl n =>
      e ← sys (Cgai_strerror n);
      err_quit (str "host_serv error for " ++ default (str "(no hostname)") host ++ str ", "
                ++ default (str "(no service name)") serv ++ str ": " ++ e)
  | inr res => mret res
  end.

(** * Signals *)

Definition SA_INTERRUPT : Z := 2 ^ 29.
Definition SA_RESTART : Z := 2 ^ 28.

(** [None] is [SIG_ERR]. *)
Definition signal (signo : Z) (func : handler) : M (option handler) :=
  let sa_flags := if decide (signo = SIGALRM) then SA_INTERRUPT else SA_RESTART in
  r ← checked (sys (Csigaction signo sa_flags func));
  match r with RErr _ => mret None | ROk oact => mret (Some oact) end.

Definition Signal (signo : Z) (func : handler) : M handler :=
  sigfunc ← signal signo func;
  match sigfunc with
  | None => err_sys (str "signal error")
  | Some sigfunc => mret sigfunc
  end.

Definition signal_intr (signo : Z) (func : handler) : M (option handler) :=
  r ← checked (sys (Csigaction signo SA_INTERRUPT func));
  match r with RErr _ => mret None | ROk oact => mret (Some oact) end.

Definition Signal_intr (signo : Z) (func : handler) : M handler :=
  sigfunc ← signal_intr signo func;
  match sigfunc with
  | None => err_sys (str "signal_intr error")
  | Some sigfunc => mret sigfunc
  end.

Definition SIG_SETMASK : Z := 2.

(** [savemask] is the address of the local; the [timespec] has nanoseconds. *)
Definition pselect (savemask nfds : Z) (rset wset : gset Z) (ts : option (Z * Z)) (sigmask : Z)
    : M (res (Z * gset Z * gset Z)) :=
  let tv := match ts with Some (sec, nsec) => Some (sec, Z.quot nsec 1000) | None => None end in
  checked (sys (Csigset (So_procmask SIG_SETMASK sigmask savemask)));;
  n ← checked (sys (Cselect nfds rset wset tv));
  checked (sys (Csigset (So_procmask SIG_SETMASK savemask 0)));;
  mret n.

(** * Non-blocking and timed connect *)

Definition connect_nonb (sockfd : Z) (sa : sockaddr) (nsec : Z) : M Z :=
  flags ← Fcntl sockfd F_GETFL 0;
  Fcntl sockfd F_SETFL (Z.lor flags O_NONBLOCK);;
  let done (error : Z) : M Z :=
    Fcntl sockfd F_SETFL flags;;
    if decide (error ≠ 0) then
      checked (sys (Cclose sockfd));;
      set_errno error;;
      mret (-1)
    else mret 0 in
  r ← checked (sys (Cconnect sockfd sa));
  match r with
  | ROk _ => done 0
  | RErr _ =>
      errno ← get_errno;
      if decide (errno ≠ EINPROGRESS) then mret (-1)
      else
        '(n, rset, wset) ← Select (sockfd + 1) {[sockfd]} {[sockfd]}
                             (if decide (nsec ≠ 0) then Some (nsec, 0) else None);
        if decide (n = 0) then
          checked (sys (Cclose sockfd));;
          set_errno ETIMEDOUT;;
          mret (-1)
        else if decide (sockfd ∈ rset ∨ sockfd ∈ wset) then
          e ← checked (sys (Cgetsockopt sockfd SOL_SOCKET SO_ERROR));
          match e with
          | RErr _ => mret (-1)
          | ROk error => done error
          end
        else err_quit (str "select error: sockfd not set")
  end.

Definition connect_timeo (sockfd : Z) (sa : sockaddr) (nsec : Z) : M Z :=
  sigfunc ← Signal SIGALRM (Handler "connect_alarm");
  left ← sys (Calarm nsec);
  (if decide (left ≠ 0) then err_msg (str "connect_timeo: alarm was already set")
   else mret tt);;
  r ← checked (sys (Cconnect sockfd sa));
  n ← match r with
      | ROk _ => mret 0
      | RErr _ =>
          checked (sys (Cclose sockfd));;
          errno ← get_errno;
          (if decide (errno = EINTR) then set_errno ETIMEDOUT else mret tt);;
          mret (-1)
      end;
  sys (Calarm 0);;
  Signal SIGALRM sigfunc;;
  mret n.

Definition Connect_timeo (fd : Z) (sa : sockaddr) (sec : Z) : M unit :=
  n ← connect_timeo fd sa sec;
  if decide (n < 0) then err_sys (str "connect_timeo error") else mret tt.

(** * Daemons *)

Definition MAXFD : Z := 64.
Definition O_RDONLY : Z := 0.
Definition O_RDWR : Z := 2.
Definition LOG_PID : Z := 1.

Definition daemon_init (pname : list Z) (facility : Z) : M Z :=
  pid ← Fork;
  if decide (pid < 0) then mret (-1)
  else if decide (pid ≠ 0) then exit 0
  else
    r ← checked (sys Csetsid);
    match r with
    | RErr _ => mret (-1)
    | ROk _ =>
        Signal SIGHUP SIG_IGN;;
        pid ← Fork;
        if decide (pid < 0) then mret (-1)
        else if decide (pid ≠ 0) then exit 0
        else
          set_daemon true;;
          checked (sys (Cchdir (str "/")));;
          for_each (seqZ 0 MAXFD) (λ i _, checked (sys (Cclose i));; mret tt) tt;;
          checked (sys (Copen (str "/dev/null") O_RDONLY 0));;
          checked (sys (Copen (str "/dev/null") O_RDWR 0));;
          checked (sys (Copen (str "/dev/null") O_RDWR 0));;
          sys (Copenlog pname LOG_PID facility);;
          mret 0
    end.

Definition daemon_inetd (pname : list Z) (facility : Z) : M unit :=
  set_daemon true;;
  sys (Copenlog pname LOG_PID facility).
