(* ===== verification/ConnectSpec.v ===== *)
(** Properties of [Wrap.Accept] and of the functions of [Connect]: no descriptor
    leaks, signal handlers, alarms and file status flags are restored. *)

From S2P Require Import Prelude Net Sys Error Wrap Io Connect.

(** * Accept *)

Section Accept.
Context (K : kernel) (fd : Z).

Definition transient (e : Z) : Prop := e = EPROTO ∨ e = ECONNABORTED.

(** The history after [i] failed attempts. *)
Definition attempts (i : nat) (cs : list call) : list call :=
  Nat.iter i (cons (Caccept fd)) cs.

Lemma attempts_succ i cs : attempts (S i) cs = attempts i (Caccept fd :: cs).
Proof. unfold attempts. rewrite Nat.iter_succ_r. done. Qed.

Definition accept_body (_ : unit) : M (unit + (Z * sockaddr)) :=
  r ← checked (sys (Caccept fd));
  match r with
  | ROk n => mret (inr n)
  | RErr _ =>
      errno ← get_errno;
      if decide (errno = EPROTO ∨ errno = ECONNABORTED) then mret (inl tt)
      else err_sys (str "accept error")
  end.

Lemma accept_round w :
  accept_body tt K w =
    match K (w_calls w) (Caccept fd) with
    | ROk n => (Val (inr n), World (Caccept fd :: w_calls w) (w_errno w) (w_daemon w))
    | RErr e =>
        let w' := World (Caccept fd :: w_calls w) e (w_daemon w) in
        if decide (transient e) then (Val (inl tt), w')
        else err_sys (str "accept error") K w'
    end.
Proof.
  unfold accept_body, checked, mbind, M_bind, sys, mret, M_ret, set_errno, get_errno. simpl.
  destruct (K (w_calls w) (Caccept fd)) as [n|e]; [done|]. simpl.
  unfold transient. by destruct (decide (e = EPROTO ∨ e = ECONNABORTED)).
Qed.

(** [Accept] repeats [accept] over any number of transient failures and
    then gives the connection, or exits with status 1 and [errno] set to the
    first error that is not transient. *)
Theorem Accept_spec k fuel w r :
  (∀ i, (i < k)%nat → ∃ e, K (attempts i (w_calls w)) (Caccept fd) = RErr e ∧ transient e) →
  K (attempts k (w_calls w)) (Caccept fd) = r →
  (∀ e, r = RErr e → ¬ transient e) → (k < fuel)%nat →
  let '(o, w') := Accept fuel fd K w in
  match r with
  | ROk conn => o = Val conn ∧ w_calls w' = attempts (S k) (w_calls w)
  | RErr e => o = Exit 1 ∧ w_errno w' = e
  end.
Proof.
  change (Accept fuel fd) with (iter fuel accept_body tt).
  revert fuel w. induction k as [|k IH]; intros fuel w Ht Hr Hnt Hf;
    (destruct fuel as [|fuel]; [lia|]); rewrite iter_step, accept_round.
  - change (attempts 0 (w_calls w)) with (w_calls w) in Hr. rewrite Hr. destruct r as [conn|e]; [done|].
    cbn zeta. rewrite decide_False by by apply Hnt.
    destruct (err_sys_exit (A := unit + Z * sockaddr) K (str "accept error")
      (World (Caccept fd :: w_calls w) e (w_daemon w))) as (cs & _ & ->). done.
  - destruct (Ht 0%nat ltac:(lia)) as (e & He & Htr). change (attempts 0 (w_calls w)) with (w_calls w) in He.
    rewrite He. cbn zeta. rewrite decide_True by done.
    set (w1 := World (Caccept fd :: w_calls w) e (w_daemon w)).
    specialize (IH fuel w1). cbn [w_calls w1] in IH.
    rewrite attempts_succ in Hr.
    assert (Ht' : ∀ i, (i < k)%nat →
      ∃ e, K (attempts i (Caccept fd :: w_calls w)) (Caccept fd) = RErr e ∧ transient e).
    { intros i Hi. rewrite <-attempts_succ. apply Ht. lia. }
    specialize (IH Ht' Hr Hnt ltac:(lia)).
    destruct (iter fuel accept_body () K w1) as [o w']. destruct r; [|exact IH].
    rewrite attempts_succ. exact IH.
Qed.
End Accept.

(** A kernel whose first two [accept]s are aborted. *)
Definition accept_kernel : kernel := λ cs c,
  match c as c return ans c with
  | Caccept fd =>
      if decide (length cs < 2)%nat then RErr ECONNABORTED else ROk (9, SaIn 0 INADDR_ANY)
  | c => default_ans c
  end.

Lemma Accept_spec_witness :
  let '(o, w') := Accept 5 3 accept_kernel (World [] 0 false) in
  o = Val (9, SaIn 0 INADDR_ANY) ∧ w_calls w' = attempts 3 3 [].
Proof.
  apply (Accept_spec accept_kernel 3 2 5 (World [] 0 false) (ROk (9, SaIn 0 INADDR_ANY)));
    [|reflexivity|done|lia].
  intros [|[|i]] Hi; [| |lia]; (exists ECONNABORTED; split; [reflexivity|by right]).
Defined.

(** * Descriptors *)

(** The descriptors that a history has opened with [socket] and not closed,
    the latest first. *)
Fixpoint remove_first (fd : Z) (l : list Z) : list Z :=
  match l with
  | [] => []
  | x :: l' => if decide (x = fd) then l' else x :: remove_first fd l'
  end.

Definition open_step (K : kernel) (cs : list call) (c : call) (l : list Z) : list Z :=
  match c as c return ans c → list Z with
  | Csocket _ _ _ => λ a, match a with ROk fd => fd :: l | RErr _ => l end
  | Cclose fd => λ _, remove_first fd l
  | _ => λ _, l
  end (K cs c).

Fixpoint opened (K : kernel) (cs : list call) : list Z :=
  match cs with [] => [] | c :: cs' => open_step K cs' c (opened K cs') end.

Lemma opened_report K cs cs' : Forall report_call cs → opened K (cs ++ cs') = opened K cs'.
Proof.
  induction 1 as [|c cs Hc Hcs IH]; [done|]. simpl. rewrite IH. by destruct c.
Qed.

Lemma opened_socket K f t p cs :
  opened K (Csocket f t p :: cs) =
    match K cs (Csocket f t p) with ROk fd => fd :: opened K cs | RErr _ => opened K cs end.
Proof. reflexivity. Qed.

Lemma remove_first_head fd l : remove_first fd (fd :: l) = l.
Proof. simpl. by rewrite decide_True. Qed.

(** The history has a successful [connect] ([bind]) of [fd] to [sa]. *)
Definition done_at (K : kernel) (c : call) (P : ans c → Prop) (cs : list call) : Prop :=
  ∃ cs1 cs2, cs = cs1 ++ c :: cs2 ∧ P (K cs2 c).

Lemma done_at_later K c P cs cs' : done_at K c P cs → done_at K c P (cs' ++ cs).
Proof.
  intros (cs1 & cs2 & -> & HP). exists (cs' ++ cs1), cs2. by rewrite <-app_assoc.
Qed.

Section no_leak.
Context (K : kernel).

(** The loop over the addresses, for a [try] that leaves at most its own
    descriptor open. *)
Lemma wp_ai_loop (G : Z → addrinfo → list call → Prop) (try : addrinfo → M (option Z))
    res rest w Q :
  (∀ ai w1, ai ∈ res :: rest → opened K (w_calls w1) = opened K (w_calls w) →
     wp K (try ai) w1 (λ o w', match o with
     | Val (Some fd) => opened K (w_calls w') = fd :: opened K (w_calls w) ∧ G fd ai (w_calls w')
     | Val None => opened K (w_calls w') = opened K (w_calls w)
     | Exit c => Q (Exit c) w'
     | _ => False end)) →
  (∀ w' fd ai, ai ∈ res :: rest → opened K (w_calls w') = fd :: opened K (w_calls w) →
     G fd ai (w_calls w') → Q (Val (Some (fd, ai))) w') →
  (∀ w', opened K (w_calls w') = opened K (w_calls w) → Q (Val None) w') →
  wp K (ai_loop try res rest) w Q.
Proof.
  revert res w. induction rest as [|res' rest IH]; intros res w Htry Hok Hnone;
    cbn [ai_loop]; wp_step; (eapply wp_mono; [apply (Htry res w); [set_solver|done]|]);
    intros [[fd|]|c| |] w1; simpl; try done.
  - intros [Ho HG]. apply (Hok w1 fd res); [set_solver|done|done].
  - intros Ho. by apply Hnone.
  - intros [Ho HG]. apply (Hok w1 fd res); [set_solver|done|done].
  - intros Ho. apply IH.
    + intros ai w2 Hai Hw2. rewrite Ho in Hw2 |- *. apply Htry; [set_solver|done].
    + intros w' fd ai Hai. rewrite Ho. intros. apply (Hok w' fd ai); [set_solver|done|done].
    + intros w'. rewrite Ho. apply Hnone.
Qed.

(** The descriptor was connected to one of the answered addresses. *)
Definition connected (fd : Z) (ai : addrinfo) (cs : list call) : Prop :=
  done_at K (Cconnect fd (ai_addr ai)) (λ a, a = ROk tt) cs.

Lemma wp_connect_try ai w (Q : outcome (option (Z * addrinfo)) → world → Prop) :
  (∀ w', opened K (w_calls w') = opened K (w_calls w) → Q (Exit 1) w') →
  wp K (connect_try ai) w (λ o w', match o with
     | Val (Some fd) =>
         opened K (w_calls w') = fd :: opened K (w_calls w) ∧ connected fd ai (w_calls w')
     | Val None => opened K (w_calls w') = opened K (w_calls w)
     | Exit c => Q (Exit c) w'
     | _ => False end).
Proof.
  intros HQ. unfold connect_try. do 3 wp_step.
  destruct (K (w_calls w) _) as [fd|e] eqn:HK; [|wp_step; simpl; by rewrite HK].
  do 3 wp_step. destruct (K _ (Cconnect fd (ai_addr ai))) as [[]|e] eqn:HK2.
  - wp_step. simpl. rewrite HK. split; [done|]. eexists [], _. by split.
  - wp_step. unfold Close. apply wp_or_err_sys. wp_step.
    destruct (K _ (Cclose fd)) as [[]|e'] eqn:HK3; simpl.
    + wp_step. simpl. rewrite HK. apply remove_first_head.
    + intros cs Hcs. apply HQ. simpl. rewrite opened_report by done. simpl.
      rewrite HK. apply remove_first_head.
Qed.
End no_leak.

(** [tcp_connect] leaks no descriptor: it returns one that is connected to
    an address the resolver answered, every descriptor of a failed attempt
    having been closed, or it exits with status 1 with the descriptors that
    were open before. *)
Theorem tcp_connect_spec (K : kernel) host serv w :
  let '(o, w') := tcp_connect host serv K w in
  match o with
  | Val fd =>
      opened K (w_calls w') = fd :: opened K (w_calls w) ∧
      ∃ res rest ai,
        K (w_calls w) (Cgetaddrinfo host serv (GaiHints 0 AF_UNSPEC SOCK_STREAM 0)) =
          inr (res, rest) ∧
        ai ∈ res :: rest ∧ connected K fd ai (w_calls w')
  | Exit c => c = 1 ∧ opened K (w_calls w') = opened K (w_calls w)
  | _ => False
  end.
Proof.
  set (P := λ (o : outcome Z) w', match o with
  | Val fd =>
      opened K (w_calls w') = fd :: opened K (w_calls w) ∧
      ∃ res rest ai,
        K (w_calls w) (Cgetaddrinfo host serv (GaiHints 0 AF_UNSPEC SOCK_STREAM 0)) =
          inr (res, rest) ∧
        ai ∈ res :: rest ∧ connected K fd ai (w_calls w')
  | Exit c => c = 1 ∧ opened K (w_calls w') = opened K (w_calls w)
  | _ => False end).
  enough (H : wp K (tcp_connect host serv) w P).
  { unfold wp in H. by destruct (tcp_connect host serv K w). }
  unfold tcp_connect. do 2 wp_step.
  destruct (K (w_calls w) _) as [n|[res rest]] eqn:HK.
  - unfold gai_err_quit. do 2 wp_step. apply wp_err_quit. intros cs Hcs.
    split; [done|]. simpl. by rewrite opened_report.
  - wp_step. apply (wp_ai_loop K (connected K)).
    + intros ai w1 _ Ho1. rewrite <-Ho1. apply wp_connect_try. intros w' Ho.
      split; [done|]. by rewrite Ho, Ho1.
    + intros w' fd ai Hai Ho HG. simpl. do 2 wp_step. wp_step. split; [exact Ho|].
      exists res, rest, ai. split; [done|]. split; [done|].
      apply (done_at_later K _ _ _ [Cfreeaddrinfo]). exact HG.
    + intros w' Ho. simpl. apply wp_err_sys. intros cs Hcs. split; [done|].
      simpl. by rewrite opened_report.
Qed.

(** * connect_timeo *)

Section timeo.
Context (K : kernel).

Lemma wp_Signal signo func w (Q : outcome handler → world → Prop) :
  let c := Csigaction signo (if decide (signo = SIGALRM) then SA_INTERRUPT else SA_RESTART) func in
  (∀ h, K (w_calls w) c = ROk h →
     Q (Val h) (World (c :: w_calls w) (w_errno w) (w_daemon w))) →
  (∀ e cs w', K (w_calls w) c = RErr e → Forall report_call cs →
     w_calls w' = cs ++ c :: w_calls w → Q (Exit 1) w') →
  wp K (Signal signo func) w Q.
Proof.
  intros c Hok Herr. unfold Signal, signal. do 4 wp_step. fold c.
  destruct (K (w_calls w) c) as [h|e] eqn:HK.
  - wp_step. simpl. wp_step. by apply Hok.
  - wp_step. simpl. apply wp_err_sys. intros cs Hcs. by eapply Herr.
Qed.

(** [connect_timeo] returns 0 or -1; whenever it returns, its last calls
    turn the alarm off and put back the handler of [SIGALRM] that was there
    before; on -1 the socket has been closed, and [errno] is not [EINTR] (an
    interrupted connect is reported as [ETIMEDOUT]). *)
Theorem connect_timeo_spec fd sa nsec w :
  let '(o, w') := connect_timeo fd sa nsec K w in
  match o with
  | Val n =>
      ∃ old cs,
        K (w_calls w) (Csigaction SIGALRM SA_INTERRUPT (Handler "connect_alarm")) = ROk old ∧
        w_calls w' = Csigaction SIGALRM SA_INTERRUPT old :: Calarm 0 :: cs ∧
        (n = 0 ∧ done_at K (Cconnect fd sa) (λ a, a = ROk tt) cs ∨
         n = -1 ∧ w_errno w' ≠ EINTR ∧
         done_at K (Cconnect fd sa) (λ a, a ≠ ROk tt) cs ∧ head cs = Some (Cclose fd))
  | Exit c => c = 1
  | _ => False
  end.
Proof.
  set (P := λ (o : outcome Z) w', match o with
  | Val n =>
      ∃ old cs,
        K (w_calls w) (Csigaction SIGALRM SA_INTERRUPT (Handler "connect_alarm")) = ROk old ∧
        w_calls w' = Csigaction SIGALRM SA_INTERRUPT old :: Calarm 0 :: cs ∧
        (n = 0 ∧ done_at K (Cconnect fd sa) (λ a, a = ROk tt) cs ∨
         n = -1 ∧ w_errno w' ≠ EINTR ∧
         done_at K (Cconnect fd sa) (λ a, a ≠ ROk tt) cs ∧ head cs = Some (Cclose fd))
  | Exit c => c = 1
  | _ => False end).
  enough (H : wp K (connect_timeo fd sa nsec) w P).
  { unfold wp in H. by destruct (connect_timeo fd sa nsec K w). }
  unfold connect_timeo. wp_step. apply wp_Signal; [|done].
  intros old Hold. cbn [bind_post]. do 2 wp_step. wp_step.
  assert (Hrest : ∀ w1, wp K (r ← checked (sys (Cconnect fd sa));
      n ← match r with
          | ROk _ => mret 0
          | RErr _ =>
              checked (sys (Cclose fd));;
              errno ← get_errno;
              (if decide (errno = EINTR) then set_errno ETIMEDOUT else mret tt);;
              mret (-1)
          end;
      sys (Calarm 0);;
      Signal SIGALRM old;;
      mret n) w1 P).
  { intros w1. do 3 wp_step.
    assert (Hfin : ∀ n w2,
      (n = 0 ∧ done_at K (Cconnect fd sa) (λ a, a = ROk tt) (w_calls w2) ∨
       n = -1 ∧ w_errno w2 ≠ EINTR ∧
       done_at K (Cconnect fd sa) (λ a, a ≠ ROk tt) (w_calls w2) ∧
       head (w_calls w2) = Some (Cclose fd)) →
      wp K (sys (Calarm 0);; Signal SIGALRM old;; mret n) w2 P).
    { intros n w2 Hn. do 2 wp_step. wp_step. apply wp_Signal; [|done].
      intros h Hh. cbn [bind_post]. wp_step. exists old, (w_calls w2).
      split; [exact Hold|]. split; [done|]. exact Hn. }
    destruct (K (w_calls w1) (Cconnect fd sa)) as [[]|e] eqn:HK.
    - do 2 wp_step. apply Hfin. left. split; [done|]. by exists [], (w_calls w1).
    - wp_step. do 3 wp_step.
      assert (Hlast : ∀ w2, w_calls w2 = Cclose fd :: Cconnect fd sa :: w_calls w1 →
        wp K (errno ← get_errno;
              (if decide (errno = EINTR) then set_errno ETIMEDOUT else mret tt);; mret (-1)) w2
          (bind_post (λ n w3, wp K (sys (Calarm 0);; Signal SIGALRM old;; mret n) w3 P) P)).
      { intros w2 Hw2. do 3 wp_step. wp_if; wp_step; wp_step; apply Hfin; right;
          cbn [w_calls w_errno]; rewrite Hw2; (split; [done|]); (split; [done|]);
          (split; [|done]); exists [Cclose fd], (w_calls w1); (split; [done|]); by rewrite HK. }
      destruct (K _ (Cclose fd)) as [[]|e']; simpl; by apply Hlast. }
  wp_if.
  - apply wp_err_msg. intros cs _. apply Hrest.
  - wp_step. apply Hrest.
Qed.
End timeo.

(** * connect_nonb *)

(** The file status flags that the history last set on [fd]. *)
Fixpoint last_flags (fd : Z) (cs : list call) : option Z :=
  match cs with
  | [] => None
  | Cfcntl fd' cmd arg :: cs' =>
      if decide (fd' = fd ∧ cmd = F_SETFL) then Some arg else last_flags fd cs'
  | _ :: cs' => last_flags fd cs'
  end.

(** When [connect_nonb] succeeds, the file status flags are those it found,
    and the connection completed at once or with [SO_ERROR] 0; when it fails
    after the wait, it sets [errno] to the pending error or [ETIMEDOUT] and
    closes the socket; but a connect that fails at once returns with the socket
    open and still non-blocking. *)
Theorem connect_nonb_spec (K : kernel) fd sa nsec w :
  let '(o, w') := connect_nonb fd sa nsec K w in
  match o with
  | Val n =>
      ∃ flags, K (w_calls w) (Cfcntl fd F_GETFL 0) = ROk flags ∧
        (n = 0 ∧ last_flags fd (w_calls w') = Some flags ∨
         n = -1 ∧ last_flags fd (w_calls w') = Some flags ∧
         head (w_calls w') = Some (Cclose fd) ∧
         done_at K (Cgetsockopt fd SOL_SOCKET SO_ERROR) (λ a, a = ROk (w_errno w')) (w_calls w') ∨
         n = -1 ∧ w_errno w' = ETIMEDOUT ∧ head (w_calls w') = Some (Cclose fd) ∨
         n = -1 ∧ last_flags fd (w_calls w') = Some (Z.lor flags O_NONBLOCK) ∧
         ((∃ cs, w_calls w' = Cconnect fd sa :: cs ∧ w_errno w' ≠ EINPROGRESS ∧
                 K cs (Cconnect fd sa) = RErr (w_errno w')) ∨
          (∃ cs, w_calls w' = Cgetsockopt fd SOL_SOCKET SO_ERROR :: cs)))
  | Exit c => c = 1
  | _ => False
  end.
Proof.
  set (P := λ (o : outcome Z) w', match o with
  | Val n =>
      ∃ flags, K (w_calls w) (Cfcntl fd F_GETFL 0) = ROk flags ∧
        (n = 0 ∧ last_flags fd (w_calls w') = Some flags ∨
         n = -1 ∧ last_flags fd (w_calls w') = Some flags ∧
         head (w_calls w') = Some (Cclose fd) ∧
         done_at K (Cgetsockopt fd SOL_SOCKET SO_ERROR) (λ a, a = ROk (w_errno w')) (w_calls w') ∨
         n = -1 ∧ w_errno w' = ETIMEDOUT ∧ head (w_calls w') = Some (Cclose fd) ∨
         n = -1 ∧ last_flags fd (w_calls w') = Some (Z.lor flags O_NONBLOCK) ∧
         ((∃ cs, w_calls w' = Cconnect fd sa :: cs ∧ w_errno w' ≠ EINPROGRESS ∧
                 K cs (Cconnect fd sa) = RErr (w_errno w')) ∨
          (∃ cs, w_calls w' = Cgetsockopt fd SOL_SOCKET SO_ERROR :: cs)))
  | Exit c => c = 1
  | _ => False end).
  enough (H : wp K (connect_nonb fd sa nsec) w P).
  { unfold wp in H. by destruct (connect_nonb fd sa nsec K w). }
  assert (Hflag : ∀ v cs, last_flags fd (Cfcntl fd F_SETFL v :: cs) = Some v).
  { intros v cs. cbn [last_flags]. by rewrite decide_True. }
  unfold connect_nonb, Fcntl. wp_step. apply wp_or_err_sys. wp_step.
  destruct (K (w_calls w) (Cfcntl fd F_GETFL 0)) as [flags|e] eqn:HF; [|done]. cbn [bind_post].
  wp_step. apply wp_or_err_sys. wp_step.
  destruct (K _ (Cfcntl fd F_SETFL _)) as [x|e]; [|done]. cbn [bind_post].
  (* the end of the function *)
  assert (Hdone : ∀ error w1,
    (error ≠ 0 → done_at K (Cgetsockopt fd SOL_SOCKET SO_ERROR) (λ a, a = ROk error) (w_calls w1)) →
    wp K (or_err_sys (str "fcntl error") (sys (Cfcntl fd F_SETFL flags));;
       if decide (error ≠ 0) then
         checked (sys (Cclose fd));; set_errno error;; mret (-1)
       else mret 0) w1 P).
  { intros error w1 Herr. wp_step. apply wp_or_err_sys. wp_step.
    destruct (K _ (Cfcntl fd F_SETFL flags)) as [y|e]; [|done]. cbn [bind_post].
    destruct (decide (error ≠ 0)) as [Hne|Hne].
    - do 3 wp_step.
      assert (Hlast : ∀ w2, w_calls w2 = Cclose fd :: Cfcntl fd F_SETFL flags :: w_calls w1 →
        wp K (set_errno error;; mret (-1)) w2 P).
      { intros w2 Hw2. do 3 wp_step. exists flags. split; [reflexivity|]. right. left.
        cbn [w_calls w_errno]. rewrite Hw2. split; [done|].
        split; [apply Hflag|]. split; [done|].
        apply (done_at_later _ _ _ _ [_; _]). by apply Herr. }
      destruct (K _ (Cclose fd)); wp_step; by apply Hlast.
    - wp_step. exists flags. split; [reflexivity|]. left. split; [done|]. apply Hflag. }
  cbn zeta. do 3 wp_step. destruct (K _ (Cconnect fd sa)) as [[]|e] eqn:HC.
  { by apply Hdone. }
  do 2 wp_step. destruct (decide (e ≠ EINPROGRESS)) as [Hin|Hin].
  { wp_step. exists flags. split; [reflexivity|]. right. right. right. split; [done|].
    split; [apply Hflag|]. left. eexists. cbn [w_calls w_errno].
    split; [done|]. split; [exact Hin|exact HC]. }
  wp_step. unfold Select. apply wp_or_err_sys. wp_step.
  destruct (K _ (Cselect _ _ _ _)) as [[[n rset] wset]|e2]; [|done]. cbn [bind_post].
  destruct (decide (n = 0)) as [Hn|Hn].
  { do 3 wp_step.
    assert (Hto : ∀ w2, head (w_calls w2) = Some (Cclose fd) →
      wp K (set_errno ETIMEDOUT;; mret (-1)) w2 P).
    { intros w2 Hw2. do 3 wp_step. exists flags. split; [reflexivity|]. right. right. left. done. }
    destruct (K _ (Cclose fd)); wp_step; by apply Hto. }
  wp_if; [|by apply wp_err_quit].
  do 3 wp_step. destruct (K _ (Cgetsockopt fd SOL_SOCKET SO_ERROR)) as [error|e3] eqn:HG.
  - apply Hdone. intros _. by eexists [], _.
  - wp_step. exists flags. split; [reflexivity|]. right. right. right. split; [done|].
    split; [apply Hflag|]. right. by eexists.
Qed.
