(* ===== verification/Mcast.v ===== *)
(** The multicast functions of [lib/mcast_*.c] and small functions beside them:
    [sockatmark.c], [my_addrs.c], [hstrerror.c], [gf_time.c], [tv_sub.c].

    Linux defines [MCAST_JOIN_GROUP] and its companions, so that the
    protocol-independent branches are the ones compiled. *)

From S2P Require Import Prelude Net Sys Error Wrap SockAddr Connect.

Definition MCAST_JOIN_GROUP : Z := 42.
Definition MCAST_BLOCK_SOURCE : Z := 43.
Definition MCAST_UNBLOCK_SOURCE : Z := 44.
Definition MCAST_LEAVE_GROUP : Z := 45.
Definition MCAST_JOIN_SOURCE_GROUP : Z := 46.
Definition MCAST_LEAVE_SOURCE_GROUP : Z := 47.
Definition IP_MULTICAST_IF : Z := 32.
Definition IP_MULTICAST_TTL : Z := 33.
Definition IP_MULTICAST_LOOP : Z := 34.
Definition IPV6_MULTICAST_IF : Z := 17.
Definition IPV6_MULTICAST_HOPS : Z := 18.
Definition IPV6_MULTICAST_LOOP : Z := 19.
Definition IFNAMSIZ : Z := 16.
Definition SIOCATMARK : Z := 35077.
Definition sizeof_sockaddr_storage : Z := 128.

Definition res_unit (r : res unit) : Z := match r with ROk _ => 0 | RErr _ => -1 end.

(** [errno = e; return(-1);] *)
Definition fail_errno (e : Z) : M Z := set_errno e;; mret (-1).

(** The interface of a join: the index, or the index of the name, or 0. *)
Definition join_ifindex (ifname : option (list Z)) (ifindex : Z) (k : Z → M Z) : M Z :=
  if decide (ifindex > 0) then k ifindex
  else match ifname with
       | Some ifname =>
           idx ← sys (Cif_nametoindex ifname);
           if decide (idx = 0) then fail_errno ENXIO else k idx
       | None => k 0
       end.

Definition setsockopt_group (sockfd level opt ifindex : Z) (addrs : list sockaddr) : M Z :=
  r ← checked (sys (Csetsockopt_group sockfd level opt ifindex addrs));
  mret (res_unit r).

(** * Joining and leaving *)

Definition mcast_join (sockfd : Z) (grp : sockaddr) (grplen : Z) (ifname : option (list Z))
    (ifindex : Z) : M Z :=
  join_ifindex ifname ifindex (λ gr_interface,
    if decide (grplen > sizeof_sockaddr_storage) then fail_errno EINVAL
    else setsockopt_group sockfd (family_to_level (sa_family grp)) MCAST_JOIN_GROUP
           gr_interface [grp]).

(** [if (call < 0) err_sys(msg);] *)
Definition neg_err_sys (msg : list Z) (m : M Z) : M Z :=
  rc ← m; if decide (rc < 0) then err_sys msg else mret rc.

Definition Mcast_join (sockfd : Z) (grp : sockaddr) (grplen : Z) (ifname : option (list Z))
    (ifindex : Z) : M unit :=
  void (neg_err_sys (str "mcast_join error") (mcast_join sockfd grp grplen ifname ifindex)).

Definition mcast_join_source_group (sockfd : Z) (src : sockaddr) (srclen : Z) (grp : sockaddr)
    (grplen : Z) (ifname : option (list Z)) (ifindex : Z) : M Z :=
  join_ifindex ifname ifindex (λ gsr_interface,
    if decide (grplen > sizeof_sockaddr_storage ∨ srclen > sizeof_sockaddr_storage)
    then fail_errno EINVAL
    else setsockopt_group sockfd (family_to_level (sa_family grp)) MCAST_JOIN_SOURCE_GROUP
           gsr_interface [grp; src]).

Definition Mcast_join_source_group (sockfd : Z) (src : sockaddr) (srclen : Z) (grp : sockaddr)
    (grplen : Z) (ifname : option (list Z)) (ifindex : Z) : M unit :=
  void (neg_err_sys (str "mcast_join_source_group error")
          (mcast_join_source_group sockfd src srclen grp grplen ifname ifindex)).

Definition source_req (opt sockfd : Z) (src : sockaddr) (srclen : Z) (grp : sockaddr)
    (grplen : Z) : M Z :=
  if decide (grplen > sizeof_sockaddr_storage ∨ srclen > sizeof_sockaddr_storage)
  then fail_errno EINVAL
  else setsockopt_group sockfd (family_to_level (sa_family grp)) opt 0 [grp; src].

Definition mcast_block_source (sockfd : Z) (src : sockaddr) (srclen : Z) (grp : sockaddr)
    (grplen : Z) : M Z := source_req MCAST_BLOCK_SOURCE sockfd src srclen grp grplen.
Definition Mcast_block_source (sockfd : Z) (src : sockaddr) (srclen : Z) (grp : sockaddr)
    (grplen : Z) : M unit :=
  void (neg_err_sys (str "mcast_block_source error")
          (mcast_block_source sockfd src srclen grp grplen)).
Definition mcast_unblock_source (sockfd : Z) (src : sockaddr) (srclen : Z) (grp : sockaddr)
    (grplen : Z) : M Z := source_req MCAST_UNBLOCK_SOURCE sockfd src srclen grp grplen.
Definition Mcast_unblock_source (sockfd : Z) (src : sockaddr) (srclen : Z) (grp : sockaddr)
    (grplen : Z) : M unit :=
  void (neg_err_sys (str "mcast_unblock_source error")
          (mcast_unblock_source sockfd src srclen grp grplen)).

Definition mcast_leave (sockfd : Z) (grp : sockaddr) (grplen : Z) : M Z :=
  if decide (grplen > sizeof_sockaddr_storage) then fail_errno EINVAL
  else setsockopt_group sockfd (family_to_level (sa_family grp)) MCAST_LEAVE_GROUP 0 [grp].
Definition Mcast_leave (sockfd : Z) (grp : sockaddr) (grplen : Z) : M unit :=
  void (neg_err_sys (str "mcast_leave error") (mcast_leave sockfd grp grplen)).
Definition mcast_leave_source_group (sockfd : Z) (src : sockaddr) (srclen : Z) (grp : sockaddr)
    (grplen : Z) : M Z := source_req MCAST_LEAVE_SOURCE_GROUP sockfd src srclen grp grplen.
Definition Mcast_leave_source_group (sockfd : Z) (src : sockaddr) (srclen : Z) (grp : sockaddr)
    (grplen : Z) : M unit :=
  void (neg_err_sys (str "mcast_leave_source_group error")
          (mcast_leave_source_group sockfd src srclen grp grplen)).

(** * Options, by the family of the socket *)

(** [switch (sockfd_to_family(sockfd))] with its two cases. *)
Definition by_family (sockfd : Z) (v4 v6 : M Z) : M Z :=
  family ← sockfd_to_family sockfd;
  if decide (family = AF_INET) then v4
  else if decide (family = AF_INET6) then v6
  else fail_errno EAFNOSUPPORT.

(** The option is read into an object of the type that [conv] converts to. *)
Definition getsockopt_as (conv : Z → Z) (sockfd level opt : Z) : M Z :=
  r ← checked (sys (Cgetsockopt sockfd level opt));
  mret (match r with ROk v => conv v | RErr _ => -1 end).

Definition setsockopt_bytes (sockfd level opt : Z) (val : list Z) : M Z :=
  r ← checked (sys (Csetsockopt sockfd level opt val));
  mret (res_unit r).

(** The bytes of an [int] or [u_int] in memory. *)
Definition le32 (x : Z) : list Z :=
  let x := u32 x in
  [x mod 256; (x / 2 ^ 8) mod 256; (x / 2 ^ 16) mod 256; (x / 2 ^ 24) mod 256].

Definition mcast_get_if (sockfd : Z) : M Z :=
  by_family sockfd (mret (-1))
    (getsockopt_as (λ v, s32 (u32 v)) sockfd IPPROTO_IPV6 IPV6_MULTICAST_IF).
Definition Mcast_get_if (sockfd : Z) : M Z :=
  neg_err_sys (str "mcast_get_if error") (mcast_get_if sockfd).

Definition mcast_get_loop (sockfd : Z) : M Z :=
  by_family sockfd
    (getsockopt_as u8 sockfd IPPROTO_IP IP_MULTICAST_LOOP)
    (getsockopt_as (λ v, s32 (u32 v)) sockfd IPPROTO_IPV6 IPV6_MULTICAST_LOOP).
Definition Mcast_get_loop (sockfd : Z) : M Z :=
  neg_err_sys (str "mcast_get_loop error") (mcast_get_loop sockfd).

Definition mcast_get_ttl (sockfd : Z) : M Z :=
  by_family sockfd
    (getsockopt_as u8 sockfd IPPROTO_IP IP_MULTICAST_TTL)
    (getsockopt_as s32 sockfd IPPROTO_IPV6 IPV6_MULTICAST_HOPS).
Definition Mcast_get_ttl (sockfd : Z) : M Z :=
  neg_err_sys (str "mcast_get_ttl error") (mcast_get_ttl sockfd).

(** [doioctl]: the address of the interface becomes the option. *)
Definition set_if_name (sockfd : Z) (ifr_name : list Z) : M Z :=
  r ← checked (sys (Csiocgifaddr sockfd ifr_name));
  match r with
  | RErr _ => mret (-1)
  | ROk sa => setsockopt_bytes sockfd IPPROTO_IP IP_MULTICAST_IF (addr_of sa)
  end.

Definition mcast_set_if (sockfd : Z) (ifname : option (list Z)) (ifindex : Z) : M Z :=
  by_family sockfd
    (if decide (ifindex > 0) then
       name ← sys (Cif_indextoname ifindex);
       match name with
       | None => fail_errno ENXIO
       | Some name => set_if_name sockfd name
       end
     else match ifname with
          | Some ifname => set_if_name sockfd (take (Z.to_nat IFNAMSIZ) ifname)
          | None => setsockopt_bytes sockfd IPPROTO_IP IP_MULTICAST_IF INADDR_ANY
          end)
    (let set idx := setsockopt_bytes sockfd IPPROTO_IPV6 IPV6_MULTICAST_IF (le32 idx) in
     if decide (ifindex = 0) then
       match ifname with
       | None => fail_errno EINVAL
       | Some ifname =>
           idx ← sys (Cif_nametoindex ifname);
           if decide (idx = 0) then fail_errno ENXIO else set idx
       end
     else set ifindex).
Definition Mcast_set_if (sockfd : Z) (ifname : option (list Z)) (ifindex : Z) : M unit :=
  void (neg_err_sys (str "mcast_set_if error") (mcast_set_if sockfd ifname ifindex)).

Definition mcast_set_loop (sockfd onoff : Z) : M Z :=
  by_family sockfd
    (setsockopt_bytes sockfd IPPROTO_IP IP_MULTICAST_LOOP [u8 onoff])
    (setsockopt_bytes sockfd IPPROTO_IPV6 IPV6_MULTICAST_LOOP (le32 onoff)).
Definition Mcast_set_loop (sockfd onoff : Z) : M unit :=
  void (neg_err_sys (str "mcast_set_loop error") (mcast_set_loop sockfd onoff)).

Definition mcast_set_ttl (sockfd val : Z) : M Z :=
  by_family sockfd
    (setsockopt_bytes sockfd IPPROTO_IP IP_MULTICAST_TTL [u8 val])
    (setsockopt_bytes sockfd IPPROTO_IPV6 IPV6_MULTICAST_HOPS (le32 val)).
Definition Mcast_set_ttl (sockfd val : Z) : M unit :=
  void (neg_err_sys (str "mcast_set_ttl error") (mcast_set_ttl sockfd val)).

(** * Other small functions *)

Definition sockatmark (fd : Z) : M Z :=
  r ← checked (sys (Cioctl fd SIOCATMARK 0));
  mret (match r with RErr _ => -1 | ROk flag => if decide (flag ≠ 0) then 1 else 0 end).

Definition my_addrs : M (option (Z * list (list Z))) :=
  r ← checked (sys Cuname);
  match r with
  | RErr _ => mret None
  | ROk nodename =>
      h ← sys (Cgethostbyname nodename AF_INET);
      mret (match h with
            | inl _ => None
            | inr h => Some (h_addrtype h, h_addr_list h)
            end)
  end.

Definition My_addrs : M (Z * list (list Z)) :=
  pptr ← my_addrs;
  match pptr with None => err_sys (str "my_addrs error") | Some p => mret p end.

Definition HOST_NOT_FOUND : Z := 1.
Definition TRY_AGAIN : Z := 2.
Definition NO_RECOVERY : Z := 3.
Definition NO_DATA : Z := 4.

Definition hstrerror (err : Z) : list Z :=
  if decide (err = 0) then str "no error"
  else if decide (err = HOST_NOT_FOUND) then str "Unknown host"
  else if decide (err = TRY_AGAIN) then str "Hostname lookup failure"
  else if decide (err = NO_RECOVERY) then str "Unknown server error"
  else if decide (err = NO_DATA) then str "No address associated with name"
  else str "unknown error".

(** [%06ld] *)
Definition fmt_06 (n : Z) : list Z :=
  let d := fmt_d n in repeat ch_zero (6 - length d) ++ d.

(** [ctime] answers the 25 characters of its fixed format; [str+8] is written
    over by the microseconds, at most 21 of them. *)
Definition gf_time : M (list Z) :=
  tv ← or_err_sys (str "gettimeofday error") (sys Cgettimeofday);
  ptr ← sys (Cctime tv.1);
  mret (take 8 (drop 11 ptr) ++ snprintf_trunc 22 (ch_dot :: fmt_06 tv.2)).

(** [struct timeval] as seconds and microseconds. *)
Definition tv_sub (out inp : Z * Z) : Z * Z :=
  let usec := out.2 - inp.2 in
  let '(sec, usec) := if decide (usec < 0) then (out.1 - 1, usec + 1000000) else (out.1, usec) in
  (sec - inp.1, usec).

(** * Properties *)

Definition usecs (tv : Z * Z) : Z := tv.1 * 1000000 + tv.2.
Definition tv_norm (tv : Z * Z) : Prop := 0 <= tv.2 < 1000000.

(** [tv_sub] subtracts times: on normalised times it gives the normalised
    difference. *)
Theorem tv_sub_spec out inp :
  tv_norm out → tv_norm inp →
  usecs (tv_sub out inp) = usecs out - usecs inp ∧ tv_norm (tv_sub out inp).
Proof.
  unfold tv_norm, usecs, tv_sub. intros Ho Hi. case_decide; cbn [fst snd]; lia.
Qed.

Lemma tv_sub_spec_witness :
  usecs (tv_sub (5, 100) (2, 900000)) = usecs (5, 100) - usecs (2, 900000) ∧
  tv_sub (5, 100) (2, 900000) = (2, 100100).
Proof.
  split; [apply tv_sub_spec; unfold tv_norm; simpl; lia|reflexivity].
Defined.
