(* ===== verification/TcpServ.v ===== *)
(** [tcpcliserv/]: the TCP echo clients and servers: one process per client
    ([tcpserv01.c] ... [tcpserv09.c]), one process over [select]
    ([tcpservselect01.c]) or [poll] ([tcpservpoll01.c]), and the clients
    [tcpcli01.c] ... [tcpcli11.c]. *)

From S2P Require Import Prelude Net Sys Error Wrap Io Connect.

(** [printf] to the standard output; the programs do not test its result. *)
Definition printf (text : list Z) : M unit := void (sys (Cfputs stdout text)).

Definition SO_LINGER : Z := 13.
Definition WNOHANG : Z := 1.

(** * Signal handlers *)

Definition sig_chld_wait : M unit :=
  r ← checked (sys Cwait);
  let pid := match r with ROk (pid, _) => pid | RErr _ => -1 end in
  printf (str "child " ++ fmt_d pid ++ str " terminated" ++ [ch_nl]).

Definition sig_chld_waitpid (fuel : nat) : M unit :=
  iter fuel (λ _ : unit,
    r ← checked (sys (Cwaitpid (-1) WNOHANG));
    let pid := match r with ROk (pid, _) => pid | RErr _ => -1 end in
    if decide (pid > 0) then
      printf (str "child " ++ fmt_d pid ++ str " terminated" ++ [ch_nl]);;
      mret (inl tt)
    else mret (inr tt)) tt.

Definition sig_pipe : M unit := printf (str "SIGPIPE received" ++ [ch_nl]).

(** * Clients *)

(** [main] up to [Connect]. *)
Definition ipv4_connect (argv : list (list Z)) (port : Z) : M Z :=
  if decide (length argv ≠ 2%nat) then err_quit (str "usage: tcpcli <IPaddress>")
  else
    sockfd ← Socket AF_INET SOCK_STREAM 0;
    addr ← Inet_pton AF_INET (nth 1 argv []);
    Connect sockfd (SaIn (htons port) addr);;
    mret sockfd.

Definition tcpcli01 (fuel : nat) (argv : list (list Z)) : M unit :=
  sockfd ← ipv4_connect argv SERV_PORT;
  str_cli fuel (Rline 0 []) sockfd;;
  exit 0.

(** Five connections, of which the first is used. *)
Definition tcpcli04 (fuel : nat) (argv : list (list Z)) : M unit :=
  if decide (length argv ≠ 2%nat) then err_quit (str "usage: tcpcli <IPaddress>")
  else
    sockfd ← for_each (seqZ 0 5) (λ _ sockfd,
      fd ← Socket AF_INET SOCK_STREAM 0;
      addr ← Inet_pton AF_INET (nth 1 argv []);
      Connect fd (SaIn (htons SERV_PORT) addr);;
      mret (sockfd ++ [fd])) [];
    str_cli fuel (Rline 0 []) (nth 0 sockfd 0);;
    exit 0.

Definition tcpcli05 (fuel : nat) (argv : list (list Z)) : M unit :=
  sockfd ← ipv4_connect argv 7;
  str_cli fuel (Rline 0 []) sockfd;;
  exit 0.

Definition tcpcli06 (fuel : nat) (argv : list (list Z)) : M unit :=
  sockfd ← ipv4_connect argv SERV_PORT;
  Writen fuel sockfd (str "foo");;
  sys (Csleep 30);;
  exit 0.

Definition tcpcli07 (fuel : nat) (argv : list (list Z)) : M unit :=
  if decide (length argv ≠ 2%nat) then err_quit (str "usage: tcpcli <IPaddress>")
  else
    sockfd ← Socket AF_INET SOCK_STREAM 0;
    addr ← Inet_pton AF_INET (nth 1 argv []);
    Signal SIGALRM (Handler "sig_alrm");;
    or_err_sys (str "setitimer error") (sys (Csetitimer 50000));;
    Connect sockfd (SaIn (htons SERV_PORT) addr);;
    str_cli fuel (Rline 0 []) sockfd;;
    exit 0.

(** [str_cli08.c] is the text of [lib/str_cli.c]. *)
Definition str_cli08 (fuel : nat) (st : rline) (sockfd : Z) : M rline :=
  str_cli fuel st sockfd.

Definition tcpcli08 (fuel : nat) (argv : list (list Z)) : M unit :=
  sockfd ← ipv4_connect argv SERV_PORT;
  str_cli08 fuel (Rline 0 []) sockfd;;
  exit 0.

(** A [long] in memory, and back. *)
Definition le64 (x : Z) : list Z :=
  map (λ i, (x / 2 ^ (8 * i)) mod 256) (seqZ 0 8).
Definition of_le (l : list Z) : Z := foldr (λ b a, b + 256 * a) 0 l.
Definition long_of (l : list Z) : Z := s64 (of_le l).

(** [struct args] and [struct result] are their bytes. *)
Definition args_mem (arg1 arg2 : Z) : list Z := le64 arg1 ++ le64 arg2.
Definition sizeof_args : Z := 16.
Definition sizeof_result : Z := 8.

(** The bytes of an object after the first ones are stored over. *)
Definition overwrite (mem new : list Z) : list Z := new ++ drop (length new) mem.

(** The locals keep what they held; [result] is what the object contains at
    entry. *)
Definition str_cli09 (fuel : nat) (result : list Z) (sockfd : Z) : M unit :=
  iter fuel (λ result,
    sendline ← Fgets MAXLINE;
    match sendline with
    | None => mret (inr tt)
    | Some sendline =>
        match '(arg1, rest) ← scan_ld (c_str sendline); '(arg2, _) ← scan_ld rest;
              Some (arg1, arg2) with
        | None =>
            printf (str "invalid input: " ++ c_str sendline);;
            mret (inl result)
        | Some (arg1, arg2) =>
            Writen fuel sockfd (args_mem arg1 arg2);;
            '(n, buf) ← Readn fuel sockfd sizeof_result;
            let result := overwrite result buf in
            (if decide (n = 0) then err_quit (str "str_cli: server terminated prematurely")
             else mret tt);;
            printf (fmt_d (long_of result) ++ [ch_nl]);;
            mret (inl result)
        end
    end) result.

Definition tcpcli09 (fuel : nat) (result : list Z) (argv : list (list Z)) : M unit :=
  sockfd ← ipv4_connect argv SERV_PORT;
  str_cli09 fuel result sockfd;;
  exit 0.

Definition tcpcli10 (fuel : nat) (argv : list (list Z)) : M unit :=
  sockfd ← ipv4_connect argv SERV_PORT;
  str_cli fuel (Rline 0 []) sockfd;;
  Setsockopt sockfd SOL_SOCKET SO_LINGER [1; 0; 0; 0; 0; 0; 0; 0];;
  exit 0.

(** Every line is written in two parts.  For a line that begins with a NUL
    [strlen(sendline)-1] wraps to the largest [size_t]; the write beyond the
    buffer is undefined behaviour, shown as [Aborted]. *)
Definition str_cli11 (fuel : nat) (st : rline) (sockfd : Z) : M rline :=
  iter fuel (λ st,
    sendline ← Fgets MAXLINE;
    match sendline with
    | None => mret (inr st)
    | Some sendline =>
        Writen fuel sockfd (take 1 (sendline ++ [0]));;
        sys (Csleep 1);;
        (if decide (c_str sendline = []) then abort
         else Writen fuel sockfd (drop 1 (c_str sendline)));;
        '(st, n, recvline) ← Readline fuel st sockfd MAXLINE;
        (if decide (n = 0) then err_quit (str "str_cli: server terminated prematurely")
         else mret tt);;
        Fputs (c_str recvline) stdout;;
        mret (inl st)
    end) st.

Definition tcpcli11 (fuel : nat) (argv : list (list Z)) : M unit :=
  sockfd ← ipv4_connect argv 7;
  str_cli11 fuel (Rline 0 []) sockfd;;
  exit 0.

Definition tsigpipe (argv : list (list Z)) : M unit :=
  if decide (length argv ≠ 2%nat) then err_quit (str "usage: tcpcli <IPaddress>")
  else
    sockfd ← Socket AF_INET SOCK_STREAM 0;
    addr ← Inet_pton AF_INET (nth 1 argv []);
    Signal SIGPIPE (Handler "sig_pipe");;
    Connect sockfd (SaIn (htons 13) addr);;
    sys (Csleep 2);;
    (Write sockfd (str "hello"));;
    sys (Csleep 2);;
    (Write sockfd (str "world"));;
    exit 0.

(** * Servers with one process per client *)

(** [Socket], [Bind] to [INADDR_ANY] and the port, [Listen]. *)
Definition ipv4_listen (port : Z) : M Z :=
  listenfd ← Socket AF_INET SOCK_STREAM 0;
  Bind listenfd (SaIn (htons port) INADDR_ANY);;
  Listen listenfd LISTENQ;;
  mret listenfd.

(** The body of the loop after a connection: the child serves it and exits, the
    parent closes its copy. *)
Definition fork_child (serve : Z → M unit) (listenfd connfd : Z) : M unit :=
  childpid ← Fork;
  (if decide (childpid = 0) then
     Close listenfd;;
     serve connfd;;
     exit 0
   else mret tt);;
  Close connfd.

(** [tcpserv01.c] and [tcpserv02.c]: an interrupted [accept] is fatal. *)
Definition tcpserv01 (fuel : nat) : M unit :=
  listenfd ← ipv4_listen SERV_PORT;
  iter fuel (λ _ : unit,
    '(connfd, _) ← Accept fuel listenfd;
    fork_child (str_echo fuel) listenfd connfd;;
    mret (inl tt)) tt.

Definition tcpserv02 (fuel : nat) : M unit :=
  listenfd ← ipv4_listen SERV_PORT;
  Signal SIGCHLD (Handler "sig_chld");;
  iter fuel (λ _ : unit,
    '(connfd, _) ← Accept fuel listenfd;
    fork_child (str_echo fuel) listenfd connfd;;
    mret (inl tt)) tt.

(** The loop of [tcpserv03.c], [04], [08] and [09]. *)
Definition accept_loop (fuel : nat) (serve : Z → M unit) (listenfd : Z) : M unit :=
  iter fuel (λ _ : unit,
    r ← checked (sys (Caccept listenfd));
    match r with
    | RErr _ =>
        errno ← get_errno;
        if decide (errno = EINTR) then mret (inl tt)
        else err_sys (str "accept error")
    | ROk (connfd, _) =>
        fork_child serve listenfd connfd;;
        mret (inl tt)
    end) tt.

Definition tcpserv04 (fuel : nat) : M unit :=
  listenfd ← ipv4_listen SERV_PORT;
  Signal SIGCHLD (Handler "sig_chld");;
  accept_loop fuel (str_echo fuel) listenfd.
Definition tcpserv03 (fuel : nat) : M unit :=
  listenfd ← ipv4_listen SERV_PORT;
  Signal SIGCHLD (Handler "sig_chld");;
  accept_loop fuel (str_echo fuel) listenfd.

(** [str_echo08.c]: a sum of two numbers per line; the addition of the [long]s
    wraps. *)
Definition str_echo08 (fuel : nat) (sockfd : Z) : M unit :=
  iter fuel (λ st,
    '(st, n, line) ← Readline fuel st sockfd MAXLINE;
    if decide (n = 0) then mret (inr tt)
    else
      let line :=
        match '(arg1, rest) ← scan_ld (c_str line); '(arg2, _) ← scan_ld rest;
              Some (arg1, arg2) with
        | Some (arg1, arg2) => fmt_d (s64 (arg1 + arg2)) ++ [ch_nl]
        | None => str "input error" ++ [ch_nl]
        end in
      Writen fuel sockfd line;;
      mret (inl st)) (Rline 0 []).

Definition tcpserv08 (fuel : nat) : M unit :=
  listenfd ← ipv4_listen SERV_PORT;
  Signal SIGCHLD (Handler "sig_chld");;
  accept_loop fuel (str_echo08 fuel) listenfd.

(** [str_echo09.c]: binary structures; [args] is what the object contains, which
    a short read stores over in part. *)
Definition str_echo09 (fuel : nat) (args : list Z) (sockfd : Z) : M unit :=
  iter fuel (λ args,
    '(n, buf) ← Readn fuel sockfd sizeof_args;
    let args := overwrite args buf in
    if decide (n = 0) then mret (inr tt)
    else
      let sum := s64 (long_of (take 8 args) + long_of (drop 8 args)) in
      Writen fuel sockfd (le64 sum);;
      mret (inl args)) args.

Definition tcpserv09 (fuel : nat) (args : list Z) : M unit :=
  listenfd ← ipv4_listen SERV_PORT;
  Signal SIGCHLD (Handler "sig_chld");;
  accept_loop fuel (str_echo09 fuel args) listenfd.

(** * tcpservselect01.c *)

(** The variables of the loop; [client] has [FD_SETSIZE] entries, -1 for a
    free one. *)
Record selserv := Selserv {
  maxi : Z;
  maxfd : Z;
  client : list Z;
  allset : gset Z
}.

Definition select_init (listenfd : Z) : selserv :=
  Selserv (-1) listenfd (repeat (-1) (Z.to_nat FD_SETSIZE)) {[listenfd]}.

(** The first free entry of an array. *)
Definition find_free (l : list Z) : option nat :=
  fst <$> list_find (λ fd, fd < 0) l.

(** [FD_SET] of a descriptor beyond the set is undefined behaviour. *)
Definition select_accept (fuel : nat) (listenfd : Z) (s : selserv) : M selserv :=
  '(connfd, _) ← Accept fuel listenfd;
  match find_free (client s) with
  | None => err_quit (str "too many clients")
  | Some i =>
      if decide (connfd >= FD_SETSIZE) then abort
      else
        mret (Selserv (Z.max (maxi s) (Z.of_nat i)) (Z.max (maxfd s) connfd)
                (<[i := connfd]> (client s)) ({[connfd]} ∪ allset s))
  end.

(** The [for (i = 0; i <= maxi; i++)] loop over the indices left. *)
Fixpoint select_clients (fuel : nat) (idx : list nat) (rset : gset Z) (nready : Z) (s : selserv)
    : M selserv :=
  match idx with
  | [] => mret s
  | i :: idx' =>
      let sockfd := nth i (client s) (-1) in
      if decide (sockfd < 0) then select_clients fuel idx' rset nready s
      else if decide (sockfd ∈ rset) then
        buf ← Read sockfd MAXLINE;
        s ← (if decide (length buf = 0%nat) then
               Close sockfd;;
               mret (Selserv (maxi s) (maxfd s) (<[i := -1]> (client s))
                       (allset s ∖ {[sockfd]}))
             else
               Writen fuel sockfd buf;;
               mret s);
        if decide (nready - 1 <= 0) then mret s
        else select_clients fuel idx' rset (nready - 1) s
      else select_clients fuel idx' rset nready s
  end.

Definition select_round (fuel : nat) (listenfd : Z) (s : selserv) : M (selserv + unit) :=
  '(nready, rset, _) ← Select (maxfd s + 1) (allset s) ∅ None;
  if decide (listenfd ∈ rset) then
    s ← select_accept fuel listenfd s;
    if decide (nready - 1 <= 0) then mret (inl s)
    else
      s ← select_clients fuel (seq 0 (Z.to_nat (maxi s + 1))) rset (nready - 1) s;
      mret (inl s)
  else
    s ← select_clients fuel (seq 0 (Z.to_nat (maxi s + 1))) rset nready s;
    mret (inl s).

Definition tcpservselect01 (fuel : nat) : M unit :=
  listenfd ← ipv4_listen SERV_PORT;
  iter fuel (select_round fuel listenfd) (select_init listenfd).

(** * tcpservpoll01.c *)

Definition OPEN_MAX : Z := 1024.
Definition POLLRDNORM : Z := 64.
Definition POLLERR : Z := 8.

Record pollserv := Pollserv {
  p_maxi : Z;
  p_client : list (Z * Z);     (* fd and events *)
  p_revents : list Z
}.

(** [revents0] is what the array, an automatic variable, contains at entry. *)
Definition poll_init (revents0 : list Z) (listenfd : Z) : pollserv :=
  Pollserv 0 ((listenfd, POLLRDNORM) :: repeat (-1, 0) (Z.to_nat OPEN_MAX - 1)) revents0.

Definition poll_accept (fuel : nat) (listenfd : Z) (s : pollserv) : M pollserv :=
  '(connfd, _) ← Accept fuel listenfd;
  match find_free (drop 1 (p_client s).*1) with
  | None => err_quit (str "too many clients")
  | Some j =>
      let i := S j in
      mret (Pollserv (Z.max (p_maxi s) (Z.of_nat i))
              (<[i := (connfd, POLLRDNORM)]> (p_client s)) (p_revents s))
  end.

Definition poll_close (i : nat) (s : pollserv) : pollserv :=
  Pollserv (p_maxi s) (alter (λ c, (-1, c.2)) i (p_client s)) (p_revents s).

Fixpoint poll_clients (fuel : nat) (idx : list nat) (nready : Z) (s : pollserv) : M pollserv :=
  match idx with
  | [] => mret s
  | i :: idx' =>
      let sockfd := (nth i (p_client s) (-1, 0)).1 in
      if decide (sockfd < 0) then poll_clients fuel idx' nready s
      else if decide (Z.land (nth i (p_revents s) 0) (Z.lor POLLRDNORM POLLERR) ≠ 0) then
        r ← checked (sys (Cread sockfd MAXLINE));
        s ← match r with
            | RErr _ =>
                errno ← get_errno;
                if decide (errno = ECONNRESET) then
                  Close sockfd;; mret (poll_close i s)
                else err_sys (str "read error")
            | ROk buf =>
                if decide (length buf = 0%nat) then
                  Close sockfd;; mret (poll_close i s)
                else
                  Writen fuel sockfd buf;; mret s
            end;
        if decide (nready - 1 <= 0) then mret s
        else poll_clients fuel idx' (nready - 1) s
      else poll_clients fuel idx' nready s
  end.

(** [poll] stores [revents] of the first [maxi + 1] entries only. *)
Definition poll_round (fuel : nat) (listenfd : Z) (s : pollserv) : M (pollserv + unit) :=
  '(nready, revents) ← Poll (take (Z.to_nat (p_maxi s + 1)) (p_client s)) (-1);
  let s := Pollserv (p_maxi s) (p_client s)
             (overwrite (p_revents s) (take (Z.to_nat (p_maxi s + 1)) revents)) in
  if decide (Z.land (nth 0 (p_revents s) 0) POLLRDNORM ≠ 0) then
    s ← poll_accept fuel listenfd s;
    if decide (nready - 1 <= 0) then mret (inl s)
    else
      s ← poll_clients fuel (seq 1 (Z.to_nat (p_maxi s))) (nready - 1) s;
      mret (inl s)
  else
    s ← poll_clients fuel (seq 1 (Z.to_nat (p_maxi s))) nready s;
    mret (inl s).

Definition tcpservpoll01 (fuel : nat) (revents0 : list Z) : M unit :=
  listenfd ← ipv4_listen SERV_PORT;
  iter fuel (poll_round fuel listenfd) (poll_init revents0 listenfd).
