(* ===== verification/Ends.v ===== *)
(** How programs end: [ends] says that a program does not run out of fuel, whatever
    happened before, with a rule for each construct but the loops; [exits1] says that
    a program exits only with the status of an error. *)

From S2P Require Import Prelude Net Sys Error Wrap SockAddr Io TcpServ.

(** Programs that end, whatever happened before. *)
Section ends.
Context (K : kernel).

Definition ends {A} (m : M A) : Prop := ∀ w, (m K w).1 ≠ Diverge.

Lemma ends_ret {A} (a : A) : ends (mret a).
Proof. done. Qed.
Lemma ends_sys c : ends (sys c).
Proof. done. Qed.
Lemma ends_bind {A B} (m : M A) (f : A → M B) : ends m → (∀ a, ends (f a)) → ends (m ≫= f).
Proof.
  intros Hm Hf w. specialize (Hm w). unfold mbind, M_bind.
  destruct (m K w) as [[a|c| |] w1]; try done. apply Hf.
Qed.
Lemma ends_checked {A} (m : M (res A)) : ends m → ends (checked m).
Proof.
  intros Hm. apply ends_bind; [done|]. intros [a|e]; [apply ends_ret|]. by apply ends_bind.
Qed.
Lemma ends_decide {A} Q `{!Decision Q} (m1 m2 : M A) :
  ends m1 → ends m2 → ends (if decide Q then m1 else m2).
Proof. by destruct (decide Q). Qed.
Lemma ends_err_sys {A} msg : ends (err_sys (A := A) msg).
Proof. intros w. destruct (err_sys_exit (A := A) K msg w) as (cs & _ & ->). done. Qed.
Lemma ends_or_err_sys {A} msg (m : M (res A)) : ends m → ends (or_err_sys msg m).
Proof.
  intros Hm. unfold or_err_sys. apply ends_bind; [by apply ends_checked|].
  intros [a|e]; [apply ends_ret|apply ends_err_sys].
Qed.
Lemma ends_all_or_err_sys msg n m : ends m → ends (all_or_err_sys msg n m).
Proof.
  intros Hm. unfold all_or_err_sys. apply ends_bind; [by apply ends_checked|].
  intros [a|e]; [apply ends_decide; [apply ends_err_sys|apply ends_ret]|apply ends_err_sys].
Qed.
Lemma ends_for_each {A S} (l : list A) (f : A → S → M S) s :
  (∀ x s, ends (f x s)) → ends (for_each l f s).
Proof.
  intros Hf. revert s. induction l as [|x l IH]; intros s; simpl; [apply ends_ret|].
  apply ends_bind; [apply Hf|]. intros s'. apply IH.
Qed.
Lemma ends_printf text : ends (printf text).
Proof. done. Qed.
Lemma ends_Sock_ntop_host sa salen : ends (Sock_ntop_host sa salen).
Proof. by apply ends_or_err_sys. Qed.
End ends.

Ltac ends_step :=
  lazymatch goal with
  | |- ends _ (mret _) => apply ends_ret
  | |- ends _ (_ ≫= _) => apply ends_bind; [|intros ?]
  | |- ends _ (sys _) => done
  | |- ends _ (checked _) => apply ends_checked
  | |- ends _ (for_each _ _ _) => apply ends_for_each; intros ? ?
  | |- ends _ (if decide _ then _ else _) => apply ends_decide
  | |- ends _ (or_err_sys _ _) => apply ends_or_err_sys
  | |- ends _ (all_or_err_sys _ _ _) => apply ends_all_or_err_sys
  | |- ends _ (printf _) => apply ends_printf
  | |- ends _ (Sock_ntop_host _ _) => apply ends_Sock_ntop_host
  | |- ends _ (match ?x with _ => _ end) => destruct x
  | |- ends _ (_ _) => match goal with H : _ |- _ => apply H end
  end.
Ltac ends_tac := repeat (ends_step; cbn beta iota zeta).

#[export] Hint Resolve ends_ret ends_sys ends_bind ends_checked ends_decide ends_err_sys
  ends_or_err_sys ends_all_or_err_sys ends_for_each ends_printf ends_Sock_ntop_host : unp.

(** * Exits *)

Definition exits1 {A} (m : M A) : Prop := ∀ K w c, (m K w).1 = Exit c → c = 1.

Lemma exits1_ret {A} (a : A) : exits1 (mret a).
Proof. done. Qed.
Lemma exits1_sys c : exits1 (sys c).
Proof. done. Qed.
Lemma exits1_diverge {A} : exits1 (diverge (A := A)).
Proof. done. Qed.
Lemma exits1_get_errno : exits1 get_errno.
Proof. done. Qed.
Lemma exits1_bind {A B} (m : M A) (f : A → M B) : exits1 m → (∀ a, exits1 (f a)) → exits1 (m ≫= f).
Proof.
  intros Hm Hf K w c. specialize (Hm K w). unfold mbind, M_bind.
  destruct (m K w) as [[a|c'| |] w1]; try done; [apply Hf|].
  intros [= <-]. by apply Hm.
Qed.
Lemma exits1_checked {A} (m : M (res A)) : exits1 m → exits1 (checked m).
Proof.
  intros Hm. apply exits1_bind; [done|]. intros [a|e]; [apply exits1_ret|]. by apply exits1_bind.
Qed.
Lemma exits1_decide {A} Q `{!Decision Q} (m1 m2 : M A) :
  exits1 m1 → exits1 m2 → exits1 (if decide Q then m1 else m2).
Proof. by destruct (decide Q). Qed.
Lemma exits1_iter {S R} fuel (body : S → M (S + R)) s :
  (∀ s, exits1 (body s)) → exits1 (iter fuel body s).
Proof.
  intros Hb. revert s. induction fuel as [|fuel IH]; intros s; simpl; [apply exits1_diverge|].
  apply exits1_bind; [apply Hb|]. intros [s'|x]; [apply IH|apply exits1_ret].
Qed.
Lemma exits1_err_sys {A} msg : exits1 (err_sys (A := A) msg).
Proof. intros K w c. destruct (err_sys_exit (A := A) K msg w) as (cs & _ & ->). by intros [= <-]. Qed.
Lemma exits1_err_quit {A} msg : exits1 (err_quit (A := A) msg).
Proof.
  intros K w. change (wp K (err_quit (A := A) msg) w (λ o _, ∀ c, o = Exit c → c = 1)).
  apply wp_err_quit. by intros cs _ c [= <-].
Qed.
Lemma exits1_or_err_sys {A} msg (m : M (res A)) : exits1 m → exits1 (or_err_sys msg m).
Proof.
  intros Hm. apply exits1_bind; [by apply exits1_checked|].
  intros [a|e]; [apply exits1_ret|apply exits1_err_sys].
Qed.
Lemma exits1_all_or_err_sys msg n m : exits1 m → exits1 (all_or_err_sys msg n m).
Proof.
  intros Hm. apply exits1_bind; [by apply exits1_checked|].
  intros [a|e]; [apply exits1_decide; [apply exits1_err_sys|apply exits1_ret]|apply exits1_err_sys].
Qed.

Ltac exits1_step :=
  lazymatch goal with
  | |- exits1 (mret _) => apply exits1_ret
  | |- exits1 (_ ≫= _) => apply exits1_bind; [|intros ?]
  | |- exits1 (checked _) => apply exits1_checked
  | |- exits1 (iter _ _ _) => apply exits1_iter; intros ?
  | |- exits1 (if decide _ then _ else _) => apply exits1_decide
  | |- exits1 (or_err_sys _ _) => apply exits1_or_err_sys
  | |- exits1 (all_or_err_sys _ _ _) => apply exits1_all_or_err_sys
  | |- exits1 (err_sys _) => apply exits1_err_sys
  | |- exits1 (err_quit _) => apply exits1_err_quit
  | |- exits1 (match ?x with _ => _ end) => destruct x
  | |- exits1 _ => done
  end.
Ltac exits1_tac := repeat (exits1_step; cbn beta iota zeta).

Lemma exits1_Writen fuel fd data : exits1 (Writen fuel fd data).
Proof. unfold Writen, writen. exits1_tac. Qed.
Lemma exits1_readline_loop k fuel st fd n buf : exits1 (readline_loop k fuel st fd n buf).
Proof.
  revert st n buf. induction k as [|k IH]; intros st n buf; simpl; [done|].
  apply exits1_bind; [unfold my_read, refill; exits1_tac|]. intros [st' []]; exits1_tac.
Qed.
Lemma exits1_Readline fuel st fd maxlen : exits1 (Readline fuel st fd maxlen).
Proof.
  unfold Readline. apply exits1_bind; [apply exits1_readline_loop|]. intros [[st' n] buf]. exits1_tac.
Qed.

#[export] Hint Resolve exits1_ret exits1_sys exits1_bind exits1_checked exits1_decide exits1_iter
  exits1_err_sys exits1_err_quit exits1_or_err_sys exits1_all_or_err_sys exits1_Writen
  exits1_Readline : unp.
