(* ===== verification/TcpServSpec.v ===== *)
(** Properties of the servers of [TcpServ]. *)

From S2P Require Import Prelude Net Sys Error Wrap Io IoSpec Connect ConnectSpec TcpServ.

(** * Connections *)

(** The descriptors that a history has accepted and not closed. *)
Definition accept_step (K : kernel) (cs : list call) (c : call) (l : gset Z) : gset Z :=
  match c as c return ans c → gset Z with
  | Caccept _ => λ a, match a with ROk (n, _) => {[n]} ∪ l | RErr _ => l end
  | Cclose n => λ _, l ∖ {[n]}
  | _ => λ _, l
  end (K cs c).

Fixpoint accepted (K : kernel) (cs : list call) : gset Z :=
  match cs with [] => ∅ | c :: cs' => accept_step K cs' c (accepted K cs') end.

(** [accept] answers a descriptor that is not in use. *)
Class KernelAccept (K : kernel) (listenfd : Z) : Prop :=
  accept_fresh cs fd n sa :
    K cs (Caccept fd) = ROk (n, sa) → 0 <= n ∧ n ≠ listenfd ∧ n ∉ accepted K cs.

Lemma accepted_accept (K : kernel) fd cs n sa :
  K cs (Caccept fd) = ROk (n, sa) →
  accepted K (Caccept fd :: cs) = {[n]} ∪ accepted K cs.
Proof. intros HK. cbn [accepted]. unfold accept_step. by rewrite HK. Qed.

Lemma accepted_writes (K : kernel) fd ds cs : accepted K (map (Cwrite fd) ds ++ cs) = accepted K cs.
Proof. induction ds as [|d ds IH]; [done|]. simpl. by rewrite IH. Qed.

Lemma streams_writes (K : kernel) fd fd' ds cs :
  fd' ≠ fd →
  sent K fd' (map (Cwrite fd) ds ++ cs) = sent K fd' cs ∧
  received K fd' (map (Cwrite fd) ds ++ cs) = received K fd' cs.
Proof.
  intros Hne. induction ds as [|d ds [IH1 IH2]]; [done|].
  unfold sent, received in *. simpl. rewrite IH1, IH2, app_nil_r.
  rewrite decide_False by done. by rewrite app_nil_r.
Qed.

(** [Accept], as a step of a program. *)
Lemma wp_Accept (K : kernel) fuel fd w (Q : outcome (Z * sockaddr) → world → Prop) :
  (∀ k n sa w', w_calls w' = attempts fd (S k) (w_calls w) →
     K (attempts fd k (w_calls w)) (Caccept fd) = ROk (n, sa) →
     (∀ i, (i < k)%nat → ∃ e, K (attempts fd i (w_calls w)) (Caccept fd) = RErr e) →
     Q (Val (n, sa)) w') →
  (∀ k cs w', (∀ i, (i < S k)%nat → ∃ e, K (attempts fd i (w_calls w)) (Caccept fd) = RErr e) →
     Forall report_call cs → w_calls w' = cs ++ attempts fd (S k) (w_calls w) → Q (Exit 1) w') →
  (∀ k w', (∀ i, (i < k)%nat → ∃ e, K (attempts fd i (w_calls w)) (Caccept fd) = RErr e) →
     w_calls w' = attempts fd k (w_calls w) → Q Diverge w') →
  wp K (Accept fuel fd) w Q.
Proof.
  change (Accept fuel fd) with (iter fuel (accept_body fd) tt).
  intros Hok Hex Hdiv.
  apply (wp_iter K (λ _ w', ∃ k, w_calls w' = attempts fd k (w_calls w) ∧
    ∀ i, (i < k)%nat → ∃ e, K (attempts fd i (w_calls w)) (Caccept fd) = RErr e)).
  - exists 0%nat. split; [done|lia].
  - intros [] w1 (k & Hk & Hall). unfold wp. rewrite accept_round, Hk.
    assert (HS : Caccept fd :: attempts fd k (w_calls w) = attempts fd (S k) (w_calls w)) by done.
    destruct (K (attempts fd k (w_calls w)) (Caccept fd)) as [[n sa]|e] eqn:HK.
    + simpl. apply (Hok k n sa); done.
    + assert (Hall' : ∀ i, (i < S k)%nat →
        ∃ e, K (attempts fd i (w_calls w)) (Caccept fd) = RErr e).
      { intros i Hi. destruct (decide (i = k)) as [->|]; [eauto|]. apply Hall. lia. }
      cbn zeta. case_decide; simpl; [by exists (S k)|].
      match goal with |- context [err_sys ?m K ?w2] =>
        destruct (err_sys_exit (A := unit + Z * sockaddr) K m w2) as (cs & Hcs & Heq)
      end.
      rewrite Heq. by apply (Hex k cs).
  - intros [] w' (k & Hk & Hall). by apply (Hdiv k).
Qed.

Lemma attempts_quiet (K : kernel) fd k cs :
  (∀ i, (i < k)%nat → ∃ e, K (attempts fd i cs) (Caccept fd) = RErr e) →
  accepted K (attempts fd k cs) = accepted K cs.
Proof.
  induction k as [|k IH]; intros H; [done|].
  destruct (H k ltac:(lia)) as [e He].
  change (accepted K (Caccept fd :: attempts fd k cs) = accepted K cs).
  cbn [accepted]. unfold accept_step. rewrite He. apply IH. intros i Hi. apply H. lia.
Qed.

Lemma attempts_streams (K : kernel) fd fd' k cs :
  sent K fd' (attempts fd k cs) = sent K fd' cs ∧
  received K fd' (attempts fd k cs) = received K fd' cs.
Proof.
  induction k as [|k [IH1 IH2]]; [done|].
  change (attempts fd (S k) cs) with (Caccept fd :: attempts fd k cs).
  unfold sent, received in *. simpl. by rewrite IH1, IH2, !app_nil_r.
Qed.

(** * The table of clients *)

Record table_ok (client : list Z) (fds : gset Z) : Prop := {
  table_len : Z.of_nat (length client) = FD_SETSIZE;
  table_free i fd : client !! i = Some fd → fd = -1 ∨ 0 <= fd;
  table_in fd : fd ∈ fds ↔ 0 <= fd ∧ ∃ i, client !! i = Some fd;
  table_inj i j fd : client !! i = Some fd → client !! j = Some fd → 0 <= fd → i = j
}.

Lemma table_init : table_ok (repeat (-1) (Z.to_nat FD_SETSIZE)) ∅.
Proof.
  assert (Hr : ∀ i fd, repeat (-1) (Z.to_nat FD_SETSIZE) !! i = Some fd → fd = -1).
  { intros i fd Hi. by apply list_elem_of_lookup_2, list_elem_of_In, repeat_spec in Hi. }
  split.
  - by rewrite repeat_length.
  - intros i fd Hi. left. by eapply Hr.
  - intros fd. split; [set_solver|]. intros [Hfd [i Hi]]. apply Hr in Hi. lia.
  - intros i j fd Hi _ Hfd. apply Hr in Hi. lia.
Qed.

Lemma table_add client fds i fd :
  table_ok client fds → find_free client = Some i → 0 <= fd → fd ∉ fds →
  table_ok (<[i := fd]> client) ({[fd]} ∪ fds).
Proof.
  intros [Hlen Hfr Hin Hinj] Hf Hfd Hni. unfold find_free in Hf.
  apply fmap_Some in Hf as ([i' x] & Hf & ->). simpl.
  apply list_find_Some in Hf as (Hi & Hx & _).
  assert (Hil := lookup_lt_Some _ _ _ Hi).
  split.
  - by rewrite length_insert.
  - intros j y Hj. destruct (decide (j = i')) as [->|Hne].
    + rewrite list_lookup_insert_eq in Hj by done. injection Hj as <-. by right.
    + rewrite list_lookup_insert_ne in Hj by done. by eapply Hfr.
  - intros y. rewrite elem_of_union, elem_of_singleton, Hin. split.
    + intros [->|[Hy [j Hj]]].
      * split; [done|]. exists i'. by apply list_lookup_insert_eq.
      * split; [done|]. exists j. rewrite list_lookup_insert_ne; [done|].
        intros ->. rewrite Hi in Hj. injection Hj as ->. lia.
    + intros [Hy [j Hj]]. destruct (decide (j = i')) as [->|Hne].
      * rewrite list_lookup_insert_eq in Hj by done. injection Hj as <-. by left.
      * rewrite list_lookup_insert_ne in Hj by done. right. split; [done|]. by exists j.
  - intros j k y Hj Hk Hy.
    destruct (decide (j = i')) as [->|Hjn], (decide (k = i')) as [->|Hkn]; [done|..].
    + rewrite list_lookup_insert_eq in Hj by done. injection Hj as <-.
      rewrite list_lookup_insert_ne in Hk by done. exfalso. apply Hni. apply Hin. eauto.
    + rewrite list_lookup_insert_eq in Hk by done. injection Hk as <-.
      rewrite list_lookup_insert_ne in Hj by done. exfalso. apply Hni. apply Hin. eauto.
    + rewrite list_lookup_insert_ne in Hj, Hk by done. by eapply Hinj.
Qed.

Lemma table_del client fds i fd :
  table_ok client fds → client !! i = Some fd → 0 <= fd →
  table_ok (<[i := -1]> client) (fds ∖ {[fd]}).
Proof.
  intros [Hlen Hfr Hin Hinj] Hi Hfd. assert (Hil := lookup_lt_Some _ _ _ Hi).
  split.
  - by rewrite length_insert.
  - intros j y Hj. destruct (decide (j = i)) as [->|Hne].
    + rewrite list_lookup_insert_eq in Hj by done. injection Hj as <-. by left.
    + rewrite list_lookup_insert_ne in Hj by done. by eapply Hfr.
  - intros y. rewrite elem_of_difference, elem_of_singleton, Hin. split.
    + intros [[Hy [j Hj]] Hne]. split; [done|]. exists j.
      rewrite list_lookup_insert_ne; [done|]. intros ->. congruence.
    + intros [Hy [j Hj]]. destruct (decide (j = i)) as [->|Hne].
      * rewrite list_lookup_insert_eq in Hj by done. injection Hj as <-. lia.
      * rewrite list_lookup_insert_ne in Hj by done. split; [eauto|].
        intros ->. apply Hne. by eapply Hinj.
  - intros j k y Hj Hk Hy.
    destruct (decide (j = i)) as [->|Hjn], (decide (k = i)) as [->|Hkn]; [done|..].
    + rewrite list_lookup_insert_eq in Hj by done. injection Hj as <-. lia.
    + rewrite list_lookup_insert_eq in Hk by done. injection Hk as <-. lia.
    + rewrite list_lookup_insert_ne in Hj, Hk by done. by eapply Hinj.
Qed.

(** * The select server *)

Section select.
Context (K : kernel) `{!KernelIo K} (listenfd : Z) `{!KernelAccept K listenfd}.

(** What holds between the rounds: the table holds exactly the connections
    accepted and not closed, each once, below [maxi]; the descriptors that are
    selected are those and the listening one, all below [maxfd]; everything
    received on any descriptor has been sent back on it. *)
Record sel_inv (s : selserv) (w : world) : Prop := {
  si_table : table_ok (client s) (accepted K (w_calls w));
  si_lfd : listenfd ∉ accepted K (w_calls w);
  si_maxi i fd : client s !! i = Some fd → 0 <= fd → Z.of_nat i <= maxi s;
  si_set : allset s = {[listenfd]} ∪ accepted K (w_calls w);
  si_maxfd fd : fd ∈ allset s → fd <= maxfd s;
  si_echo fd : sent K fd (w_calls w) = received K fd (w_calls w)
}.

(** The history does not matter beyond these three. *)
Lemma sel_inv_ext s w w' :
  sel_inv s w → accepted K (w_calls w') = accepted K (w_calls w) →
  (∀ fd, sent K fd (w_calls w') = received K fd (w_calls w')) → sel_inv s w'.
Proof. intros [] Ha He. split; rewrite ?Ha; done. Qed.

Lemma wp_select_accept fuel s w :
  sel_inv s w →
  wp K (select_accept fuel listenfd s) w
    (λ o w', match o with Val s' => sel_inv s' w' | _ => True end).
Proof.
  intros Hinv. unfold select_accept. wp_step. apply wp_Accept; [|done|done].
  intros k n sa w' Hcs HK Hq. cbn [bind_post].
  destruct (accept_fresh _ _ _ _ HK) as (Hn0 & Hnl & Hna).
  rewrite attempts_quiet in Hna by done.
  assert (Hacc : accepted K (w_calls w') = {[n]} ∪ accepted K (w_calls w)).
  { rewrite Hcs. change (attempts listenfd (S k) (w_calls w)) with
      (Caccept listenfd :: attempts listenfd k (w_calls w)).
    rewrite (accepted_accept K _ _ n sa), attempts_quiet by done. done. }
  destruct (find_free (client s)) as [i|] eqn:Hf; [|by apply wp_err_quit].
  wp_if; [by wp_step|]. wp_step. destruct Hinv as [Ht Hl Hmi Hs Hm He].
  split; cbn [client maxi maxfd allset]; rewrite ?Hacc.
  - by apply table_add.
  - set_solver.
  - intros j fd Hj Hfd. destruct (decide (j = i)) as [->|Hne]; [lia|].
    rewrite list_lookup_insert_ne in Hj by done. specialize (Hmi _ _ Hj Hfd). lia.
  - rewrite Hs. set_solver.
  - intros fd. rewrite elem_of_union, elem_of_singleton. intros [->|Hfd]; [lia|].
    specialize (Hm _ Hfd). lia.
  - intros fd. rewrite Hcs. destruct (attempts_streams K listenfd fd (S k) (w_calls w)) as [-> ->].
    apply He.
Qed.

Lemma sel_inv_read s w fd (l : list Z) cs ds :
  sel_inv s w → K (w_calls w) (Cread fd MAXLINE) = ROk l →
  cs = map (Cwrite fd) ds ++ Cread fd MAXLINE :: w_calls w →
  sent K fd cs = sent K fd (w_calls w) ++ l → received K fd cs = received K fd (w_calls w) ++ l →
  ∀ fd', sent K fd' cs = received K fd' cs.
Proof.
  intros Hinv HK -> Hs Hr fd'. destruct (decide (fd' = fd)) as [->|Hne].
  - by rewrite Hs, Hr, (si_echo _ _ Hinv).
  - destruct (streams_writes K fd fd' ds (Cread fd MAXLINE :: w_calls w) Hne) as [-> ->].
    rewrite sent_read. unfold received; fold (received K fd' (w_calls w)).
    unfold read_data. rewrite decide_False by done. rewrite app_nil_r. apply (si_echo _ _ Hinv).
Qed.

Lemma wp_select_clients fuel idx rset nready s w :
  sel_inv s w →
  wp K (select_clients fuel idx rset nready s) w
    (λ o w', match o with Val s' => sel_inv s' w' | _ => True end).
Proof.
  revert nready s w. induction idx as [|i idx IH]; intros nready s w Hinv; cbn [select_clients].
  { by wp_step. }
  wp_if; [by apply IH|]. wp_if; [|by apply IH].
  set (fd := nth i (client s) (-1)) in *.
  assert (Hi : client s !! i = Some fd).
  { assert (Hfd : fd = default (-1) (client s !! i)) by apply nth_lookup.
    destruct (client s !! i) as [x|]; simpl in Hfd; [by rewrite Hfd|lia]. }
  wp_step. unfold Read. apply wp_or_err_sys. wp_step.
  destruct (K (w_calls w) (Cread fd MAXLINE)) as [l|e1] eqn:HK; [|done]. cbn [bind_post].
  wp_step.
  assert (Hnext : ∀ s1 w1, sel_inv s1 w1 →
    wp K (if decide (nready - 1 <= 0) then mret s1
          else select_clients fuel idx rset (nready - 1) s1) w1
      (λ o w', match o with Val s' => sel_inv s' w' | _ => True end)).
  { intros s1 w1 H1. wp_if; [by wp_step|by apply IH]. }
  wp_if.
  - wp_step. unfold Close. apply wp_or_err_sys. wp_step.
    destruct (K _ (Cclose fd)) as [[]|e'] eqn:HK2; [|done]. cbn [bind_post]. wp_step. apply Hnext.
    destruct l; [|done].
    destruct Hinv as [Ht Hl Hmi Hs Hm He].
    assert (Hfd : fd ∈ accepted K (w_calls w)).
    { apply (table_in _ _ Ht). split; [lia|eauto]. }
    split; cbn [client maxi maxfd allset w_calls].
    + apply (table_del _ (accepted K (w_calls w))); [done|done|lia].
    + change (listenfd ∉ accepted K (w_calls w) ∖ {[fd]}). set_solver.
    + intros j y Hj Hy. destruct (decide (j = i)) as [->|Hne].
      * rewrite list_lookup_insert_eq in Hj by (by eapply lookup_lt_Some).
        injection Hj as <-. lia.
      * rewrite list_lookup_insert_ne in Hj by done. by eapply Hmi.
    + change (allset s ∖ {[fd]} = {[listenfd]} ∪ accepted K (w_calls w) ∖ {[fd]}).
      rewrite Hs. assert (fd ≠ listenfd) by (intros ->; done). set_solver.
    + intros y Hy. apply Hm. set_solver.
    + intros y.
      change ((sent K y (w_calls w) ++ []) ++ [] =
              (received K y (w_calls w) ++ read_data K y (w_calls w) (Cread fd MAXLINE)) ++ []).
      unfold read_data.
      destruct (decide (fd = y)); [rewrite HK|]; rewrite !app_nil_r; apply He.
  - wp_step. apply wp_Writen; [done| |by intros; split].
    intros w' Hs Hr [ds Hds]. cbn [bind_post]. wp_step. apply Hnext.
    cbn [w_calls] in *. rewrite sent_read in Hs. rewrite received_read, HK in Hr.
    apply (sel_inv_ext s w); [done| |].
    + rewrite Hds, accepted_writes. done.
    + by apply (sel_inv_read s w fd l _ ds).
Qed.

Lemma wp_select_round fuel s w :
  sel_inv s w →
  wp K (select_round fuel listenfd s) w
    (λ o w', match o with Val (inl s') => sel_inv s' w' | Val (inr _) => False | _ => True end).
Proof.
  intros Hinv. unfold select_round. wp_step. unfold Select. apply wp_or_err_sys. wp_step.
  destruct (K _ (Cselect _ _ _ _)) as [[[nready rset] wset]|e]; [|done]. cbn [bind_post].
  assert (Hinv' : sel_inv s (World (Cselect (maxfd s + 1) (allset s) ∅ None :: w_calls w)
                               (w_errno w) (w_daemon w))).
  { apply (sel_inv_ext s w); [done|done|]. intros fd. cbn [w_calls].
    change (sent K fd (w_calls w) ++ [] = received K fd (w_calls w) ++ []).
    by rewrite !app_nil_r, (si_echo _ _ Hinv). }
  assert (Hcl : ∀ nr s1 w1, sel_inv s1 w1 →
    wp K (s ← select_clients fuel (seq 0 (Z.to_nat (maxi s1 + 1))) rset nr s1; mret (inl s)) w1
      (λ (o : outcome (selserv + unit)) w',
         match o with Val (inl s') => sel_inv s' w' | Val (inr _) => False | _ => True end)).
  { intros nr s1 w1 H1. wp_step. eapply wp_mono; [by apply wp_select_clients|].
    intros [s2|c| |] w2; simpl; try done. }
  wp_if; [|by apply Hcl].
  wp_step. eapply wp_mono; [by apply wp_select_accept|].
  intros [s2|c| |] w2; simpl; try done. intros H2. wp_if; [by wp_step|by apply Hcl].
Qed.
End select.

(** The history of a successful [ipv4_listen]. *)
Lemma wp_ipv4_listen (K : kernel) port w (Q : outcome Z → world → Prop) :
  (∀ fd w' backlog, w_calls w' =
     [Clisten fd backlog; Cgetenv (str "LISTENQ"); Cbind fd (SaIn (htons port) INADDR_ANY);
      Csocket AF_INET SOCK_STREAM 0] ++ w_calls w →
     K (w_calls w) (Csocket AF_INET SOCK_STREAM 0) = ROk fd → Q (Val fd) w') →
  (∀ w', Q (Exit 1) w') →
  wp K (ipv4_listen port) w Q.
Proof.
  intros Hok Hex. unfold ipv4_listen, Socket, Bind, Listen.
  wp_step. apply wp_or_err_sys. wp_step.
  destruct (K _ (Csocket _ _ _)) as [fd|e] eqn:HK; [|intros; apply Hex]. cbn [bind_post].
  wp_step. apply wp_or_err_sys. wp_step.
  destruct (K _ (Cbind _ _)) as [[]|e]; [|intros; apply Hex]. cbn [bind_post].
  do 3 wp_step. apply wp_or_err_sys. wp_step.
  destruct (K _ (Clisten _ _)) as [[]|e]; [|intros; apply Hex]. cbn [bind_post].
  wp_step. by eapply Hok.
Qed.

(** C9: from its start on, between any two rounds of [tcpservselect01] the table
    [client] holds exactly the connections accepted and not closed, each once
    and not beyond [maxi]; the set given to [select] is those and the listening
    descriptor, none above [maxfd]; and what was received on a connection has
    all been sent back on it. *)
Theorem tcpservselect01_inv (K : kernel) `{!KernelIo K} fuel e d listenfd w1 s w
    `{!KernelAccept K listenfd} :
  ipv4_listen SERV_PORT K (World [] e d) = (Val listenfd, w1) →
  rounds K (select_round fuel listenfd) (select_init listenfd) w1 s w →
  sel_inv K listenfd s w.
Proof.
  intros Hl Hr. refine (rounds_inv K (sel_inv K listenfd) _ _ _ _ _ _ _ Hr).
  - assert (H : wp K (ipv4_listen SERV_PORT) (World [] e d) (λ o w', match o with
        | Val fd => accepted K (w_calls w') = ∅ ∧
            ∀ y, sent K y (w_calls w') = [] ∧ received K y (w_calls w') = []
        | _ => True end)).
    { apply wp_ipv4_listen; [|done]. intros fd w' b -> _. done. }
    unfold wp in H. rewrite Hl in H. simpl in H. destruct H as [Ha Hs].
    split; cbn [select_init client maxi maxfd allset]; rewrite ?Ha.
    + apply table_init.
    + set_solver.
    + intros i fd Hi Hfd. apply list_elem_of_lookup_2, list_elem_of_In, repeat_spec in Hi. lia.
    + set_solver.
    + set_solver.
    + intros fd. destruct (Hs fd) as [-> ->]. done.
  - intros s1 w2 s2 w3 Hinv Hb.
    pose proof (wp_select_round K listenfd fuel s1 w2 Hinv) as H.
    unfold wp in H. rewrite Hb in H. exact H.
Qed.

(** A kernel with one client that sends three bytes and closes. *)
Fixpoint has_accept (cs : list call) : bool :=
  match cs with [] => false | Caccept _ :: _ => true | _ :: cs' => has_accept cs' end.

Definition client_kernel : kernel := λ cs c,
  match c as c return ans c with
  | Csocket _ _ _ => ROk 3
  | Cbind _ _ | Clisten _ _ | Cclose _ => ROk tt
  | Cselect _ _ _ _ => ROk (1, if has_accept cs then {[4]} else {[3]}, ∅)
  | Caccept _ => if has_accept cs then RErr EINVAL else ROk (4, SaIn 0 INADDR_ANY)
  | Cread _ n =>
      if decide (n < 3) then RErr EINVAL
      else ROk (if decide (count_reads cs = 0%nat) then [1; 2; 3] else [])
  | Cwrite _ d => ROk (Z.of_nat (length d))
  | c => default_ans c
  end.

#[global] Instance client_kernel_io : KernelIo client_kernel.
Proof.
  split; intros cs fd n; simpl.
  - intros l. case_decide; [done|]. intros [= <-]. case_decide; simpl; lia.
  - intros l. case_decide; [done|]. intros [= <-]. case_decide; by_decide.
  - intros m [= <-]. lia.
Qed.

#[global] Instance client_kernel_accept : KernelAccept client_kernel 3.
Proof.
  intros cs fd n sa. cbn [client_kernel]. destruct (has_accept cs) eqn:Hh; [done|].
  intros [= <- <-]. split; [lia|]. split; [lia|].
  assert (accepted client_kernel cs = ∅); [|set_solver].
  induction cs as [|c cs IH]; [done|]. cbn [accepted].
  destruct c; simpl in Hh |- *; try done; rewrite IH by done; set_solver.
Qed.

Definition next_state (r : outcome (selserv + unit) * world) : selserv * world :=
  match r with (Val (inl s), w) => (s, w) | (_, w) => (select_init 3, w) end.

Lemma tcpservselect01_inv_witness :
  let w1 := (ipv4_listen SERV_PORT client_kernel (World [] 0 false)).2 in
  let r1 := next_state (select_round 9 3 (select_init 3) client_kernel w1) in
  let r2 := next_state (select_round 9 3 r1.1 client_kernel r1.2) in
  sel_inv client_kernel 3 r2.1 r2.2 ∧ client r2.1 !! 0%nat = Some 4.
Proof.
  intros w1 r1 r2. split; [|vm_compute; reflexivity].
  apply (tcpservselect01_inv client_kernel 9 0 false 3 w1 r2.1 r2.2); [vm_compute; reflexivity|].
  apply (rounds_step _ _ _ _ r1.1 r1.2); [|vm_compute; reflexivity].
  apply (rounds_step _ _ _ _ (select_init 3) w1); [|vm_compute; reflexivity].
  apply rounds_refl.
Defined.
