(* ===== verification/SelectCli.v ===== *)
(** The clients that wait on the standard input and the socket together:
    [select/strcliselect01.c], [select/strcliselect02.c], [nonblock/strclinonb.c]
    and [nonblock/strclifork.c], and the other small programs of [nonblock/]. *)

From S2P Require Import Prelude Net Sys Error Wrap Io Connect TcpServ.

(** [select] with no time limit, reduced to the sets. *)
Definition Select_sets (nfds : Z) (rset wset : gset Z) : M (gset Z * gset Z) :=
  '(_, rset, wset) ← Select nfds rset wset None;
  mret (rset, wset).

(** * select/strcliselect01.c and strcliselect02.c *)

Definition strcliselect01 (fuel : nat) (st : rline) (sockfd : Z) : M unit :=
  iter fuel (λ st,
    '(rset, _) ← Select_sets (Z.max STDIN_FILENO sockfd + 1)
                   ({[STDIN_FILENO]} ∪ {[sockfd]}) ∅;
    st ← (if decide (sockfd ∈ rset) then
            '(st, n, recvline) ← Readline fuel st sockfd MAXLINE;
            (if decide (n = 0) then err_quit (str "str_cli: server terminated prematurely")
             else mret tt);;
            Fputs (c_str recvline) stdout;;
            mret st
          else mret st);
    if decide (STDIN_FILENO ∈ rset) then
      sendline ← Fgets MAXLINE;
      match sendline with
      | None => mret (inr tt)
      | Some sendline => Writen fuel sockfd (c_str sendline);; mret (inl st)
      end
    else mret (inl st)) st.

(** The state of the loop is [stdineof].  The descriptor [0] stays in [rset]
    from one [Select] to the next only when the kernel left it there and the
    program has not cleared it. *)
Definition strcliselect02 (fuel : nat) (sockfd : Z) : M unit :=
  iter fuel (λ '(rset, stdineof),
    let rset := if negb stdineof then {[STDIN_FILENO]} ∪ rset else rset in
    '(rset, _) ← Select_sets (Z.max STDIN_FILENO sockfd + 1) ({[sockfd]} ∪ rset) ∅;
    r ← (if decide (sockfd ∈ rset) then
           buf ← Read sockfd MAXLINE;
           if decide (length buf = 0%nat) then
             if (stdineof : bool) then mret (inr tt)
             else err_quit (str "str_cli: server terminated prematurely")
           else Write STDOUT_FILENO buf;; mret (inl tt)
         else mret (inl tt));
    match r with
    | inr x => mret (inr x)
    | inl _ =>
        if decide (STDIN_FILENO ∈ rset) then
          buf ← Read STDIN_FILENO MAXLINE;
          if decide (length buf = 0%nat) then
            Shutdown sockfd SHUT_WR;;
            mret (inl (rset ∖ {[STDIN_FILENO]}, true))
          else Writen fuel sockfd buf;; mret (inl (rset, stdineof))
        else mret (inl (rset, stdineof))
    end) (∅ : gset Z, false).

(** * nonblock/strclinonb.c *)

(** A buffer of [MAXLINE] bytes with its two pointers, as offsets. *)
Record nbuf := Nbuf { mem : list Z; iptr : Z; optr : Z }.

(** [n] bytes stored at an offset, and the bytes between the pointers. *)
Definition store (mem : list Z) (off : Z) (data : list Z) : list Z :=
  take (Z.to_nat off) mem ++ data ++ drop (Z.to_nat off + length data) mem.
Definition pending (b : nbuf) : list Z :=
  take (Z.to_nat (iptr b - optr b)) (drop (Z.to_nat (optr b)) (mem b)).

Definition buf_read (b : nbuf) (data : list Z) : nbuf :=
  Nbuf (store (mem b) (iptr b) data) (iptr b + Z.of_nat (length data)) (optr b).

(** The pointers go back to the beginning when they meet. *)
Definition buf_written (b : nbuf) (nwritten : Z) : nbuf :=
  if decide (optr b + nwritten = iptr b) then Nbuf (mem b) 0 0
  else Nbuf (mem b) (iptr b) (optr b + nwritten).

Record nbcli := Nbcli { to : nbuf; fr : nbuf; stdineof : bool }.

Definition nb_rset (sockfd : Z) (s : nbcli) : gset Z :=
  (if decide (stdineof s = false ∧ iptr (to s) < MAXLINE) then {[STDIN_FILENO]} else ∅)
  ∪ (if decide (iptr (fr s) < MAXLINE) then {[sockfd]} else ∅).

Definition nb_wset (sockfd : Z) (s : nbcli) : gset Z :=
  (if decide (optr (to s) ≠ iptr (to s)) then {[sockfd]} else ∅)
  ∪ (if decide (optr (fr s) ≠ iptr (fr s)) then {[STDOUT_FILENO]} else ∅).

(** [EWOULDBLOCK] is not an error of these calls. *)
Definition would_block {A} (msg : list Z) (a : A) : M A :=
  errno ← get_errno;
  if decide (errno ≠ EWOULDBLOCK) then err_sys msg else mret a.

Definition nb_stdin (sockfd : Z) (s : nbcli) (wset : gset Z) : M (nbcli * gset Z) :=
  r ← checked (sys (Cread STDIN_FILENO (MAXLINE - iptr (to s))));
  match r with
  | RErr _ => would_block (str "read error on stdin") (s, wset)
  | ROk data =>
      if decide (length data = 0%nat) then
        (if decide (optr (to s) = iptr (to s)) then Shutdown sockfd SHUT_WR else mret tt);;
        mret (Nbcli (to s) (fr s) true, wset)
      else mret (Nbcli (buf_read (to s) data) (fr s) (stdineof s), {[sockfd]} ∪ wset)
  end.

(** [None] is the normal termination. *)
Definition nb_sock (sockfd : Z) (s : nbcli) (wset : gset Z) : M (option (nbcli * gset Z)) :=
  r ← checked (sys (Cread sockfd (MAXLINE - iptr (fr s))));
  match r with
  | RErr _ => would_block (str "read error on socket") (Some (s, wset))
  | ROk data =>
      if decide (length data = 0%nat) then
        if stdineof s then mret None
        else err_quit (str "str_cli: server terminated prematurely")
      else mret (Some (Nbcli (to s) (buf_read (fr s) data) (stdineof s),
                       {[STDOUT_FILENO]} ∪ wset))
  end.

Definition nb_stdout (s : nbcli) : M nbcli :=
  r ← checked (sys (Cwrite STDOUT_FILENO (pending (fr s))));
  match r with
  | RErr _ => would_block (str "write error to stdout") s
  | ROk nwritten => mret (Nbcli (to s) (buf_written (fr s) nwritten) (stdineof s))
  end.

Definition nb_sockw (sockfd : Z) (s : nbcli) : M nbcli :=
  r ← checked (sys (Cwrite sockfd (pending (to s))));
  match r with
  | RErr _ => would_block (str "write error to socket") s
  | ROk nwritten =>
      (if decide (optr (to s) + nwritten = iptr (to s) ∧ stdineof s = true)
       then Shutdown sockfd SHUT_WR else mret tt);;
      mret (Nbcli (buf_written (to s) nwritten) (fr s) (stdineof s))
  end.

Definition nb_round (sockfd : Z) (s : nbcli) : M (nbcli + unit) :=
  '(rset, wset) ← Select_sets (Z.max (Z.max STDIN_FILENO STDOUT_FILENO) sockfd + 1)
                    (nb_rset sockfd s) (nb_wset sockfd s);
  '(s, wset) ← (if decide (STDIN_FILENO ∈ rset) then nb_stdin sockfd s wset
                else mret (s, wset));
  r ← (if decide (sockfd ∈ rset) then nb_sock sockfd s wset else mret (Some (s, wset)));
  match r with
  | None => mret (inr tt)
  | Some (s, wset) =>
      s ← (if decide (STDOUT_FILENO ∈ wset ∧ iptr (fr s) - optr (fr s) > 0)
           then nb_stdout s else mret s);
      s ← (if decide (sockfd ∈ wset ∧ iptr (to s) - optr (to s) > 0)
           then nb_sockw sockfd s else mret s);
      mret (inl s)
  end.

Definition set_nonblock (fd : Z) : M unit :=
  val ← Fcntl fd F_GETFL 0;
  void (Fcntl fd F_SETFL (Z.lor val O_NONBLOCK)).

(** [to0] and [fr0] are what the arrays contain at entry. *)
Definition strclinonb (fuel : nat) (to0 fr0 : list Z) (sockfd : Z) : M unit :=
  set_nonblock sockfd;;
  set_nonblock STDIN_FILENO;;
  set_nonblock STDOUT_FILENO;;
  iter fuel (nb_round sockfd) (Nbcli (Nbuf to0 0 0) (Nbuf fr0 0 0) false).

(** * nonblock/strclifork.c *)

Definition SIGTERM : Z := 15.

Definition strclifork (fuel : nat) (st : rline) (sockfd : Z) : M unit :=
  pid ← Fork;
  if decide (pid = 0) then
    iter fuel (λ st,
      '(st, n, recvline) ← Readline fuel st sockfd MAXLINE;
      if decide (n > 0) then Fputs (c_str recvline) stdout;; mret (inl st)
      else mret (inr tt)) st;;
    ppid ← sys Cgetppid;
    checked (sys (Ckill ppid SIGTERM));;
    exit 0
  else
    iter fuel (λ _ : unit,
      sendline ← Fgets MAXLINE;
      match sendline with
      | None => mret (inr tt)
      | Some sendline => Writen fuel sockfd (c_str sendline);; mret (inl tt)
      end) tt;;
    Shutdown sockfd SHUT_WR;;
    sys Cpause.

(** * The other programs of nonblock/ *)

(** [inet_addr] and [socket] are called without their wrappers. *)
Definition daytimetcpcli (fuel : nat) (inet_addr : list Z → list Z) (argv : list (list Z))
    : M unit :=
  sockfd ← or_err_sys (str "socket error") (sys (Csocket AF_INET SOCK_STREAM 0));
  n ← connect_nonb sockfd (SaIn (htons 13) (inet_addr (nth 1 argv []))) 0;
  (if decide (n < 0) then err_sys (str "connect error") else mret tt);;
  iter fuel (λ _ : unit,
    r ← checked (sys (Cread sockfd MAXLINE));
    match r with
    | RErr _ => err_sys (str "read error")
    | ROk recvline =>
        if decide (length recvline = 0%nat) then mret (inr tt)
        else Fputs (c_str (recvline ++ [0])) stdout;; mret (inl tt)
    end) tt;;
  exit 0.

(** [struct linger] with both members, little-endian. *)
Definition linger_rst : list Z := [1; 0; 0; 0; 0; 0; 0; 0].

Definition nonblock_tcpcli03 (argv : list (list Z)) : M unit :=
  sockfd ← ipv4_connect argv SERV_PORT;
  Setsockopt sockfd SOL_SOCKET SO_LINGER linger_rst;;
  Close sockfd;;
  exit 0.

Definition nonblock_tcpcli04 (fuel : nat) (argv : list (list Z)) : M unit :=
  sockfd ← ipv4_connect argv SERV_PORT;
  Setsockopt sockfd SOL_SOCKET SO_LINGER linger_rst;;
  str_cli fuel (Rline 0 []) sockfd;;
  exit 0.

(** The clients of [select/] and [nonblock/] that connect to the echo port. *)
Definition select_tcpcli01 (fuel : nat) (argv : list (list Z)) : M unit :=
  sockfd ← ipv4_connect argv 7;
  strcliselect01 fuel (Rline 0 []) sockfd;;
  exit 0.

Definition select_tcpcli02 (fuel : nat) (argv : list (list Z)) : M unit :=
  sockfd ← ipv4_connect argv 7;
  strcliselect02 fuel sockfd;;
  exit 0.

Definition SHUT_RD : Z := 0.

(** [shutdown] is called without its wrapper. *)
Definition select_tcpcli03 (argv : list (list Z)) : M unit :=
  if decide (length argv ≠ 2%nat) then err_quit (str "usage: tcpcli03 <IPaddress>")
  else
    sockfd ← Socket AF_INET SOCK_STREAM 0;
    addr ← Inet_pton AF_INET (nth 1 argv []);
    Connect sockfd (SaIn (htons 19) addr);;
    checked (sys (Cshutdown sockfd SHUT_RD));;
    sys Cpause;;
    exit 0.

Definition nonblock_tcpcli01 (fuel : nat) (argv : list (list Z)) : M unit :=
  sockfd ← ipv4_connect argv 7;
  strclifork fuel (Rline 0 []) sockfd;;
  exit 0.

Definition nonblock_tcpcli02 (fuel : nat) (to0 fr0 : list Z) (argv : list (list Z)) : M unit :=
  sockfd ← ipv4_connect argv 7;
  strclinonb fuel to0 fr0 sockfd;;
  exit 0.

(** [tcpservselect03.c]: a client that has closed is still written to, with a
    count of zero. *)
Fixpoint select03_clients (fuel : nat) (idx : list nat) (rset : gset Z) (nready : Z)
    (st : rline) (s : selserv) : M (rline * selserv) :=
  match idx with
  | [] => mret (st, s)
  | i :: idx' =>
      let sockfd := nth i (client s) (-1) in
      if decide (sockfd < 0) then select03_clients fuel idx' rset nready st s
      else if decide (sockfd ∈ rset) then
        '(st, n, line) ← Readline fuel st sockfd MAXLINE;
        s ← (if decide (n = 0) then
               Close sockfd;;
               mret (Selserv (maxi s) (maxfd s) (<[i := -1]> (client s))
                       (allset s ∖ {[sockfd]}))
             else mret s);
        Writen fuel sockfd (take (Z.to_nat n) line);;
        if decide (nready - 1 <= 0) then mret (st, s)
        else select03_clients fuel idx' rset (nready - 1) st s
      else select03_clients fuel idx' rset nready st s
  end.

Definition select03_round (fuel : nat) (listenfd : Z) (x : rline * selserv)
    : M ((rline * selserv) + unit) :=
  let '(st, s) := x in
  '(nready, rset, _) ← Select (maxfd s + 1) (allset s) ∅ None;
  if decide (listenfd ∈ rset) then
    printf (str "listening socket readable" ++ [ch_nl]);;
    sys (Csleep 5);;
    s ← select_accept fuel listenfd s;
    if decide (nready - 1 <= 0) then mret (inl (st, s))
    else
      x ← select03_clients fuel (seq 0 (Z.to_nat (maxi s + 1))) rset (nready - 1) st s;
      mret (inl x)
  else
    x ← select03_clients fuel (seq 0 (Z.to_nat (maxi s + 1))) rset nready st s;
    mret (inl x).

Definition tcpservselect03 (fuel : nat) : M unit :=
  listenfd ← ipv4_listen SERV_PORT;
  iter fuel (select03_round fuel listenfd) (Rline 0 [], select_init listenfd).
