(* ===== verification/SelectCliSpec.v ===== *)
(** Properties of [SelectCli]: the non-blocking client of [nonblock/strclinonb.c]
    neither loses nor reorders what it copies in either direction, whichever of
    its calls would block, and closes its half of the connection at the right
    moment. *)

From S2P Require Import Prelude Net Sys Error Wrap Io IoSpec Connect TcpServ SelectCli.

(** [select] answers descriptors that it was asked about. *)
Class KernelSelect (K : kernel) : Prop :=
  select_subset cs n r w t m r' w' :
    K cs (Cselect n r w t) = ROk (m, r', w') → r' ⊆ r ∧ w' ⊆ w.

(** * The buffers *)

Record buf_ok (b : nbuf) : Prop := {
  buf_len : Z.of_nat (length (mem b)) = MAXLINE;
  buf_ptrs : 0 <= optr b <= iptr b;
  buf_end : iptr b <= MAXLINE
}.

Lemma pending_len b : buf_ok b → Z.of_nat (length (pending b)) = iptr b - optr b.
Proof.
  intros [Hl Hp He]. unfold pending. rewrite length_take, length_drop. lia.
Qed.

Lemma pending_nil b : buf_ok b → pending b = [] ↔ optr b = iptr b.
Proof.
  intros Hb. pose proof (pending_len b Hb). split; intros H1.
  - rewrite H1 in H. simpl in H. lia.
  - apply length_zero_iff_nil. lia.
Qed.

Lemma buf_read_ok b data :
  buf_ok b → Z.of_nat (length data) <= MAXLINE - iptr b →
  buf_ok (buf_read b data) ∧ pending (buf_read b data) = pending b ++ data.
Proof.
  intros [Hl [Ho Hp] He] Hd. unfold pending, buf_read, store. simpl. split.
  - split; simpl; rewrite ?length_app, ?length_take, ?length_drop; lia.
  - set (i := Z.to_nat (iptr b)). set (k := Z.to_nat (optr b)).
    rewrite drop_app_le by (rewrite length_take; lia).
    replace (Z.to_nat (iptr b + Z.of_nat (length data) - optr b))
      with (length (drop k (take i (mem b))) + length data)%nat
      by (rewrite length_drop, length_take; lia).
    rewrite take_app_add, take_app_length. f_equal.
    rewrite skipn_firstn_comm. f_equal. lia.
Qed.

Lemma buf_written_ok b n :
  buf_ok b → 0 <= n <= Z.of_nat (length (pending b)) →
  buf_ok (buf_written b n) ∧
  pending (buf_written b n) = drop (Z.to_nat n) (pending b) ∧
  (iptr (buf_written b n) = optr (buf_written b n) ↔ optr b + n = iptr b).
Proof.
  intros Hb Hn. rewrite pending_len in Hn by done.
  pose proof (pending_len b Hb) as Hpl. destruct Hb as [Hl [Ho Hp] He].
  unfold buf_written. case_decide as Hd; simpl; split_and!.
  - split; simpl; lia.
  - unfold pending at 1. simpl. symmetry. apply length_zero_iff_nil.
    rewrite length_drop. lia.
  - done.
  - split; simpl; lia.
  - unfold pending. simpl. rewrite skipn_firstn_comm, drop_drop. f_equal; [lia|]. f_equal. lia.
  - lia.
Qed.

(** * Streams of several descriptors *)

Section flow.
Context (K : kernel) `{!KernelIo K, !KernelSelect K} (sockfd : Z).
Context (Hsock : sockfd ≠ STDIN_FILENO ∧ sockfd ≠ STDOUT_FILENO).

Lemma received_read_ne fd fd' n cs :
  fd' ≠ fd → received K fd (Cread fd' n :: cs) = received K fd cs.
Proof.
  intros Hne. unfold received. simpl. rewrite decide_False by done. apply app_nil_r.
Qed.

Lemma sent_write_ne fd fd' d cs :
  fd' ≠ fd → sent K fd (Cwrite fd' d :: cs) = sent K fd cs.
Proof. intros Hne. unfold sent. simpl. rewrite decide_False by done. apply app_nil_r. Qed.

Definition plain_call (c : call) : Prop :=
  match c with Cread _ _ | Cwrite _ _ => False | _ => True end.

Lemma plain_streams fd cs cs' :
  Forall plain_call cs' →
  received K fd (cs' ++ cs) = received K fd cs ∧ sent K fd (cs' ++ cs) = sent K fd cs.
Proof.
  induction 1 as [|c cs' Hc _ [IH1 IH2]]; [done|]. unfold received, sent in *. simpl.
  rewrite IH1, IH2.
  destruct c; try done; unfold read_data, write_data; rewrite ?app_nil_r; done.
Qed.

Definition fin : call := Cshutdown sockfd SHUT_WR.

(** The kernel has answered end-of-file to a [read] of the standard input, which
    asked for at least a byte. *)
Definition stdin_eof (cs : list call) : Prop :=
  ∃ l1 n l2, cs = l1 ++ Cread STDIN_FILENO n :: l2 ∧ 0 < n ∧
    K l2 (Cread STDIN_FILENO n) = ROk [].

Lemma stdin_eof_app cs cs' : stdin_eof cs → stdin_eof (cs' ++ cs).
Proof.
  intros (l1 & n & l2 & -> & Hn & HK). exists (cs' ++ l1), n, l2. by rewrite app_assoc.
Qed.

Lemma stdin_eof_cons c cs : stdin_eof cs → stdin_eof (c :: cs).
Proof. apply (stdin_eof_app cs [c]). Qed.

(** The connection is half-closed once, after the end-of-file of the standard
    input and when everything read from it has been sent; nothing is read from
    it or sent afterwards. *)
Definition fin_after (cs : list call) : Prop :=
  ∀ l1 l2, cs = l1 ++ fin :: l2 →
    (fin ∉ l1) ∧ stdin_eof l2 ∧ sent K sockfd l2 = received K STDIN_FILENO l2 ∧
    sent K sockfd cs = sent K sockfd l2 ∧
    received K STDIN_FILENO cs = received K STDIN_FILENO l2.

Lemma fin_cons c cs :
  fin_after cs →
  (c = fin → (fin ∉ cs) ∧ stdin_eof cs ∧ sent K sockfd cs = received K STDIN_FILENO cs) →
  (fin ∈ cs → sent K sockfd (c :: cs) = sent K sockfd cs ∧
              received K STDIN_FILENO (c :: cs) = received K STDIN_FILENO cs) →
  fin_after (c :: cs).
Proof.
  intros Hf Hc Hs l1 l2 Heq. destruct l1 as [|c1 l1]; injection Heq as -> ->.
  - destruct Hc as (Hni & He & Hsr); [done|]. split; [apply not_elem_of_nil|].
    split; [done|]. split; [done|].
    destruct (plain_streams sockfd l2 [fin]), (plain_streams STDIN_FILENO l2 [fin]);
      [repeat constructor..|]; done.
  - destruct (Hf l1 l2 eq_refl) as (Hni & He & Hsr & Hs1 & Hr1).
    destruct Hs as [Hs2 Hr2]; [set_solver|]. split.
    + rewrite not_elem_of_cons. split; [|done]. intros <-. destruct Hc; [done|]. set_solver.
    + split; [done|]. by rewrite Hs2, Hr2.
Qed.

Lemma fin_plain cs cs' :
  fin_after cs → Forall plain_call cs' → fin ∉ cs' → fin_after (cs' ++ cs).
Proof.
  intros Hf Hp Hni. induction Hp as [|c cs' Hc Hp IH]; [done|].
  apply not_elem_of_cons in Hni as [Hc' Hni]. simpl. apply fin_cons; [by apply IH|done|].
  intros _. destruct (plain_streams sockfd (cs' ++ cs) [c]), (plain_streams STDIN_FILENO (cs' ++ cs) [c]);
    [by constructor..|done].
Qed.

(** What is true of the history whenever the program stops or goes on: [p] and
    [q] are what it has read and not yet written. *)
Definition flow (p q : list Z) (cs : list call) : Prop :=
  received K STDIN_FILENO cs = sent K sockfd cs ++ p ∧
  received K sockfd cs = sent K STDOUT_FILENO cs ++ q ∧
  Z.of_nat (length p) <= MAXLINE ∧ Z.of_nat (length q) <= MAXLINE ∧ fin_after cs.

Record nb_inv (s : nbcli) (cs : list call) : Prop := {
  nb_to : buf_ok (to s);
  nb_fr : buf_ok (fr s);
  nb_flow : flow (pending (to s)) (pending (fr s)) cs;
  nb_fin : fin ∈ cs ↔ stdineof s = true ∧ iptr (to s) = optr (to s);
  nb_eof : stdineof s = true → stdin_eof cs
}.

#[local] Ltac inv_tac :=
  split; try done; try solve [cbn; intros ?; repeat first [solve [auto] | congruence | apply stdin_eof_cons]];
  simpl.

Lemma report_plain cs : Forall report_call cs → Forall plain_call cs ∧ fin ∉ cs.
Proof.
  induction 1 as [|c cs Hc _ [IH1 IH2]]; [split; [done|apply not_elem_of_nil]|].
  split; [constructor; [by destruct c|done]|].
  apply not_elem_of_cons. split; [|done]. by intros <-.
Qed.

Lemma flow_plain p q cs cs' :
  flow p q cs → Forall plain_call cs' → fin ∉ cs' → flow p q (cs' ++ cs).
Proof.
  intros (H1 & H2 & H3 & H4 & H5) Hp Hni. unfold flow.
  destruct (plain_streams STDIN_FILENO cs cs' Hp) as [-> _].
  destruct (plain_streams sockfd cs cs' Hp) as [-> ->].
  destruct (plain_streams STDOUT_FILENO cs cs' Hp) as [_ ->].
  by split_and!; try done; apply fin_plain.
Qed.

Lemma nb_inv_plain s cs cs' :
  nb_inv s cs → Forall plain_call cs' → fin ∉ cs' → nb_inv s (cs' ++ cs).
Proof.
  intros [H1 H2 H3 H4 H5] Hp Hni. split; try done; [by apply flow_plain| |].
  - rewrite elem_of_app. tauto.
  - intros He. by apply stdin_eof_app, H5.
Qed.

(** ** Progress *)

Definition traffic (s : nbcli) (cs : list call) : nat :=
  length (received K STDIN_FILENO cs) + length (sent K sockfd cs)
  + length (received K sockfd cs) + length (sent K STDOUT_FILENO cs)
  + (if stdineof s then 1 else 0).

(** A call that is said to be possible and then does nothing. *)
Definition stalled : Prop :=
  (∃ cs n r w t m, K cs (Cselect n r w t) = ROk (m, ∅, ∅)) ∨
  (∃ cs fd n, K cs (Cread fd n) = RErr EWOULDBLOCK) ∨
  (∃ cs fd d, K cs (Cwrite fd d) = RErr EWOULDBLOCK ∨ K cs (Cwrite fd d) = ROk 0).

Definition at_least (n : nat) (s : nbcli) (cs : list call) : Prop :=
  stalled ∨ (n <= traffic s cs)%nat.

Lemma at_least_plain n s cs cs' :
  at_least n s cs → Forall plain_call cs' → at_least n s (cs' ++ cs).
Proof.
  intros [?|H] Hp; [by left|right]. unfold traffic in *.
  destruct (plain_streams STDIN_FILENO cs cs' Hp) as [-> _].
  destruct (plain_streams sockfd cs cs' Hp) as [-> ->].
  by destruct (plain_streams STDOUT_FILENO cs cs' Hp) as [_ ->].
Qed.

(** The program stops with an error message. *)
Lemma wp_would_block {A} msg (a : A) p q e cs b (Q : outcome A → world → Prop) :
  flow p q cs → (e = EWOULDBLOCK → Q (Val a) (World cs e b)) →
  (∀ w', flow p q (w_calls w') → Q (Exit 1) w') →
  wp K (would_block msg a) (World cs e b) Q.
Proof.
  intros Hf HQ He. unfold would_block. do 2 wp_step. case_decide as Hd.
  - apply wp_err_sys. intros cs' Hcs'. apply He. simpl. destruct (report_plain _ Hcs').
    by apply flow_plain.
  - wp_step. apply HQ. destruct (decide (e = EWOULDBLOCK)); [done|]. by destruct Hd.
Qed.

Lemma wp_shutdown q cs e b (Q : outcome unit → world → Prop) :
  flow [] q cs → fin ∉ cs → stdin_eof cs →
  (∀ e', flow [] q (fin :: cs) → Q (Val tt) (World (fin :: cs) e' b)) →
  (∀ w', flow [] q (w_calls w') → Q (Exit 1) w') →
  wp K (Shutdown sockfd SHUT_WR) (World cs e b) Q.
Proof.
  intros Hf Hni Heof HQ He. unfold Shutdown. apply wp_or_err_sys. wp_step.
  assert (Hf' : flow [] q (fin :: cs)).
  { destruct Hf as (H1 & H2 & H3 & H4 & H5). unfold flow.
    destruct (plain_streams STDIN_FILENO cs [fin]) as [Hr0 _]; [by repeat constructor|].
    destruct (plain_streams sockfd cs [fin]) as [Hr1 Hs1]; [by repeat constructor|].
    destruct (plain_streams STDOUT_FILENO cs [fin]) as [_ Hs2]; [by repeat constructor|].
    simpl in Hr0, Hr1, Hs1, Hs2. rewrite Hr0, Hr1, Hs1, Hs2. split_and!; try done.
    apply fin_cons; [done| |set_solver]. intros _. split; [done|]. split; [done|].
    by rewrite H1, app_nil_r. }
  destruct (K _ _) as [u|e']; [destruct u; by apply HQ|].
  intros cs' Hcs'. apply He. simpl. destruct (report_plain _ Hcs'). by apply flow_plain.
Qed.

(** ** One call on each descriptor *)

Lemma flow_call p q p' q' cs c :
  received K STDIN_FILENO (c :: cs) = sent K sockfd (c :: cs) ++ p' →
  received K sockfd (c :: cs) = sent K STDOUT_FILENO (c :: cs) ++ q' →
  flow p q cs →
  Z.of_nat (length p') <= MAXLINE → Z.of_nat (length q') <= MAXLINE →
  c ≠ fin →
  (fin ∈ cs → sent K sockfd (c :: cs) = sent K sockfd cs ∧
              received K STDIN_FILENO (c :: cs) = received K STDIN_FILENO cs) →
  flow p' q' (c :: cs).
Proof.
  intros H1 H2 (_ & _ & _ & _ & H5) Hp Hq Hc Hf. unfold flow. split_and!; try done.
  by apply fin_cons.
Qed.

Lemma flow_read_stdin p q n cs data :
  flow p q cs → (fin ∈ cs → data = []) →
  match K cs (Cread STDIN_FILENO n) with ROk l => l | RErr _ => [] end = data →
  Z.of_nat (length p + length data) <= MAXLINE →
  flow (p ++ data) q (Cread STDIN_FILENO n :: cs).
Proof.
  intros Hf Hfin HK Hl. pose proof Hf as (H1 & H2 & H3 & H4 & _). destruct Hsock.
  apply (flow_call p q); try done.
  - rewrite received_read, sent_read, HK, H1. by rewrite app_assoc.
  - by rewrite received_read_ne, sent_read.
  - rewrite length_app. lia.
  - intros Hin. rewrite received_read, sent_read, HK, (Hfin Hin). by rewrite app_nil_r.
Qed.

Lemma flow_read_sock p q n cs data :
  flow p q cs →
  match K cs (Cread sockfd n) with ROk l => l | RErr _ => [] end = data →
  Z.of_nat (length q + length data) <= MAXLINE →
  flow p (q ++ data) (Cread sockfd n :: cs).
Proof.
  intros Hf HK Hl. pose proof Hf as (H1 & H2 & H3 & H4 & _). destruct Hsock.
  apply (flow_call p q); try done.
  - by rewrite received_read_ne, sent_read.
  - rewrite received_read, sent_read, HK, H2. by rewrite app_assoc.
  - rewrite length_app. lia.
  - intros _. by rewrite received_read_ne, sent_read.
Qed.

(** The bytes that a write takes. *)
Definition written (r : res Z) : nat := match r with ROk n => Z.to_nat n | RErr _ => 0 end.

Lemma sent_written fd d cs :
  sent K fd (Cwrite fd d :: cs) = sent K fd cs ++ take (written (K cs (Cwrite fd d))) d.
Proof. rewrite sent_write. by destruct (K cs (Cwrite fd d)). Qed.

Lemma flow_write_stdout p q cs :
  flow p q cs →
  flow p (drop (written (K cs (Cwrite STDOUT_FILENO q))) q) (Cwrite STDOUT_FILENO q :: cs).
Proof.
  intros Hf. pose proof Hf as (H1 & H2 & H3 & H4 & _). destruct Hsock.
  apply (flow_call p q); try done.
  - by rewrite received_write, sent_write_ne.
  - by rewrite received_write, sent_written, H2, <-app_assoc, take_drop.
  - rewrite length_drop. lia.
  - intros _. by rewrite received_write, sent_write_ne.
Qed.

Lemma flow_write_sock p q cs :
  flow p q cs → fin ∉ cs →
  flow (drop (written (K cs (Cwrite sockfd p))) p) q (Cwrite sockfd p :: cs).
Proof.
  intros Hf Hni. pose proof Hf as (H1 & H2 & H3 & H4 & _). destruct Hsock.
  apply (flow_call p q); try done.
  - by rewrite received_write, sent_written, H1, <-app_assoc, take_drop.
  - by rewrite received_write, sent_write_ne.
  - rewrite length_drop. lia.
Qed.

(** ** One step on each descriptor *)

Definition stops (cs : list call) : Prop := ∃ p q, flow p q cs.

Lemma wp_nb_stdin n s wset w (Q : outcome (nbcli * gset Z) → world → Prop) :
  nb_inv s (w_calls w) → at_least n s (w_calls w) →
  stdineof s = false → iptr (to s) < MAXLINE →
  (∀ s' wset' w', nb_inv s' (w_calls w') → at_least (S n) s' (w_calls w') →
     fr s' = fr s → wset ⊆ wset' → Q (Val (s', wset')) w') →
  (∀ w', stops (w_calls w') → Q (Exit 1) w') →
  wp K (nb_stdin sockfd s wset) w Q.
Proof.
  intros [Hto Hfr Hf Hfin Hse] Hn Heof Hroom HQ Hstop. unfold nb_stdin. do 3 wp_step.
  assert (Hnofin : fin ∉ w_calls w) by (rewrite Hfin, Heof; naive_solver).
  destruct (K (w_calls w) (Cread STDIN_FILENO (MAXLINE - iptr (to s)))) as [data|e] eqn:HK;
    cbn [bind_post w_calls].
  - assert (Hc := read_count _ _ _ _ HK). pose proof (pending_len _ Hto).
    assert (Hf' : flow (pending (to s) ++ data) (pending (fr s))
              (Cread STDIN_FILENO (MAXLINE - iptr (to s)) :: w_calls w)).
    { apply flow_read_stdin; [done|set_solver|by rewrite HK|]. destruct Hto. lia. }
    case_decide as Hd.
    + apply nil_length_inv in Hd. subst data. rewrite app_nil_r in Hf'.
      assert (Hse' : stdin_eof (Cread STDIN_FILENO (MAXLINE - iptr (to s)) :: w_calls w)).
      { exists [], (MAXLINE - iptr (to s)), (w_calls w). split_and!; [done|lia|done]. }
      assert (Hn' : at_least (S n) (Nbcli (to s) (fr s) true)
              (Cread STDIN_FILENO (MAXLINE - iptr (to s)) :: w_calls w)).
      { destruct Hn as [?|Hn]; [by left|right]. unfold traffic in *. destruct Hsock.
        rewrite received_read, HK, app_nil_r, !sent_read, received_read_ne by done.
        simpl. rewrite Heof in Hn. lia. }
      wp_step. case_decide as Hemp.
      * assert (pending (to s) = []) as Hp by (by apply pending_nil).
        rewrite Hp in Hf'. apply wp_shutdown with (q := pending (fr s));
          [done|set_solver|done| |].
        -- intros e' Hf2. simpl. wp_step. apply HQ; try done.
           ++ inv_tac; [by rewrite Hp|]. rewrite Hemp. set_solver.
           ++ apply (at_least_plain _ _ _ [fin]); [done|by repeat constructor].
        -- intros w' Hw'. apply Hstop. by exists [], (pending (fr s)).
      * wp_step. simpl. wp_step. apply HQ; try done.
        inv_tac. split; [set_solver|]. intros [_ ?]. congruence.
    + wp_step. simpl. destruct (buf_read_ok _ data Hto Hc) as [Hb Hp].
      apply HQ; [| |done|set_solver].
      * inv_tac; [by rewrite Hp|]. rewrite Heof.
        split; [set_solver|]. intros [? _]. done.
      * destruct Hn as [?|Hn]; [by left|right]. unfold traffic in *. destruct Hsock.
        cbn [w_calls]. rewrite received_read, HK, length_app, !sent_read, received_read_ne by done.
        simpl. rewrite Heof in *. lia.
  - assert (Hf' : flow (pending (to s) ++ []) (pending (fr s))
              (Cread STDIN_FILENO (MAXLINE - iptr (to s)) :: w_calls w)).
    { apply flow_read_stdin; [done|set_solver|by rewrite HK|].
      destruct Hf as (_ & _ & ? & _). simpl. lia. }
    rewrite app_nil_r in Hf'. simpl.
    apply wp_would_block with (p := pending (to s)) (q := pending (fr s)); [done| |].
    + intros ->. apply HQ; try done.
      * inv_tac. rewrite <-Hfin. set_solver.
      * left. right. left. by eexists _, _, _.
    + intros w' Hw'. apply Hstop. by eexists _, _.
Qed.

Lemma wp_nb_sock n s wset w (Q : outcome (option (nbcli * gset Z)) → world → Prop) :
  nb_inv s (w_calls w) → at_least n s (w_calls w) → iptr (fr s) < MAXLINE →
  (∀ s' wset' w', nb_inv s' (w_calls w') → at_least (S n) s' (w_calls w') →
     wset ⊆ wset' → Q (Val (Some (s', wset'))) w') →
  (∀ w' cs m, w_calls w' = Cread sockfd m :: cs → K cs (Cread sockfd m) = ROk [] →
     flow (pending (to s)) (pending (fr s)) (w_calls w') →
     (fin ∈ w_calls w' ↔ pending (to s) = []) → stdin_eof (w_calls w') → Q (Val None) w') →
  (∀ w', stops (w_calls w') → Q (Exit 1) w') →
  wp K (nb_sock sockfd s wset) w Q.
Proof.
  intros [Hto Hfr Hf Hfin Hse] Hn Hroom HQ HNone Hstop. unfold nb_sock. do 3 wp_step.
  assert (Hfl := λ data, flow_read_sock (pending (to s)) (pending (fr s))
                   (MAXLINE - iptr (fr s)) (w_calls w) data Hf).
  assert (Hfin' : ∀ c, c ≠ fin → fin ∈ c :: w_calls w ↔ stdineof s = true ∧ iptr (to s) = optr (to s)).
  { intros c Hc. rewrite <-Hfin. set_solver. }
  destruct (K (w_calls w) (Cread sockfd (MAXLINE - iptr (fr s)))) as [data|e] eqn:HK;
    cbn [bind_post w_calls].
  - assert (Hc := read_count _ _ _ _ HK). pose proof (pending_len _ Hfr).
    specialize (Hfl data eq_refl ltac:(destruct Hfr; lia)).
    case_decide as Hd.
    + apply nil_length_inv in Hd. subst data. rewrite app_nil_r in Hfl.
      destruct (stdineof s) eqn:Heof.
      * wp_step. eapply HNone; [done|done|done| |by apply stdin_eof_cons, Hse].
        simpl. rewrite Hfin' by done. rewrite pending_nil by done. naive_solver.
      * apply wp_err_quit. intros cs Hcs. apply Hstop. eexists _, _. simpl.
        destruct (report_plain _ Hcs). by apply flow_plain.
    + wp_step. destruct (buf_read_ok _ data Hfr Hc) as [Hb Hp].
      apply HQ; [| |set_solver].
      * inv_tac; [by rewrite Hp|]. by rewrite Hfin'.
      * destruct Hn as [?|Hn]; [by left|right]. unfold traffic in *. destruct Hsock.
        cbn [w_calls]. rewrite received_read, HK, length_app, !sent_read, received_read_ne by done.
        simpl. lia.
  - specialize (Hfl [] eq_refl). rewrite app_nil_r in Hfl. simpl.
    assert (Hf' : flow (pending (to s)) (pending (fr s))
              (Cread sockfd (MAXLINE - iptr (fr s)) :: w_calls w)).
    { apply Hfl. destruct Hf as (_ & _ & _ & ? & _). simpl. lia. }
    apply wp_would_block with (p := pending (to s)) (q := pending (fr s)); [done| |].
    + intros ->. apply HQ; try done.
      * inv_tac. by rewrite Hfin'.
      * left. right. left. by eexists _, _, _.
    + intros w' Hw'. apply Hstop. by eexists _, _.
Qed.

Lemma at_least_write n s s' cs fd d :
  at_least n s cs → stdineof s' = stdineof s →
  fd = sockfd ∨ fd = STDOUT_FILENO → (0 < written (K cs (Cwrite fd d)))%nat → d ≠ [] →
  at_least (S n) s' (Cwrite fd d :: cs).
Proof.
  intros [?|Hn] Heof Hfd Hw Hd; [by left|right]. unfold traffic in *. rewrite Heof, !received_write.
  destruct d as [|b d]; [done|]. destruct Hsock.
  destruct Hfd as [->| ->]; rewrite sent_written, sent_write_ne, length_app, length_take by done;
    cbn [length]; lia.
Qed.

Lemma wp_nb_stdout n s w (Q : outcome nbcli → world → Prop) :
  nb_inv s (w_calls w) → at_least n s (w_calls w) → iptr (fr s) - optr (fr s) > 0 →
  (∀ s' w', nb_inv s' (w_calls w') → at_least (S n) s' (w_calls w') →
     to s' = to s → Q (Val s') w') →
  (∀ w', stops (w_calls w') → Q (Exit 1) w') →
  wp K (nb_stdout s) w Q.
Proof.
  intros [Hto Hfr Hf Hfin Hse] Hn Hpos HQ Hstop. unfold nb_stdout. do 3 wp_step.
  assert (Hfl := flow_write_stdout _ _ _ Hf). pose proof (pending_len _ Hfr) as Hlen.
  assert (Hat := λ s', at_least_write n s s' (w_calls w) STDOUT_FILENO (pending (fr s)) Hn).
  assert (Hfin' : fin ∈ Cwrite STDOUT_FILENO (pending (fr s)) :: w_calls w ↔
            stdineof s = true ∧ iptr (to s) = optr (to s)) by (rewrite <-Hfin; set_solver).
  destruct (K (w_calls w) (Cwrite STDOUT_FILENO (pending (fr s)))) as [n1|e] eqn:HK;
    cbn [bind_post w_calls].
  - assert (Hc := write_count _ _ _ _ HK).
    destruct (buf_written_ok (fr s) n1 Hfr Hc) as (Hb & Hp & _).
    wp_step. apply HQ; [| |done].
    + inv_tac. by rewrite Hp.
    + destruct (decide (n1 = 0)) as [->|Hn1].
      * left. right. right. eexists _, _, _. right. exact HK.
      * apply Hat; [done|by right|simpl; lia|]. intros Hnil. rewrite Hnil in Hlen. simpl in Hlen. lia.
  - simpl in Hfl. apply wp_would_block with (p := pending (to s)) (q := pending (fr s)); [done| |].
    + intros ->. apply HQ; [by inv_tac| |done].
      left. right. right. eexists _, _, _. left. exact HK.
    + intros w' Hw'. apply Hstop. by eexists _, _.
Qed.

Lemma wp_nb_sockw n s w (Q : outcome nbcli → world → Prop) :
  nb_inv s (w_calls w) → at_least n s (w_calls w) → iptr (to s) - optr (to s) > 0 →
  (∀ s' w', nb_inv s' (w_calls w') → at_least (S n) s' (w_calls w') → Q (Val s') w') →
  (∀ w', stops (w_calls w') → Q (Exit 1) w') →
  wp K (nb_sockw sockfd s) w Q.
Proof.
  intros [Hto Hfr Hf Hfin Hse] Hn Hpos HQ Hstop. unfold nb_sockw. do 3 wp_step.
  assert (Hnofin : fin ∉ w_calls w) by (rewrite Hfin; intros [_ ?]; lia).
  assert (Hfl := flow_write_sock _ _ _ Hf Hnofin). pose proof (pending_len _ Hto) as Hlen.
  assert (Hat := λ s', at_least_write n s s' (w_calls w) sockfd (pending (to s)) Hn).
  assert (Hnofin' : fin ∉ Cwrite sockfd (pending (to s)) :: w_calls w) by set_solver.
  assert (Hne : pending (to s) ≠ []) by (intros Hnil; rewrite Hnil in Hlen; simpl in Hlen; lia).
  destruct (K (w_calls w) (Cwrite sockfd (pending (to s)))) as [n1|e] eqn:HK;
    cbn [bind_post w_calls].
  - assert (Hc := write_count _ _ _ _ HK). cbn [written] in Hfl, Hat.
    destruct (buf_written_ok (to s) n1 Hto Hc) as (Hb & Hp & Hend).
    assert (Hn1 : n1 = 0 ∨ (0 < Z.to_nat n1)%nat) by lia.
    set (s' := Nbcli (buf_written (to s) n1) (fr s) (stdineof s)).
    assert (Hat' : at_least (S n) s' (Cwrite sockfd (pending (to s)) :: w_calls w)).
    { destruct Hn1 as [->|?]; [|by apply Hat; [|left| |]].
      left. right. right. eexists _, _, _. right. exact HK. }
    wp_step. case_decide as Hd.
    + destruct Hd as [Hd Heof].
      assert (Hnil : drop (Z.to_nat n1) (pending (to s)) = []).
      { apply length_zero_iff_nil. rewrite length_drop. lia. }
      rewrite Hnil in Hfl. apply wp_shutdown with (q := pending (fr s)); [done|done|by apply stdin_eof_cons, Hse| |].
      * intros e' Hf2. simpl. wp_step. apply HQ.
        -- inv_tac; [by rewrite Hp, Hnil|]. rewrite Hend. set_solver.
        -- apply (at_least_plain _ _ _ [fin]); [done|by repeat constructor].
      * intros w' Hw'. apply Hstop. by eexists _, _.
    + wp_step. simpl. wp_step. apply HQ; [|done].
      inv_tac; [by rewrite Hp|]. rewrite Hend. naive_solver.
  - simpl in Hfl. apply wp_would_block with (p := pending (to s)) (q := pending (fr s)); [done| |].
    + intros ->. apply HQ.
      * inv_tac. rewrite <-Hfin. set_solver.
      * left. right. right. eexists _, _, _. left. exact HK.
    + intros w' Hw'. apply Hstop. by eexists _, _.
Qed.

(** ** The loop *)

(** The last call has read an end-of-file from the socket, and that of the
    standard input has been read before. *)
Definition ends (p : list Z) (cs : list call) : Prop :=
  stdin_eof cs ∧
  (∃ cs' m, cs = Cread sockfd m :: cs' ∧ K cs' (Cread sockfd m) = ROk []) ∧
  (fin ∈ cs ↔ p = []).

Lemma nb_inv_stops s cs cs' : nb_inv s cs → Forall report_call cs' → stops (cs' ++ cs).
Proof.
  intros [_ _ Hf _ _] Hcs'. destruct (report_plain _ Hcs'). eexists _, _. by apply flow_plain.
Qed.

Lemma wp_select n s w (Q : outcome (gset Z * gset Z) → world → Prop) nfds :
  nb_inv s (w_calls w) → at_least n s (w_calls w) →
  (∀ rset wset w', nb_inv s (w_calls w') → at_least n s (w_calls w') →
     rset ⊆ nb_rset sockfd s → wset ⊆ nb_wset sockfd s →
     (rset = ∅ → wset = ∅ → stalled) → Q (Val (rset, wset)) w') →
  (∀ w', stops (w_calls w') → Q (Exit 1) w') →
  wp K (Select_sets nfds (nb_rset sockfd s) (nb_wset sockfd s)) w Q.
Proof.
  intros Hinv Hn HQ Hstop. unfold Select_sets, Select. wp_step. apply wp_or_err_sys. wp_step.
  destruct (K (w_calls w) (Cselect nfds (nb_rset sockfd s) (nb_wset sockfd s) None))
    as [[[m r] w']|e] eqn:HK.
  - simpl. wp_step. destruct (select_subset _ _ _ _ _ _ _ _ HK). apply HQ; try done.
    + by apply (nb_inv_plain _ _ [_]); [|by repeat constructor|set_solver].
    + by apply (at_least_plain _ _ _ [_]); [|by repeat constructor].
    + intros -> ->. left. by eexists _, _, _, _, _, _.
  - intros cs Hcs. apply Hstop. simpl. change (?a ++ ?b :: ?c) with (a ++ [b] ++ c).
    apply nb_inv_stops with s; [|done]. by apply (nb_inv_plain _ _ [_]); [|by repeat constructor|set_solver].
Qed.

Lemma nb_rset_stdin s : STDIN_FILENO ∈ nb_rset sockfd s → stdineof s = false ∧ iptr (to s) < MAXLINE.
Proof.
  destruct Hsock. unfold nb_rset. case_decide; [done|]. case_decide; set_solver.
Qed.

Lemma nb_rset_sock s : sockfd ∈ nb_rset sockfd s → iptr (fr s) < MAXLINE.
Proof. destruct Hsock. unfold nb_rset. case_decide; case_decide; set_solver. Qed.

Lemma nb_wset_stdout s : STDOUT_FILENO ∈ nb_wset sockfd s → optr (fr s) ≠ iptr (fr s).
Proof. destruct Hsock. unfold nb_wset. case_decide; case_decide; set_solver. Qed.

Lemma nb_wset_sock s : sockfd ∈ nb_wset sockfd s → optr (to s) ≠ iptr (to s).
Proof. destruct Hsock. unfold nb_wset. case_decide; case_decide; set_solver. Qed.

Lemma nb_wset_mem s x : x ∈ nb_wset sockfd s → x = sockfd ∨ x = STDOUT_FILENO.
Proof. unfold nb_wset. case_decide; case_decide; set_solver. Qed.

Lemma at_least_le n m s cs : at_least n s cs → (m <= n)%nat → at_least m s cs.
Proof. intros [?|?] ?; [by left|right; lia]. Qed.

(** The writes of a round, from [n] if something has been read, or if the only
    descriptors that are ready are those to write to. *)
Lemma wp_nb_writes n s wset w (Q : outcome (nbcli + unit) → world → Prop) :
  nb_inv s (w_calls w) → at_least n s (w_calls w) →
  at_least (S n) s (w_calls w) ∨ wset ≠ ∅ ∧ wset ⊆ nb_wset sockfd s →
  (∀ s' w', nb_inv s' (w_calls w') → at_least (S n) s' (w_calls w') → Q (Val (inl s')) w') →
  (∀ w', stops (w_calls w') → Q (Exit 1) w') →
  wp K (s ← (if decide (STDOUT_FILENO ∈ wset ∧ iptr (fr s) - optr (fr s) > 0)
             then nb_stdout s else mret s);
        s ← (if decide (sockfd ∈ wset ∧ iptr (to s) - optr (to s) > 0)
             then nb_sockw sockfd s else mret s);
        mret (inl s)) w Q.
Proof.
  intros Hinv Hn Hprog HQ Hstop. wp_step.
  assert (Hsecond : ∀ s1 w1, nb_inv s1 (w_calls w1) → at_least n s1 (w_calls w1) →
    (at_least (S n) s1 (w_calls w1) ∨ sockfd ∈ wset ∧ iptr (to s1) - optr (to s1) > 0) →
    wp K (s2 ← (if decide (sockfd ∈ wset ∧ iptr (to s1) - optr (to s1) > 0)
                then nb_sockw sockfd s1 else mret s1); mret (inl s2)) w1 Q).
  { intros s1 w1 Hinv1 Hn1 Hp1. wp_step. case_decide as Hd.
    - apply wp_nb_sockw with n; [done|done|tauto| |done].
      intros s2 w2 Hinv2 Hn2. simpl. wp_step. by apply HQ.
    - wp_step. simpl. wp_step. destruct Hp1 as [Hp1|Hp1]; [by apply HQ|tauto]. }
  destruct (decide (STDOUT_FILENO ∈ wset ∧ iptr (fr s) - optr (fr s) > 0)) as [Hd|Hd].
  - apply wp_nb_stdout with n; [done|done|tauto| |done].
    intros s1 w1 Hinv1 Hn1 Hto. simpl. apply Hsecond; [done|eapply at_least_le; [done|lia]|by left].
  - wp_step. simpl. apply Hsecond; [done|done|].
    destruct Hprog as [?|[Hne Hsub]]; [by left|right].
    assert (Hws : sockfd ∈ wset).
    { apply set_choose_L in Hne as [x Hx]. pose proof (buf_ptrs _ (nb_fr _ _ Hinv)).
      destruct (nb_wset_mem s x) as [->| ->]; [set_solver|done|].
      destruct Hd. split; [done|]. pose proof (nb_wset_stdout s). set_solver by lia. }
    split; [done|]. pose proof (buf_ptrs _ (nb_to _ _ Hinv)).
    pose proof (nb_wset_sock s ltac:(set_solver)). lia.
Qed.

Lemma wp_nb_round n s w (Q : outcome (nbcli + unit) → world → Prop) :
  nb_inv s (w_calls w) → at_least n s (w_calls w) →
  (∀ s' w', nb_inv s' (w_calls w') → at_least (S n) s' (w_calls w') → Q (Val (inl s')) w') →
  (∀ w' p q, flow p q (w_calls w') → ends p (w_calls w') → Q (Val (inr tt)) w') →
  (∀ w', stops (w_calls w') → Q (Exit 1) w') →
  wp K (nb_round sockfd s) w Q.
Proof.
  intros Hinv Hn HQ Hend Hstop. unfold nb_round. wp_step.
  apply wp_select with n; [done|done| |done].
  intros rset wset w1 Hinv1 Hn1 Hr Hw Hst. cbn [bind_post]. wp_step.
  (* what remains after the standard input has been tried *)
  assert (Hrest : ∀ s2 wset2 w2, nb_inv s2 (w_calls w2) → at_least n s2 (w_calls w2) →
    fr s2 = fr s → wset ⊆ wset2 →
    (at_least (S n) s2 (w_calls w2) ∨
     s2 = s ∧ wset2 = wset ∧ STDIN_FILENO ∉ rset) →
    wp K (r ← (if decide (sockfd ∈ rset) then nb_sock sockfd s2 wset2
               else mret (Some (s2, wset2)));
          match r with
          | None => mret (inr tt)
          | Some (s, wset) =>
              s ← (if decide (STDOUT_FILENO ∈ wset ∧ iptr (fr s) - optr (fr s) > 0)
                   then nb_stdout s else mret s);
              s ← (if decide (sockfd ∈ wset ∧ iptr (to s) - optr (to s) > 0)
                   then nb_sockw sockfd s else mret s);
              mret (inl s)
          end) w2 Q).
  { intros s2 wset2 w2 Hinv2 Hn2 Hfr Hws Hp. wp_step. case_decide as Hd.
    - apply wp_nb_sock with n; [done|done| | | |done].
      + rewrite Hfr. apply nb_rset_sock. set_solver.
      + intros s3 wset3 w3 Hinv3 Hn3 _. simpl.
        apply wp_nb_writes with n; [done|eapply at_least_le; [done|lia]|by left|done|done].
      + intros w3 cs m Hw3 HK Hf Hfin He. simpl. wp_step. eapply Hend; [done|].
        split; [done|]. split; [by eexists _, _|done].
    - wp_step. simpl. apply wp_nb_writes with n; [done|done| |done|done].
      destruct Hp as [?|(-> & -> & Hni)]; [by left|].
      assert (rset = ∅) as ->.
      { apply set_eq. intros x. split; [|set_solver]. intros Hx. apply Hr in Hx as Hx'.
        unfold nb_rset in Hx'. repeat case_decide; set_solver. }
      destruct (decide (wset = ∅)) as [->|?]; [|by right]. left. left. by apply Hst. }
  destruct (decide (STDIN_FILENO ∈ rset)) as [Hd|Hd].
  - destruct (nb_rset_stdin s) as [Heof Hroom]; [set_solver|].
    apply wp_nb_stdin with n; [done|done|done|done| |done].
    intros s2 wset2 w2 Hinv2 Hn2 Hfr Hws. simpl. apply Hrest; [done| |done|done|by left].
    eapply at_least_le; [done|lia].
  - wp_step. simpl. by apply Hrest; [..|right].
Qed.

(** Nothing has been copied yet. *)
Definition fresh (cs : list call) : Prop :=
  received K STDIN_FILENO cs = [] ∧ sent K sockfd cs = [] ∧
  received K sockfd cs = [] ∧ sent K STDOUT_FILENO cs = [] ∧ fin ∉ cs.

Lemma fresh_flow cs : fresh cs → flow [] [] cs.
Proof.
  intros (H1 & H2 & H3 & H4 & H5). unfold flow. rewrite H1, H2, H3, H4.
  split_and!; try done. intros l1 l2 ->. set_solver.
Qed.

Lemma wp_set_nonblock fd w (Q : outcome unit → world → Prop) :
  fresh (w_calls w) →
  (∀ w', fresh (w_calls w') → Q (Val tt) w') →
  (∀ w', fresh (w_calls w') → Q (Exit 1) w') →
  wp K (set_nonblock fd) w Q.
Proof.
  intros Hf HQ He.
  assert (Hfr : ∀ cs cs', fresh cs → Forall plain_call cs' → fin ∉ cs' → fresh (cs' ++ cs)).
  { intros cs cs' (H1 & H2 & H3 & H4 & H5) Hp Hni. unfold fresh.
    destruct (plain_streams STDIN_FILENO cs cs' Hp) as [-> _].
    destruct (plain_streams sockfd cs cs' Hp) as [-> ->].
    destruct (plain_streams STDOUT_FILENO cs cs' Hp) as [_ ->]. by split_and!; try done; set_solver. }
  assert (Hfc : ∀ cs f c a, fresh cs → fresh (Cfcntl f c a :: cs)).
  { intros cs f c a H. apply (Hfr _ [_]); [done|by repeat constructor|set_solver]. }
  assert (Hcall : ∀ f c a w1 (P : outcome Z → world → Prop), fresh (w_calls w1) →
    (∀ v w', fresh (w_calls w') → P (Val v) w') → (∀ w', fresh (w_calls w') → P (Exit 1) w') →
    wp K (Fcntl f c a) w1 P).
  { intros f c a w1 P Hw1 HP HPe. apply wp_or_err_sys. wp_step.
    destruct (K _ _); [by apply HP, Hfc|]. intros cs Hcs. apply HPe.
    destruct (report_plain _ Hcs). simpl. by apply Hfr; [apply Hfc|..]. }
  unfold set_nonblock. wp_step. apply Hcall; [done| |done]. intros v w1 Hw1. simpl.
  unfold void. wp_step. apply Hcall; [done| |done]. intros v' w2 Hw2. simpl. wp_step. by apply HQ.
Qed.

Definition traffic_total (cs : list call) : nat :=
  length (received K STDIN_FILENO cs) + length (sent K sockfd cs)
  + length (received K sockfd cs) + length (sent K STDOUT_FILENO cs).
End flow.


(** A concrete kernel: the reads of each descriptor are answered by a script,
    and end-of-file after it, but never with more than was asked for; [select]
    finds everything ready; a write is answered by [wr]. *)
Fixpoint count_reads_of (fd : Z) (cs : list call) : nat :=
  match cs with
  | [] => 0
  | Cread fd' _ :: cs' => (if decide (fd' = fd) then 1 else 0) + count_reads_of fd cs'
  | _ :: cs' => count_reads_of fd cs'
  end.

Definition cli_kernel (rd : Z → list (list Z)) (wr : Z → list Z → res Z) : kernel := λ cs c,
  match c as c return ans c with
  | Cread fd n =>
      if decide (n < 0) then RErr EINVAL
      else ROk (take (Z.to_nat n) (map u8 (nth (count_reads_of fd cs) (rd fd) [])))
  | Cwrite fd d => match wr fd d with
                   | ROk n => ROk (Z.max 0 (Z.min n (Z.of_nat (length d))))
                   | RErr e => RErr e
                   end
  | Cselect n r w t => ROk (Z.of_nat (size r + size w), r, w)
  | Cfcntl _ _ _ => ROk 0
  | Cshutdown _ _ => ROk tt
  | c => default_ans c
  end.

#[global] Instance cli_kernel_io rd wr : KernelIo (cli_kernel rd wr).
Proof.
  split; intros cs fd n; simpl.
  - intros l. case_decide; [done|]. intros [= <-]. rewrite length_take. lia.
  - intros l. case_decide; [done|]. intros [= <-]. apply Forall_take, Forall_map, Forall_true.
    intros x. unfold is_byte, u8. apply Z.mod_pos_bound. lia.
  - intros m. destruct (wr fd n); [|done]. intros [= <-]. lia.
Qed.

#[global] Instance cli_kernel_select rd wr : KernelSelect (cli_kernel rd wr).
Proof. intros cs n r w t m r' w'. simpl. by intros [= _ <- <-]. Qed.


(** The client can return normally without having written what it has
    received: when the standard output would block and the server has closed
    its end, the bytes in the buffer are dropped. *)
Theorem strclinonb_drops_output :
  let K := cli_kernel (λ fd, if decide (fd = 0) then [] else [str "xyz"])
             (λ fd _, if decide (fd = 1) then RErr EWOULDBLOCK else ROk 0) in
  let '(o, w') := strclinonb 9 (repeat 0 4096) (repeat 0 4096) 3 K (World [] 0 false) in
  o = Val tt ∧ received K 3 (w_calls w') = str "xyz" ∧ sent K STDOUT_FILENO (w_calls w') = [].
Proof. vm_compute. done. Qed.
