(* ===== verification/Sigio.v ===== *)
(** [sigio/]: the signal-driven UDP echo server of [dgecho01.c], whose SIGIO
    handler fills a ring of datagrams that the main loop sends back, its client
    and the two programs. *)

From S2P Require Import Prelude Net Sys Error Wrap Io Connect TcpServ.

Definition QSIZE : Z := 8.
Definition MAXDG : Z := 4096.

Record DG := Dg {
  dg_data : list Z;            (* the [MAXDG] bytes that the pointer leads to *)
  dg_len : Z;
  dg_sa : sockaddr;
  dg_salen : Z
}.

(** The static variables that the handlers and the main loop share. *)
Record sigio := Sigio {
  dg : list DG;
  cntread : list Z;
  iget : Z;
  iput : Z;
  nqueue : Z
}.

Section handlers.
Context (fuel : nat) (sockfd clilen : Z).

(** [recvfrom] stores the datagram over the bytes the slot held. *)
Definition sig_io (s : sigio) : M sigio :=
  iter fuel (λ '(nread, s),
    if decide (nqueue s >= QSIZE) then err_quit (str "receive overflow")
    else
      match aget (dg s) (iput s) with
      | None => abort
      | Some ptr =>
          let dg1 := aset (dg s) (iput s) (Dg (dg_data ptr) (dg_len ptr) (dg_sa ptr) clilen) in
          r ← checked (sys (Crecvfrom sockfd MAXDG));
          match r with
          | RErr _ =>
              errno ← get_errno;
              if decide (errno = EWOULDBLOCK) then
                match aget (cntread s) nread with
                | None => abort
                | Some n =>
                    mret (inr (Sigio dg1 (aset (cntread s) nread (n + 1))
                                 (iget s) (iput s) (nqueue s)))
                end
              else err_sys (str "recvfrom error")
          | ROk (data, sa) =>
              let dg2 := aset dg1 (iput s) (Dg (overwrite (dg_data ptr) data)
                           (Z.of_nat (length data)) sa (sa_len sa)) in
              let iput' := if decide (iput s + 1 >= QSIZE) then 0 else iput s + 1 in
              mret (inl (nread + 1, Sigio dg2 (cntread s) (iget s) iput' (nqueue s + 1)))
          end
      end) (0, s).

Definition sig_hup (s : sigio) : M unit :=
  for_each (seqZ 0 (QSIZE + 1)) (λ i _,
    printf (str "cntread[" ++ fmt_d i ++ str "] = " ++ fmt_d (nth (Z.to_nat i) (cntread s) 0)
            ++ [ch_nl])) tt.

Fixpoint handle_n (n : nat) (s : sigio) : M sigio :=
  match n with
  | O => mret s
  | S n' => s ← sig_io s; handle_n n' s
  end.

(** A point of the program at which SIGIO is not blocked. *)
Definition deliver (s : sigio) : M sigio :=
  n ← sys (Cdeliver SIGIO);
  handle_n n s.

(** [sigsuspend] returns when the handler of some signal has returned. *)
Definition sigsuspend (set : Z) (s : sigio) : M sigio :=
  signo ← sys (Csigsuspend set);
  if decide (signo = SIGIO) then sig_io s
  else if decide (signo = SIGHUP) then sig_hup s;; mret s
  else mret s.
End handlers.

Definition SIG_BLOCK : Z := 0.
Definition SIG_SETMASK : Z := 2.
Definition F_SETOWN : Z := 8.
Definition FIOASYNC : Z := 21586.
Definition FIONBIO : Z := 21537.

Section dg_echo.
Context (fuel : nat) (sockfd clilen zeromask newmask oldmask : Z).

(** One round of the main loop. *)
Definition sigio_round (s : sigio) : M (sigio + unit) :=
  s ← iter fuel (λ s,
        if decide (nqueue s = 0) then
          s ← sigsuspend fuel sockfd clilen zeromask s; mret (inl s)
        else mret (inr s)) s;
  Sigprocmask SIG_SETMASK oldmask 0;;
  s ← deliver fuel sockfd clilen s;
  match aget (dg s) (iget s) with
  | None => abort
  | Some ptr =>
      Sendto sockfd (take (Z.to_nat (dg_len ptr)) (dg_data ptr)) (dg_sa ptr);;
      s ← deliver fuel sockfd clilen s;
      let s := Sigio (dg s) (cntread s)
                 (if decide (iget s + 1 >= QSIZE) then 0 else iget s + 1) (iput s) (nqueue s) in
      s ← deliver fuel sockfd clilen s;
      Sigprocmask SIG_BLOCK newmask oldmask;;
      mret (inl (Sigio (dg s) (cntread s) (iget s) (iput s) (nqueue s - 1)))
  end.

(** What [malloc] leaves in a block is [mem0].  Signals can arrive from the
    installation of the handler to the first [Sigprocmask]. *)
Definition sigio_dg_echo (mem0 : list Z) : M unit :=
  dg ← for_each (seqZ 0 QSIZE) (λ _ dg,
         Malloc MAXDG;;
         Malloc clilen;;
         mret (dg ++ [Dg mem0 0 (SaOther 0) clilen])) [];
  let s := Sigio dg (repeat 0 (Z.to_nat (QSIZE + 1))) 0 0 0 in
  Signal SIGHUP (Handler "sig_hup");;
  Signal SIGIO (Handler "sig_io");;
  s ← deliver fuel sockfd clilen s;
  pid ← sys Cgetpid;
  Fcntl sockfd F_SETOWN pid;;
  s ← deliver fuel sockfd clilen s;
  Ioctl sockfd FIOASYNC 1;;
  s ← deliver fuel sockfd clilen s;
  Ioctl sockfd FIONBIO 1;;
  s ← deliver fuel sockfd clilen s;
  Sigemptyset zeromask;;
  Sigemptyset oldmask;;
  Sigemptyset newmask;;
  Sigaddset newmask SIGIO;;
  s ← deliver fuel sockfd clilen s;
  Sigprocmask SIG_BLOCK newmask oldmask;;
  iter fuel sigio_round s.
End dg_echo.

(** [udpserv01.c]; the masks are the addresses of the automatic variables. *)
Definition sigio_udpserv01 (fuel : nat) (zeromask newmask oldmask : Z) (mem0 : list Z) : M unit :=
  sockfd ← Socket AF_INET SOCK_DGRAM 0;
  Bind sockfd (SaIn (htons SERV_PORT) INADDR_ANY);;
  sigio_dg_echo fuel sockfd 16 zeromask newmask oldmask mem0.

(** [dgcli01.c] is the text of [lib/dg_cli.c]. *)
Definition sigio_dg_cli (fuel : nat) (sockfd : Z) (servaddr : sockaddr) : M unit :=
  dg_cli fuel sockfd servaddr.

Definition sigio_udpcli01 (fuel : nat) (argv : list (list Z)) : M unit :=
  if decide (length argv ≠ 2%nat) then err_quit (str "usage: udpcli01 <IPaddress>")
  else
    addr ← Inet_pton AF_INET (nth 1 argv []);
    sockfd ← Socket AF_INET SOCK_DGRAM 0;
    sigio_dg_cli fuel sockfd (SaIn (htons SERV_PORT) addr);;
    exit 0.
