(* ===== verification/SigioSpec.v ===== *)
(** Properties of [Sigio]: whenever its signals arrive, the server sends every
    datagram back once, in the order of arrival, and to its sender. *)

From S2P Require Import Prelude Net Sys Error Wrap Io Connect ConnectSpec TcpServ Sigio.

(** * The ring *)

(** What [Sendto] sends of a slot. *)
Definition dgram (p : DG) : list Z * sockaddr :=
  (take (Z.to_nat (dg_len p)) (dg_data p), dg_sa p).

Definition slot (s : sigio) (i : Z) : list Z * sockaddr :=
  default ([], SaOther 0) (dgram <$> aget (dg s) i).

(** The [n] datagrams from index [b] on. *)
Definition ring (b n : Z) (s : sigio) : list (list Z * sockaddr) := ringl QSIZE (slot s) b n.

Lemma wrap_mod i : 0 <= i < QSIZE → (if decide (i + 1 >= QSIZE) then 0 else i + 1) = (i + 1) mod QSIZE.
Proof.
  unfold QSIZE. intros Hi. case_decide.
  - by replace (i + 1) with 8 by lia.
  - rewrite Z.mod_small; lia.
Qed.

(** * Histories *)

Section sigio_spec.
Context (K : kernel) (sockfd : Z).

Definition rcvd_step (cs : list call) (c : call) : list (list Z * sockaddr) :=
  match c as c return ans c → list (list Z * sockaddr) with
  | Crecvfrom fd _ => λ a, if decide (fd = sockfd) then
                             match a with ROk p => [p] | RErr _ => [] end
                           else []
  | _ => λ _, []
  end (K cs c).

Definition sent_step (cs : list call) (c : call) : list (list Z * sockaddr) :=
  match c as c return ans c → list (list Z * sockaddr) with
  | Csendto fd d sa => λ a, if decide (fd = sockfd) then
                              match a with
                              | ROk n => if decide (n = Z.of_nat (length d)) then [(d, sa)] else []
                              | RErr _ => []
                              end
                            else []
  | _ => λ _, []
  end (K cs c).

(** The datagrams received and sent by a history of calls, with the address of
    their peer, the oldest first. *)
Fixpoint dgs_rcvd (cs : list call) : list (list Z * sockaddr) :=
  match cs with [] => [] | c :: cs' => dgs_rcvd cs' ++ rcvd_step cs' c end.
Fixpoint dgs_sent (cs : list call) : list (list Z * sockaddr) :=
  match cs with [] => [] | c :: cs' => dgs_sent cs' ++ sent_step cs' c end.

Fixpoint suspends (cs : list call) : nat :=
  match cs with
  | [] => 0
  | Csigsuspend _ :: cs' => S (suspends cs')
  | _ :: cs' => suspends cs'
  end.

Definition no_dgram (c : call) : Prop :=
  match c with Crecvfrom _ _ | Csendto _ _ _ | Csigsuspend _ => False | _ => True end.

Lemma no_dgram_hist cs cs' :
  Forall no_dgram cs' →
  dgs_rcvd (cs' ++ cs) = dgs_rcvd cs ∧ dgs_sent (cs' ++ cs) = dgs_sent cs ∧
  suspends (cs' ++ cs) = suspends cs.
Proof.
  induction 1 as [|c cs' Hc _ (IH1 & IH2 & IH3)]; [done|]. simpl.
  rewrite IH1, IH2. destruct c; try done; unfold rcvd_step, sent_step; simpl;
    by rewrite !app_nil_r.
Qed.

Lemma report_no_dgram cs : Forall report_call cs → Forall no_dgram cs.
Proof. intros H. eapply Forall_impl; [exact H|]. by intros []. Qed.

(** The ring from [b] on holds what has been received and not been sent, and
    the datagram being sent ([k] is 1 while [iget] passes it). *)
Record ring_inv (b : Z) (k : nat) (s : sigio) (cs : list call) : Prop := {
  ri_dg : Z.of_nat (length (dg s)) = QSIZE;
  ri_cnt : Z.of_nat (length (cntread s)) = QSIZE + 1;
  ri_b : 0 <= b < QSIZE;
  ri_n : 0 <= nqueue s <= QSIZE;
  ri_put : iput s = (b + nqueue s) mod QSIZE;
  ri_hist : ∃ done, dgs_rcvd cs = done ++ ring b (nqueue s) s ∧
                    dgs_sent cs = done ++ take k (ring b (nqueue s) s)
}.

(** What is true whenever the program stops or goes on. *)
Definition echoed (cs : list call) : Prop :=
  dgs_sent cs `prefix_of` dgs_rcvd cs ∧
  Z.of_nat (length (dgs_rcvd cs)) <= Z.of_nat (length (dgs_sent cs)) + QSIZE.

Lemma ring_inv_echoed b k s cs : ring_inv b k s cs → echoed cs.
Proof.
  intros [_ _ _ Hn _ (done & Hr & Hs)]. unfold echoed. rewrite Hr, Hs. split.
  - apply prefix_app, prefix_take.
  - unfold ring. rewrite !length_app, ringl_len. lia.
Qed.

Lemma ring_inv_calls b k s cs cs' :
  ring_inv b k s cs → Forall no_dgram cs' → ring_inv b k s (cs' ++ cs).
Proof.
  intros [H1 H2 H3 H4 H5 H6] Hc. split; try done.
  by destruct (no_dgram_hist cs cs' Hc) as (-> & -> & _).
Qed.

Lemma echoed_calls cs cs' : echoed cs → Forall no_dgram cs' → echoed (cs' ++ cs).
Proof. intros H Hc. unfold echoed. by destruct (no_dgram_hist cs cs' Hc) as (-> & -> & _). Qed.

(** ** The handler *)

(** A datagram stored in the slot at [iput]. *)
Definition put (s : sigio) (p : DG) : sigio :=
  Sigio (aset (dg s) (iput s) p) (cntread s) (iget s)
    (if decide (iput s + 1 >= QSIZE) then 0 else iput s + 1) (nqueue s + 1).

Lemma slot_put_eq s p s' :
  Z.of_nat (length (dg s)) = QSIZE → 0 <= iput s < QSIZE → dg s' = aset (dg s) (iput s) p →
  slot s' (iput s) = dgram p.
Proof. intros Hl Hi Hd. unfold slot. rewrite Hd, aget_aset_eq by lia. done. Qed.

Lemma slot_put_ne s p s' i :
  dg s' = aset (dg s) (iput s) p → i ≠ iput s → slot s' i = slot s i.
Proof. intros Hd Hi. unfold slot. by rewrite Hd, aget_aset_ne by done. Qed.

(** [recvfrom] into the next slot, before and after the slot is counted. *)
Lemma ring_inv_put b k s cs p data sa s' :
  ring_inv b k s cs → (k <= Z.to_nat (nqueue s))%nat → nqueue s < QSIZE →
  dgram p = (data, sa) → K cs (Crecvfrom sockfd MAXDG) = ROk (data, sa) →
  s' = put s p → ring_inv b k s' (Crecvfrom sockfd MAXDG :: cs).
Proof.
  intros [Hdg Hcnt Hb Hn Hput (done & Hr & Hs)] Hk Hlt Hp HK ->.
  assert (Hi : 0 <= iput s < QSIZE) by (rewrite Hput; apply Z.mod_pos_bound; done).
  assert (Hring : ring b (nqueue s + 1) (put s p) = ring b (nqueue s) s ++ [(data, sa)]).
  { unfold ring. rewrite ringl_snoc by lia. f_equal.
    - apply ringl_ext. intros i Hir. apply slot_put_ne with p; [done|]. rewrite Hput.
      by apply ring_apart.
    - rewrite <-Hput, <-Hp. f_equal. by apply slot_put_eq. }
  split; simpl; rewrite ?aset_length; try done.
  - lia.
  - rewrite wrap_mod, Hput by done. rewrite Z.add_mod_idemp_l by done. f_equal. lia.
  - exists done. rewrite Hring. unfold rcvd_step, sent_step.
    rewrite decide_True, HK, Hr, Hs, app_nil_r by done. rewrite app_assoc. split; [done|].
    by rewrite take_app_le by (unfold ring; rewrite ringl_len; lia).
Qed.

(** The failing [recvfrom] has still stored [clilen] in the free slot. *)
Lemma ring_inv_salen b k s cs p cnt e :
  ring_inv b k s cs → nqueue s < QSIZE → Z.of_nat (length cnt) = QSIZE + 1 →
  K cs (Crecvfrom sockfd MAXDG) = RErr e →
  ring_inv b k (Sigio (aset (dg s) (iput s) p) cnt (iget s) (iput s) (nqueue s))
    (Crecvfrom sockfd MAXDG :: cs).
Proof.
  intros [Hdg Hcnt Hb Hn Hput (done & Hr & Hs)] Hlt Hc HK.
  split; simpl; rewrite ?aset_length; try done. exists done.
  unfold ring. rewrite (ringl_ext _ _ (slot s)).
  - unfold rcvd_step, sent_step. by rewrite decide_True, HK, Hr, Hs, !app_nil_r.
  - intros i Hi. apply slot_put_ne with p; [done|]. rewrite Hput. apply ring_apart; lia.
Qed.

Context (fuel : nat) (clilen : Z) (Hfuel : (QSIZE < Z.of_nat fuel)%Z).

(** The handler leaves [iget] alone, sends nothing and leaves room in the ring,
    or stops the program. *)
Lemma wp_sig_io b k s w (Q : outcome sigio → world → Prop) :
  ring_inv b k s (w_calls w) → (k <= Z.to_nat (nqueue s))%nat →
  (∀ s' w', ring_inv b k s' (w_calls w') → (k <= Z.to_nat (nqueue s'))%nat →
     nqueue s <= nqueue s' < QSIZE → iget s' = iget s →
     dgs_sent (w_calls w') = dgs_sent (w_calls w) →
     suspends (w_calls w') = suspends (w_calls w) → Q (Val s') w') →
  (∀ w', echoed (w_calls w') → Q (Exit 1) w') →
  wp K (sig_io fuel sockfd clilen s) w Q.
Proof.
  intros Hinv Hk HQ Hex. unfold sig_io.
  apply (wp_iter_total K (λ '(nread, s1) w1,
    ring_inv b k s1 (w_calls w1) ∧ nread = nqueue s1 - nqueue s ∧ 0 <= nread ∧
    iget s1 = iget s ∧ dgs_sent (w_calls w1) = dgs_sent (w_calls w) ∧
    suspends (w_calls w1) = suspends (w_calls w))
    (λ '(_, s1), Z.to_nat (QSIZE - nqueue s1))).
  { split_and!; [done|lia..|done|done|done]. }
  { pose proof (ri_n _ _ _ _ Hinv). unfold QSIZE in *. lia. }
  intros [nread s1] w1 (Hinv1 & -> & Hpos & Hig & Hsent & Hsus).
  case_decide as Hfull.
  { apply wp_err_quit. intros cs Hcs. apply Hex. simpl. eapply echoed_calls; [|by apply report_no_dgram].
    by eapply ring_inv_echoed. }
  assert (Hi : 0 <= iput s1 < QSIZE) by (rewrite (ri_put _ _ _ _ Hinv1); by apply Z.mod_pos_bound).
  destruct (aget (dg s1) (iput s1)) as [ptr|] eqn:Hptr.
  2:{ exfalso. unfold aget in Hptr. rewrite decide_True in Hptr by lia.
      apply lookup_ge_None in Hptr. pose proof (ri_dg _ _ _ _ Hinv1). lia. }
  do 3 wp_step.
  assert (Haset : ∀ x y, aset (aset (dg s1) (iput s1) x) (iput s1) y = aset (dg s1) (iput s1) y).
  { intros x y. unfold aset. rewrite !decide_True by lia. apply list_insert_insert_eq. }
  destruct (K (w_calls w1) (Crecvfrom sockfd MAXDG)) as [[data sa]|e] eqn:HK; cbn [bind_post].
  - wp_step. rewrite Haset.
    assert (Hd : dgram (Dg (overwrite (dg_data ptr) data) (Z.of_nat (length data)) sa (sa_len sa))
                 = (data, sa)).
    { unfold dgram, overwrite. simpl. by rewrite Nat2Z.id, take_app_length. }
    split; [split_and!|].
    + eapply ring_inv_put; [exact Hinv1|lia|lia|exact Hd|exact HK|done].
    + simpl. lia.
    + lia.
    + done.
    + simpl. unfold sent_step. by rewrite app_nil_r.
    + done.
    + simpl. lia.
  - do 2 wp_step. wp_if.
    + destruct (aget (cntread s1) (nqueue s1 - nqueue s)) as [n|] eqn:Hcnt.
      2:{ exfalso. unfold aget in Hcnt. rewrite decide_True in Hcnt by lia.
          apply lookup_ge_None in Hcnt. pose proof (ri_cnt _ _ _ _ Hinv1).
          pose proof (ri_n _ _ _ _ Hinv). unfold QSIZE in *. lia. }
      wp_step. apply HQ; simpl.
      * eapply ring_inv_salen; [done|lia| |exact HK].
        rewrite aset_length. apply (ri_cnt _ _ _ _ Hinv1).
      * lia.
      * lia.
      * done.
      * unfold sent_step. by rewrite app_nil_r.
      * done.
    + apply wp_err_sys. intros cs Hcs. apply Hex. cbn [w_calls].
      apply report_no_dgram in Hcs. eapply echoed_calls; [|done].
      apply ring_inv_salen with (p := ptr) (cnt := cntread s1) (e := e) in Hinv1;
        [|lia|apply Hinv1|done].
      by eapply ring_inv_echoed.
Qed.

(** Any number of deliveries. *)
Lemma wp_deliver b k s w (Q : outcome sigio → world → Prop) :
  ring_inv b k s (w_calls w) → (k <= Z.to_nat (nqueue s))%nat → nqueue s < QSIZE →
  (∀ s' w', ring_inv b k s' (w_calls w') → (k <= Z.to_nat (nqueue s'))%nat →
     nqueue s <= nqueue s' < QSIZE → iget s' = iget s →
     dgs_sent (w_calls w') = dgs_sent (w_calls w) → Q (Val s') w') →
  (∀ w', echoed (w_calls w') → Q (Exit 1) w') →
  wp K (deliver fuel sockfd clilen s) w Q.
Proof.
  intros Hinv Hk Hlt HQ Hex. unfold deliver. do 2 wp_step. generalize (K (w_calls w) (Cdeliver SIGIO)).
  intros n.
  assert (Hinv0 : ring_inv b k s (Cdeliver SIGIO :: w_calls w))
    by (apply (ring_inv_calls b k s _ [_] Hinv); by repeat constructor).
  assert (Hs0 : dgs_sent (Cdeliver SIGIO :: w_calls w) = dgs_sent (w_calls w)) by apply app_nil_r.
  rewrite <-Hs0 in HQ. clear Hs0 Hinv.
  change (Cdeliver SIGIO :: w_calls w)
    with (w_calls (World (Cdeliver SIGIO :: w_calls w) (w_errno w) (w_daemon w))) in HQ, Hinv0.
  revert HQ Hinv0. generalize (World (Cdeliver SIGIO :: w_calls w) (w_errno w) (w_daemon w)).
  clear w. revert s Hk Hlt. induction n as [|n IH]; intros s Hk Hlt w HQ Hinv0; simpl.
  - wp_step. apply HQ; (done || lia).
  - wp_step. apply wp_sig_io with b k; [done|done| |done].
    intros s1 w1 Hinv1 Hk1 Hn1 Hig1 Hs1 _. simpl. apply IH; [done|lia| |done].
    intros s2 w2 Hinv2 Hk2 Hn2 Hig2 Hs2. apply HQ; [done|done|lia|congruence|congruence].
Qed.

Lemma wp_sigsuspend set b s w (Q : outcome sigio → world → Prop) :
  ring_inv b 0 s (w_calls w) → nqueue s < QSIZE →
  (∀ s' w', ring_inv b 0 s' (w_calls w') → nqueue s <= nqueue s' < QSIZE →
     iget s' = iget s → dgs_sent (w_calls w') = dgs_sent (w_calls w) →
     suspends (w_calls w') = S (suspends (w_calls w)) → Q (Val s') w') →
  (∀ w', echoed (w_calls w') → Q (Exit 1) w') →
  wp K (sigsuspend fuel sockfd clilen set s) w Q.
Proof.
  intros Hinv Hlt HQ Hex. unfold sigsuspend. do 2 wp_step.
  set (w1 := World _ _ _).
  assert (Hinv1 : ring_inv b 0 s (w_calls w1)).
  { destruct Hinv as [H1 H2 H3 H4 H5 (hist & Hr & Hs)]. split; try done. exists hist.
    split; [rewrite <-Hr|rewrite <-Hs]; apply app_nil_r. }
  assert (Hs1 : dgs_sent (w_calls w1) = dgs_sent (w_calls w)) by apply app_nil_r.
  assert (Hu1 : suspends (w_calls w1) = S (suspends (w_calls w))) by done.
  clearbody w1. wp_if; [|wp_if].
  - apply wp_sig_io with b 0%nat; [done|lia| |done].
    intros s2 w2 Hinv2 _ Hn2 Hig2 Hs2 Hu2. apply HQ; [done|done|done|congruence|congruence].
  - wp_step. unfold sig_hup.
    apply (wp_for_each K (λ _ _ w2, ∃ cs, Forall no_dgram cs ∧ w_calls w2 = cs ++ w_calls w1)).
    + by exists [].
    + intros x l' [] w2 (cs & Hcs & Hw2). unfold printf, void. do 3 wp_step. cbn [bind_post w_calls].
      rewrite Hw2. exists (Cfputs stdout
        (str "cntread[" ++ fmt_d x ++ str "] = " ++ fmt_d (nth (Z.to_nat x) (cntread s) 0)
         ++ [ch_nl]) :: cs). split; [by constructor|done].
    + intros [] w2 (cs & Hcs & Hw2). cbn [bind_post]. wp_step.
      destruct (no_dgram_hist (w_calls w1) cs Hcs) as (Hr2 & Hs2 & Hu2).
      apply HQ; rewrite ?Hw2; [by apply ring_inv_calls|lia|done|congruence|congruence].
  - wp_step. apply HQ; [done|lia|done|done|done].
Qed.

Lemma ring_inv_iget b k s i cs :
  ring_inv b k s cs →
  ring_inv b k (Sigio (dg s) (cntread s) i (iput s) (nqueue s)) cs.
Proof. intros [H1 H2 H3 H4 H5 H6]. by split. Qed.

Lemma ring_inv_send b s cs d sa :
  ring_inv b 0 s cs → 0 < nqueue s → slot s b = (d, sa) →
  K cs (Csendto sockfd d sa) = ROk (Z.of_nat (length d)) →
  ring_inv b 1 s (Csendto sockfd d sa :: cs) ∧
  dgs_sent (Csendto sockfd d sa :: cs) = dgs_sent cs ++ [(d, sa)].
Proof.
  intros [H1 H2 Hb H4 H5 (done & Hr & Hs)] Hn Hsl HK.
  assert (Hsent : dgs_sent (Csendto sockfd d sa :: cs) = dgs_sent cs ++ [(d, sa)]).
  { simpl. unfold sent_step. by rewrite decide_True, HK, decide_True. }
  split; [|done]. split; try done. exists done. rewrite Hsent, Hs.
  split; [simpl; unfold rcvd_step; by rewrite app_nil_r|].
  unfold ring. by rewrite ringl_cons, Hsl, take_0, app_nil_r.
Qed.

Lemma ring_inv_next b s cs :
  ring_inv b 1 s cs → 0 < nqueue s →
  ring_inv ((b + 1) mod QSIZE) 0
    (Sigio (dg s) (cntread s) (iget s) (iput s) (nqueue s - 1)) cs.
Proof.
  intros [H1 H2 Hb H4 H5 (done & Hr & Hs)] Hn. unfold ring in Hr, Hs. rewrite ringl_cons in Hr, Hs by done.
  split; simpl; try done.
  - by apply Z.mod_pos_bound.
  - lia.
  - rewrite H5, Z.add_mod_idemp_l by done. f_equal. lia.
  - exists (done ++ [slot s b]). rewrite <-!app_assoc. by split.
Qed.

(** ** The main loop *)

Context (zeromask newmask oldmask : Z).

Lemma wp_plain_call {A} msg (c : call) (f : ans c = res A) w (Q : outcome A → world → Prop) :
  no_dgram c →
  (∀ a w', w_calls w' = c :: w_calls w → Q (Val a) w') →
  (∀ cs w', Forall no_dgram cs → w_calls w' = cs ++ w_calls w → Q (Exit 1) w') →
  wp K (or_err_sys msg (eq_rect _ M (sys c) _ f)) w Q.
Proof.
  intros Hc HQ Hex. apply wp_or_err_sys.
  assert (H : ∀ B (e : ans c = B) (P : outcome B → world → Prop),
    (∀ a w', w_calls w' = c :: w_calls w → P (Val a) w') → wp K (eq_rect _ M (sys c) _ e) w P).
  { intros B e P HP. destruct e. simpl. wp_step. by apply HP. }
  apply H. intros [a|e] w' Hw'; simpl; [by apply HQ|].
  intros cs Hcs. apply Hex with (cs ++ [c]); [|simpl; by rewrite Hw', <-app_assoc].
  apply Forall_app. split; [by apply report_no_dgram|by constructor].
Qed.

(** A point between two rounds: SIGIO is blocked. *)
Definition loop_inv (n : nat) (s : sigio) (w : world) : Prop :=
  ring_inv (iget s) 0 s (w_calls w) ∧ nqueue s < QSIZE ∧
  (n <= length (dgs_sent (w_calls w)))%nat.

Definition stop_post (o : outcome unit) (w : world) : Prop :=
  echoed (w_calls w) ∧
  match o with
  | Val _ | Aborted => False
  | Exit c => c = 1
  | Diverge => (fuel <= length (dgs_sent (w_calls w)))%nat ∨ (fuel <= suspends (w_calls w))%nat
  end.

(** The wait for a datagram. *)
Lemma wp_wait n s w (Q : outcome sigio → world → Prop) :
  loop_inv n s w →
  (∀ s' w', loop_inv n s' w' → 0 < nqueue s' → Q (Val s') w') →
  (∀ w', echoed (w_calls w') → Q (Exit 1) w') →
  (∀ w', echoed (w_calls w') → (fuel <= suspends (w_calls w'))%nat → Q Diverge w') →
  wp K (iter fuel (λ s,
        if decide (nqueue s = 0) then
          s ← sigsuspend fuel sockfd clilen zeromask s; mret (inl s)
        else mret (inr s)) s) w Q.
Proof.
  intros Hinv HQ Hex Hdiv.
  apply (wp_iter_count K (λ k s1 w1, loop_inv n s1 w1 ∧ (k <= suspends (w_calls w1))%nat)).
  - split; [done|lia].
  - intros k s1 w1 [(Hi & Hlt & Hn) Hk]. wp_if.
    + wp_step. apply wp_sigsuspend with (iget s1); [done|done| |done].
      intros s2 w2 Hi2 Hn2 Hig Hs Hu. simpl. wp_step.
      split; [|lia]. split_and!; [by rewrite Hig|lia|by rewrite Hs].
    + wp_step. apply HQ; [done|]. pose proof (ri_n _ _ _ _ Hi). lia.
  - intros s1 w1 [(Hi & _ & _) Hk]. apply Hdiv; [by eapply ring_inv_echoed|done].
Qed.

Lemma wp_procmask how set oset w (Q : outcome unit → world → Prop) :
  (∀ w', w_calls w' = Csigset (So_procmask how set oset) :: w_calls w → Q (Val tt) w') →
  (∀ cs w', Forall no_dgram cs → w_calls w' = cs ++ w_calls w → Q (Exit 1) w') →
  wp K (Sigprocmask how set oset) w Q.
Proof.
  intros HQ Hex. unfold Sigprocmask, void. wp_step.
  apply (wp_plain_call _ (Csigset (So_procmask how set oset)) eq_refl); [done| |done].
  intros a w' Hw'. simpl. wp_step. by apply HQ.
Qed.

Lemma ring_inv_stop b k s w cs w' :
  ring_inv b k s (w_calls w) → Forall no_dgram cs → w_calls w' = cs ++ w_calls w →
  echoed (w_calls w').
Proof. intros Hi Hcs ->. eapply ring_inv_echoed, ring_inv_calls; done. Qed.

Lemma wp_Sendto d sa b s w (Q : outcome unit → world → Prop) :
  ring_inv b 0 s (w_calls w) → 0 < nqueue s → slot s b = (d, sa) →
  (∀ w', ring_inv b 1 s (w_calls w') →
     dgs_sent (w_calls w') = dgs_sent (w_calls w) ++ [(d, sa)] → Q (Val tt) w') →
  (∀ w', echoed (w_calls w') → Q (Exit 1) w') →
  wp K (Sendto sockfd d sa) w Q.
Proof.
  intros Hi Hn Hsl HQ Hex. unfold Sendto, all_or_err_sys. do 3 wp_step.
  assert (Hfail : ∀ cs e b', Forall report_call cs →
    (∀ m, K (w_calls w) (Csendto sockfd d sa) = ROk m → m ≠ Z.of_nat (length d)) →
    Q (Exit 1) (World (cs ++ Csendto sockfd d sa :: w_calls w) e b')).
  { intros cs e b' Hcs Hm. apply Hex. simpl. apply echoed_calls; [|by apply report_no_dgram].
    apply ring_inv_echoed in Hi. unfold echoed in *. simpl. unfold rcvd_step, sent_step.
    rewrite decide_True by done. destruct (K _ _) as [m|]; [|by rewrite !app_nil_r].
    rewrite decide_False by (by apply Hm). by rewrite !app_nil_r. }
  destruct (K (w_calls w) (Csendto sockfd d sa)) as [m|e] eqn:HK; cbn [bind_post].
  - wp_if.
    + apply wp_err_sys. intros cs Hcs. apply Hfail; [done|]. by intros ? [= <-].
    + wp_step. destruct (decide (m = Z.of_nat (length d))) as [->|]; [|done].
      destruct (ring_inv_send b s _ d sa Hi Hn Hsl HK). by apply HQ.
  - apply wp_err_sys. intros cs Hcs. by apply Hfail.
Qed.

Lemma wp_sigio_round n s w :
  loop_inv n s w →
  wp K (sigio_round fuel sockfd clilen zeromask newmask oldmask s) w
    (bind_post (λ r w', match r with
                  | inl s' => loop_inv (S n) s' w' | inr x => stop_post (Val x) w' end)
       stop_post).
Proof.
  intros Hinv. unfold sigio_round. wp_step. apply wp_wait with n; [done| | |].
  2:{ by intros w' He. } 2:{ intros w' He Hu. split; [done|by right]. }
  clear s w Hinv. intros s w (Hi & Hlt & Hn) Hq. cbn [bind_post]. wp_step.
  apply wp_procmask; [|intros cs w' Hcs Hw'; split; [by eapply ring_inv_stop|done]].
  intros w1 Hw1. cbn [bind_post]. wp_step.
  assert (Hi1 : ring_inv (iget s) 0 s (w_calls w1)).
  { rewrite Hw1. by apply (ring_inv_calls _ _ _ _ [_]); [|repeat constructor]. }
  assert (Hn1 : (n <= length (dgs_sent (w_calls w1)))%nat).
  { rewrite Hw1. simpl. unfold sent_step. by rewrite app_nil_r. }
  clear Hw1 Hi Hn w.
  apply wp_deliver with (iget s) 0%nat; [done|lia|lia| |by intros w' He].
  intros s2 w2 Hi2 _ Hn2 Hig2 Hs2. cbn [bind_post]. rewrite <-Hig2 in Hi2.
  destruct (aget (dg s2) (iget s2)) as [ptr|] eqn:Hptr.
  2:{ exfalso. pose proof (ri_b _ _ _ _ Hi2). unfold aget in Hptr. rewrite decide_True in Hptr by lia.
      apply lookup_ge_None in Hptr. pose proof (ri_dg _ _ _ _ Hi2). lia. }
  wp_step. apply wp_Sendto with (iget s2) s2; [done|lia| | |by intros w' He].
  { unfold slot. by rewrite Hptr. }
  intros w3 Hi3 Hs3. cbn [bind_post]. wp_step.
  apply wp_deliver with (iget s2) 1%nat; [done|lia|lia| |by intros w' He].
  intros s4 w4 Hi4 Hk4 Hn4 Hig4 Hs4. cbn [bind_post]. wp_step.
  apply wp_deliver with (iget s2) 1%nat; [by apply ring_inv_iget|done|simpl; lia| |by intros w' He].
  intros s5 w5 Hi5 Hk5 Hn5 Hig5 Hs5. cbn [bind_post]. simpl in Hn5, Hig5. wp_step.
  apply wp_procmask; [|intros cs w' Hcs Hw'; split; [by eapply ring_inv_stop|done]].
  intros w6 Hw6. cbn [bind_post]. wp_step. cbn [bind_post]. unfold loop_inv. simpl.
  assert (Hb : 0 <= iget s2 < QSIZE) by apply Hi2.
  rewrite Hig5, Hig4, wrap_mod by done. rewrite Hw6. split_and!; [|lia|].
  - apply (ring_inv_calls _ _ _ _ [_]); [|by repeat constructor].
    apply ring_inv_next in Hi5; [|lia]. by rewrite Hig5, Hig4, wrap_mod in Hi5.
  - simpl. unfold sent_step. rewrite app_nil_r, Hs5, Hs4, Hs3, length_app, Hs2. simpl. lia.
Qed.

(** The initialisation: nothing is lost if a signal arrives before the loop. *)
Definition init_inv (s : sigio) (w : world) : Prop := ring_inv 0 0 s (w_calls w) ∧ nqueue s < QSIZE ∧ iget s = 0.

Lemma wp_init_call {A} msg (c : call) (f : ans c = res A) s w (Q : outcome A → world → Prop) :
  no_dgram c → init_inv s w →
  (∀ a w', init_inv s w' → Q (Val a) w') →
  (∀ w', echoed (w_calls w') → Q (Exit 1) w') →
  wp K (or_err_sys msg (eq_rect _ M (sys c) _ f)) w Q.
Proof.
  intros Hc (Hi & Hn & Hig) HQ Hex. apply wp_plain_call; [done| |].
  - intros a w' Hw'. apply HQ. split; [|done]. rewrite Hw'.
    apply (ring_inv_calls _ _ _ _ [_]); [done|by constructor].
  - intros cs w' Hcs Hw'. apply Hex. by eapply ring_inv_stop.
Qed.

Lemma wp_init_void {A} msg (c : call) (f : ans c = res A) s w (Q : outcome unit → world → Prop) :
  no_dgram c → init_inv s w →
  (∀ w', init_inv s w' → Q (Val tt) w') →
  (∀ w', echoed (w_calls w') → Q (Exit 1) w') →
  wp K (void (or_err_sys msg (eq_rect _ M (sys c) _ f))) w Q.
Proof.
  intros Hc Hi HQ Hex. unfold void. wp_step. apply wp_init_call with s; [done|done| |done].
  intros a w' Hw'. simpl. wp_step. by apply HQ.
Qed.

Lemma wp_init_deliver s w (Q : outcome sigio → world → Prop) :
  init_inv s w → (∀ s' w', init_inv s' w' → Q (Val s') w') →
  (∀ w', echoed (w_calls w') → Q (Exit 1) w') →
  wp K (deliver fuel sockfd clilen s) w Q.
Proof.
  intros (Hi & Hn & Hig) HQ Hex. apply wp_deliver with 0 0%nat; [done|lia|done| |done].
  intros s' w' Hi' _ Hn' Hig' _. apply HQ. split; [done|]. split; [lia|congruence].
Qed.

Lemma wp_init_signal signo func s w (Q : outcome handler → world → Prop) :
  init_inv s w → (∀ a w', init_inv s w' → Q (Val a) w') →
  (∀ w', echoed (w_calls w') → Q (Exit 1) w') →
  wp K (Signal signo func) w Q.
Proof.
  intros (Hi & Hn & Hig) HQ Hex. apply wp_Signal.
  - intros h _. apply HQ. split; [|done]. apply (ring_inv_calls _ _ _ _ [_]); [done|by constructor].
  - intros e cs w' _ Hcs Hw'. apply Hex. apply ring_inv_stop with (cs := cs ++
      [Csigaction signo (if decide (signo = SIGALRM) then SA_INTERRUPT else SA_RESTART) func])
      (w' := w') in Hi; [done| |by rewrite Hw', <-app_assoc].
    apply Forall_app. split; [by apply report_no_dgram|by constructor].
Qed.

(** The allocation of the slots, before anything is received. *)
Lemma wp_init_slots mem0 w (Q : outcome (list DG) → world → Prop) :
  dgs_rcvd (w_calls w) = dgs_sent (w_calls w) →
  (∀ dg w', init_inv (Sigio dg (repeat 0 (Z.to_nat (QSIZE + 1))) 0 0 0) w' → Q (Val dg) w') →
  (∀ w', echoed (w_calls w') → Q (Exit 1) w') →
  wp K (for_each (seqZ 0 QSIZE) (λ _ dg,
         Malloc MAXDG;;
         Malloc clilen;;
         mret (dg ++ [Dg mem0 0 (SaOther 0) clilen])) []) w Q.
Proof.
  intros Heq HQ Hex.
  assert (Hone : ∀ n w1 (P : outcome Z → world → Prop), dgs_rcvd (w_calls w1) = dgs_sent (w_calls w1) →
    (∀ a w2, dgs_rcvd (w_calls w2) = dgs_sent (w_calls w2) → P (Val a) w2) →
    (∀ w2, echoed (w_calls w2) → P (Exit 1) w2) → wp K (Malloc n) w1 P).
  { intros n w1 P H1 HP HPe. apply (wp_plain_call _ (Cmalloc n) eq_refl); [done| |].
    - intros a w2 Hw2. apply HP. rewrite Hw2. simpl. unfold rcvd_step, sent_step. by rewrite H1.
    - intros cs w2 Hcs Hw2. apply HPe. rewrite Hw2. apply echoed_calls; [|done].
      unfold echoed, QSIZE. rewrite H1. split; [done|lia]. }
  apply (wp_for_each K (λ l dg w1, dgs_rcvd (w_calls w1) = dgs_sent (w_calls w1) ∧
    (length l + length dg = 8)%nat)).
  - done.
  - intros x l dg w1 [H1 Hl]. wp_step. apply Hone; [done| |done].
    intros ? w2 H2. simpl. wp_step. apply Hone; [done| |done].
    intros ? w3 H3. simpl. wp_step. split; [done|]. rewrite length_app. simpl in *. lia.
  - intros dg w1 [H1 Hl]. apply HQ. split; [|done]. split; simpl in *; try done.
    + rewrite Hl. done.
    + exists (dgs_rcvd (w_calls w1)).
      split; [|rewrite H1]; symmetry; apply app_nil_r.
Qed.

(** One call of the initialisation, by its lemma. *)
Tactic Notation "init_step" uconstr(H) :=
  wp_step; eapply H; first [exact I|eassumption|idtac];
  try (intros; cbn [bind_post]).

Lemma wp_init_getpid s w (Q : outcome Z → world → Prop) :
  init_inv s w → (∀ a w', init_inv s w' → Q (Val a) w') → wp K (sys Cgetpid) w Q.
Proof.
  intros [Hi ?] HQ. wp_step. apply HQ. split; [|done].
  by apply (ring_inv_calls _ _ _ _ [_]); [|constructor].
Qed.

Lemma wp_sigio_dg_echo mem0 w :
  dgs_rcvd (w_calls w) = dgs_sent (w_calls w) →
  wp K (sigio_dg_echo fuel sockfd clilen zeromask newmask oldmask mem0) w stop_post.
Proof.
  intros Heq.
  assert (Hex : ∀ w1, echoed (w_calls w1) → stop_post (Exit 1) w1) by (intros w1 H1; by split).
  unfold sigio_dg_echo. wp_step. apply wp_init_slots; [done| |done].
  intros dg w1 H1. cbn [bind_post]. revert H1.
  generalize (Sigio dg (repeat 0 (Z.to_nat (QSIZE + 1))) 0 0 0). intros s H1.
  do 2 init_step wp_init_signal. init_step wp_init_deliver.
  init_step wp_init_getpid.
  init_step (wp_init_call (str "fcntl error") (Cfcntl sockfd F_SETOWN _) eq_refl).
  init_step wp_init_deliver.
  init_step (wp_init_call (str "ioctl error") (Cioctl sockfd FIOASYNC 1) eq_refl).
  init_step wp_init_deliver.
  init_step (wp_init_call (str "ioctl error") (Cioctl sockfd FIONBIO 1) eq_refl).
  init_step wp_init_deliver.
  init_step (wp_init_void (str "sigemptyset error") (Csigset (So_empty zeromask)) eq_refl).
  init_step (wp_init_void (str "sigemptyset error") (Csigset (So_empty oldmask)) eq_refl).
  init_step (wp_init_void (str "sigemptyset error") (Csigset (So_empty newmask)) eq_refl).
  init_step (wp_init_void (str "sigaddset error") (Csigset (So_add newmask SIGIO)) eq_refl).
  init_step wp_init_deliver.
  init_step (wp_init_void (str "sigprocmask error")
    (Csigset (So_procmask SIG_BLOCK newmask oldmask)) eq_refl).
  match goal with H : init_inv ?s ?w |- wp _ (iter _ _ ?s) ?w _ => destruct H as (Hi & Hn & Hig) end.
  apply (wp_iter_count K loop_inv).
  - split; [by rewrite Hig|]. split; [done|lia].
  - intros n s1 w3 Hw3. by apply wp_sigio_round.
  - intros s1 w3 (Hi3 & _ & Hn3). split; [by eapply ring_inv_echoed|by left].
Qed.
End sigio_spec.


(** C11: wherever the SIGIO handler interrupts the server, the datagrams sent are
    the first of those received, in the order of arrival and each to its own
    sender, and at most [QSIZE] of them wait; the server stops only with an
    error message, never writes outside its arrays, and otherwise goes on until
    it has sent as many datagrams, or waited as many times, as its fuel. *)
Theorem sigio_dg_echo_spec (K : kernel) fuel sockfd clilen zeromask newmask oldmask mem0 w :
  QSIZE < Z.of_nat fuel →
  dgs_rcvd K sockfd (w_calls w) = dgs_sent K sockfd (w_calls w) →
  let '(o, w') := sigio_dg_echo fuel sockfd clilen zeromask newmask oldmask mem0 K w in
  echoed K sockfd (w_calls w') ∧
  match o with
  | Val _ | Aborted => False
  | Exit c => c = 1
  | Diverge => (fuel <= length (dgs_sent K sockfd (w_calls w')))%nat ∨
               (fuel <= suspends (w_calls w'))%nat
  end.
Proof.
  intros Hfuel Heq.
  enough (H : wp K (sigio_dg_echo fuel sockfd clilen zeromask newmask oldmask mem0) w
                (stop_post K sockfd fuel)).
  { unfold wp, stop_post in H. by destruct (sigio_dg_echo _ _ _ _ _ _ _ K w). }
  by apply wp_sigio_dg_echo.
Qed.

(** Datagrams arrive according to a script, [None] being the empty socket
    buffer, and SIGIO at every point where it can. *)
Fixpoint count_recvfrom (cs : list call) : nat :=
  match cs with
  | [] => 0
  | Crecvfrom _ _ :: cs' => S (count_recvfrom cs')
  | _ :: cs' => count_recvfrom cs'
  end.

Definition sigio_kernel (script : list (option (list Z * sockaddr))) : kernel := λ cs c,
  match c as c return ans c with
  | Crecvfrom _ _ =>
      match nth (count_recvfrom cs) script None with
      | Some p => ROk p
      | None => RErr EWOULDBLOCK
      end
  | Csendto _ d _ => ROk (Z.of_nat (length d))
  | Cdeliver _ => 1%nat
  | Csigsuspend _ => SIGIO
  | Cmalloc _ | Cfcntl _ _ _ | Cioctl _ _ _ | Csigset _ => ROk 0
  | Csigaction _ _ _ => ROk SIG_DFL
  | c => default_ans c
  end.

Lemma sigio_dg_echo_spec_witness :
  let K := sigio_kernel [None; Some (str "a", SaUn (str "x")); None; Some (str "b", SaUn (str "y"))] in
  let '(o, w') := sigio_dg_echo 9 3 110 1 2 3 [] K (World [] 0 false) in
  echoed K 3 (w_calls w') ∧
  match o with
  | Val _ | Aborted => False
  | Exit c => c = 1
  | Diverge => (9 <= length (dgs_sent K 3 (w_calls w')))%nat ∨
               (9 <= suspends (w_calls w'))%nat
  end.
Proof. apply (sigio_dg_echo_spec _ 9 3 110 1 2 3 [] (World [] 0 false)); [unfold QSIZE; lia|done]. Defined.

Definition empty_ring (sa : sockaddr) (clilen : Z) : sigio :=
  Sigio (repeat (Dg [] 0 sa clilen) 8) (repeat 0 9) 0 0 0.
Definition after_handler (fuel : nat) (sockfd clilen : Z) (sa : sockaddr) (script : list (option (list Z * sockaddr)))
    : outcome sigio :=
  (sig_io fuel sockfd clilen (empty_ring sa clilen) (sigio_kernel script) (World [] 0 false)).1.

(** The ring of [QSIZE] slots cannot be filled: a handler that finds exactly
    as many datagrams as there are free slots stops the server with the overflow
    message, although every datagram fits; with one fewer it returns. *)
Theorem sig_io_full fuel sockfd clilen sa d :
  (10 <= fuel)%nat →
  after_handler fuel sockfd clilen sa (repeat (Some (d, sa)) 8) = Exit 1 ∧
  match after_handler fuel sockfd clilen sa (repeat (Some (d, sa)) 7) with
  | Val s => nqueue s = 7 ∧ cntread s = [0; 0; 0; 0; 0; 0; 0; 1; 0]
  | _ => False
  end.
Proof.
  intros Hf. do 10 (destruct fuel as [|fuel]; [lia|]). clear Hf. split.
  - vm_compute. reflexivity.
  - vm_compute. split; reflexivity.
Qed.

Lemma sig_io_full_witness :
  after_handler 10 3 16 (SaUn []) (repeat (Some ([], SaUn [])) 8) = Exit 1.
Proof. destruct (sig_io_full 10 3 16 (SaUn []) []) as [H _]; [lia|]. exact H. Defined.
