(* ===== verification/Server.v ===== *)
(** [server/]: the iterative, concurrent, preforked and prethreaded servers of
    the same protocol (a client asks for a number of bytes), the locks they use
    around [accept], and their client.

    Each program is one process or one thread; the threads of [serv08.c], which
    share a ring of descriptors, are in [Pool]. *)

From S2P Require Import Prelude Net Sys Error Wrap Io Connect TcpServ SelectCli.

(** * The request: web_child.c, web_child_r.c *)

Definition MAXN : Z := 16384.

(** [atol] saturates; its result is stored in an [int]. *)
Definition atol (s : list Z) : Z := sat64 (atoi s).

(** The [Readline] that a program is linked with: the one of the library, whose
    buffer is static, or for the programs with threads that of [readline.c] of
    this directory, which has none. *)
Definition readline_fun : Type := rline → Z → Z → M (rline * Z * list Z).
Definition Readline_unbuffered : readline_fun := λ st fd maxlen,
  '(n, buf) ← Readline1 fd maxlen; mret (st, n, buf).

(** [result] is what the automatic array contains. *)
Definition web_child (fuel : nat) (rdl : readline_fun) (result : list Z) (st : rline)
    (sockfd : Z) : M rline :=
  iter fuel (λ st,
    '(st, nread, line) ← rdl st sockfd MAXLINE;
    if decide (nread = 0) then mret (inr st)
    else
      let ntowrite := s32 (atol (c_str line)) in
      if decide (ntowrite <= 0 ∨ ntowrite > MAXN) then
        err_quit (str "client request for " ++ fmt_d ntowrite ++ str " bytes")
      else Writen fuel sockfd (take (Z.to_nat ntowrite) result);; mret (inl st)) st.

(** The bytes of [line] after a call: those stored, then what was there. *)
Definition web_child_r (fuel : nat) (result line : list Z) (sockfd : Z) : M unit :=
  iter fuel (λ '(rline, line),
    '(rline, nread, buf) ← Readline_r fuel rline;
    let line := overwrite line buf in
    if decide (nread = 0) then mret (inr tt)
    else
      let ntowrite := s32 (atol (c_str line)) in
      if decide (ntowrite <= 0 ∨ ntowrite > MAXN) then
        err_quit (str "client request for " ++ fmt_d ntowrite ++ str " bytes")
      else Writen fuel sockfd (take (Z.to_nat ntowrite) result);; mret (inl (rline, line)))
    (readline_rinit sockfd MAXLINE, line).

(** * Locks around accept *)

Definition F_SETLKW : Z := 7.
Definition F_WRLCK : Z := 1.
Definition F_UNLCK : Z := 2.

(** [lock_fcntl.c]: [lock_fd]; [strncpy] into an array of 1024. *)
Definition my_lock_init (pathname : list Z) : M Z :=
  let lock_file := take 1024 pathname in
  '(lock_fd, lock_file) ← Mkstemp lock_file;
  Unlink lock_file;;
  mret lock_fd.

Definition my_lock_wait (fuel : nat) (lock_fd : Z) : M unit :=
  iter fuel (λ _ : unit,
    r ← checked (sys (Clock lock_fd F_SETLKW F_WRLCK));
    match r with
    | ROk _ => mret (inr tt)
    | RErr _ =>
        errno ← get_errno;
        if decide (errno = EINTR) then mret (inl tt)
        else err_sys (str "fcntl error for my_lock_wait")
    end) tt.

Definition my_lock_release (lock_fd : Z) : M unit :=
  or_err_sys (str "fcntl error for my_lock_release") (sys (Clock lock_fd F_SETLKW F_UNLCK)).

(** [lock_pthread.c]: a mutex in memory shared by the processes; [mattr] is the
    address of the attributes. *)
Definition MAP_SHARED : Z := 1.
Definition PTHREAD_PROCESS_SHARED : Z := 1.

Definition my_lock_init_pthread (mattr : Z) : M Z :=
  fd ← Open (str "/dev/zero") O_RDWR 0;
  mptr ← Mmap 0 40 3 MAP_SHARED fd 0;
  Close fd;;
  Pthread_mutexattr_init mattr;;
  Pthread_mutexattr_setpshared mattr PTHREAD_PROCESS_SHARED;;
  Pthread_mutex_init mptr mattr;;
  mret mptr.
Definition my_lock_wait_pthread (mptr : Z) : M unit := Pthread_mutex_lock mptr.
Definition my_lock_release_pthread (mptr : Z) : M unit := Pthread_mutex_unlock mptr.

(** [meter.c]; [MAP_ANON] is defined. *)
Definition MAP_ANON : Z := 32.
Definition meter (nchildren : Z) : M Z := Mmap 0 (nchildren * 8) 3 (Z.lor MAP_ANON MAP_SHARED) (-1) 0.

(** * Arguments *)

(** [[ <host> ] <port#>] and [more] arguments. *)
Definition listen_argv (more : nat) (usage : list Z) (argv : list (list Z)) : M (Z * Z) :=
  if decide (length argv = 2 + more)%nat then Tcp_listen None (Some (nth 1 argv []))
  else if decide (length argv = 3 + more)%nat then
    Tcp_listen (Some (nth 1 argv [])) (Some (nth 2 argv []))
  else err_quit usage.

Definition last_arg (argv : list (list Z)) : Z := atoi (nth (length argv - 1) argv []).

Definition SIGINT : Z := 2.
Definition ECHILD : Z := 10.

(** [for ( ; ; ) pause();] *)
Definition pause_forever (fuel : nat) : M unit :=
  iter fuel (λ _ : unit, sys Cpause;; mret (inl tt)) tt.

Section servers.
(** [result] is the array of [web_child]; [times] is the text that [printf]
    makes of the two pairs of [double]s of [pr_cpu_time]. *)
Context (fuel : nat) (result : list Z) (times : (Z * Z) * (Z * Z) → (Z * Z) * (Z * Z) → list Z).

(** [pr_cpu_time.c] *)
Definition RUSAGE_SELF : Z := 0.
Definition RUSAGE_CHILDREN : Z := -1.
Definition pr_cpu_time : M unit :=
  myusage ← or_err_sys (str "getrusage error") (sys (Cgetrusage RUSAGE_SELF));
  childusage ← or_err_sys (str "getrusage error") (sys (Cgetrusage RUSAGE_CHILDREN));
  printf (times myusage childusage).

Definition sig_int : M unit := pr_cpu_time;; exit 0.

(** [while (wait(NULL) > 0) ; if (errno != ECHILD) err_sys("wait error");] *)
Definition wait_all : M unit :=
  iter fuel (λ _ : unit,
    r ← checked (sys Cwait);
    match r with
    | ROk (pid, _) => if decide (pid > 0) then mret (inl tt) else mret (inr tt)
    | RErr _ => mret (inr tt)
    end) tt;;
  errno ← get_errno;
  if decide (errno ≠ ECHILD) then err_sys (str "wait error") else mret tt.

Definition kill_children (pids : list Z) : M unit :=
  for_each pids (λ pid _, void (checked (sys (Ckill pid SIGTERM)))) tt;;
  wait_all.

Definition sig_int_children (pids : list Z) : M unit :=
  kill_children pids;;
  pr_cpu_time;;
  exit 0.

Definition print_counts (who : list Z) (counts : list Z) : M unit :=
  for_each (zip (seqZ 0 (Z.of_nat (length counts))) counts) (λ '(i, n) _,
    printf (who ++ str " " ++ fmt_d i ++ str ", " ++ fmt_d n ++ str " connections" ++ [ch_nl])) tt.

(** The metered servers and [serv05.c] print the connections of each child. *)
Definition sig_int_metered (pids counts : list Z) : M unit :=
  kill_children pids;;
  pr_cpu_time;;
  print_counts (str "child") counts;;
  exit 0.

Definition sig_int_threads (counts : list Z) : M unit :=
  pr_cpu_time;;
  print_counts (str "thread") counts;;
  exit 0.

(** * One process, one process per client: serv00.c, serv01.c, serv06.c *)

Definition serv00 (argv : list (list Z)) : M unit :=
  '(listenfd, addrlen) ← listen_argv 0 (str "usage: serv00 [ <host> ] <port#>") argv;
  Malloc addrlen;;
  Signal SIGINT (Handler "sig_int");;
  iter fuel (λ st,
    '(connfd, _) ← Accept fuel listenfd;
    st ← web_child fuel (Readline fuel) result st connfd;
    Close connfd;;
    mret (inl st)) (Rline 0 []).

Definition serv01_sig_chld : M unit :=
  iter fuel (λ _ : unit,
    r ← checked (sys (Cwaitpid (-1) WNOHANG));
    match r with
    | ROk (pid, _) => if decide (pid > 0) then mret (inl tt) else mret (inr tt)
    | RErr _ => mret (inr tt)
    end) tt.

Definition serv01 (argv : list (list Z)) : M unit :=
  '(listenfd, addrlen) ← listen_argv 0 (str "usage: serv01 [ <host> ] <port#>") argv;
  Malloc addrlen;;
  Signal SIGCHLD (Handler "sig_chld");;
  Signal SIGINT (Handler "sig_int");;
  accept_loop fuel (λ connfd, void (web_child fuel (Readline fuel) result (Rline 0 []) connfd)) listenfd.

(** A new thread per client: the main thread, and the function of the others. *)
Definition serv06 (argv : list (list Z)) : M unit :=
  '(listenfd, addrlen) ← listen_argv 0 (str "usage: serv06 [ <host> ] <port#>") argv;
  Malloc addrlen;;
  Signal SIGINT (Handler "sig_int");;
  iter fuel (λ _ : unit,
    '(connfd, _) ← Accept fuel listenfd;
    Pthread_create 0 "doit" connfd;;
    mret (inl tt)) tt.

Definition serv06_doit (st : rline) (arg : Z) : M rline :=
  tid ← sys Cpthread_self;
  Pthread_detach tid;;
  st ← web_child fuel Readline_unbuffered result st arg;
  Close arg;;
  mret st.

(** * Preforked processes: serv02.c, serv03.c, serv04.c *)

Section prefork.
(** The lock that the children take around [accept], and the counter of the
    metered versions. *)
Context (lock unlock : M unit) (count : Z → M unit).

Definition child_main (i listenfd addrlen : Z) : M unit :=
  Malloc addrlen;;
  pid ← sys Cgetpid;
  printf (str "child " ++ fmt_d pid ++ str " starting" ++ [ch_nl]);;
  iter fuel (λ st,
    lock;;
    '(connfd, _) ← Accept fuel listenfd;
    unlock;;
    count i;;
    st ← web_child fuel (Readline fuel) result st connfd;
    Close connfd;;
    mret (inl st)) (Rline 0 []).

(** The process that goes on after [Fork] is the child or the parent; the child
    does not return. *)
Definition child_make (i listenfd addrlen : Z) : M Z :=
  pid ← Fork;
  if decide (pid > 0) then mret pid
  else child_main i listenfd addrlen;; abort.

Definition make_children (nchildren listenfd addrlen : Z) : M (list Z) :=
  for_each (seqZ 0 nchildren) (λ i pids,
    pid ← child_make i listenfd addrlen;
    mret (pids ++ [pid])) [].
End prefork.

Definition no_lock : M unit := mret tt.
Definition no_count (i : Z) : M unit := mret tt.

Definition serv02 (argv : list (list Z)) : M unit :=
  '(listenfd, addrlen) ←
    listen_argv 1 (str "usage: serv02 [ <host> ] <port#> <#children>") argv;
  let nchildren := last_arg argv in
  Calloc nchildren 4;;
  make_children no_lock no_lock no_count nchildren listenfd addrlen;;
  Signal SIGINT (Handler "sig_int");;
  pause_forever fuel.

(** [child02l.c]: [select] before [accept]. *)
Definition select_first (listenfd : Z) : M unit :=
  '(rset, _) ← Select_sets (listenfd + 1) {[listenfd]} ∅;
  if decide (listenfd ∉ rset) then err_quit (str "listenfd readable") else mret tt.

Definition child02l_make (i listenfd addrlen : Z) : M Z :=
  child_make (select_first listenfd) no_lock no_count i listenfd addrlen.

(** The counters of [serv02m.c] and [child02m.c] are in shared memory. *)
Definition serv02m (count : Z → M unit) (argv : list (list Z)) : M unit :=
  '(listenfd, addrlen) ←
    listen_argv 1 (str "usage: serv02 [ <host> ] <port#> <#children>") argv;
  let nchildren := last_arg argv in
  Calloc nchildren 4;;
  meter nchildren;;
  make_children no_lock no_lock count nchildren listenfd addrlen;;
  Signal SIGINT (Handler "sig_int");;
  pause_forever fuel.

Definition serv03 (argv : list (list Z)) : M unit :=
  '(listenfd, addrlen) ←
    listen_argv 1 (str "usage: serv03 [ <host> ] <port#> <#children>") argv;
  let nchildren := last_arg argv in
  Calloc nchildren 4;;
  lock_fd ← my_lock_init (str "/tmp/lock.XXXXXX");
  make_children (my_lock_wait fuel lock_fd) (my_lock_release lock_fd) no_count
    nchildren listenfd addrlen;;
  Signal SIGINT (Handler "sig_int");;
  pause_forever fuel.

Definition serv04 (mattr : Z) (argv : list (list Z)) : M unit :=
  '(listenfd, addrlen) ←
    listen_argv 1 (str "usage: serv04 [ <host> ] <port#> <#children>") argv;
  let nchildren := last_arg argv in
  Calloc nchildren 4;;
  mptr ← my_lock_init_pthread mattr;
  make_children (my_lock_wait_pthread mptr) (my_lock_release_pthread mptr) no_count
    nchildren listenfd addrlen;;
  Signal SIGINT (Handler "sig_int");;
  pause_forever fuel.

(** * Descriptor passing: serv05.c, child05.c *)

Record child := Child {
  child_pid : Z;
  child_pipefd : Z;
  child_status : Z;
  child_count : Z
}.

Definition child05_main : M unit :=
  pid ← sys Cgetpid;
  printf (str "child " ++ fmt_d pid ++ str " starting" ++ [ch_nl]);;
  iter fuel (λ st,
    '(n, _, connfd) ← Read_fd STDERR_FILENO 1;
    (if decide (n = 0) then err_quit (str "read_fd returned 0") else mret tt);;
    match connfd with
    | None => abort
    | Some connfd =>
        (if decide (connfd < 0) then err_quit (str "no descriptor from read_fd")
         else mret tt);;
        st ← web_child fuel (Readline fuel) result st connfd;
        Close connfd;;
        Write STDERR_FILENO [0];;
        mret (inl st)
    end) (Rline 0 []).

Definition child05_make (i listenfd addrlen : Z) : M child :=
  '(sockfd0, sockfd1) ← Socketpair AF_LOCAL SOCK_STREAM 0;
  pid ← Fork;
  if decide (pid > 0) then
    Close sockfd1;;
    mret (Child pid sockfd0 0 0)
  else
    Dup2 sockfd1 STDERR_FILENO;;
    Close sockfd0;;
    Close sockfd1;;
    Close listenfd;;
    child05_main;;
    abort.

(** The locals of the parent; [masterset] does not change in the loop. *)
Record preserv := Preserv { cptr : list child; navail : Z }.

(** [for (i = 0; i < nchildren; i++) if (cptr[i].child_status == 0) break;] *)
Definition find_avail (l : list child) : option (nat * child) :=
  list_find (λ c, child_status c = 0) l.

Definition serv05_accept (listenfd : Z) (s : preserv) : M preserv :=
  '(connfd, _) ← Accept fuel listenfd;
  match find_avail (cptr s) with
  | None => err_quit (str "no available children")
  | Some (i, c) =>
      let s := Preserv (<[i := Child (child_pid c) (child_pipefd c) 1 (child_count c + 1)]> (cptr s))
                 (navail s - 1) in
      Write_fd (child_pipefd c) [0] connfd;;
      Close connfd;;
      mret s
  end.

(** The children that are ready again, [idx] being the indices left. *)
Fixpoint serv05_ready (idx : list nat) (rset : gset Z) (nsel : Z) (s : preserv) : M preserv :=
  match idx with
  | [] => mret s
  | i :: idx' =>
      match cptr s !! i with
      | None => abort
      | Some c =>
          if decide (child_pipefd c ∈ rset) then
            rc ← Read (child_pipefd c) 1;
            (if decide (length rc = 0%nat) then
               err_quit (str "child " ++ fmt_d (Z.of_nat i) ++ str " terminated unexpectedly")
             else mret tt);;
            let s := Preserv (<[i := Child (child_pid c) (child_pipefd c) 0 (child_count c)]> (cptr s))
                       (navail s + 1) in
            if decide (nsel - 1 = 0) then mret s
            else serv05_ready idx' rset (nsel - 1) s
          else serv05_ready idx' rset nsel s
      end
  end.

Definition serv05_round (listenfd maxfd : Z) (masterset : gset Z) (s : preserv)
    : M (preserv + unit) :=
  let rset := if decide (navail s <= 0) then masterset ∖ {[listenfd]} else masterset in
  '(nsel, rset, _) ← Select (maxfd + 1) rset ∅ None;
  let idx := seq 0 (length (cptr s)) in
  if decide (listenfd ∈ rset) then
    s ← serv05_accept listenfd s;
    if decide (nsel - 1 = 0) then mret (inl s)
    else s ← serv05_ready idx rset (nsel - 1) s; mret (inl s)
  else s ← serv05_ready idx rset nsel s; mret (inl s).

Definition serv05 (argv : list (list Z)) : M unit :=
  '(listenfd, addrlen) ←
    listen_argv 1 (str "usage: serv05 [ <host> ] <port#> <#children>") argv;
  Malloc addrlen;;
  let nchildren := last_arg argv in
  Calloc nchildren 24;;
  '(cptr, masterset, maxfd) ← for_each (seqZ 0 nchildren) (λ i '(cptr, masterset, maxfd),
    c ← child05_make i listenfd addrlen;
    mret (cptr ++ [c], {[child_pipefd c]} ∪ masterset, Z.max maxfd (child_pipefd c)))
    ([], {[listenfd]}, listenfd);
  Signal SIGINT (Handler "sig_int");;
  iter fuel (serv05_round listenfd maxfd masterset) (Preserv cptr nchildren).

(** * Prethreaded: serv07.c, serv09.c *)

(** The function of thread [arg], and its element of [tptr]; [serv09.c] calls
    [accept] without the mutex. *)
Definition thread_main (lock unlock : M unit) (listenfd addrlen arg : Z) : M unit :=
  Malloc addrlen;;
  printf (str "thread " ++ fmt_d arg ++ str " starting" ++ [ch_nl]);;
  iter fuel (λ '(st, thread_count),
    lock;;
    '(connfd, _) ← Accept fuel listenfd;
    unlock;;
    let thread_count := thread_count + 1 in
    st ← web_child fuel Readline_unbuffered result st connfd;
    Close connfd;;
    mret (inl (st, thread_count))) (Rline 0 [], 0).

Definition pthread07_main (mlock listenfd addrlen arg : Z) : M unit :=
  thread_main (Pthread_mutex_lock mlock) (Pthread_mutex_unlock mlock) listenfd addrlen arg.
Definition pthread09_main (listenfd addrlen arg : Z) : M unit :=
  thread_main no_lock no_lock listenfd addrlen arg.

Definition thread_make (i : Z) : M unit := Pthread_create 0 "thread_main" i.

Definition prethreaded (usage : list Z) (argv : list (list Z)) : M unit :=
  '(listenfd, addrlen) ← listen_argv 1 usage argv;
  let nthreads := last_arg argv in
  Calloc nthreads 16;;
  for_each (seqZ 0 nthreads) (λ i _, thread_make i) tt;;
  Signal SIGINT (Handler "sig_int");;
  pause_forever fuel.

Definition serv07 (argv : list (list Z)) : M unit :=
  prethreaded (str "usage: serv07 [ <host> ] <port#> <#threads>") argv.
Definition serv09 (argv : list (list Z)) : M unit :=
  prethreaded (str "usage: serv09 [ <host> ] <port#> <#threads>") argv.

(** * client.c, clientrst.c *)

Definition client_exchange (fd nbytes : Z) (request : list Z) : M unit :=
  Write fd request;;
  '(n, _) ← Readn fuel fd nbytes;
  (if decide (n ≠ nbytes) then err_quit (str "server returned " ++ fmt_d n ++ str " bytes")
   else mret tt);;
  Close fd.

(** [before i j fd] is what [clientrst.c] does with the connection first. *)
Definition client_main (before : Z → Z → Z → M Z) (argv : list (list Z)) : M unit :=
  if decide (length argv ≠ 6%nat) then
    err_quit (str "usage: client <hostname or IPaddr> <port> <#children> "
              ++ str "<#loops/child> <#bytes/request>")
  else
    let arg k := nth k argv [] in
    let nchildren := atoi (arg 3%nat) in
    let nloops := atoi (arg 4%nat) in
    let nbytes := atoi (arg 5%nat) in
    let request := fmt_d nbytes ++ [ch_nl] in
    for_each (seqZ 0 nchildren) (λ i _,
      pid ← Fork;
      if decide (pid = 0) then
        for_each (seqZ 0 nloops) (λ j _,
          fd ← Tcp_connect (Some (arg 1%nat)) (Some (arg 2%nat));
          fd ← before i j fd;
          client_exchange fd nbytes request) tt;;
        printf (str "child " ++ fmt_d i ++ str " done" ++ [ch_nl]);;
        exit 0
      else mret tt) tt;;
    wait_all;;
    exit 0.

Definition client (argv : list (list Z)) : M unit := client_main (λ _ _ fd, mret fd) argv.

Definition clientrst (argv : list (list Z)) : M unit :=
  client_main (λ i j fd,
    if decide (i = 2 ∧ Z.rem j 3 = 0) then
      Setsockopt fd SOL_SOCKET SO_LINGER linger_rst;;
      Close fd;;
      Tcp_connect (Some (nth 1 argv [])) (Some (nth 2 argv []))
    else mret fd) argv.
End servers.
