(* ===== verification/ServerSpec.v ===== *)
(** Properties of [Server]: the parent of [serv05.c] gives every connection it
    accepts to one child, which is idle, and the child answers once for each
    descriptor it is passed. *)

From S2P Require Import Prelude Net Sys Error Wrap Io IoSpec Connect ConnectSpec TcpServ.
From S2P Require Import TcpServSpec SelectCli SelectCliSpec Server.

(** * The table of children *)

(** The children that are ready. *)
Definition avail (l : list child) : Z := count (λ c, child_status c = 0) l.

Lemma avail_pos l : 0 < avail l → ∃ i c, find_avail l = Some (i, c).
Proof.
  intros H. unfold find_avail.
  destruct (list_find (λ c, child_status c = 0) l) as [[i c]|] eqn:Hf; [eauto|].
  apply list_find_None in Hf. apply count_pos in H as (i & c & Hi & Hc).
  rewrite Forall_lookup in Hf. by destruct (Hf i c Hi).
Qed.

(** * Histories *)

Section serv05.
Context (K : kernel) (listenfd : Z) (pipes : list Z).

Definition given_step (fd : Z) (cs : list call) (c : call) : nat :=
  match c as c return ans c → nat with
  | Csendmsg fd' _ _ _ => λ a, if decide (fd' = fd) then
                                 match a with ROk _ => 1 | RErr _ => 0 end
                               else 0
  | _ => λ _, 0
  end%nat (K cs c).

Definition freed_step (fd : Z) (cs : list call) (c : call) : nat :=
  match c as c return ans c → nat with
  | Cread fd' _ => λ a, if decide (fd' = fd) then
                          match a with ROk (_ :: _) => 1 | _ => 0 end
                        else 0
  | _ => λ _, 0
  end%nat (K cs c).

(** The connections passed on a pipe, and the answers read from it. *)
Fixpoint given (fd : Z) (cs : list call) : nat :=
  match cs with [] => 0 | c :: cs' => given fd cs' + given_step fd cs' c end.
Fixpoint freed (fd : Z) (cs : list call) : nat :=
  match cs with [] => 0 | c :: cs' => freed fd cs' + freed_step fd cs' c end.

(** The connections accepted and passed, the oldest first. *)
Definition taken_step (cs : list call) (c : call) : list Z :=
  match c as c return ans c → list Z with
  | Caccept _ => λ a, match a with ROk (n, _) => [n] | RErr _ => [] end
  | _ => λ _, []
  end (K cs c).
Definition passed_step (cs : list call) (c : call) : list Z :=
  match c as c return ans c → list Z with
  | Csendmsg _ _ _ (Some cm) => λ a, match a with ROk _ => [cmsg_fd cm] | RErr _ => [] end
  | _ => λ _, []
  end (K cs c).
Fixpoint taken (cs : list call) : list Z :=
  match cs with [] => [] | c :: cs' => taken cs' ++ taken_step cs' c end.
Fixpoint passed (cs : list call) : list Z :=
  match cs with [] => [] | c :: cs' => passed cs' ++ passed_step cs' c end.

(** The children follow [child05_main]: they write one byte for a connection. *)
Class KernelChildren : Prop :=
  child_answers cs fd n l :
    fd ∈ pipes → K cs (Cread fd n) = ROk l → l ≠ [] → (freed fd cs < given fd cs)%nat.

(** Every call of [accept] was made when some child was idle. *)
Definition accepts_ok (cs : list call) : Prop :=
  ∀ l1 l2, cs = l1 ++ Caccept listenfd :: l2 →
    ∃ fd, fd ∈ pipes ∧ given fd l2 = freed fd l2.

(** What is true whenever the parent stops or goes on. *)
Definition handed (cs : list call) : Prop :=
  (∀ fd, fd ∈ pipes → (freed fd cs <= given fd cs <= S (freed fd cs))%nat) ∧
  passed cs `prefix_of` taken cs ∧
  (length (taken cs) <= S (length (passed cs)))%nat ∧
  accepts_ok cs.

Definition other_call (c : call) : Prop :=
  match c with Cread _ _ | Csendmsg _ _ _ _ | Caccept _ => False | _ => True end.

Lemma other_hist cs cs' :
  Forall other_call cs' →
  (∀ fd, given fd (cs' ++ cs) = given fd cs ∧ freed fd (cs' ++ cs) = freed fd cs) ∧
  taken (cs' ++ cs) = taken cs ∧ passed (cs' ++ cs) = passed cs ∧
  (accepts_ok cs → accepts_ok (cs' ++ cs)).
Proof.
  induction 1 as [|c cs' Hc _ (IH1 & IH2 & IH3 & IH4)]; [done|].
  assert (Hz : (∀ fd, given_step fd (cs' ++ cs) c = 0%nat ∧ freed_step fd (cs' ++ cs) c = 0%nat)
    ∧ taken_step (cs' ++ cs) c = [] ∧ passed_step (cs' ++ cs) c = []) by (destruct c; done).
  destruct Hz as (Hz1 & Hz2 & Hz3). simpl. rewrite Hz2, Hz3, IH2, IH3, !app_nil_r.
  split_and!; try done.
  - intros fd. destruct (Hz1 fd) as [-> ->], (IH1 fd) as [-> ->]. by rewrite !Nat.add_0_r.
  - intros Ha l1 l2 Heq. destruct l1 as [|c1 l1]; injection Heq as -> Heq; [done|].
    by apply (IH4 Ha l1).
Qed.

Lemma report_other cs : Forall report_call cs → Forall other_call cs.
Proof. intros H. eapply Forall_impl; [exact H|]. by intros []. Qed.

Lemma handed_other cs cs' : handed cs → Forall other_call cs' → handed (cs' ++ cs).
Proof.
  intros (H1 & H2 & H3 & H4) Ho. destruct (other_hist cs cs' Ho) as (Hgf & Ht & Hp & Ha).
  unfold handed. rewrite Ht, Hp. split_and!; try done; [|by apply Ha].
  intros fd Hfd. destruct (Hgf fd) as [-> ->]. by apply H1.
Qed.

(** ** The invariant of the loop *)

Record pre_inv (s : preserv) (cs : list call) : Prop := {
  pre_pipes : map child_pipefd (cptr s) = pipes;
  pre_child i c : cptr s !! i = Some c →
    (child_status c = 0 ∨ child_status c = 1) ∧
    Z.of_nat (given (child_pipefd c) cs) = Z.of_nat (freed (child_pipefd c) cs) + child_status c;
  pre_avail : navail s = avail (cptr s);
  pre_taken : passed cs = taken cs;
  pre_accepts : accepts_ok cs
}.

Lemma pre_inv_handed s cs : pre_inv s cs → handed cs.
Proof.
  intros [Hp Hc _ Ht Ha]. split_and!; [|by rewrite Ht|by rewrite Ht; lia|done].
  intros fd Hfd. rewrite <-Hp in Hfd. apply list_elem_of_fmap in Hfd as (c & -> & Hin).
  apply list_elem_of_lookup in Hin as [i Hi]. destruct (Hc i c Hi) as [[Hs|Hs] Hg]; rewrite Hs in Hg; lia.
Qed.

Lemma pre_inv_other s cs cs' : pre_inv s cs → Forall other_call cs' → pre_inv s (cs' ++ cs).
Proof.
  intros [Hp Hc Hv Ht Ha] Ho. destruct (other_hist cs cs' Ho) as (Hgf & Htk & Hps & Hac).
  split; try done; rewrite ?Htk, ?Hps; try done; [|by apply Hac].
  intros i c Hi. destruct (Hgf (child_pipefd c)) as [-> ->]. by apply (Hc i).
Qed.

(** ** Accepting a connection *)

Lemma find_avail_idle s cs i c :
  pre_inv s cs → find_avail (cptr s) = Some (i, c) →
  cptr s !! i = Some c ∧ child_status c = 0 ∧ child_pipefd c ∈ pipes ∧
  given (child_pipefd c) cs = freed (child_pipefd c) cs.
Proof.
  intros Hinv Hf. apply list_find_Some in Hf as (Hi & Hs & _).
  destruct (pre_child _ _ Hinv i c Hi) as [_ Hg]. split; [done|]. split; [done|]. split; [|lia].
  rewrite <-(pre_pipes _ _ Hinv). apply list_elem_of_fmap_2. by eapply list_elem_of_lookup_2.
Qed.

(** The history grows by an [accept] at an idle moment. *)
Lemma handed_accept s cs :
  pre_inv s cs → 0 < avail (cptr s) →
  handed (Caccept listenfd :: cs) ∧
  (∀ fd, given fd (Caccept listenfd :: cs) = given fd cs ∧
         freed fd (Caccept listenfd :: cs) = freed fd cs) ∧
  accepts_ok (Caccept listenfd :: cs).
Proof.
  intros Hinv Hav. destruct (avail_pos _ Hav) as (i & c & Hf).
  destruct (find_avail_idle _ _ _ _ Hinv Hf) as (Hi & Hs & Hin & Hg).
  assert (Hgf : ∀ fd, given fd (Caccept listenfd :: cs) = given fd cs ∧
                      freed fd (Caccept listenfd :: cs) = freed fd cs).
  { intros fd. simpl. unfold given_step, freed_step. by rewrite !Nat.add_0_r. }
  assert (Hacc : accepts_ok (Caccept listenfd :: cs)).
  { intros l1 l2 Heq. destruct l1 as [|c1 l1]; simplify_eq/=.
    - by exists (child_pipefd c).
    - by apply (pre_accepts _ _ Hinv l1). }
  split; [|done]. destruct (pre_inv_handed _ _ Hinv) as (H1 & _). unfold handed.
  simpl taken. simpl passed. unfold taken_step, passed_step. rewrite app_nil_r, (pre_taken _ _ Hinv).
  split_and!; [|by apply prefix_app_r| |done].
  - intros fd Hfd. destruct (Hgf fd) as [-> ->]. by apply H1.
  - rewrite length_app. destruct (K cs (Caccept listenfd)) as [[n sa]|e]; simpl; lia.
Qed.

Lemma attempts_pre s cs k :
  pre_inv s cs → 0 < avail (cptr s) →
  (∀ i, (i < k)%nat → ∃ e, K (attempts listenfd i cs) (Caccept listenfd) = RErr e) →
  pre_inv s (attempts listenfd k cs).
Proof.
  intros Hinv Hav. induction k as [|k IH]; intros Hall; [done|].
  assert (IHk : pre_inv s (attempts listenfd k cs)) by (apply IH; intros i Hi; apply Hall; lia).
  destruct (Hall k) as [e He]; [lia|]. destruct (handed_accept _ _ IHk Hav) as (_ & Hgf & Hacc).
  change (attempts listenfd (S k) cs) with (Caccept listenfd :: attempts listenfd k cs).
  destruct IHk as [Hp Hc Hv Ht Ha]. split; try done.
  - intros i c Hi. destruct (Hgf (child_pipefd c)) as [-> ->]. by apply (Hc i).
  - simpl. unfold passed_step, taken_step. rewrite He, !app_nil_r. done.
Qed.

(** The parent gives the connection to the idle child [i]. *)
Lemma pre_inv_give s cs i c connfd n :
  NoDup pipes → pre_inv s cs → find_avail (cptr s) = Some (i, c) →
  K cs (Caccept listenfd) = ROk (connfd, n) →
  let cs1 := Caccept listenfd :: cs in
  let send := Csendmsg (child_pipefd c) [0] None
                (Some (Cmsg (CMSG_LEN sizeof_int) SOL_SOCKET SCM_RIGHTS connfd)) in
  let s' := Preserv (<[i := Child (child_pid c) (child_pipefd c) 1 (child_count c + 1)]> (cptr s))
              (navail s - 1) in
  match K cs1 send with
  | ROk _ => pre_inv s' (send :: cs1)
  | RErr _ => handed (send :: cs1)
  end.
Proof.
  intros Hnd Hinv Hf HK. cbn zeta. pose proof (find_avail_idle _ _ _ _ Hinv Hf) as (Hi & Hs & Hin & Hg).
  assert (Hav : 0 < avail (cptr s)).
  { pose proof (count_insert (λ c, child_status c = 0) _ _ _ (Child 0 0 1 0) Hi) as Ha.
    cbn beta in Ha. rewrite Hs in Ha. simpl in Ha. pose proof (count_nonneg (λ c, child_status c = 0)
      (<[i:=Child 0 0 1 0]> (cptr s))). unfold avail. lia. }
  destruct (handed_accept _ _ Hinv Hav) as (Hh & Hgf & Hacc).
  set (cs1 := Caccept listenfd :: cs) in *. set (send := Csendmsg _ _ _ _).
  assert (Htk : taken (send :: cs1) = taken cs ++ [connfd]).
  { simpl. unfold taken_step. by rewrite HK, app_nil_r. }
  assert (Hps1 : passed cs1 = passed cs) by apply app_nil_r.
  assert (Hps : passed (send :: cs1) =
    passed cs ++ match K cs1 send with ROk _ => [connfd] | RErr _ => [] end).
  { change (passed (send :: cs1)) with (passed cs1 ++ passed_step cs1 send). by rewrite Hps1. }
  assert (Hac2 : accepts_ok (send :: cs1)).
  { intros l1 l2 Heq. destruct l1 as [|c1 l1]; [done|]. injection Heq as _ Heq.
    by apply (Hacc l1). }
  assert (Hfr : ∀ fd, freed fd (send :: cs1) = freed fd cs).
  { intros fd. destruct (Hgf fd) as [_ <-]. simpl. by rewrite Nat.add_0_r. }
  assert (Hgv : ∀ fd, given fd (send :: cs1) = (given fd cs +
    if decide (child_pipefd c = fd) then match K cs1 send with ROk _ => 1 | RErr _ => 0 end else 0)%nat).
  { intros fd. destruct (Hgf fd) as [<- _]. done. }
  destruct (K cs1 send) as [m|e] eqn:HK1.
  - split; simpl cptr; simpl navail.
    + rewrite <-(pre_pipes _ _ Hinv). apply list_eq. intros j. rewrite !list_lookup_fmap.
      destruct (decide (j = i)) as [->|Hne].
      * rewrite list_lookup_insert_eq by (by eapply lookup_lt_Some). by rewrite Hi.
      * by rewrite list_lookup_insert_ne.
    + intros j c' Hj. rewrite Hfr, Hgv. destruct (decide (j = i)) as [->|Hne].
      * rewrite list_lookup_insert_eq in Hj by (by eapply lookup_lt_Some). injection Hj as <-. simpl.
        rewrite decide_True by done. split; [by right|lia].
      * rewrite list_lookup_insert_ne in Hj by done.
        destruct (pre_child _ _ Hinv j c' Hj) as [Hst Hgj].
        rewrite decide_False; [split; [done|lia]|]. intros Heq. apply Hne.
        rewrite <-(pre_pipes _ _ Hinv) in Hnd. apply (NoDup_lookup _ j i (child_pipefd c') Hnd);
          rewrite list_lookup_fmap; [by rewrite Hj|by rewrite Hi, <-Heq].
    + unfold avail. rewrite (count_insert _ _ _ _ _ Hi). cbn beta. rewrite Hs, (pre_avail _ _ Hinv). simpl. unfold avail. lia.
    + by rewrite Hps, Htk, (pre_taken _ _ Hinv).
    + done.
  - destruct Hh as (H1 & H2 & H3 & _). unfold handed. split_and!; [| | |done].
    + intros fd Hfd. rewrite Hfr, Hgv. destruct (Hgf fd) as [Hg1 Hg2]. specialize (H1 fd Hfd).
      rewrite Hg1, Hg2 in H1. case_decide; lia.
    + rewrite Hps, Htk, app_nil_r, (pre_taken _ _ Hinv). by apply prefix_app_r.
    + rewrite Hps, Htk, app_nil_r, (pre_taken _ _ Hinv), length_app. simpl. lia.
Qed.

(** ** An answer of a child *)

Lemma read_hist fd n cs :
  (∀ fd', given fd' (Cread fd n :: cs) = given fd' cs) ∧
  (∀ fd', freed fd' (Cread fd n :: cs) = (freed fd' cs +
     if decide (fd = fd') then match K cs (Cread fd n) with ROk (_ :: _) => 1 | _ => 0 end else 0)%nat) ∧
  taken (Cread fd n :: cs) = taken cs ∧ passed (Cread fd n :: cs) = passed cs ∧
  (accepts_ok cs → accepts_ok (Cread fd n :: cs)).
Proof.
  split_and!; try done.
  - apply app_nil_r.
  - apply app_nil_r.
  - intros Ha l1 l2 Heq. destruct l1 as [|c1 l1]; [done|]. injection Heq as _ Heq. by apply (Ha l1).
Qed.

Lemma pre_inv_free `{!KernelChildren} s cs i c rc n :
  NoDup pipes → pre_inv s cs → cptr s !! i = Some c →
  K cs (Cread (child_pipefd c) n) = ROk rc → rc ≠ [] →
  pre_inv (Preserv (<[i := Child (child_pid c) (child_pipefd c) 0 (child_count c)]> (cptr s))
             (navail s + 1)) (Cread (child_pipefd c) n :: cs).
Proof.
  intros Hnd Hinv Hi HK Hrc. destruct (read_hist (child_pipefd c) n cs) as (Hgv & Hfr & Htk & Hps & Hac).
  assert (Hin : child_pipefd c ∈ pipes).
  { rewrite <-(pre_pipes _ _ Hinv). apply list_elem_of_fmap_2. by eapply list_elem_of_lookup_2. }
  pose proof (child_answers _ _ _ _ Hin HK Hrc) as Hlt.
  destruct (pre_child _ _ Hinv i c Hi) as [Hst Hg].
  assert (Hs1 : child_status c = 1) by (destruct Hst as [Hs|Hs]; rewrite Hs in Hg; lia).
  split; simpl cptr; simpl navail.
  - rewrite <-(pre_pipes _ _ Hinv). apply list_eq. intros j. rewrite !list_lookup_fmap.
    destruct (decide (j = i)) as [->|Hne].
    + rewrite list_lookup_insert_eq by (by eapply lookup_lt_Some). by rewrite Hi.
    + by rewrite list_lookup_insert_ne.
  - intros j c' Hj. rewrite Hgv, Hfr, HK. destruct (decide (j = i)) as [->|Hne].
    + rewrite list_lookup_insert_eq in Hj by (by eapply lookup_lt_Some). injection Hj as <-. simpl.
      rewrite decide_True by done. split; [by left|]. destruct rc; [done|]. lia.
    + rewrite list_lookup_insert_ne in Hj by done.
      destruct (pre_child _ _ Hinv j c' Hj) as [Hst' Hgj].
      rewrite decide_False; [split; [done|lia]|]. intros Heq. apply Hne.
      rewrite <-(pre_pipes _ _ Hinv) in Hnd. apply (NoDup_lookup _ j i (child_pipefd c') Hnd);
        rewrite list_lookup_fmap; [by rewrite Hj|by rewrite Hi, <-Heq].
  - unfold avail. rewrite (count_insert _ _ _ _ _ Hi). cbn beta. rewrite Hs1, (pre_avail _ _ Hinv). simpl. unfold avail. lia.
  - by rewrite Hps, Htk, (pre_taken _ _ Hinv).
  - by apply Hac, Hinv.
Qed.

(** A read that answers nothing, or fails. *)
Lemma handed_read s cs fd n :
  pre_inv s cs → match K cs (Cread fd n) with ROk (_ :: _) => False | _ => True end →
  handed (Cread fd n :: cs).
Proof.
  intros Hinv HK. destruct (read_hist fd n cs) as (Hgv & Hfr & Htk & Hps & Hac).
  destruct (pre_inv_handed _ _ Hinv) as (H1 & H2 & H3 & H4). unfold handed. rewrite Htk, Hps.
  split_and!; [|done|done|by apply Hac]. intros fd' Hfd'. rewrite Hgv, Hfr.
  specialize (H1 fd' Hfd'). case_decide; [|lia]. destruct (K cs _) as [[|]|]; [lia|done|lia].
Qed.

(** ** The loop *)

Context `{!KernelSelect K, !KernelChildren} (fuel : nat) (Hnd : NoDup pipes).

Definition hand_post (o : outcome unit) (w : world) : Prop :=
  handed (w_calls w) ∧
  match o with Val _ | Aborted => False | Exit c => c = 1 | Diverge => True end.

Lemma wp_serv05_accept s w (Q : outcome preserv → world → Prop) :
  pre_inv s (w_calls w) → 0 < avail (cptr s) →
  (∀ s' w', pre_inv s' (w_calls w') → length (cptr s') = length (cptr s) → Q (Val s') w') →
  (∀ w', handed (w_calls w') → Q (Exit 1) w' ∧ Q Diverge w') →
  wp K (serv05_accept fuel listenfd s) w Q.
Proof.
  intros Hinv Hav HQ Hex. unfold serv05_accept. wp_step. apply wp_Accept.
  - intros k n sa w1 Hw1 HK Hall. cbn [bind_post].
    pose proof (attempts_pre _ _ _ Hinv Hav Hall) as Hk.
    destruct (avail_pos _ Hav) as (i & c & Hf). rewrite Hf.
    pose proof (pre_inv_give _ _ _ _ _ _ Hnd Hk Hf HK) as Hgive. cbn zeta in Hgive.
    change (attempts listenfd (S k) (w_calls w)) with
      (Caccept listenfd :: attempts listenfd k (w_calls w)) in Hw1.
    rewrite <-Hw1 in Hgive.
    unfold Write_fd, write_fd. do 5 wp_step.
    destruct (K (w_calls w1) (Csendmsg (child_pipefd c) [0] None _)) as [m|e];
      cbn [bind_post res_int]; wp_step; cbn [bind_post].
    + wp_if.
      * apply wp_err_sys. intros cs Hcs. apply Hex. cbn [w_calls].
        apply handed_other; [by eapply pre_inv_handed|by apply report_other].
      * wp_step. wp_step. apply wp_or_err_sys. wp_step. destruct (K _ (Cclose n)) as [[]|e].
        -- wp_step. apply HQ; [|apply length_insert].
           by apply (pre_inv_other _ _ [Cclose n]); [|by repeat constructor].
        -- intros cs Hcs. apply Hex. cbn [w_calls].
           change (?a ++ ?b :: ?c) with (a ++ [b] ++ c). rewrite app_assoc.
           apply handed_other; [by eapply pre_inv_handed|].
           apply Forall_app. split; [by apply report_other|by repeat constructor].
    + rewrite decide_True by lia. apply wp_err_sys. intros cs Hcs. apply Hex. cbn [w_calls].
      by apply handed_other, report_other.
  - intros k cs w1 Hall Hcs Hw1. apply Hex. rewrite Hw1. apply handed_other; [|by apply report_other].
    eapply pre_inv_handed, attempts_pre; done.
  - intros k w1 Hall Hw1. apply Hex. rewrite Hw1. eapply pre_inv_handed, attempts_pre; done.
Qed.

Lemma wp_serv05_ready idx rset nsel s w (Q : outcome preserv → world → Prop) :
  pre_inv s (w_calls w) → Forall (λ i, (i < length (cptr s))%nat) idx →
  (∀ s' w', pre_inv s' (w_calls w') → Q (Val s') w') →
  (∀ w', handed (w_calls w') → Q (Exit 1) w') →
  wp K (serv05_ready idx rset nsel s) w Q.
Proof.
  intros Hinv Hidx HQ Hex. revert nsel s w Hinv Hidx.
  induction idx as [|i idx IH]; intros nsel s w Hinv Hidx; simpl; [wp_step; by apply HQ|].
  apply Forall_cons in Hidx as [Hi Hidx]. apply lookup_lt_is_Some in Hi as [c Hi]. rewrite Hi.
  wp_if; [|by apply IH]. wp_step. unfold Read. apply wp_or_err_sys. wp_step.
  destruct (K (w_calls w) (Cread (child_pipefd c) 1)) as [rc|er] eqn:HK; cbn [bind_post].
  - wp_step. wp_if.
    + apply wp_err_quit. intros cs Hcs. apply Hex. cbn [w_calls].
      apply handed_other; [|by apply report_other]. eapply handed_read; [done|]. rewrite HK.
      by destruct rc.
    + wp_step. cbn [bind_post].
      assert (Hrc : rc ≠ []) by (by intros ->).
      pose proof (pre_inv_free _ _ _ _ _ _ Hnd Hinv Hi HK Hrc) as Hfree.
      wp_if; [wp_step; by apply HQ|]. apply IH; [done|]. simpl. by rewrite length_insert.
  - intros cs Hcs. apply Hex. cbn [w_calls]. apply handed_other; [|by apply report_other].
    eapply handed_read; [done|]. by rewrite HK.
Qed.

Lemma wp_serv05_round maxfd masterset s w :
  pre_inv s (w_calls w) →
  wp K (serv05_round fuel listenfd maxfd masterset s) w
    (bind_post (λ r w', match r with inl s' => pre_inv s' (w_calls w') | inr x => False end)
       hand_post).
Proof.
  intros Hinv. unfold serv05_round. wp_step.
  set (rset := if decide (navail s <= 0) then _ else _).
  unfold Select. apply wp_or_err_sys. wp_step.
  assert (Hsub := select_subset (w_calls w) (maxfd + 1) rset ∅ None).
  assert (H1 : pre_inv s (Cselect (maxfd + 1) rset ∅ None :: w_calls w)).
  { by apply (pre_inv_other _ _ [_]); [|by repeat constructor]. }
  destruct (K (w_calls w) (Cselect (maxfd + 1) rset ∅ None)) as [[[nsel r] w2]|e].
  2:{ intros cs Hcs. split; [|done]. cbn [w_calls].
      apply handed_other; [by eapply pre_inv_handed|by apply report_other]. }
  destruct (Hsub _ _ _ eq_refl) as [Hr _]. cbn [bind_post].
  assert (Hidx : ∀ s1, length (cptr s1) = length (cptr s) →
    Forall (λ i, (i < length (cptr s1))%nat) (seq 0 (length (cptr s)))).
  { intros s1 ->. apply Forall_seq. lia. }
  assert (Hh : ∀ w', handed (w_calls w') → hand_post (Exit 1) w' ∧ hand_post Diverge w')
    by (intros w' Hw'; split; by split).
  wp_if.
  - wp_step. apply wp_serv05_accept; [done| | |done].
    + assert (Hl : listenfd ∈ rset) by set_solver. unfold rset in Hl.
      pose proof (pre_avail _ _ Hinv). case_decide; [set_solver|lia].
    + intros s1 w1 Hs1 Hlen. cbn [bind_post]. wp_if; [by wp_step|].
      wp_step. apply wp_serv05_ready; [done|by apply Hidx| |by apply Hh].
      intros s2 w3 Hs2. cbn [bind_post]. by wp_step.
  - wp_step. apply wp_serv05_ready; [done|by apply Hidx| |by apply Hh].
    intros s2 w3 Hs2. cbn [bind_post]. by wp_step.
Qed.
End serv05.

(** C12: the parent of [serv05.c], from any state in which each child has answered
    for every connection it was passed but at most one: it calls [accept] only
    when some child is idle, passes each connection, in the order of acceptance,
    to exactly one child which is idle, and never has two connections
    outstanding at a child; it goes on unless a call fails, and never stops for
    want of a child or outside its table. *)
Theorem serv05_hands_out (K : kernel) listenfd pipes fuel maxfd masterset s w
    `{!KernelSelect K, !KernelChildren K pipes} :
  NoDup pipes → pre_inv K listenfd pipes s (w_calls w) →
  let '(o, w') := iter fuel (serv05_round fuel listenfd maxfd masterset) s K w in
  handed K listenfd pipes (w_calls w') ∧
  match o with
  | Val _ | Aborted => False
  | Exit c => c = 1
  | Diverge => True
  end.
Proof.
  intros Hnd Hinv.
  enough (H : wp K (iter fuel (serv05_round fuel listenfd maxfd masterset) s) w
                (hand_post K listenfd pipes)).
  { unfold wp, hand_post in H. by destruct (iter _ _ _ _ _). }
  apply (wp_iter K (λ s w', pre_inv K listenfd pipes s (w_calls w'))); [done| |].
  - intros s1 w1 H1. eapply wp_mono; [by apply wp_serv05_round|].
    by intros [[s2|x]|c| |] w2.
  - intros s1 w1 H1. split; [by eapply pre_inv_handed|done].
Qed.

(** * The child *)

Section emits_io.
Context (P : call → Prop) (HP : ∀ c, report_call c → P c).

Lemma emits_web_child fuel result st fd :
  (∀ n, P (Cread fd n)) → (∀ d, P (Cwrite fd d)) →
  emits P (web_child fuel (Readline fuel) result st fd).
Proof.
  intros Hr Hw. unfold web_child. emits_tac.
  - by apply emits_Readline.
  - by apply emits_err_quit.
  - by apply emits_Writen.
Qed.
End emits_io.

Section child05.
Context (K : kernel).

(** The descriptors that arrive are new ones. *)
Class KernelPass : Prop :=
  pass_fresh cs n d cm :
    K cs (Crecvmsg STDERR_FILENO n) = ROk (d, Some cm) → cmsg_fd cm ≠ STDERR_FILENO.

Definition got_step (cs : list call) (c : call) : nat :=
  match c as c return ans c → nat with
  | Crecvmsg fd _ => λ a, if decide (fd = STDERR_FILENO) then
                            match a with ROk (_ :: _, _) => 1 | _ => 0 end
                          else 0
  | _ => λ _, 0
  end%nat (K cs c).

(** The connections that a child has been passed, and its answers. *)
Fixpoint got (cs : list call) : nat :=
  match cs with [] => 0 | c :: cs' => got cs' + got_step cs' c end.
Fixpoint answered (cs : list call) : nat :=
  match cs with
  | [] => 0
  | Cwrite fd _ :: cs' => answered cs' + (if decide (fd = STDERR_FILENO) then 1 else 0)
  | _ :: cs' => answered cs'
  end.

Definition quiet_call (c : call) : Prop :=
  match c with
  | Crecvmsg _ _ => False
  | Cwrite fd _ => fd ≠ STDERR_FILENO
  | _ => True
  end.

Lemma quiet_hist cs cs' :
  Forall quiet_call cs' → got (cs' ++ cs) = got cs ∧ answered (cs' ++ cs) = answered cs.
Proof.
  induction 1 as [|c cs' Hc _ [IH1 IH2]]; [done|]. simpl. rewrite IH1.
  destruct c; try done; unfold got_step; rewrite ?Nat.add_0_r; try done.
  rewrite IH2. by rewrite decide_False, Nat.add_0_r.
Qed.

Definition owes (n : nat) (cs : list call) : Prop := got cs = (answered cs + n)%nat.

Lemma owes_quiet n cs cs' : owes n cs → Forall quiet_call cs' → owes n (cs' ++ cs).
Proof. intros H Hq. unfold owes. by destruct (quiet_hist cs cs' Hq) as [-> ->]. Qed.

Lemma report_quiet cs : Forall report_call cs → Forall quiet_call cs.
Proof. intros H. eapply Forall_impl; [exact H|]. by intros []. Qed.

Context `{!KernelPass} (fuel : nat) (result : list Z).

(** The child owes an answer for at most one connection. *)
Definition child_post (o : outcome unit) (w : world) : Prop :=
  (owes 0 (w_calls w) ∨ owes 1 (w_calls w)) ∧ match o with Val _ => False | _ => True end.

Lemma child_post_exit n cs w w' :
  owes n (w_calls w) → (n <= 1)%nat → Forall report_call cs → w_calls w' = cs ++ w_calls w →
  child_post (Exit 1) w'.
Proof.
  intros Ho Hn Hcs Hw'. split; [|done]. rewrite Hw'.
  apply report_quiet in Hcs. destruct n as [|[|]]; [left|right|lia]; by apply owes_quiet.
Qed.

(** What follows [Read_fd], the descriptor being [connfd]. *)
Definition child05_serve (connfd : Z) (st : rline) : M (rline + unit) :=
  (if decide (connfd < 0) then err_quit (str "no descriptor from read_fd") else mret tt);;
  st ← web_child fuel (Readline fuel) result st connfd;
  Close connfd;;
  Write STDERR_FILENO [0];;
  mret (inl st).

Lemma wp_child05_serve connfd st w :
  owes 1 (w_calls w) → connfd ≠ STDERR_FILENO →
  wp K (child05_serve connfd st) w
    (bind_post (λ r w', match r with inl _ => owes 0 (w_calls w') | inr _ => False end) child_post).
Proof.
  intros Ho Hfd. unfold child05_serve. wp_step. wp_if.
  { apply wp_err_quit. intros cs Hcs. by eapply child_post_exit. }
  do 2 wp_step.
  eapply (wp_emits _ quiet_call).
  { apply emits_web_child; [|done|done]. intros c Hc. by destruct c. }
  intros o cs w1 Hcs Hw1.
  assert (Ho1 : owes 1 (w_calls w1)) by (rewrite Hw1; by apply owes_quiet).
  destruct o as [st1|c| |]; cbn [bind_post]; [|by split; [right|]..].
  wp_step. unfold Close. apply wp_or_err_sys. wp_step.
  assert (Ho2 : owes 1 (Cclose connfd :: w_calls w1))
    by (by apply (owes_quiet _ _ [_]); [|repeat constructor]).
  destruct (K (w_calls w1) (Cclose connfd)) as [[]|er]; cbn [bind_post].
  2:{ intros cs1 Hcs1.
      apply (child_post_exit 1 cs1 (World (Cclose connfd :: w_calls w1) 0 false)); done || lia. }
  wp_step. unfold Write, all_or_err_sys. do 3 wp_step.
  set (c := Cwrite STDERR_FILENO [0]). set (w2 := World (c :: Cclose connfd :: w_calls w1) 0 false).
  assert (Ho3 : owes 0 (w_calls w2)).
  { unfold owes in *. simpl in *. rewrite !Nat.add_0_r in *. exact Ho2. }
  assert (Hex : ∀ cs1 e b, Forall report_call cs1 →
    child_post (Exit 1) (World (cs1 ++ w_calls w2) e b)).
  { intros cs1 e b Hcs1. by apply (child_post_exit 0 cs1 w2); [|lia| |]. }
  destruct (K _ c) as [m|er]; cbn [bind_post].
  - wp_if; [|by do 2 wp_step]. apply wp_err_sys. intros cs1 Hcs1. by apply Hex.
  - apply wp_err_sys. intros cs1 Hcs1. by apply Hex.
Qed.

Lemma wp_Read_fd fd n w (Q : outcome (Z * list Z * option Z) → world → Prop) :
  (∀ data cm rfd w', K (w_calls w) (Crecvmsg fd n) = ROk (data, cm) →
     w_calls w' = Crecvmsg fd n :: w_calls w →
     (data = [] ∧ rfd = None ∨
      data ≠ [] ∧ ∃ r, rfd = Some r ∧ (r = -1 ∨ ∃ m, cm = Some m ∧ r = cmsg_fd m)) →
     Q (Val (Z.of_nat (length data), data, rfd)) w') →
  (∀ cs w', Forall report_call cs → w_calls w' = cs ++ Crecvmsg fd n :: w_calls w → Q (Exit 1) w') →
  wp K (Read_fd fd n) w Q.
Proof.
  intros HQ Hex. unfold Read_fd, read_fd. do 4 wp_step.
  destruct (K (w_calls w) (Crecvmsg fd n)) as [[data cm]|er] eqn:HK; cbn [bind_post].
  - destruct data as [|b data].
    + rewrite decide_True by done. repeat wp_step. rewrite decide_False by lia. wp_step.
      eapply HQ; [done|done|by left].
    + rewrite decide_False by (simpl; lia).
      assert (Hok : ∀ r, (r = -1 ∨ ∃ m, cm = Some m ∧ r = cmsg_fd m) →
        Q (Val (Z.of_nat (length (b :: data)), b :: data, Some r))
          (World (Crecvmsg fd n :: w_calls w) (w_errno w) (w_daemon w))).
      { intros r Hr. eapply HQ; [done|done|]. right. eauto. }
      assert (Hq : ∀ msg (P : outcome Z → world → Prop),
        (∀ cs w', Forall report_call cs → w_calls w' = cs ++ Crecvmsg fd n :: w_calls w →
           P (Exit 1) w') →
        wp K (err_quit msg) (World (Crecvmsg fd n :: w_calls w) (w_errno w) (w_daemon w)) P).
      { intros msg P HP. apply wp_err_quit. intros cs Hcs. by apply (HP cs). }
      assert (Hval : ∀ r, (r = -1 ∨ ∃ m, cm = Some m ∧ r = cmsg_fd m) →
        wp K (if decide (Z.of_nat (length (b :: data)) < 0) then err_sys (str "read_fd error")
              else mret (Z.of_nat (length (b :: data)), b :: data, Some r))
          (World (Crecvmsg fd n :: w_calls w) (w_errno w) (w_daemon w)) Q).
      { intros r Hr. rewrite decide_False by lia. wp_step. by apply Hok. }
      wp_step. destruct cm as [m|]; [|repeat wp_step; apply Hval; by left].
      wp_if; [|repeat wp_step; apply Hval; by left].
      wp_if; [by apply Hq|]. wp_if; [by apply Hq|]. repeat wp_step. apply Hval. right. eauto.
  - repeat wp_step. rewrite decide_True by lia. apply wp_err_sys.
    intros cs Hcs. by apply (Hex cs).
Qed.

Lemma wp_child05_round st w :
  owes 0 (w_calls w) →
  wp K ('(n, _, connfd) ← Read_fd STDERR_FILENO 1;
        (if decide (n = 0) then err_quit (str "read_fd returned 0") else mret tt);;
        match connfd with
        | None => abort
        | Some connfd => child05_serve connfd st
        end) w
    (bind_post (λ r w', match r with inl _ => owes 0 (w_calls w') | inr _ => False end) child_post).
Proof.
  intros Ho. wp_step. apply wp_Read_fd.
  - intros data cm rfd w1 HK Hw1 Hcase. cbn [bind_post].
    assert (Hg : got (w_calls w1) = (got (w_calls w) + match data with [] => 0 | _ => 1 end)%nat).
    { rewrite Hw1. simpl. unfold got_step. by rewrite HK. }
    assert (Ha : answered (w_calls w1) = answered (w_calls w)) by (by rewrite Hw1).
    wp_step. destruct Hcase as [[-> ->]|(Hne & r & -> & Hr)].
    + rewrite decide_True by done. apply wp_err_quit. intros cs Hcs.
      apply (child_post_exit 0 cs w1); [|lia|done|done]. unfold owes in *. by rewrite Hg, Ha, Nat.add_0_r.
    + destruct data as [|b data]; [done|]. rewrite decide_False by (simpl; lia). wp_step.
      apply wp_child05_serve; [unfold owes in *; rewrite Hg, Ha; lia|].
      destruct Hr as [->|(m & -> & ->)]; [done|]. by eapply pass_fresh.
  - intros cs w1 Hcs Hw1. cbn [bind_post].
    set (c := Crecvmsg STDERR_FILENO 1) in *.
    destruct (K (w_calls w) c) as [[[|b data] cm]|er] eqn:HK.
    2:{ apply (child_post_exit 1 cs (World (c :: w_calls w) 0 false)); [|lia|done|done].
        unfold owes in *. simpl. unfold got_step. fold c. rewrite HK. simpl. lia. }
    all: apply (child_post_exit 0 cs (World (c :: w_calls w) 0 false)); [|lia|done|done];
      unfold owes in *; simpl; unfold got_step; fold c; rewrite HK; simpl; lia.
Qed.
End child05.

(** A child of [serv05.c] writes at most one byte on its pipe for each
    connection it has been passed, and at any moment owes at most one: this is
    what the parent's table of idle children relies on. *)
Theorem child05_protocol (K : kernel) `{!KernelPass K} fuel result w :
  got K (w_calls w) = answered (w_calls w) →
  let '(o, w') := child05_main fuel result K w in
  (answered (w_calls w') <= got K (w_calls w') <= S (answered (w_calls w')))%nat ∧
  match o with Val _ => False | _ => True end.
Proof.
  intros Heq.
  enough (H : wp K (child05_main fuel result) w (child_post K)).
  { unfold wp, child_post, owes in H. destruct (child05_main fuel result K w) as [o w'].
    simpl in H. destruct H as [Ho Hv]. split; [lia|done]. }
  unfold child05_main, printf, void. repeat wp_step.
  apply (wp_iter K (λ _ w', owes K 0 (w_calls w'))).
  - unfold owes in *. simpl. unfold got_step. lia.
  - intros st w1 Ho. eapply wp_mono; [by apply (wp_child05_round K fuel result)|].
    by intros [[s|x]|c| |] w2.
  - intros st w1 Ho. split; [by left|done].
Qed.

(** Every descriptor passed is 7, and its client closes at once. *)
Definition passing_kernel : kernel := λ cs c,
  match c as c return ans c with
  | Crecvmsg _ _ => ROk ([0], Some (Cmsg (CMSG_LEN sizeof_int) SOL_SOCKET SCM_RIGHTS 7))
  | Cread _ _ => ROk []
  | Cclose _ => ROk tt
  | Cwrite _ d => ROk (Z.of_nat (length d))
  | c => default_ans c
  end.

#[local] Instance passing_kernel_pass : KernelPass passing_kernel.
Proof. intros cs n d cm. simpl. intros H. by inversion H. Qed.

Lemma child05_protocol_witness :
  let '(o, w') := child05_main 5 [] passing_kernel (World [] 0 false) in
  (answered (w_calls w') <= got passing_kernel (w_calls w') <= S (answered (w_calls w')))%nat ∧
  match o with Val _ => False | _ => True end.
Proof. apply (child05_protocol passing_kernel). reflexivity. Defined.

(** A kernel whose children answer as soon as they are asked, if they owe an
    answer; [select] finds a new connection whenever it may. *)
Fixpoint owed (fd : Z) (cs : list call) : nat * nat :=
  match cs with
  | [] => (0, 0)
  | Csendmsg fd' _ _ _ :: cs' =>
      let '(g, f) := owed fd cs' in if decide (fd' = fd) then (S g, f) else (g, f)
  | Cread fd' _ :: cs' =>
      let '(g, f) := owed fd cs' in
      if decide (fd' = fd ∧ (f < g)%nat) then (g, S f) else (g, f)
  | _ :: cs' => owed fd cs'
  end%nat.

Definition children_kernel (listenfd : Z) : kernel := λ cs c,
  match c as c return ans c with
  | Csendmsg _ _ _ _ => ROk 1
  | Cread fd _ => ROk (let '(g, f) := owed fd cs in if decide (f < g)%nat then [0] else [])
  | Caccept _ => ROk (Z.of_nat (length cs) + 100, SaIn 0 [])
  | Cselect n r w t => if decide (listenfd ∈ r) then ROk (1, {[listenfd]}, ∅)
                       else ROk (Z.of_nat (size r), r, ∅)
  | Cclose _ => ROk tt
  | c => default_ans c
  end.

Lemma children_owed listenfd fd cs :
  owed fd cs = (given (children_kernel listenfd) fd cs, freed (children_kernel listenfd) fd cs).
Proof.
  induction cs as [|c cs IH]; [done|]. simpl. rewrite <-?IH.
  destruct c; unfold given_step, freed_step; simpl;
    rewrite ?Nat.add_0_r; try (rewrite IH; reflexivity).
  - rewrite IH. destruct (decide (fd0 = fd)) as [->|].
    + rewrite IH. repeat case_decide; try tauto; rewrite ?Nat.add_0_r, ?Nat.add_1_r; done.
    + rewrite decide_False by tauto. by rewrite !Nat.add_0_r.
  - rewrite IH. case_decide; rewrite ?Nat.add_0_r, ?Nat.add_1_r; done.
Qed.

#[local] Instance children_kernel_select listenfd : KernelSelect (children_kernel listenfd).
Proof.
  intros cs n r w t m r' w'. simpl. case_decide; intros [= _ <- <-]; set_solver.
Qed.

#[local] Instance children_kernel_children listenfd pipes :
  KernelChildren (children_kernel listenfd) pipes.
Proof.
  intros cs fd n l _. simpl. rewrite (children_owed listenfd). case_decide; [done|].
  intros [= <-]. done.
Qed.

Lemma serv05_hands_out_witness :
  let K := children_kernel 3 in
  let s := Preserv [Child 500 10 0 0; Child 501 11 0 0] 2 in
  let '(o, w') := iter 5 (serv05_round 5 3 11 {[3; 10; 11]}) s K (World [] 0 false) in
  handed K 3 [10; 11] (w_calls w') ∧
  match o with
  | Val _ | Aborted => False
  | Exit c => c = 1
  | Diverge => True
  end.
Proof.
  apply (serv05_hands_out (children_kernel 3) 3 [10; 11]).
  - apply _.
  - apply _.
  - by_decide.
  - split; try done.
    + intros [|[|i]] c [= <-]; split; try (by left); done.
    + intros l1 l2 H. by destruct l1.
Defined.
