(* ===== verification/Pool.v ===== *)
(** [server/serv08.c] and [server/pthread08.c]: the main thread accepts the
    connections and puts them in a ring from which the other threads take them,
    under a mutex and a condition variable.

    The program is a machine: an event names the thread that makes its next
    step, and carries what its environment answers. *)

From S2P Require Import Prelude.

Definition MAXNCLI : Z := 32.

(** Where the main thread is in its loop. *)
Inductive main_pc :=
  | MAccept                    (* calling [Accept] *)
  | MLock (connfd : Z)         (* calling [Pthread_mutex_lock] *)
  | MPut (connfd : Z)          (* storing, owner of the mutex *)
  | MSignal                    (* calling [Pthread_cond_signal] *)
  | MUnlock                    (* calling [Pthread_mutex_unlock] *)
  | MQuit.                     (* in [err_quit] *)

(** Where another thread is in [thread_main]. *)
Inductive worker_pc :=
  | WLock                      (* calling [Pthread_mutex_lock] *)
  | WTest                      (* [while (iget == iput)], owner of the mutex *)
  | WWait                      (* blocked in [Pthread_cond_wait] *)
  | WWoken                     (* there, taking the mutex again *)
  | WTake                      (* after the loop, owner of the mutex *)
  | WUnlock (connfd : Z)       (* calling [Pthread_mutex_unlock] *)
  | WCount (connfd : Z)        (* [thread_count++] *)
  | WServe (connfd : Z).       (* [web_child], [Close] *)

Inductive thread := TMain | TWorker (i : nat).

#[global] Instance main_pc_dec : EqDecision main_pc.
Proof. solve_decision. Defined.
#[global] Instance worker_pc_dec : EqDecision worker_pc.
Proof. solve_decision. Defined.
#[global] Instance thread_dec : EqDecision thread.
Proof. solve_decision. Defined.

(** The shared variables, the owner of [clifd_mutex] and the threads; [accepted]
    and [taken] record the connections in the order of [Accept] and of line 24. *)
Record pool := Pool {
  clifd : list Z;
  iget : Z;
  iput : Z;
  owner : option thread;
  main : main_pc;
  workers : list worker_pc;
  thread_counts : list Z;
  accepted : list Z;
  taken : list Z
}.

Inductive event :=
  | EAccept (connfd : Z)
  | EMain
  | ESignal (woken : option nat)   (* the thread that the signal unblocks *)
  | EWorker (i : nat)
  | ESpurious (i : nat).           (* [pthread_cond_wait] returns by itself *)

Definition set_main (s : pool) (o : option thread) (m : main_pc) : pool :=
  Pool (clifd s) (iget s) (iput s) o m (workers s) (thread_counts s) (accepted s) (taken s).
Definition set_worker (s : pool) (i : nat) (o : option thread) (w : worker_pc) : pool :=
  Pool (clifd s) (iget s) (iput s) o (main s) (<[i := w]> (workers s)) (thread_counts s)
    (accepted s) (taken s).

(** [if (++i == MAXNCLI) i = 0;] *)
Definition next (i : Z) : Z := if decide (i + 1 = MAXNCLI) then 0 else i + 1.

Definition main_step (s : pool) : option pool :=
  match main s with
  | MLock connfd =>
      if decide (owner s = None) then Some (set_main s (Some TMain) (MPut connfd)) else None
  | MPut connfd =>
      let iput' := next (iput s) in
      Some (Pool (aset (clifd s) (iput s) connfd) (iget s) iput' (owner s)
              (if decide (iput' = iget s) then MQuit else MSignal)
              (workers s) (thread_counts s) (accepted s) (taken s))
  | MUnlock => Some (set_main s None MAccept)
  | MAccept | MSignal | MQuit => None
  end.

Definition waiting (s : pool) (i : nat) : Prop := workers s !! i = Some WWait.
#[global] Instance waiting_dec s i : Decision (waiting s i).
Proof. unfold waiting. apply _. Defined.

(** A signal unblocks a waiting thread if there is one. *)
Definition signal_step (woken : option nat) (s : pool) : option pool :=
  match main s, woken with
  | MSignal, Some i =>
      if decide (waiting s i) then
        Some (set_main (set_worker s i (owner s) WWoken) (owner s) MUnlock)
      else None
  | MSignal, None => if decide (WWait ∈ workers s) then None else Some (set_main s (owner s) MUnlock)
  | _, _ => None
  end.

Definition worker_step (i : nat) (s : pool) : option pool :=
  w ← workers s !! i;
  match w with
  | WLock | WWoken =>
      if decide (owner s = None) then Some (set_worker s i (Some (TWorker i)) WTest) else None
  | WTest =>
      if decide (iget s = iput s) then Some (set_worker s i None WWait)
      else Some (set_worker s i (owner s) WTake)
  | WWait => None
  | WTake =>
      connfd ← aget (clifd s) (iget s);
      Some (Pool (clifd s) (next (iget s)) (iput s) (owner s) (main s)
              (<[i := WUnlock connfd]> (workers s)) (thread_counts s)
              (accepted s) (taken s ++ [connfd]))
  | WUnlock connfd => Some (set_worker s i None (WCount connfd))
  | WCount connfd =>
      Some (Pool (clifd s) (iget s) (iput s) (owner s) (main s)
              (<[i := WServe connfd]> (workers s)) (alter (λ n, n + 1) i (thread_counts s))
              (accepted s) (taken s))
  | WServe connfd => Some (set_worker s i (owner s) WLock)
  end.

(** [err_quit] ends the process: there is no step after it. *)
Definition pool_step (e : event) (s : pool) : option pool :=
  if decide (main s = MQuit) then None
  else
    match e with
    | EAccept connfd =>
        match main s with
        | MAccept => Some (Pool (clifd s) (iget s) (iput s) (owner s) (MLock connfd) (workers s)
                             (thread_counts s) (accepted s ++ [connfd]) (taken s))
        | _ => None
        end
    | EMain => main_step s
    | ESignal woken => signal_step woken s
    | EWorker i => worker_step i s
    | ESpurious i =>
        if decide (waiting s i) then Some (set_worker s i (owner s) WWoken) else None
    end.

(** After [main] has made its [nthreads] threads; [clifd] is a static array. *)
Definition pool_init (nthreads : nat) : pool :=
  Pool (repeat 0 (Z.to_nat MAXNCLI)) 0 0 None MAccept (repeat WLock nthreads) (repeat 0 nthreads)
    [] [].
