(* ===== verification/PoolSpec.v ===== *)
(** Properties of [Pool]: however its threads are scheduled, every connection is
    taken once, in the order of acceptance, no signal is lost, and the server
    stops only when its ring is full. *)

From S2P Require Import Prelude Pool.

(** * The invariant *)

(** The connections in the ring, the oldest first. *)
Definition queue_len (s : pool) : Z := (iput s - iget s) mod MAXNCLI.
Definition queue (s : pool) : list Z :=
  ringl MAXNCLI (λ k, default 0 (aget (clifd s) k)) (iget s) (queue_len s).

(** What the main thread has accepted and not yet stored. *)
Definition in_hand (s : pool) : list Z :=
  match main s with MLock fd | MPut fd => [fd] | _ => [] end.

(** A thread that will look at the ring before it waits. *)
Definition awake (w : worker_pc) : Prop :=
  match w with WLock | WTest | WWoken | WTake => True | _ => False end.
#[global] Instance awake_dec w : Decision (awake w).
Proof. destruct w; apply _. Defined.

Definition main_owns (m : main_pc) : Prop :=
  match m with MPut _ | MSignal | MUnlock | MQuit => True | _ => False end.
Definition worker_owns (w : worker_pc) : Prop :=
  match w with WTest | WTake | WUnlock _ => True | _ => False end.

Record pool_inv (s : pool) : Prop := {
  pi_len : Z.of_nat (length (clifd s)) = MAXNCLI;
  pi_get : 0 <= iget s < MAXNCLI;
  pi_put : 0 <= iput s < MAXNCLI;
  pi_main : owner s = Some TMain ↔ main_owns (main s);
  pi_owner i w : workers s !! i = Some w → (owner s = Some (TWorker i) ↔ worker_owns w);
  pi_worker i : owner s = Some (TWorker i) → (i < length (workers s))%nat;
  pi_take i : workers s !! i = Some WTake → iget s ≠ iput s;
  pi_fifo : main s ≠ MQuit → accepted s = taken s ++ queue s ++ in_hand s;
  pi_full : main s = MQuit → iput s = iget s ∧
    Z.of_nat (length (accepted s)) = Z.of_nat (length (taken s)) + MAXNCLI;
  pi_quit : main s = MQuit → taken s `prefix_of` accepted s;
  pi_wake : main s ≠ MQuit → WWait ∈ workers s →
    queue_len s <= count awake (workers s) + (if decide (main s = MSignal) then 1 else 0)
}.

(** * Indices *)

Lemma next_mod i : 0 <= i < MAXNCLI → next i = (i + 1) mod MAXNCLI ∧ 0 <= next i < MAXNCLI.
Proof.
  unfold next, MAXNCLI. intros Hi. case_decide as Hd.
  - rewrite Hd. done.
  - rewrite Z.mod_small; lia.
Qed.

Lemma queue_len_bound s : 0 <= queue_len s < MAXNCLI.
Proof. by apply Z.mod_pos_bound. Qed.

Lemma queue_len_zero s :
  0 <= iget s < MAXNCLI → 0 <= iput s < MAXNCLI → queue_len s = 0 ↔ iget s = iput s.
Proof.
  unfold queue_len, MAXNCLI. intros Hg Hp. split; [|intros ->; by rewrite Z.sub_diag].
  intros Hq. apply Z.mod_divide in Hq as [q Hq]; lia.
Qed.

(** Moving an index forward. *)
Lemma mod_succ a : (a + 1) mod MAXNCLI ≠ 0 → (a + 1) mod MAXNCLI = a mod MAXNCLI + 1.
Proof.
  unfold MAXNCLI. intros H. assert (Hr := Z.mod_pos_bound a 32 ltac:(lia)).
  assert (Heq : (a + 1) mod 32 = (a mod 32 + 1) mod 32) by (by rewrite Z.add_mod_idemp_l).
  rewrite Heq in H |- *. destruct (decide (a mod 32 + 1 = 32)) as [Hd|]; [by rewrite Hd in H|].
  apply Z.mod_small. lia.
Qed.

Lemma put_index s : (iget s + queue_len s) mod MAXNCLI = iput s mod MAXNCLI.
Proof.
  unfold queue_len. rewrite Z.add_mod_idemp_r by done. f_equal. lia.
Qed.

(** * The steps of one thread *)

Lemma pool_inv_init n : pool_inv (pool_init n).
Proof.
  assert (Hw : ∀ i w, repeat WLock n !! i = Some w → w = WLock).
  { intros i w Hi. by apply list_elem_of_lookup_2, list_elem_of_In, repeat_spec in Hi. }
  split; simpl; try done.
  - intros i w Hi. by rewrite (Hw i w Hi).
  - intros i Hi. by apply Hw in Hi.
  - intros _ Hin. apply list_elem_of_lookup in Hin as [i Hi]. by apply Hw in Hi.
Qed.

(** A step that changes where worker [i] is, and the owner of the mutex. *)
Lemma inv_worker s i w w' o :
  pool_inv s → workers s !! i = Some w → main s ≠ MQuit →
  (o = Some (TWorker i) ↔ worker_owns w') →
  (∀ t, t ≠ TWorker i → (o = Some t ↔ owner s = Some t)) →
  (w' = WTake → iget s ≠ iput s) → (w' = WWait → iget s = iput s) →
  (awake w → awake w' ∨ w' = WWait) →
  pool_inv (set_worker s i o w').
Proof.
  intros [Hl Hg Hp Hm Ho Hw Ht Hf Hfu Hpre Hk] Hi Hq Hown Hoth Htake Hwait Haw.
  assert (Hlt := lookup_lt_Some _ _ _ Hi).
  split; simpl; try done.
  - rewrite Hoth by done. done.
  - intros j x Hj. destruct (decide (j = i)) as [->|Hne].
    + rewrite list_lookup_insert_eq in Hj by done. by injection Hj as <-.
    + rewrite list_lookup_insert_ne in Hj by done. rewrite Hoth by congruence. by apply Ho.
  - intros j Hj. rewrite length_insert. destruct (decide (j = i)) as [->|Hne]; [done|].
    apply Hw. by apply Hoth; [congruence|].
  - intros j Hj. destruct (decide (j = i)) as [->|Hne].
    + rewrite list_lookup_insert_eq in Hj by done. apply Htake. congruence.
    + rewrite list_lookup_insert_ne in Hj by done. by apply (Ht j).
  - intros _ Hin. unfold queue_len. simpl. fold (queue_len s).
    assert (Hc := count_insert awake _ _ _ w' Hi).
    destruct (decide (w' = WWait)) as [Heq|Hne].
    + rewrite (proj2 (queue_len_zero s Hg Hp)) by (by apply Hwait).
      pose proof (count_nonneg awake (<[i:=w']> (workers s))). destruct (decide (main s = MSignal)); lia.
    + assert (Hold : WWait ∈ workers s).
      { apply list_elem_of_lookup in Hin as [j Hj]. destruct (decide (j = i)) as [->|Hn].
        - rewrite list_lookup_insert_eq in Hj by done. congruence.
        - rewrite list_lookup_insert_ne in Hj by done. by eapply list_elem_of_lookup_2. }
      specialize (Hk Hq Hold). rewrite Hc. destruct (decide (awake w)) as [Ha|], (decide (awake w')); try lia.
      destruct (Haw Ha); [done|congruence].
Qed.

(** The main thread stores a connection. *)
Lemma inv_put s connfd :
  pool_inv s → main s = MPut connfd →
  pool_inv (Pool (aset (clifd s) (iput s) connfd) (iget s) (next (iput s)) (owner s)
    (if decide (next (iput s) = iget s) then MQuit else MSignal)
    (workers s) (thread_counts s) (accepted s) (taken s)).
Proof.
  intros [Hl Hg Hp Hm Ho Hw Ht Hf Hfu Hpre Hk] Hmain.
  destruct (next_mod (iput s) Hp) as [Hn Hnb].
  assert (Hown : owner s = Some TMain) by (rewrite Hm, Hmain; done).
  assert (Hq : main s ≠ MQuit) by congruence. specialize (Hf Hq).
  set (s' := Pool _ _ _ _ _ _ _ _ _). set (m := if decide _ then _ else _) in s'.
  assert (Hlen : next (iput s) ≠ iget s → queue_len s' = queue_len s + 1).
  { intros Hne. assert (H0 : queue_len s' ≠ 0) by (rewrite (queue_len_zero s' Hg Hnb); simpl; congruence).
    revert H0. unfold queue_len, s'. simpl. rewrite Hn, Zminus_mod_idemp_l.
    replace (iput s + 1 - iget s) with (iput s - iget s + 1) by lia. apply mod_succ. }
  assert (Hput : (iget s + queue_len s) mod MAXNCLI = iput s).
  { rewrite put_index. by apply Z.mod_small. }
  assert (Hext : ringl MAXNCLI (λ k, default 0 (aget (clifd s') k)) (iget s) (queue_len s) =
                 queue s).
  { apply ringl_ext. intros i Hi. simpl. f_equal. apply aget_aset_ne. rewrite <-Hput.
    apply not_eq_sym, ring_apart; [done|done|]. pose proof (queue_len_bound s). lia. }
  split; simpl; try done; rewrite ?aset_length; try done.
  - unfold m. rewrite Hown. destruct (decide (next (iput s) = iget s)); by split.
  - intros i Hi. specialize (Ho i WTake Hi). rewrite Hown in Ho. naive_solver.
  - unfold m. destruct (decide (next (iput s) = iget s)) as [|Hne]; [done|]. intros _.
    unfold queue, in_hand, s'. simpl. fold s'. rewrite (Hlen Hne), ringl_snoc
      by (pose proof (queue_len_bound s); lia).
    rewrite Hput, aget_aset_eq by lia. simpl.
    rewrite app_nil_r, Hf. unfold in_hand. rewrite Hmain. f_equal. f_equal. symmetry. exact Hext.
  - unfold m. destruct (decide (next (iput s) = iget s)) as [Heq|]; [|done]. intros _. split; [done|].
    rewrite Hf. unfold in_hand, queue. rewrite Hmain, !length_app, ringl_len. simpl.
    assert (Hfull : queue_len s = MAXNCLI - 1).
    { revert Heq. unfold next, queue_len, MAXNCLI in *. case_decide; intros <-.
      - replace (iput s) with 31 by lia. done.
      - replace (iput s - (iput s + 1)) with (-1) by lia. done. }
    rewrite Hfull. unfold MAXNCLI. lia.
  - intros _. rewrite Hf. by apply prefix_app_r.
  - intros Hm' Hin. unfold m in *. destruct (decide (next (iput s) = iget s)) as [|Hne]; [done|].
    rewrite (Hlen Hne), decide_True by done. specialize (Hk Hq Hin). rewrite decide_False in Hk by congruence. lia.
Qed.

(** A worker takes a connection out of the ring. *)
Lemma inv_take s i connfd :
  pool_inv s → workers s !! i = Some WTake → main s ≠ MQuit →
  aget (clifd s) (iget s) = Some connfd →
  let s' := Pool (clifd s) (next (iget s)) (iput s) (owner s) (main s)
    (<[i := WUnlock connfd]> (workers s)) (thread_counts s) (accepted s) (taken s ++ [connfd]) in
  pool_inv s' ∧ queue s = connfd :: queue s'.
Proof.
  intros [Hl Hg Hp Hm Ho Hw Ht Hf Hfu Hpre Hk] Hi Hq Hc s'.
  destruct (next_mod (iget s) Hg) as [Hn Hnb]. assert (Hlt := lookup_lt_Some _ _ _ Hi).
  assert (Hown : owner s = Some (TWorker i)) by (by apply (Ho i WTake)).
  assert (Hne := Ht i Hi).
  assert (Hpos : 0 < queue_len s).
  { pose proof (queue_len_bound s). pose proof (queue_len_zero s Hg Hp). lia. }
  assert (Hlen : queue_len s' = queue_len s - 1).
  { unfold queue_len, s' in *. simpl. rewrite Hn, Zminus_mod_idemp_r.
    replace (iput s - iget s) with (iput s - (iget s + 1) + 1) in * by lia.
    rewrite mod_succ; [lia|]. lia. }
  assert (Hqu : queue s = connfd :: queue s').
  { unfold queue. rewrite Hlen, (ringl_cons MAXNCLI) by done. simpl. rewrite Hc, Hn. done. }
  split; [|done]. split; simpl; try done.
  - intros j x Hj. destruct (decide (j = i)) as [->|Hji].
    + rewrite list_lookup_insert_eq in Hj by done. injection Hj as <-. naive_solver.
    + rewrite list_lookup_insert_ne in Hj by done. by apply Ho.
  - intros j Hj. rewrite length_insert. by apply Hw.
  - intros j Hj. destruct (decide (j = i)) as [->|Hji].
    + rewrite list_lookup_insert_eq in Hj by done. congruence.
    + rewrite list_lookup_insert_ne in Hj by done. specialize (Ho j WTake Hj). rewrite Hown in Ho.
      naive_solver congruence.
  - intros _. rewrite (Hf Hq), Hqu, <-app_assoc. done.
  - intros _ Hin. rewrite Hlen, (count_insert awake _ _ _ _ Hi), !(decide_False (P := main s = MSignal)).
    + assert (Hold : WWait ∈ workers s).
      { apply list_elem_of_lookup in Hin as [j Hj]. destruct (decide (j = i)) as [->|Hji].
        - rewrite list_lookup_insert_eq in Hj by done. congruence.
        - rewrite list_lookup_insert_ne in Hj by done. by eapply list_elem_of_lookup_2. }
      specialize (Hk Hq Hold). rewrite decide_False in Hk; [simpl; lia|].
      intros Heq. rewrite Heq in Hm. naive_solver congruence.
    + intros Heq. rewrite Heq in Hm. naive_solver congruence.
Qed.

(** A step that changes where the main thread is, and the owner of the mutex. *)
Lemma inv_main s o m :
  pool_inv s → main s ≠ MQuit → m ≠ MQuit →
  in_hand (set_main s o m) = in_hand s →
  (o = Some TMain ↔ main_owns m) →
  (∀ i, o = Some (TWorker i) ↔ owner s = Some (TWorker i)) →
  (WWait ∈ workers s →
     queue_len s <= count awake (workers s) + (if decide (m = MSignal) then 1 else 0)) →
  pool_inv (set_main s o m).
Proof.
  intros [Hl Hg Hp Hm Ho Hw Ht Hf Hfu Hpre Hk] Hq Hq' Hih Hown Hoth Hwake.
  split; simpl; try done.
  - intros i w Hi. rewrite Hoth. by apply Ho.
  - intros i Hi. by apply Hw, Hoth.
  - intros _. rewrite Hih. by apply Hf.
Qed.

Lemma inv_accept s connfd :
  pool_inv s → main s = MAccept →
  pool_inv (Pool (clifd s) (iget s) (iput s) (owner s) (MLock connfd) (workers s)
              (thread_counts s) (accepted s ++ [connfd]) (taken s)).
Proof.
  intros [Hl Hg Hp Hm Ho Hw Ht Hf Hfu Hpre Hk] Hmain. rewrite Hmain in *. split; simpl; try done.
  - intros _. rewrite Hf by done. unfold in_hand at 1. rewrite Hmain, app_nil_r.
    by rewrite <-app_assoc.
  - intros _ Hin. specialize (Hk ltac:(done) Hin). exact Hk.
Qed.

Lemma main_owned s : pool_inv s → main_owns (main s) → owner s = Some TMain.
Proof. intros Hi Hm. by apply (pi_main s Hi). Qed.

Lemma main_step_inv s s' : pool_inv s → main s ≠ MQuit → main_step s = Some s' → pool_inv s'.
Proof.
  intros Hinv Hq. unfold main_step. destruct (main s) as [|fd|fd| | |] eqn:Hm; try done.
  - case_decide as Ho; [|done]. intros [= <-]. apply inv_main; try done.
    + by rewrite Hm.
    + unfold in_hand. simpl. by rewrite Hm.
    + intros i. by rewrite Ho.
    + intros Hin. pose proof (pi_wake s Hinv) as Hk. rewrite Hm in Hk. by apply Hk.
  - intros [= <-]. by apply inv_put.
  - intros [= <-]. assert (Ho : owner s = Some TMain) by (apply main_owned; [done|by rewrite Hm]).
    apply inv_main; try done.
    + by rewrite Hm.
    + unfold in_hand. simpl. by rewrite Hm.
    + intros i. by rewrite Ho.
    + intros Hin. pose proof (pi_wake s Hinv) as Hk. rewrite Hm in Hk. by apply Hk.
Qed.

(** A blocked thread is woken. *)
Lemma inv_woken s i :
  pool_inv s → waiting s i → main s ≠ MQuit →
  pool_inv (set_worker s i (owner s) WWoken) ∧
  count awake (workers (set_worker s i (owner s) WWoken)) = count awake (workers s) + 1.
Proof.
  intros Hinv Hi Hq. split.
  - apply inv_worker with WWait; try done. exact (pi_owner s Hinv i WWait Hi).
  - simpl. rewrite (count_insert awake _ _ _ _ Hi). simpl. lia.
Qed.

Lemma signal_step_inv s s' k :
  pool_inv s → main s ≠ MQuit → signal_step k s = Some s' → pool_inv s'.
Proof.
  intros Hinv Hq. unfold signal_step. destruct (main s) eqn:Hm; try done.
  assert (Ho : owner s = Some TMain) by (apply main_owned; [done|by rewrite Hm]).
  assert (Hq' : main s ≠ MQuit) by congruence.
  assert (Hk := pi_wake s Hinv Hq'). rewrite decide_True in Hk by done.
  destruct k as [i|].
  - case_decide as Hi; [|done]. intros [= <-]. destruct (inv_woken s i Hinv Hi Hq') as [Hw Hc].
    apply inv_main; simpl; try done.
    + unfold in_hand. simpl. by rewrite Hm.
    + intros _. change (queue_len (set_worker s i (owner s) WWoken)) with (queue_len s).
      simpl in Hc. rewrite Hc. specialize (Hk (list_elem_of_lookup_2 _ _ _ Hi)). lia.
  - case_decide as Hi; [done|]. intros [= <-]. apply inv_main; try done.
    + unfold in_hand. simpl. by rewrite Hm.
Qed.

Lemma worker_step_inv s s' i :
  pool_inv s → main s ≠ MQuit → worker_step i s = Some s' → pool_inv s'.
Proof.
  intros Hinv Hq. unfold worker_step. destruct (workers s !! i) as [w|] eqn:Hi; [|done]. simpl.
  assert (Ho := pi_owner s Hinv i w Hi).
  assert (Hacq : awake w → owner s = None → pool_inv (set_worker s i (Some (TWorker i)) WTest)).
  { intros Haw Hn. apply inv_worker with w; try done.
    - intros t Ht. rewrite Hn. naive_solver congruence.
    - by left. }
  assert (Hrel : ∀ w', worker_owns w → ¬ worker_owns w' → ¬ awake w ∨ w' = WWait →
    w' ≠ WTake → (w' = WWait → iget s = iput s) → pool_inv (set_worker s i None w')).
  { intros w' Hw Hw' Haw Hnt Hwt. apply inv_worker with w; try done.
    - intros t Ht. rewrite (proj2 Ho Hw). naive_solver congruence.
    - naive_solver. }
  destruct w as [| | | | |fd|fd|fd]; try done.
  - case_decide; [|done]. intros [= <-]. by apply Hacq.
  - case_decide as Hd; intros [= <-]; [apply Hrel; naive_solver|].
    apply inv_worker with WTest; try done. naive_solver.
  - case_decide; [|done]. intros [= <-]. by apply Hacq.
  - destruct (aget (clifd s) (iget s)) as [fd|] eqn:Hc; [|done]. intros [= <-].
    by destruct (inv_take s i fd Hinv Hi Hq Hc).
  - intros [= <-]. apply Hrel; naive_solver.
  - intros [= <-]. assert (Hi2 := inv_worker s i _ (WServe fd) (owner s) Hinv Hi Hq Ho).
    assert (Hi3 : pool_inv (set_worker s i (owner s) (WServe fd))) by (by apply Hi2).
    destruct Hi3. by split.
  - intros [= <-]. apply inv_worker with (WServe fd); try done.
Qed.

Lemma pool_step_inv e s s' : pool_inv s → pool_step e s = Some s' → pool_inv s'.
Proof.
  intros Hinv. unfold pool_step. case_decide as Hq; [done|]. destruct e as [fd| |k|i|i].
  - destruct (main s) eqn:Hm; try done. intros [= <-]. by apply inv_accept.
  - by apply main_step_inv.
  - by apply signal_step_inv.
  - by apply worker_step_inv.
  - case_decide as Hi; [|done]. intros [= <-]. by apply inv_woken.
Qed.

Lemma pool_reachable_inv n s : reachable pool_step (pool_init n) s → pool_inv s.
Proof. apply reachable_inv; [apply pool_inv_init|]. intros e s1 s2. apply pool_step_inv. Qed.

(** * Every connection is taken once, in order *)

(** However the threads of [serv08] are scheduled, the connections taken by
    the workers are the first ones accepted, in the order of acceptance, and
    the ring holds the others, in order, but for the one the main thread holds;
    at most one thread is between lock and unlock; both indices stay within
    the array; and the process calls [err_quit] only with 32 connections that
    no worker has taken. *)
Theorem pool_fifo n s :
  reachable pool_step (pool_init n) s →
  taken s `prefix_of` accepted s
  ∧ (main s ≠ MQuit → accepted s = taken s ++ queue s ++ in_hand s)
  ∧ (main s = MQuit → (length (accepted s) = length (taken s) + 32)%nat)
  ∧ (main_owns (main s) → ∀ i w, workers s !! i = Some w → ¬ worker_owns w)
  ∧ (∀ i j wi wj, workers s !! i = Some wi → workers s !! j = Some wj →
       worker_owns wi → worker_owns wj → i = j)
  ∧ 0 <= iget s < 32 ∧ 0 <= iput s < 32.
Proof.
  intros Hr. assert (Hinv := pool_reachable_inv n s Hr).
  assert (Hlog : main s = MQuit → taken s `prefix_of` accepted s) by apply (pi_quit s Hinv).
  destruct Hinv as [Hl Hg Hp Hm Ho Hw Ht Hf Hfu _ Hk].
  split_and!; try done; try apply Hg; try apply Hp.
  - destruct (decide (main s = MQuit)) as [Hq|Hq]; [by apply Hlog|].
    rewrite (Hf Hq). by apply prefix_app_r.
  - intros Hq. destruct (Hfu Hq) as [_ Hlen]. unfold MAXNCLI in Hlen. lia.
  - intros Hmo i w Hi Hwo. apply Hm in Hmo. apply (Ho i w Hi) in Hwo. congruence.
  - intros i j wi wj Hi Hj Hwi Hwj. apply (Ho i wi Hi) in Hwi. apply (Ho j wj Hj) in Hwj. congruence.
Qed.

(** * The refinement of a bounded queue *)

(** What clients see of the server: connections wait in a queue of at most 32,
    and each worker that comes takes the oldest. *)
Record server := Server { pending : list Z; given : list Z }.

Inductive request := RArrive (connfd : Z) | RTake (connfd : Z).

Definition server_step (r : request) (a : server) : option server :=
  match r with
  | RArrive connfd =>
      if decide (length (pending a) < 32)%nat then Some (Server (pending a ++ [connfd]) (given a))
      else None
  | RTake connfd =>
      match pending a with
      | fd :: rest =>
          if decide (fd = connfd) then Some (Server rest (given a ++ [fd])) else None
      | [] => None
      end
  end.

(** The abstract steps of a step of the pool. *)
Definition visible (e : event) (s : pool) : list request :=
  match e with
  | EAccept connfd => [RArrive connfd]
  | EWorker i =>
      match workers s !! i with
      | Some WTake => map RTake (option_list (aget (clifd s) (iget s)))
      | _ => []
      end
  | _ => []
  end.

Fixpoint visibles (es : list event) (s : pool) : list request :=
  match es with
  | [] => []
  | e :: es' => visible e s ++ match pool_step e s with Some s' => visibles es' s' | None => [] end
  end.

Record implements (s : pool) (a : server) : Prop := {
  im_inv : pool_inv s;
  im_log : accepted s = given a ++ pending a;
  im_taken : taken s = given a
}.

Lemma implements_pending s a :
  implements s a → main s ≠ MQuit → pending a = queue s ++ in_hand s.
Proof.
  intros [Hinv Hl Ht] Hq. rewrite (pi_fifo s Hinv Hq), <-Ht in Hl. by apply app_inv_head in Hl.
Qed.

(** A step that neither accepts nor takes a connection. *)
Lemma implements_silent s s' a :
  implements s a → pool_inv s' → accepted s' = accepted s → taken s' = taken s →
  implements s' a.
Proof. intros [_ Hl Ht] Hinv Ha Hk. split; congruence. Qed.

Lemma pool_step_silent e s s' :
  pool_step e s = Some s' → visible e s = [] → accepted s' = accepted s ∧ taken s' = taken s.
Proof.
  unfold pool_step. case_decide; [done|]. destruct e as [fd| |k|i|i]; simpl; try done.
  - unfold main_step. destruct (main s); try case_decide; intros [= <-] _; done.
  - unfold signal_step. destruct (main s), k; try case_decide; intros [= <-] _; done.
  - unfold worker_step. destruct (workers s !! i) as [w|]; [|done]. simpl.
    destruct w; try case_decide; try (intros [= <-] _; done); try done.
    destruct (aget (clifd s) (iget s)); [|done]. by intros [= <-].
  - case_decide; [|done]. by intros [= <-] _.
Qed.

Lemma pool_step_refines e s s' a :
  implements s a → pool_step e s = Some s' →
  ∃ a', run server_step (visible e s) a = Some a' ∧ implements s' a'.
Proof.
  intros Him Hs. assert (Hinv := pool_step_inv e s s' (im_inv s a Him) Hs).
  destruct (visible e s) as [|r rs] eqn:Hv.
  { exists a. split; [done|]. destruct (pool_step_silent e s s' Hs Hv).
    by apply (implements_silent s). }
  revert Hs. unfold pool_step. case_decide as Hq; [done|].
  assert (Hp := implements_pending s a Him Hq). destruct Him as [Hi Hl Ht].
  destruct e as [fd| |k|i|i]; simpl in Hv; try done.
  - destruct (main s) eqn:Hm; try done. intros [= <-]. injection Hv as <- <-. cbn [run server_step].
    assert (Hlen : (length (pending a) < 32)%nat).
    { rewrite Hp. unfold queue, in_hand. rewrite Hm, app_nil_r, ringl_len.
      pose proof (queue_len_bound s) as Hb. unfold MAXNCLI in Hb. lia. }
    rewrite decide_True by done. eexists. split; [reflexivity|]. split; simpl; try done.
    by rewrite Hl, app_assoc.
  - unfold worker_step. destruct (workers s !! i) as [w|] eqn:Hw; [|done].
    destruct w; try done. simpl. destruct (aget (clifd s) (iget s)) as [fd|] eqn:Hc; [|done].
    injection Hv as <- <-. intros [= <-]. destruct (inv_take s i fd Hi Hw Hq Hc) as [_ Hqu].
    rewrite Hqu in Hp. cbn [run server_step]. rewrite Hp. cbn [app].
    rewrite decide_True by done. eexists. split; [reflexivity|]. split; simpl; try done.
    + rewrite Hl, Hp, <-!app_assoc. done.
    + by rewrite Ht.
Qed.

(** C13: [serv08] implements a queue of at most 32 connections: each of its
    executions, under any scheduling, shows the steps of the queue, a step for
    each return of [Accept] and for each connection a worker takes, and the
    ring with what the main thread holds is the state of the queue. *)
Theorem pool_refines n es s :
  run pool_step es (pool_init n) = Some s →
  ∃ a, run server_step (visibles es (pool_init n)) (Server [] []) = Some a
    ∧ accepted s = given a ++ pending a ∧ taken s = given a
    ∧ (main s ≠ MQuit → pending a = queue s ++ in_hand s).
Proof.
  assert (H0 : implements (pool_init n) (Server [] [])) by (split; try done; apply pool_inv_init).
  revert H0. generalize (pool_init n), (Server [] []).
  induction es as [|e es IH]; intros s0 a0 H0; simpl.
  - intros [= <-]. exists a0. split; [done|]. split_and!; try apply H0. by apply implements_pending.
  - destruct (pool_step e s0) as [s1|] eqn:Hs; [|done]. simpl. intros Hr.
    destruct (pool_step_refines e s0 s1 a0 H0 Hs) as (a1 & Ha1 & H1).
    destruct (IH s1 a1 H1 Hr) as (a & Ha & Hrest). exists a. split; [|done].
    by rewrite run_app, Ha1.
Qed.

(** * No connection is left waiting *)

(** A step that the program makes by itself: no arrival, no end of a service, no
    spurious return. *)
Definition internal (s : pool) (e : event) : Prop :=
  match e with
  | EAccept _ | ESpurious _ => False
  | EMain | ESignal _ => True
  | EWorker i => match workers s !! i with Some (WServe _) => False | _ => True end
  end.
#[global] Instance internal_dec s e : Decision (internal s e).
Proof. destruct e as [| | |i|]; simpl; try apply _. destruct (workers s !! i) as [[]|]; apply _. Defined.

Definition settle_step (e : event) (s : pool) : option pool :=
  if decide (internal s e) then pool_step e s else None.

(** The steps a thread has before it, at most. *)
Definition main_rank (m : main_pc) : nat :=
  match m with MLock _ => 9 | MPut _ => 8 | MSignal => 7 | MUnlock => 1 | MAccept | MQuit => 0 end.
Definition worker_rank (w : worker_pc) : nat :=
  match w with
  | WLock | WWoken => 5 | WTest => 4 | WTake => 3 | WUnlock _ => 2 | WCount _ => 1
  | WWait | WServe _ => 0
  end.
Definition rank (s : pool) : nat := main_rank (main s) + sum_list_with worker_rank (workers s).

Lemma rank_bound s : (rank s ≤ 9 + 5 * length (workers s))%nat.
Proof.
  unfold rank. assert (main_rank (main s) ≤ 9)%nat by (destruct (main s); simpl; lia).
  assert (sum_list_with worker_rank (workers s) ≤ 5 * length (workers s))%nat; [|lia].
  induction (workers s) as [|w l IH]; simpl; [done|]. assert (worker_rank w ≤ 5)%nat by (destruct w; simpl; lia).
  lia.
Qed.

Lemma settle_rank e s s' : settle_step e s = Some s' → (rank s' < rank s)%nat.
Proof.
  unfold settle_step, pool_step, rank. case_decide as Hi; [|done]. case_decide as Hq; [done|].
  destruct e as [fd| |k|i|i]; simpl in Hi; try done.
  - unfold main_step. destruct (main s) eqn:Hm; try case_decide; intros [= <-]; simpl; lia.
  - unfold signal_step. destruct (main s), k as [i|]; try case_decide as Hw; intros [= <-]; simpl; try lia.
    pose proof (sum_list_insert worker_rank _ _ _ WWoken Hw). simpl in *. lia.
  - unfold worker_step. destruct (workers s !! i) as [w|] eqn:Hw; [|done]. simpl.
    assert (Hs := λ w', sum_list_insert worker_rank _ _ _ w' Hw).
    destruct w; try case_decide; try done.
    5: destruct (aget (clifd s) (iget s)) as [fd|]; [|done].
    all: intros [= <-]; unfold set_worker; simpl.
    all: match goal with |- context [<[_ := ?w']> _] => specialize (Hs w') end; simpl in Hs; lia.
Qed.

Lemma pool_workers n s : reachable pool_step (pool_init n) s → length (workers s) = n.
Proof.
  apply (reachable_inv _ (λ s, length (workers s) = n)); [by simpl; rewrite repeat_length|].
  intros e s1 s2 <-.
  unfold pool_step. case_decide; [done|]. destruct e as [fd| |k|i|i].
  - destruct (main s1); try done. by intros [= <-].
  - unfold main_step. destruct (main s1); try case_decide; by intros [= <-].
  - unfold signal_step. destruct (main s1), k; try case_decide; intros [= <-]; simpl; by rewrite ?length_insert.
  - unfold worker_step. destruct (workers s1 !! i) as [w|]; [|done]. simpl.
    destruct w; try case_decide; try done; try (intros [= <-]; simpl; by rewrite length_insert).
    destruct (aget (clifd s1) (iget s1)); [|done]. intros [= <-]. simpl. by rewrite length_insert.
  - case_decide; [|done]. intros [= <-]. simpl. by rewrite length_insert.
Qed.

Section stuck.
Context (s : pool) (Hinv : pool_inv s) (Hq : main s ≠ MQuit).
Context (Hstuck : ∀ e, settle_step e s = None).

Lemma stuck_internal e : internal s e → pool_step e s = None.
Proof using Hstuck. intros Hi. specialize (Hstuck e). unfold settle_step in Hstuck. by rewrite decide_True in Hstuck. Qed.

Lemma stuck_worker i w :
  workers s !! i = Some w → (∀ fd, w ≠ WServe fd) → worker_step i s = None.
Proof using Hstuck Hq.
  intros Hw Hn. assert (Hi : internal s (EWorker i)) by (simpl; rewrite Hw; destruct w; naive_solver).
  specialize (stuck_internal _ Hi). unfold pool_step. by rewrite decide_False.
Qed.

(** The owner of the mutex can always go on. *)
Lemma stuck_owner : owner s = None.
Proof using All.
  destruct (owner s) as [[|i]|] eqn:Ho; [| |done]; exfalso.
  - assert (Hm := proj1 (pi_main s Hinv) Ho).
    assert (H1 := stuck_internal EMain I). unfold pool_step in H1. rewrite decide_False in H1 by done.
    unfold main_step in H1. destruct (main s) eqn:Hmm; try done.
    destruct (decide (WWait ∈ workers s)) as [Hw|Hw].
    + apply list_elem_of_lookup in Hw as [j Hj].
      assert (H2 := stuck_internal (ESignal (Some j)) I). unfold pool_step, signal_step in H2.
      rewrite decide_False, Hmm, decide_True in H2 by (done || congruence). done.
    + assert (H2 := stuck_internal (ESignal None) I). unfold pool_step, signal_step in H2.
      rewrite decide_False, Hmm, decide_False in H2 by (done || congruence). done.
  - destruct (lookup_lt_is_Some_2 _ _ (pi_worker s Hinv i Ho)) as [w Hw].
    assert (Hwo := proj1 (pi_owner s Hinv i w Hw) Ho).
    assert (H1 := stuck_worker i w Hw ltac:(by intros fd ->)). unfold worker_step in H1.
    rewrite Hw in H1. simpl in H1. destruct w; try done; [by case_decide|].
    destruct (aget_in_range (clifd s) (iget s)) as [fd Hfd]; [rewrite (pi_len s Hinv); apply (pi_get s Hinv)|].
    by rewrite Hfd in H1.
Qed.

Lemma stuck_accept : main s = MAccept.
Proof using All.
  assert (Ho := stuck_owner). assert (Hm := pi_main s Hinv). rewrite Ho in Hm.
  assert (H1 := stuck_internal EMain I). unfold pool_step in H1. rewrite decide_False in H1 by done.
  unfold main_step in H1. rewrite Ho in H1. destruct Hm as [_ Hm].
  by destruct (main s); [|rewrite decide_True in H1|specialize (Hm I)..|].
Qed.

Lemma stuck_asleep i w : workers s !! i = Some w → w = WWait ∨ ∃ fd, w = WServe fd.
Proof using All.
  intros Hw. assert (Ho := stuck_owner). assert (Hwo := pi_owner s Hinv i w Hw). rewrite Ho in Hwo.
  assert (H1 := stuck_worker i w Hw).
  unfold worker_step in H1. rewrite Hw in H1. simpl in H1.
  destruct Hwo as [_ Hwo]. destruct w as [| | | | |fd|fd|fd]; try (by specialize (Hwo I)).
  - rewrite Ho, decide_True in H1 by done. by specialize (H1 ltac:(done)).
  - by left.
  - rewrite Ho, decide_True in H1 by done. by specialize (H1 ltac:(done)).
  - by specialize (H1 ltac:(done)).
  - right. by exists fd.
Qed.
End stuck.

(** C14: no connection is left waiting.  Between two events of its environment
    (a connection, the end of a service, a spurious return) the server makes at
    most [9 + 5 n] steps, however they are interleaved; and when it can make no
    more of them, the main thread is back in [Accept] and either the ring is
    empty or every worker is serving a client (or the process is in
    [err_quit]): there is neither a deadlock nor a lost signal. *)
Theorem pool_settles n s :
  reachable pool_step (pool_init n) s →
  (∀ es s', run settle_step es s = Some s' → (length es ≤ 9 + 5 * n)%nat)
  ∧ ((∀ e, settle_step e s = None) → main s ≠ MQuit →
     main s = MAccept
     ∧ (queue s = [] ∨ ∀ i w, workers s !! i = Some w → ∃ fd, w = WServe fd)).
Proof.
  intros Hr. split.
  - intros es s' Hes. rewrite <-(pool_workers n s Hr).
    destruct (run_bound settle_step (λ _, True) rank es s s') as [_ Hb]; try done.
    { intros e s1 s2 _ Hs. split; [done|by apply settle_rank with e]. }
    pose proof (rank_bound s). lia.
  - intros Hstuck Hq. assert (Hinv := pool_reachable_inv n s Hr).
    split; [by apply stuck_accept|]. destruct (decide (WWait ∈ workers s)) as [Hw|Hw].
    + left. assert (Hk := pi_wake s Hinv Hq Hw). rewrite (stuck_accept s Hinv Hq Hstuck) in Hk.
      assert (Hc : count awake (workers s) = 0).
      { destruct (decide (0 < count awake (workers s))) as [Hp|]; [|pose proof (count_nonneg awake (workers s)); lia].
        destruct (count_pos awake _ Hp) as (i & w & Hi & Ha).
        by destruct (stuck_asleep s Hinv Hq Hstuck i w Hi) as [->|[fd ->]]. }
      rewrite Hc in Hk. simpl in Hk. apply nil_length_inv. unfold queue. rewrite ringl_len.
      lia.
    + right. intros i w Hi. destruct (stuck_asleep s Hinv Hq Hstuck i w Hi) as [->|Hs]; [|done].
      destruct Hw. by eapply list_elem_of_lookup_2.
Qed.

(** Two workers and four connections: the first worker waits, is woken, and both
    take connections while the main thread accepts. *)
Definition busy_run : list event :=
  [EWorker 0; EWorker 0; EAccept 7; EMain; EMain; ESignal (Some 0%nat); EMain; EAccept 8; EWorker 0;
   EWorker 0; EWorker 0; EWorker 0; EMain; EMain; ESignal None; EMain; EWorker 1; EWorker 1; EWorker 1;
   EWorker 1; EWorker 0; EAccept 9].

Definition busy_state : pool :=
  Eval vm_compute in default (pool_init 2) (run pool_step busy_run (pool_init 2)).

Lemma busy_runs : run pool_step busy_run (pool_init 2) = Some busy_state.
Proof. by vm_compute. Qed.

Lemma busy_reachable : reachable pool_step (pool_init 2) busy_state.
Proof. exists busy_run. apply busy_runs. Qed.

Lemma pool_fifo_witness :
  accepted busy_state = [7; 8; 9] ∧ taken busy_state = [7; 8]
  ∧ taken busy_state `prefix_of` accepted busy_state.
Proof.
  split_and!; [done..|]. by destruct (pool_fifo 2 busy_state busy_reachable) as [H _].
Defined.

Lemma pool_refines_witness :
  ∃ a, run server_step [RArrive 7; RArrive 8; RTake 7; RTake 8; RArrive 9] (Server [] []) = Some a
    ∧ taken busy_state = given a.
Proof.
  destruct (pool_refines 2 busy_run busy_state busy_runs) as (a & Ha & _ & Ht & _).
  exists a. split; [|exact Ht]. rewrite <-Ha. by vm_compute.
Defined.

(** The second worker goes to its service, and the main thread stores the third
    connection and signals nobody. *)
Definition busy_rest : list event := [EWorker 1; EMain; EMain; ESignal None; EMain].

Lemma busy_rest_runs : is_Some (run settle_step busy_rest busy_state).
Proof. vm_compute. eauto. Qed.

Lemma pool_settles_witness : is_Some (run settle_step busy_rest busy_state) ∧ (5 ≤ 9 + 5 * 2)%nat.
Proof.
  split; [apply busy_rest_runs|]. destruct busy_rest_runs as [s' Hs'].
  destruct (pool_settles 2 busy_state busy_reachable) as [H _]. exact (H busy_rest s' Hs').
Defined.
