(* ===== verification/Threads.v ===== *)
(** [threads/]: the programs whose threads share variables, as machines: the
    counter of [example01.c] and [example02.c], the bounded buffer of
    [example03.c] and the web client of [web03.c]. *)

From S2P Require Import Prelude Net.

(** * example01.c and example02.c *)

Module Counter.

Definition NLOOP : Z := 5000.

(** Where a thread is in [doit]; [i] is its loop variable. *)
Inductive pc :=
  | Lock (i : Z)            (* [Pthread_mutex_lock], of [example02] only *)
  | Fetch (i : Z)           (* [val = counter] *)
  | Printf (i val : Z)
  | Store (i val : Z)       (* [counter = val + 1] *)
  | Unlock (i : Z)          (* of [example02] only *)
  | Return.

#[global] Instance pc_dec : EqDecision pc.
Proof. solve_decision. Defined.

(** [printed] is what both threads have printed, the latest first. *)
Record state := State {
  counter : Z;
  counter_mutex : option nat;
  threads : list pc;
  printed : list Z
}.

(** The loop's test, before iteration [i]; [mutex] tells the two programs apart. *)
Definition loop (mutex : bool) (i : Z) : pc :=
  if decide (i < NLOOP) then (if mutex then Lock i else Fetch i) else Return.

Definition doit (mutex : bool) (t : nat) (s : state) : option state :=
  p ← threads s !! t;
  let goto m p' := State (counter s) m (<[t := p']> (threads s)) (printed s) in
  match p with
  | Lock i =>
      if decide (counter_mutex s = None) then Some (goto (Some t) (Fetch i)) else None
  | Fetch i => Some (goto (counter_mutex s) (Printf i (counter s)))
  | Printf i val =>
      Some (State (counter s) (counter_mutex s) (<[t := Store i val]> (threads s))
              (s32 (val + 1) :: printed s))
  | Store i val =>
      Some (State (s32 (val + 1)) (counter_mutex s)
              (<[t := if mutex then Unlock i else loop mutex (i + 1)]> (threads s)) (printed s))
  | Unlock i => Some (goto None (loop mutex (i + 1)))
  | Return => None
  end.

(** After [main] has made its two threads. *)
Definition init (mutex : bool) : state := State 0 None (repeat (loop mutex 0) 2) [].

End Counter.

(** * example03.c *)

Module Buffer.

Definition NLOOP : Z := 50.
Definition BUFFSIZE : Z := 10.

Inductive thread := Producer | Consumer.

(** Where a thread is in iteration [i] of its loop: in [produce] or [consume]. *)
Inductive pc :=
  | Lock (i : Z)
  | Test (i : Z)            (* [while (b_nitems ...)], owner of the mutex *)
  | Wait (i : Z)            (* blocked in [pthread_cond_wait] *)
  | Woken (i : Z)           (* there, taking the mutex again *)
  | Body (i : Z)            (* moving an item, owner of the mutex *)
  | Signal (i : Z)          (* [pthread_cond_signal] *)
  | Unlock (i : Z)
  | Return.

(** [main], after it has made the threads. *)
Inductive main_pc := JoinA | JoinB | Exited.

#[global] Instance thread_dec : EqDecision thread.
Proof. solve_decision. Defined.
#[global] Instance pc_dec : EqDecision pc.
Proof. solve_decision. Defined.
#[global] Instance main_pc_dec : EqDecision main_pc.
Proof. solve_decision. Defined.

(** [struct buf_t], the threads, and the values that [consume] has returned. *)
Record state := State {
  b_buf : list Z;
  b_nitems : Z;
  b_nextget : Z;
  b_nextput : Z;
  b_mutex : option thread;
  producer : pc;
  consumer : pc;
  main : main_pc;
  consumed : list Z
}.

Definition loop (i : Z) : pc := if decide (i < NLOOP) then Lock i else Return.

Definition set_producer (s : state) (m : option thread) (p : pc) : state :=
  State (b_buf s) (b_nitems s) (b_nextget s) (b_nextput s) m p (consumer s) (main s) (consumed s).
Definition set_consumer (s : state) (m : option thread) (p : pc) : state :=
  State (b_buf s) (b_nitems s) (b_nextget s) (b_nextput s) m (producer s) p (main s) (consumed s).

(** [if (++i >= BUFFSIZE) i = 0;] *)
Definition advance (i : Z) : Z := if decide (i + 1 >= BUFFSIZE) then 0 else i + 1.

Definition signalled (p : pc) : pc := match p with Wait i => Woken i | _ => p end.

Definition produce (s : state) : option state :=
  match producer s with
  | Lock i | Woken i =>
      if decide (b_mutex s = None) then Some (set_producer s (Some Producer) (Test i)) else None
  | Test i =>
      if decide (b_nitems s >= BUFFSIZE) then Some (set_producer s None (Wait i))
      else Some (set_producer s (b_mutex s) (Body i))
  | Wait _ => None
  | Body i =>
      Some (State (aset (b_buf s) (b_nextput s) i) (b_nitems s + 1) (b_nextget s)
              (advance (b_nextput s)) (b_mutex s) (Signal i) (consumer s) (main s) (consumed s))
  | Signal i => Some (set_producer (set_consumer s (b_mutex s) (signalled (consumer s))) (b_mutex s) (Unlock i))
  | Unlock i => Some (set_producer s None (loop (i + 1)))
  | Return => None
  end.

Definition consume (s : state) : option state :=
  match consumer s with
  | Lock i | Woken i =>
      if decide (b_mutex s = None) then Some (set_consumer s (Some Consumer) (Test i)) else None
  | Test i =>
      if decide (b_nitems s <= 0) then Some (set_consumer s None (Wait i))
      else Some (set_consumer s (b_mutex s) (Body i))
  | Wait _ => None
  | Body i =>
      val ← aget (b_buf s) (b_nextget s);
      Some (State (b_buf s) (b_nitems s - 1) (advance (b_nextget s)) (b_nextput s) (b_mutex s)
              (producer s) (Signal i) (main s) (consumed s ++ [val]))
  | Signal i => Some (set_consumer (set_producer s (b_mutex s) (signalled (producer s))) (b_mutex s) (Unlock i))
  | Unlock i => Some (set_consumer s None (loop (i + 1)))
  | Return => None
  end.

Definition joins (s : state) : option state :=
  let goto m := State (b_buf s) (b_nitems s) (b_nextget s) (b_nextput s) (b_mutex s) (producer s)
                  (consumer s) m (consumed s) in
  match main s with
  | JoinA => if decide (producer s = Return) then Some (goto JoinB) else None
  | JoinB => if decide (consumer s = Return) then Some (goto Exited) else None
  | Exited => None
  end.

Inductive event := EProducer | EConsumer | EMain | ESpurious (t : thread).

(** [ESpurious]: [pthread_cond_wait] returns without a signal. *)
Definition step (e : event) (s : state) : option state :=
  match e with
  | EProducer => produce s
  | EConsumer => consume s
  | EMain => joins s
  | ESpurious Producer =>
      match producer s with Wait i => Some (set_producer s (b_mutex s) (Woken i)) | _ => None end
  | ESpurious Consumer =>
      match consumer s with Wait i => Some (set_consumer s (b_mutex s) (Woken i)) | _ => None end
  end.

Definition init : state :=
  State (repeat 0 (Z.to_nat BUFFSIZE)) 0 0 0 None (loop 0) (loop 0) JoinA [].

End Buffer.

(** * web03.c *)

Module Web.

Definition MAXFILES : Z := 20.

Definition F_CONNECTING : Z := 1.
Definition F_READING : Z := 2.
Definition F_DONE : Z := 4.
Definition F_JOINED : Z := 8.

(** Where the thread of a file is in [do_get_read]. *)
Inductive pc :=
  | NotMade
  | Connect                 (* [Tcp_connect], [write_get_cmd] *)
  | Read                    (* reading the reply up to end-of-file, [Close] *)
  | Lock                    (* [Pthread_mutex_lock] *)
  | Count                   (* [ndone++], owner of the mutex *)
  | Signal                  (* [Pthread_cond_signal] *)
  | Unlock
  | Return.

Inductive main_pc :=
  | Start                   (* the loops' tests and the creation of a thread *)
  | MLock
  | MTest                   (* [while (ndone == 0)], owner of the mutex *)
  | MWait                   (* blocked in [Pthread_cond_wait] *)
  | MWoken                  (* there, taking the mutex again *)
  | Scan (i : nat)          (* [for (i = 0; i < nfiles; i++)] *)
  | Join (i : nat)          (* in [Pthread_join] of the thread of file [i] *)
  | Exited
  | Quit.                   (* ended by an error *)

(** Who owns [ndone_mutex]. *)
Inductive who := Main | Thread (i : nat).

#[global] Instance pc_dec : EqDecision pc.
Proof. solve_decision. Defined.
#[global] Instance main_pc_dec : EqDecision main_pc.
Proof. solve_decision. Defined.
#[global] Instance who_dec : EqDecision who.
Proof. solve_decision. Defined.

Record file := File { f_flags : Z; f_pc : pc }.

Record state := State {
  files : list file;
  maxnconn : Z;
  nconn : Z;
  nlefttoconn : Z;
  nlefttoread : Z;
  ndone : Z;
  ndone_mutex : option who;
  main : main_pc
}.

Definition set_main (s : state) (o : option who) (m : main_pc) : state :=
  State (files s) (maxnconn s) (nconn s) (nlefttoconn s) (nlefttoread s) (ndone s) o m.
Definition set_file (s : state) (i : nat) (f : file) (o : option who) : state :=
  State (<[i := f]> (files s)) (maxnconn s) (nconn s) (nlefttoconn s) (nlefttoread s) (ndone s) o
    (main s).

(** The first file whose flags are 0. *)
Fixpoint find_file (l : list file) : option nat :=
  match l with
  | [] => None
  | f :: l' => if decide (f_flags f = 0) then Some 0%nat else S <$> find_file l'
  end.

(** The test of the outer loop, then one iteration of the inner one or the end
    of it. *)
Definition start (s : state) : state :=
  if decide (nlefttoread s > 0) then
    if decide (nconn s < maxnconn s ∧ nlefttoconn s > 0) then
      match find_file (files s) with
      | None => set_main s (ndone_mutex s) Quit
      | Some i =>
          State (<[i := File F_CONNECTING Connect]> (files s)) (maxnconn s) (nconn s + 1)
            (nlefttoconn s - 1) (nlefttoread s) (ndone s) (ndone_mutex s) Start
      end
    else set_main s (ndone_mutex s) MLock
  else set_main s (ndone_mutex s) Exited.

Definition main_step (s : state) : option state :=
  match main s with
  | Start => Some (start s)
  | MLock | MWoken =>
      if decide (ndone_mutex s = None) then Some (set_main s (Some Main) MTest) else None
  | MTest =>
      if decide (ndone s = 0) then Some (set_main s None MWait)
      else Some (set_main s (ndone_mutex s) (Scan 0))
  | MWait => None
  | Scan i =>
      match files s !! i with
      | None => Some (set_main s None Start)
      | Some f =>
          if decide (Z.land (f_flags f) F_DONE ≠ 0) then Some (set_main s (ndone_mutex s) (Join i))
          else Some (set_main s (ndone_mutex s) (Scan (i + 1)))
      end
  | Join i =>
      f ← files s !! i;
      if decide (f_pc f = Return) then
        Some (State (<[i := File F_JOINED Return]> (files s)) (maxnconn s) (nconn s - 1)
                (nlefttoconn s) (nlefttoread s - 1) (ndone s - 1) (ndone_mutex s) (Scan (i + 1)))
      else None
  | Exited | Quit => None
  end.

(** [do_get_read]. *)
Definition thread_step (i : nat) (s : state) : option state :=
  f ← files s !! i;
  match f_pc f with
  | NotMade | Return => None
  | Connect => Some (set_file s i (File F_READING Read) (ndone_mutex s))
  | Read => Some (set_file s i (File F_DONE Lock) (ndone_mutex s))
  | Lock =>
      if decide (ndone_mutex s = None) then
        Some (set_file s i (File (f_flags f) Count) (Some (Thread i)))
      else None
  | Count =>
      Some (State (<[i := File (f_flags f) Signal]> (files s)) (maxnconn s) (nconn s)
              (nlefttoconn s) (nlefttoread s) (ndone s + 1) (ndone_mutex s) (main s))
  | Signal =>
      Some (State (<[i := File (f_flags f) Unlock]> (files s)) (maxnconn s) (nconn s)
              (nlefttoconn s) (nlefttoread s) (ndone s) (ndone_mutex s)
              (if decide (main s = MWait) then MWoken else main s))
  | Unlock => Some (set_file s i (File (f_flags f) Return) None)
  end.

Inductive event :=
  | EMain
  | EThread (i : nat)
  | EError (i : nat)        (* a wrapper ends the process *)
  | ESpurious.

Definition step (e : event) (s : state) : option state :=
  if decide (main s = Exited ∨ main s = Quit) then None
  else
    match e with
    | EMain => main_step s
    | EThread i => thread_step i s
    | EError i =>
        f ← files s !! i;
        if decide (f_pc f = Connect ∨ f_pc f = Read) then Some (set_main s (ndone_mutex s) Quit)
        else None
    | ESpurious => if decide (main s = MWait) then Some (set_main s (ndone_mutex s) MWoken) else None
    end.

(** After [home_page], with [nfiles] files. *)
Definition init (nfiles : nat) (maxnconn : Z) : state :=
  State (repeat (File 0 NotMade) nfiles) maxnconn 0 (Z.of_nat nfiles) (Z.of_nat nfiles) 0 None Start.

End Web.
