(* ===== verification/ThreadsSpec.v ===== *)
(** Properties of [Threads]: what the mutexes and condition variables of the
    programs of [threads/] ensure under every scheduling, and what the programs
    that lack one do. *)

From S2P Require Import Prelude Net Threads.

(** * The counter *)

Module CounterSpec.
Import Counter.

(** The values that a thread has printed, and stored. *)
Definition printed_by (p : pc) : Z :=
  match p with Lock i | Fetch i | Printf i _ => i | Store i _ | Unlock i => i + 1 | Return => NLOOP end.
Definition stored_by (p : pc) : Z :=
  match p with Lock i | Fetch i | Printf i _ | Store i _ => i | Unlock i => i + 1 | Return => NLOOP end.
Definition in_loop (p : pc) : Prop :=
  match p with
  | Lock i | Fetch i | Printf i _ | Store i _ | Unlock i => 0 <= i < NLOOP
  | Return => True
  end.
Definition owns (p : pc) : Prop := match p with Lock _ | Return => False | _ => True end.
Definition fetched (c : Z) (p : pc) : Prop :=
  match p with Printf _ val | Store _ val => val = c | _ => True end.

(** The steps before a thread. *)
Definition rank (p : pc) : Z :=
  match p with
  | Lock i => 5 * (NLOOP - i)
  | Fetch i => 5 * (NLOOP - i) - 1
  | Printf i _ => 5 * (NLOOP - i) - 2
  | Store i _ => 5 * (NLOOP - i) - 3
  | Unlock i => 5 * (NLOOP - i) - 4
  | Return => 0
  end.

Record inv (s : state) : Prop := {
  i_len : length (threads s) = 2%nat;
  i_loop t p : threads s !! t = Some p → in_loop p;
  i_own t p : threads s !! t = Some p → (counter_mutex s = Some t ↔ owns p);
  i_owner t : counter_mutex s = Some t → (t < 2)%nat;
  i_val t p : threads s !! t = Some p → fetched (counter s) p;
  i_printed : printed s = reverse (seqZ 1 (sumZ printed_by (threads s)));
  i_counter : counter s = sumZ stored_by (threads s)
}.

Definition total_rank (s : state) : nat :=
  sum_list_with (λ p, Z.to_nat (rank p)) (threads s).

Lemma counter_inv_init : inv (init true).
Proof.
  assert (H : ∀ t p, threads (init true) !! t = Some p → p = Lock 0).
  { intros [|[|t]] p; simpl; try done; by intros [= <-]. }
  split; try done; intros t p Hp; apply H in Hp as ->; done.
Qed.

Lemma counter_loop_facts i :
  0 <= i < NLOOP →
  in_loop (loop true (i + 1)) ∧ ¬ owns (loop true (i + 1)) ∧ printed_by (loop true (i + 1)) = i + 1
  ∧ stored_by (loop true (i + 1)) = i + 1 ∧ (∀ c, fetched c (loop true (i + 1)))
  ∧ rank (loop true (i + 1)) = 5 * (NLOOP - i) - 5.
Proof.
  unfold loop, NLOOP. intros Hi. case_decide; simpl; unfold NLOOP; split_and!; try done; try lia; naive_solver lia.
Qed.
(** A step of thread [t], when the mutex becomes [o] and the thread goes to [p']. *)
Lemma inv_goto s t p p' o c pr :
  inv s → threads s !! t = Some p → in_loop p' → (o = Some t ↔ owns p') →
  (∀ u, u ≠ t → (o = Some u ↔ counter_mutex s = Some u)) →
  c = counter s - stored_by p + stored_by p' → fetched c p' → (c = counter s ∨ owns p) →
  pr = reverse (seqZ 1 (sumZ printed_by (threads s) - printed_by p + printed_by p')) →
  inv (State c o (<[t := p']> (threads s)) pr).
Proof.
  intros [Hl Hlo Ho Hw Hv Hp Hc] Ht Hp' Hot Hou Hcc Hf Hcs Hpr. assert (Hlt := lookup_lt_Some _ _ _ Ht).
  assert (Hcase : ∀ u q, <[t := p']> (threads s) !! u = Some q →
            u = t ∧ q = p' ∨ u ≠ t ∧ threads s !! u = Some q).
  { intros u q Hu. destruct (decide (u = t)) as [->|Hn].
    - rewrite list_lookup_insert_eq in Hu by done. left. by injection Hu.
    - rewrite list_lookup_insert_ne in Hu by done. by right. }
  split; simpl; try done.
  - by rewrite length_insert.
  - intros u q [[_ ->]|[_ Hu]]%Hcase; [done|]. by apply (Hlo u).
  - intros u q [[-> ->]|[Hn Hu]]%Hcase; [done|]. rewrite (Hou u Hn). by apply Ho.
  - intros u Hu. destruct (decide (u = t)) as [->|Hn]; [by rewrite <-Hl|]. by apply Hw, Hou.
  - intros u q [[_ ->]|[Hn Hu]]%Hcase; [done|]. destruct Hcs as [->|Hown]; [by apply (Hv u)|].
    assert (Hnot : ¬ owns q).
    { intros Hq. apply (Ho u q Hu) in Hq. apply (Ho t p Ht) in Hown. congruence. }
    by destruct q.
  - by rewrite (sumZ_insert _ _ _ _ _ Ht).
  - rewrite (sumZ_insert _ _ _ _ _ Ht). lia.
Qed.

(** A thread has stores to make: the counter is below its last value. *)
Lemma counter_bound s t p :
  inv s → threads s !! t = Some p → stored_by p < NLOOP → 0 <= counter s < 2 * NLOOP.
Proof.
  intros [Hl Hlo Ho Hw Hv Hp Hc] Ht Hi. rewrite Hc.
  assert (Hlb : ∀ u q, threads s !! u = Some q → 0 <= stored_by q <= NLOOP).
  { intros u q Hu. specialize (Hlo u q Hu). destruct q; simpl in *; unfold NLOOP in *; lia. }
  assert (Hb := sumZ_insert stored_by _ _ _ Return Ht). simpl in Hb.
  assert (0 <= sumZ stored_by (<[t := Return]> (threads s)) <= 2 * NLOOP).
  { change 2 with (Z.of_nat 2). rewrite <-Hl, <-(length_insert (threads s) t Return).
    apply sumZ_bound. intros u q Hu. apply list_lookup_insert_Some in Hu as [(_ & <- & _)|[_ Hu]];
      [done|by apply (Hlb u)]. }
  assert (0 <= sumZ stored_by (threads s) <= Z.of_nat (length (threads s)) * NLOOP)
    by (by apply sumZ_bound). lia.
Qed.

(** The thread that prints is alone between its mutex calls. *)
Lemma print_counter s t i val :
  inv s → threads s !! t = Some (Printf i val) → val = sumZ printed_by (threads s).
Proof.
  intros [Hl Hlo Ho Hw Hv Hp Hc] Ht. rewrite (Hv t _ Ht), Hc.
  apply sumZ_ext. intros u q Hu. destruct q as [j|j|j v|j v|j|]; try done. exfalso.
  assert (Hou := proj2 (Ho u _ Hu) I). assert (Hot := proj2 (Ho t _ Ht) I).
  assert (u = t) as -> by congruence. congruence.
Qed.

Lemma s32_counter c : 0 <= c < 2 * NLOOP → s32 (c + 1) = c + 1.
Proof. unfold NLOOP. intros H. apply s32_small. lia. Qed.

Lemma reverse_seqZ_snoc n : 0 <= n → reverse (seqZ 1 (n + 1)) = (n + 1) :: reverse (seqZ 1 n).
Proof.
  intros Hn. rewrite seqZ_app, reverse_app by lia. replace (seqZ (1 + n) 1) with [n + 1]; [done|].
  replace (1 + n) with (n + 1) by lia. done.
Qed.

Lemma inv_step t s s' : inv s → doit true t s = Some s' → inv s'.
Proof.
  intros Hinv. unfold doit. destruct (threads s !! t) as [p|] eqn:Ht; [|done]. simpl.
  assert (Hi := i_loop s Hinv t p Ht). assert (Ho := i_own s Hinv t p Ht).
  assert (Hv := i_val s Hinv t p Ht). assert (Hp := i_printed s Hinv).
  destruct p as [i|i|i v|i v|i|]; simpl in *; try done.
  - case_decide as Hn; [|done]. intros [= <-].
    apply inv_goto with (p := Lock i); simpl; try done; try lia.
    + intros u Hu. rewrite Hn. naive_solver.
    + rewrite Hp. do 2 f_equal. lia.
  - intros [= <-]. apply inv_goto with (p := Fetch i); simpl; try done; try lia.
    + rewrite Hp. do 2 f_equal. lia.
  - assert (Hb := counter_bound s t _ Hinv Ht ltac:(simpl; lia)).
    assert (Heq := print_counter s t i v Hinv Ht). intros [= <-].
    apply inv_goto with (p := Printf i v); simpl; try done; try lia.
    rewrite Hp, Hv, s32_counter by done. rewrite <-Heq, Hv.
    replace (counter s - i + (i + 1)) with (counter s + 1) by lia.
    by rewrite reverse_seqZ_snoc by lia.
  - assert (Hb := counter_bound s t _ Hinv Ht ltac:(simpl; lia)). intros [= <-].
    rewrite Hv, s32_counter by done.
    apply inv_goto with (p := Store i v); simpl; try done; try lia.
    rewrite Hp. do 2 f_equal. lia.
  - destruct (counter_loop_facts i Hi) as (H1 & H2 & H3 & H4 & H5 & _). intros [= <-].
    apply inv_goto with (p := Unlock i); simpl; try done; rewrite ?H3, ?H4; try lia.
    + intros u Hu. rewrite (proj2 Ho I). naive_solver.
    + rewrite Hp. do 2 f_equal. lia.
Qed.

Lemma step_rank t s s' : inv s → doit true t s = Some s' → (total_rank s' < total_rank s)%nat.
Proof.
  intros Hinv. unfold doit, total_rank. destruct (threads s !! t) as [p|] eqn:Ht; [|done]. simpl.
  assert (Hi := i_loop s Hinv t p Ht). assert (Hs := λ p', sum_list_insert (λ p, Z.to_nat (rank p)) _ _ _ p' Ht).
  destruct p as [i|i|i v|i v|i|]; simpl in Hi; try done; [case_decide; [|done]|..].
  all: intros [= <-]; cbn [threads]; match goal with |- context [<[_ := ?w']> _] => specialize (Hs w') end.
  all: try (simpl in Hs |- *; lia).
  destruct (counter_loop_facts i Hi) as (_ & _ & _ & _ & _ & Hr). simpl in Hs |- *. rewrite Hr in Hs. lia.
Qed.

(** A thread that cannot go on, when none can, has returned. *)
Lemma stuck_return s t p :
  inv s → (∀ u, doit true u s = None) → threads s !! t = Some p → p = Return.
Proof.
  intros Hinv Hstuck Ht.
  assert (Hno : ∀ u q, threads s !! u = Some q → ¬ owns q).
  { intros u q Hu Hq. specialize (Hstuck u). unfold doit in Hstuck. rewrite Hu in Hstuck.
    simpl in Hstuck. by destruct q. }
  assert (Hm : counter_mutex s = None).
  { destruct (counter_mutex s) as [u|] eqn:Hu; [|done]. exfalso.
    assert (Hlt := i_owner s Hinv u Hu). rewrite <-(i_len s Hinv) in Hlt.
    destruct (lookup_lt_is_Some_2 _ _ Hlt) as [q Hq]. apply (Hno u q Hq).
    by apply (i_own s Hinv u q Hq). }
  specialize (Hno t p Ht). specialize (Hstuck t). unfold doit in Hstuck. rewrite Ht in Hstuck.
  simpl in Hstuck. destruct p; try done; try (by destruct (Hno I)).
  by rewrite decide_True in Hstuck.
Qed.

(** The two threads of [example02] count to 10000: whatever their
    interleaving, they make at most 50000 steps, one of them can always go on
    until both have returned, what they have printed is 1, 2, 3, ... in this
    order, and in the end the counter is 10000. *)
Theorem example02_counts es s :
  run (doit true) es (init true) = Some s →
  Z.of_nat (length es) <= 50000
  ∧ (∃ n, printed s = reverse (seqZ 1 n))
  ∧ ((∀ t, doit true t s = None) →
     threads s = [Return; Return] ∧ counter s = 10000 ∧ printed s = reverse (seqZ 1 10000)).
Proof.
  intros Hr.
  destruct (run_bound (doit true) inv total_rank es (init true) s counter_inv_init) as [Hinv Hb]; [|done|].
  { intros t s1 s2 H1 Hs. split; [by eapply inv_step|by eapply step_rank]. }
  split; [assert (Z.of_nat (total_rank (init true)) = 50000) by done; lia|].
  split; [exists (sumZ printed_by (threads s)); apply Hinv|]. intros Hstuck.
  assert (Hret := λ t p, stuck_return s t p Hinv Hstuck).
  assert (Hth : threads s = [Return; Return]).
  { assert (Hl := i_len s Hinv). destruct (threads s) as [|p0 [|p1 [|]]]; try done.
    by rewrite (Hret 0%nat p0 eq_refl), (Hret 1%nat p1 eq_refl). }
  split; [done|]. split.
  - by rewrite (i_counter s Hinv), Hth.
  - by rewrite (i_printed s Hinv), Hth.
Qed.

(** The threads in turn: each has the mutex for an iteration. *)
Lemma example02_counts_witness :
  ∃ s, run (doit true) [0; 0; 0; 0; 0; 1; 1; 1]%nat (init true) = Some s ∧ printed s = [2; 1]
    ∧ ∃ n, printed s = reverse (seqZ 1 n).
Proof.
  eexists. split; [reflexivity|]. split; [reflexivity|].
  by destruct (example02_counts [0; 0; 0; 0; 0; 1; 1; 1]%nat _ eq_refl) as (_ & H & _).
Defined.

(** [example01] has no mutex: what a thread prints can be less than what the
    other one has printed before. *)
Lemma example01_decreases :
  ∃ es s, run (doit false) es (init false) = Some s ∧ printed s = [1; 2; 1].
Proof. exists [0; 1; 1; 1; 1; 1; 1; 0]%nat. eexists. by split; [reflexivity|]. Qed.

End CounterSpec.

(** * The bounded buffer *)

Module BufferSpec.
Import Buffer.

(** The iterations that a thread has finished, as to the buffer. *)
Definition moved (p : pc) : Z :=
  match p with
  | Lock i | Test i | Wait i | Woken i | Body i => i
  | Signal i | Unlock i => i + 1
  | Return => NLOOP
  end.
Definition in_loop (p : pc) : Prop :=
  match p with
  | Lock i | Test i | Wait i | Woken i | Body i | Signal i | Unlock i => 0 <= i < NLOOP
  | Return => True
  end.
Definition owns (p : pc) : Prop :=
  match p with Test _ | Body _ | Signal _ | Unlock _ => True | _ => False end.
Definition signals (p : pc) : Prop := match p with Signal _ => True | _ => False end.
Definition waits (p : pc) : Prop := match p with Wait _ => True | _ => False end.

(** What is in the buffer, the oldest first. *)
Definition items (s : state) : list Z :=
  ringl BUFFSIZE (λ k, default 0 (aget (b_buf s) k)) (b_nextget s) (b_nitems s).

Record inv (s : state) : Prop := {
  i_buf : Z.of_nat (length (b_buf s)) = BUFFSIZE;
  i_get : 0 <= b_nextget s < BUFFSIZE;
  i_put : b_nextput s = (b_nextget s + b_nitems s) mod BUFFSIZE;
  i_items : 0 <= b_nitems s <= BUFFSIZE;
  i_loop : in_loop (producer s) ∧ in_loop (consumer s);
  i_prod : b_mutex s = Some Producer ↔ owns (producer s);
  i_cons : b_mutex s = Some Consumer ↔ owns (consumer s);
  i_room : ∀ i, producer s = Body i → b_nitems s < BUFFSIZE;
  i_data : ∀ i, consumer s = Body i → 0 < b_nitems s;
  i_fifo : seqZ 0 (moved (producer s)) = consumed s ++ items s;
  i_count : Z.of_nat (length (consumed s)) = moved (consumer s);
  i_pwait : waits (producer s) → b_nitems s = BUFFSIZE ∨ signals (consumer s);
  i_cwait : waits (consumer s) → b_nitems s = 0 ∨ signals (producer s);
  i_main : (main s = Buffer.JoinA ∨ producer s = Return) ∧ (main s = Exited → consumer s = Return)
}.

Lemma buffer_inv_init : inv init.
Proof. split; simpl; try done; split; by try left. Qed.

Lemma buffer_loop_facts i :
  0 <= i < NLOOP →
  in_loop (loop (i + 1)) ∧ ¬ owns (loop (i + 1)) ∧ moved (loop (i + 1)) = i + 1
  ∧ ¬ waits (loop (i + 1)) ∧ ¬ signals (loop (i + 1)) ∧ ∀ j, loop (i + 1) ≠ Body j.
Proof.
  unfold loop, NLOOP. intros Hi. case_decide; simpl; unfold NLOOP; split_and!; try done; try lia.
Qed.

(** A thread that moves on without touching the buffer. *)
Lemma inv_set_producer s o p :
  inv s → in_loop p → (o = Some Producer ↔ owns p) → (o = Some Consumer ↔ b_mutex s = Some Consumer) →
  moved p = moved (producer s) → (∀ i, p = Body i → b_nitems s < BUFFSIZE) →
  (waits p → b_nitems s = BUFFSIZE) → (signals p ∨ ¬ signals (producer s) ∨ ¬ waits (consumer s)) →
  producer s ≠ Return → inv (set_producer s o p).
Proof.
  intros [Hb Hg Hp Hi [Hl1 Hl2] Ho1 Ho2 Hr Hd Hf Hc Hw1 Hw2 [Hm1 Hm2]] Hl Hop Hoc Hmv Hbody Hw Hs Hn.
  split; simpl; try done.
  - by rewrite Hoc.
  - by rewrite Hmv.
  - intros Hw'. left. by apply Hw.
  - intros Hw'. destruct (Hw2 Hw') as [|Hsig]; [by left|]. naive_solver.
  - naive_solver.
Qed.

Lemma inv_set_consumer s o p :
  inv s → in_loop p → (o = Some Consumer ↔ owns p) → (o = Some Producer ↔ b_mutex s = Some Producer) →
  moved p = moved (consumer s) → (∀ i, p = Body i → 0 < b_nitems s) →
  (waits p → b_nitems s = 0) → (signals p ∨ ¬ signals (consumer s) ∨ ¬ waits (producer s)) →
  consumer s ≠ Return → inv (set_consumer s o p).
Proof.
  intros [Hb Hg Hp Hi [Hl1 Hl2] Ho1 Ho2 Hr Hd Hf Hc Hw1 Hw2 [Hm1 Hm2]] Hl Hop Hoc Hmv Hbody Hw Hs Hn.
  split; simpl; try done.
  - by rewrite Hoc.
  - by rewrite Hmv.
  - intros Hw'. destruct (Hw1 Hw') as [|Hsig]; [by left|]. naive_solver.
  - intros Hw'. left. by apply Hw.
  - naive_solver.
Qed.

(** A signal to the other thread: its mutex is taken, so that it is waiting or outside. *)
Lemma inv_signal_consumer s :
  inv s → b_mutex s = Some Producer → signals (producer s) →
  inv (set_consumer s (b_mutex s) (signalled (consumer s))).
Proof.
  intros Hinv Ho Hs. assert (Hc := i_cons s Hinv). assert (Hl := i_loop s Hinv).
  destruct (consumer s) as [i|i|i|i|i|i|i|] eqn:Hcon; simpl.
  3: apply inv_set_consumer; rewrite ?Hcon; simpl; naive_solver.
  all: replace (set_consumer s _ _) with s; [done|]; rewrite <-Hcon; by destruct s.
Qed.

Lemma inv_signal_producer s :
  inv s → b_mutex s = Some Consumer → signals (consumer s) →
  inv (set_producer s (b_mutex s) (signalled (producer s))).
Proof.
  intros Hinv Ho Hs. assert (Hc := i_prod s Hinv). assert (Hl := i_loop s Hinv).
  destruct (producer s) as [i|i|i|i|i|i|i|] eqn:Hcon; simpl.
  3: apply inv_set_producer; rewrite ?Hcon; simpl; naive_solver.
  all: replace (set_producer s _ _) with s; [done|]; rewrite <-Hcon; by destruct s.
Qed.

Lemma advance_mod i : 0 <= i < BUFFSIZE → advance i = (i + 1) mod BUFFSIZE ∧ 0 <= advance i < BUFFSIZE.
Proof.
  unfold advance, BUFFSIZE. intros Hi. case_decide as Hd.
  - replace (i + 1) with 10 by lia. done.
  - rewrite Z.mod_small; lia.
Qed.

(** The producer puts [i]. *)
Lemma buffer_inv_put s i :
  inv s → producer s = Body i →
  inv (State (aset (b_buf s) (b_nextput s) i) (b_nitems s + 1) (b_nextget s)
        (advance (b_nextput s)) (b_mutex s) (Signal i) (consumer s) (main s) (consumed s)).
Proof.
  intros [Hb Hg Hp Hi [Hl1 Hl2] Ho1 Ho2 Hr Hd Hf Hc Hw1 Hw2 [Hm1 Hm2]] Hpr.
  assert (Hroom := Hr i Hpr). rewrite Hpr in *. simpl in *.
  assert (Hpb : 0 <= b_nextput s < BUFFSIZE) by (rewrite Hp; by apply Z.mod_pos_bound).
  destruct (advance_mod _ Hpb) as [Hadv Hab].
  split; simpl; try done; rewrite ?aset_length; try done; try lia.
  - rewrite Hadv, Hp, Z.add_mod_idemp_l by done. f_equal. lia.
  - assert (Hit : items s = ringl BUFFSIZE (λ k, default 0 (aget (aset (b_buf s) (b_nextput s) i) k))
                              (b_nextget s) (b_nitems s)).
    { apply ringl_ext. intros k Hk. f_equal. symmetry. apply aget_aset_ne. rewrite Hp.
      apply not_eq_sym, ring_apart; [done|done|lia]. }
    rewrite seqZ_app, Hf, Hit by lia. unfold items. simpl.
    rewrite ringl_snoc, <-Hp, aget_aset_eq by lia. simpl. by rewrite <-app_assoc.
  - naive_solver.
Qed.

(** The consumer takes the oldest item. *)
Lemma inv_get s i val :
  inv s → consumer s = Body i → aget (b_buf s) (b_nextget s) = Some val →
  inv (State (b_buf s) (b_nitems s - 1) (advance (b_nextget s)) (b_nextput s) (b_mutex s)
         (producer s) (Signal i) (main s) (consumed s ++ [val])).
Proof.
  intros [Hb Hg Hp Hi [Hl1 Hl2] Ho1 Ho2 Hr Hd Hf Hc Hw1 Hw2 [Hm1 Hm2]] Hcon Hval.
  assert (Hdata := Hd i Hcon). rewrite Hcon in *. simpl in *.
  destruct (advance_mod _ Hg) as [Hadv Hab].
  split; simpl; try done; try lia.
  - rewrite Hadv, Hp, Z.add_mod_idemp_l by done. f_equal. lia.
  - rewrite Hf. unfold items. simpl. rewrite (ringl_cons BUFFSIZE) by done. rewrite Hval, Hadv.
    by rewrite <-app_assoc.
  - rewrite length_app. simpl. lia.
  - naive_solver.
Qed.

Lemma produce_inv s s' : inv s → produce s = Some s' → inv s'.
Proof.
  intros Hinv. assert (Hl := proj1 (i_loop s Hinv)). assert (Ho := i_prod s Hinv).
  assert (Hi := i_items s Hinv). unfold produce.
  destruct (producer s) as [i|i|i|i|i|i|i|] eqn:Hp; try done; simpl in Hl, Ho.
  - case_decide as Hn; [|done]. intros [= <-]. apply inv_set_producer; rewrite ?Hp; simpl; naive_solver.
  - case_decide as Hn; intros [= <-]; apply inv_set_producer; rewrite ?Hp; simpl; naive_solver lia.
  - case_decide as Hn; [|done]. intros [= <-]. apply inv_set_producer; rewrite ?Hp; simpl; naive_solver.
  - intros [= <-]. by apply buffer_inv_put.
  - intros [= <-]. assert (Hs : inv (set_consumer s (b_mutex s) (signalled (consumer s)))).
    { apply inv_signal_consumer; [done|by apply Ho|by rewrite Hp]. }
    apply (inv_set_producer _ (b_mutex s) (Unlock i)) in Hs; simpl; rewrite ?Hp; simpl; try done.
    right. right. by destruct (consumer s); intros [].
  - intros [= <-]. destruct (buffer_loop_facts i Hl) as (H1 & H2 & H3 & H4 & H5 & H6).
    apply inv_set_producer; rewrite ?Hp, ?H3; simpl; naive_solver.
Qed.

Lemma consume_inv s s' : inv s → consume s = Some s' → inv s'.
Proof.
  intros Hinv. assert (Hl := proj2 (i_loop s Hinv)). assert (Ho := i_cons s Hinv).
  assert (Hi := i_items s Hinv). unfold consume.
  destruct (consumer s) as [i|i|i|i|i|i|i|] eqn:Hp; try done; simpl in Hl, Ho.
  - case_decide as Hn; [|done]. intros [= <-]. apply inv_set_consumer; rewrite ?Hp; simpl; naive_solver.
  - case_decide as Hn; intros [= <-]; apply inv_set_consumer; rewrite ?Hp; simpl; naive_solver lia.
  - case_decide as Hn; [|done]. intros [= <-]. apply inv_set_consumer; rewrite ?Hp; simpl; naive_solver.
  - destruct (aget (b_buf s) (b_nextget s)) as [val|] eqn:Hv; [|done]. intros [= <-]. by apply inv_get.
  - intros [= <-]. assert (Hs : inv (set_producer s (b_mutex s) (signalled (producer s)))).
    { apply inv_signal_producer; [done|by apply Ho|by rewrite Hp]. }
    apply (inv_set_consumer _ (b_mutex s) (Unlock i)) in Hs; simpl; rewrite ?Hp; simpl; try done.
    right. right. by destruct (producer s); intros [].
  - intros [= <-]. destruct (buffer_loop_facts i Hl) as (H1 & H2 & H3 & H4 & H5 & H6).
    apply inv_set_consumer; rewrite ?Hp, ?H3; simpl; naive_solver.
Qed.

Lemma joins_inv s s' : inv s → joins s = Some s' → inv s'.
Proof.
  intros [Hb Hg Hp Hi Hl Ho1 Ho2 Hr Hd Hf Hc Hw1 Hw2 [Hm1 Hm2]]. unfold joins.
  destruct (main s); try done; (case_decide as Hret; [|done]); intros [= <-]; split; simpl; try done;
    naive_solver.
Qed.

Lemma buffer_step_inv e s s' : inv s → step e s = Some s' → inv s'.
Proof.
  intros Hinv. destruct e as [| | |t]; simpl.
  - by apply produce_inv.
  - by apply consume_inv.
  - by apply joins_inv.
  - destruct t.
    + assert (Hl := proj1 (i_loop s Hinv)). assert (Ho := i_prod s Hinv).
      destruct (producer s) eqn:Hp; try done. intros [= <-].
      apply inv_set_producer; rewrite ?Hp; simpl; naive_solver.
    + assert (Hl := proj2 (i_loop s Hinv)). assert (Ho := i_cons s Hinv).
      destruct (consumer s) eqn:Hp; try done. intros [= <-].
      apply inv_set_consumer; rewrite ?Hp; simpl; naive_solver.
Qed.

(** * Termination *)

(** The steps before a thread; a signal costs what it gives to the other. *)
Definition rank (p : pc) : Z :=
  match p with
  | Lock i | Woken i => 8 * (NLOOP - 1 - i) + 7
  | Test i => 8 * (NLOOP - 1 - i) + 6
  | Wait i | Body i => 8 * (NLOOP - 1 - i) + 5
  | Signal i => 8 * (NLOOP - 1 - i) + 4
  | Unlock i => 8 * (NLOOP - 1 - i) + 1
  | Return => 0
  end.
Definition main_rank (m : main_pc) : Z := match m with JoinA => 2 | JoinB => 1 | Exited => 0 end.
Definition total_rank (s : state) : Z :=
  rank (producer s) + rank (consumer s) + main_rank (main s).

Lemma rank_pos p : in_loop p → 0 <= rank p.
Proof. unfold NLOOP. destruct p; simpl; unfold NLOOP; lia. Qed.

Lemma rank_loop i : in_loop (Unlock i) → rank (loop (i + 1)) < rank (Unlock i).
Proof. unfold loop. simpl. case_decide; simpl; unfold NLOOP in *; lia. Qed.

Lemma rank_signalled p : rank (signalled p) <= rank p + 2.
Proof. destruct p; simpl; lia. Qed.

(** The steps that need no spurious return. *)
Definition quiet_step (e : event) (s : state) : option state :=
  match e with ESpurious _ => None | _ => step e s end.

Lemma quiet_rank e s s' :
  inv s → quiet_step e s = Some s' → 0 <= total_rank s' < total_rank s.
Proof.
  intros Hinv Hs. assert (Hinv' : inv s') by (apply (buffer_step_inv e s); by destruct e).
  destruct (i_loop s' Hinv') as [H1%rank_pos H2%rank_pos].
  assert (0 <= main_rank (main s')) by (by destruct (main s')).
  split; [unfold total_rank; lia|]. destruct (i_loop s Hinv) as [Hl1 Hl2].
  revert Hs. unfold total_rank. destruct e; simpl; try done.
  - unfold produce. destruct (producer s) as [i|i|i|i|i|i|i|] eqn:Hp; try done.
    1-4: try case_decide; try done; intros [= <-]; simpl; lia.
    + intros [= <-]. simpl. pose proof (rank_signalled (consumer s)). lia.
    + intros [= <-]. pose proof (rank_loop i Hl1). simpl in *. lia.
  - unfold consume. destruct (consumer s) as [i|i|i|i|i|i|i|] eqn:Hp; try done.
    1-3: case_decide; try done; intros [= <-]; simpl; lia.
    + destruct (aget (b_buf s) (b_nextget s)); [|done]. intros [= <-]. simpl. lia.
    + intros [= <-]. simpl. pose proof (rank_signalled (producer s)). lia.
    + intros [= <-]. pose proof (rank_loop i Hl2). simpl in *. lia.
  - unfold joins. destruct (main s); try done; (case_decide; [|done]); intros [= <-]; simpl; lia.
Qed.

(** * Deadlock *)

Section stuck.
Context (s : state) (Hinv : inv s) (Hstuck : ∀ e, quiet_step e s = None).

Lemma stuck_mutex : b_mutex s = None.
Proof using All.
  assert (Hp := Hstuck EProducer). assert (Hc := Hstuck EConsumer). simpl in Hp, Hc.
  unfold produce in Hp. unfold consume in Hc.
  destruct (b_mutex s) as [[|]|] eqn:Ho; [| |done]; exfalso.
  - assert (H1 := proj1 (i_prod s Hinv) Ho). destruct (producer s); try done.
    by destruct (decide (b_nitems s >= BUFFSIZE)).
  - assert (H1 := proj1 (i_cons s Hinv) Ho). destruct (consumer s) as [i|i|i|i|i|i|i|] eqn:Hco; try done.
    + by destruct (decide (b_nitems s <= 0)).
    + destruct (aget_in_range (b_buf s) (b_nextget s)) as [v Hv]; [|by rewrite Hv in Hc].
      rewrite (i_buf s Hinv). apply Hinv.
Qed.

Lemma stuck_waits p i :
  (p = producer s ∨ p = consumer s) → p = Lock i ∨ p = Woken i → False.
Proof using All.
  intros Hw Hpc. assert (Hp := Hstuck EProducer). assert (Hc := Hstuck EConsumer). simpl in Hp, Hc.
  unfold produce in Hp. unfold consume in Hc. rewrite stuck_mutex in Hp, Hc.
  destruct Hw as [-> | ->], Hpc as [Heq|Heq];
    first [by rewrite Heq, decide_True in Hp|by rewrite Heq, decide_True in Hc].
Qed.

Lemma stuck_producer : producer s = Return ∨ waits (producer s).
Proof using All.
  assert (Ho := i_prod s Hinv). rewrite stuck_mutex in Ho. destruct Ho as [_ Ho].
  destruct (producer s) as [i|i|i|i|i|i|i|] eqn:Hp; try (by specialize (Ho I)); try (by right); try (by left).
  all: destruct (stuck_waits (producer s) i); rewrite ?Hp; auto.
Qed.

Lemma stuck_consumer : consumer s = Return ∨ waits (consumer s).
Proof using All.
  assert (Ho := i_cons s Hinv). rewrite stuck_mutex in Ho. destruct Ho as [_ Ho].
  destruct (consumer s) as [i|i|i|i|i|i|i|] eqn:Hp; try (by specialize (Ho I)); try (by right); try (by left).
  all: destruct (stuck_waits (consumer s) i); rewrite ?Hp; auto.
Qed.

Lemma items_moved : moved (producer s) = moved (consumer s) + b_nitems s.
Proof using Hinv.
  assert (Hf := f_equal length (i_fifo s Hinv)). assert (Hc := i_count s Hinv).
  rewrite length_app, length_seqZ in Hf. unfold items in Hf. rewrite ringl_len in Hf.
  assert (Hi := i_items s Hinv). destruct (i_loop s Hinv) as [Hl _].
  assert (0 <= moved (producer s)) by (destruct (producer s); simpl in *; unfold NLOOP in *; lia).
  lia.
Qed.

Lemma stuck_returned : producer s = Return ∧ consumer s = Return.
Proof using All.
  assert (Hm := items_moved). destruct (i_loop s Hinv) as [Hl1 Hl2].
  assert (Hpw := i_pwait s Hinv). assert (Hcw := i_cwait s Hinv). assert (Hi := i_items s Hinv).
  unfold BUFFSIZE in *.
  destruct stuck_producer as [Hp|Hp], stuck_consumer as [Hc|Hc]; [done|exfalso..].
  - rewrite Hp in *. destruct (consumer s); try done. simpl in *. naive_solver lia.
  - rewrite Hc in *. destruct (producer s); try done. simpl in *. naive_solver lia.
  - destruct (consumer s), (producer s); try done. simpl in *. naive_solver lia.
Qed.

Lemma stuck_exited : main s = Exited ∧ consumed s = seqZ 0 NLOOP.
Proof using All.
  destruct stuck_returned as [Hp Hc]. assert (Hj := Hstuck EMain). simpl in Hj. unfold joins in Hj.
  rewrite Hp, Hc in Hj. split; [by destruct (main s)|].
  assert (Hm := items_moved). assert (Hf := i_fifo s Hinv). rewrite Hp, Hc in Hm. rewrite Hp in Hf.
  simpl in Hm, Hf. unfold items in Hf. replace (b_nitems s) with 0 in Hf by lia.
  by rewrite app_nil_r in Hf.
Qed.
End stuck.

(** C15: the producer and the consumer of [example03] end, and lose nothing:
    under any scheduling the buffer holds at most 10 items, and what has been
    consumed and what it holds are the values 0, 1, 2, ... in order; without
    spurious returns the program makes at most 800 steps; and it can always make
    one until [main] exits, when the values consumed are 0, ..., 49. *)
Theorem example03_ends s :
  reachable step init s →
  0 <= b_nitems s <= 10
  ∧ (∃ n, 0 <= n <= 50 ∧ consumed s ++ items s = seqZ 0 n)
  ∧ (∀ es s', run quiet_step es s = Some s' → Z.of_nat (length es) <= 800)
  ∧ ((∀ e, quiet_step e s = None) → main s = Exited ∧ consumed s = seqZ 0 50).
Proof.
  intros Hr. assert (Hinv : inv s).
  { revert Hr. apply reachable_inv; [apply buffer_inv_init|]. intros e s1 s2. apply buffer_step_inv. }
  destruct (i_loop s Hinv) as [Hl1 Hl2].
  split; [apply (i_items s Hinv)|]. split.
  { exists (moved (producer s)). split; [|symmetry; apply (i_fifo s Hinv)].
    destruct (producer s); simpl in *; unfold NLOOP in *; lia. }
  split; [|by apply stuck_exited]. intros es s' Hes.
  destruct (run_bound quiet_step inv (λ s, Z.to_nat (total_rank s)) es s s' Hinv) as [_ Hb]; [|done|].
  { intros e s1 s2 H1 Hs. split; [apply (buffer_step_inv e s1); [done|by destruct e]|].
    pose proof (quiet_rank e s1 s2 H1 Hs). lia. }
  assert (total_rank s <= 800); [|lia]. unfold total_rank.
  assert (main_rank (main s) <= 2) by (by destruct (main s)).
  assert (∀ p, in_loop p → rank p <= 399) as Hrk by (intros []; simpl; unfold NLOOP; lia).
  pose proof (Hrk _ Hl1). pose proof (Hrk _ Hl2). lia.
Qed.

(** The consumer comes first, waits, and is woken by the first item. *)
Definition first_item : list event :=
  [EConsumer; EConsumer; EProducer; EProducer; EProducer; EProducer; EProducer; EConsumer; EConsumer;
   EConsumer].
Definition first_state : state := Eval vm_compute in default init (run step first_item init).

Lemma first_runs : run step first_item init = Some first_state.
Proof. by vm_compute. Qed.

Lemma example03_ends_witness :
  consumed first_state = [0] ∧ ∃ n, 0 <= n <= 50 ∧ consumed first_state ++ items first_state = seqZ 0 n.
Proof.
  split; [reflexivity|].
  destruct (example03_ends first_state) as (_ & H & _); [|exact H].
  exists first_item. apply first_runs.
Defined.
End BufferSpec.

(** * The web client *)

Module WebSpec.
Import Web.

Definition ok (f : file) : Prop :=
  match f_pc f with
  | NotMade => f_flags f = 0
  | Connect => f_flags f = F_CONNECTING
  | Read => f_flags f = F_READING
  | Lock | Count | Signal | Unlock => f_flags f = F_DONE
  | Return => f_flags f = F_DONE ∨ f_flags f = F_JOINED
  end.

(** What the four counters of the program count. *)
Definition active (f : file) : Prop := f_flags f ≠ 0 ∧ f_flags f ≠ F_JOINED.
Definition idle (f : file) : Prop := f_flags f = 0.
Definition unread (f : file) : Prop := f_flags f ≠ F_JOINED.
Definition counted (f : file) : Prop :=
  f_flags f = F_DONE ∧ (f_pc f = Signal ∨ f_pc f = Unlock ∨ f_pc f = Return).
#[global] Instance active_dec f : Decision (active f) := and_dec _ _.
#[global] Instance idle_dec f : Decision (idle f) := decide (f_flags f = 0).
#[global] Instance unread_dec f : Decision (unread f) := decide (f_flags f ≠ F_JOINED).
#[global] Instance counted_dec f : Decision (counted f) := and_dec _ _.

Definition owns (p : pc) : Prop := match p with Count | Signal | Unlock => True | _ => False end.
Definition main_owns (m : main_pc) : Prop :=
  match m with MTest | Scan _ | Join _ => True | _ => False end.
Definition main_blocks (m : main_pc) : Prop :=
  match m with MLock | MTest | MWait | MWoken => True | _ => False end.

Definition bit (P : Prop) `{Decision P} : Z := if decide P then 1 else 0.

Section web.
Context (limit : Z) (Hlimit : 1 <= limit).

Record inv (s : state) : Prop := {
  i_ok i f : files s !! i = Some f → ok f;
  i_conn : nconn s = count active (files s);
  i_toconn : nlefttoconn s = count idle (files s);
  i_toread : nlefttoread s = count unread (files s);
  i_done : ndone s = count counted (files s);
  i_main : main s ≠ Quit → (ndone_mutex s = Some Main ↔ main_owns (main s));
  i_thread i f : files s !! i = Some f → (ndone_mutex s = Some (Thread i) ↔ owns (f_pc f));
  i_lt i : ndone_mutex s = Some (Thread i) → is_Some (files s !! i);
  i_limit : maxnconn s = limit ∧ nconn s <= limit;
  i_busy : main_blocks (main s) → 0 < nconn s;
  i_join i : main s = Join i → ∃ f, files s !! i = Some f ∧ f_flags f = F_DONE;
  i_wait : main s = MWait → ndone s = 0 ∨ ∃ i f, files s !! i = Some f ∧ f_pc f = Signal;
  i_exit : main s = Exited → nlefttoread s <= 0
}.

Lemma web_inv_init n : inv (init n limit).
Proof using Hlimit.
  assert (Hf : ∀ i f, files (init n limit) !! i = Some f → f = File 0 NotMade).
  { intros i w Hi. by apply list_elem_of_lookup_2, list_elem_of_In, repeat_spec in Hi. }
  split; simpl; try done; try lia.
  - intros i f Hi. by rewrite (Hf i f Hi).
  - by rewrite count_repeat.
  - by rewrite count_repeat.
  - by rewrite count_repeat.
  - by rewrite count_repeat.
  - intros i f Hi. by rewrite (Hf i f Hi).
Qed.

(** A step that changes file [i]. *)
Lemma inv_file s s' i f f' :
  inv s → files s !! i = Some f → ok f' →
  files s' = <[i := f']> (files s) → maxnconn s' = maxnconn s →
  nconn s' = nconn s - bit (active f) + bit (active f') →
  nlefttoconn s' = nlefttoconn s - bit (idle f) + bit (idle f') →
  nlefttoread s' = nlefttoread s - bit (unread f) + bit (unread f') →
  ndone s' = ndone s - bit (counted f) + bit (counted f') →
  (ndone_mutex s' = Some (Thread i) ↔ owns (f_pc f')) →
  (∀ j, j ≠ i → (ndone_mutex s' = Some (Thread j) ↔ ndone_mutex s = Some (Thread j))) →
  (main s' ≠ Quit → (ndone_mutex s' = Some Main ↔ main_owns (main s'))) →
  nconn s' <= limit → (main_blocks (main s') → 0 < nconn s') →
  (∀ j, main s' = Join j → ∃ f, files s' !! j = Some f ∧ f_flags f = F_DONE) →
  (main s' = MWait → ndone s' = 0 ∨ ∃ i f, files s' !! i = Some f ∧ f_pc f = Signal) →
  (main s' = Exited → nlefttoread s' <= 0) → inv s'.
Proof.
  intros [Hok Hc1 Hc2 Hc3 Hc4 Hm Ht Hlt [Hmax Hlim] Hb Hj Hw He] Hi Hok' Hfs Hmx H1 H2 H3 H4 Ho Ho'
    Hmain Hl' Hb' Hj' Hw' He'.
  assert (Hlen := lookup_lt_Some _ _ _ Hi).
  assert (Hcase : ∀ j g, files s' !! j = Some g → j = i ∧ g = f' ∨ j ≠ i ∧ files s !! j = Some g).
  { intros j g. rewrite Hfs. intros [(-> & -> & _)|[Hn Hg]]%list_lookup_insert_Some; auto. }
  unfold bit in *. split; try done.
  - intros j g [[_ ->]|[_ Hg]]%Hcase; [done|by apply (Hok j)].
  - by rewrite Hfs, (count_insert _ _ _ _ _ Hi), <-Hc1.
  - by rewrite Hfs, (count_insert _ _ _ _ _ Hi), <-Hc2.
  - by rewrite Hfs, (count_insert _ _ _ _ _ Hi), <-Hc3.
  - by rewrite Hfs, (count_insert _ _ _ _ _ Hi), <-Hc4.
  - intros j g [[-> ->]|[Hn Hg]]%Hcase; [done|]. rewrite Ho' by done. by apply Ht.
  - intros j Hjo. rewrite Hfs. destruct (decide (j = i)) as [->|Hn].
    + by rewrite list_lookup_insert_eq.
    + rewrite list_lookup_insert_ne by done. by apply Hlt, Ho'.
  - split; [congruence|done].
Qed.

(** A step of the main thread that changes no file. *)
Lemma inv_set_main s o m :
  inv s → (m ≠ Quit → (o = Some Main ↔ main_owns m)) →
  (∀ i, o = Some (Thread i) ↔ ndone_mutex s = Some (Thread i)) →
  (main_blocks m → 0 < nconn s) →
  (∀ j, m = Join j → ∃ f, files s !! j = Some f ∧ f_flags f = F_DONE) →
  (m = MWait → ndone s = 0) → (m = Exited → nlefttoread s <= 0) →
  inv (set_main s o m).
Proof.
  intros [Hok Hc1 Hc2 Hc3 Hc4 Hm Ht Hlt Hlim Hb Hj Hw He] Hmo Hto Hbl Hjo Hwo Heo.
  split; simpl; try done.
  - intros i f Hi. rewrite Hto. by apply Ht.
  - intros i Hi. by apply Hlt, Hto.
  - intros Hmw. left. by apply Hwo.
Qed.

Lemma find_file_Some l i :
  find_file l = Some i → ∃ f, l !! i = Some f ∧ f_flags f = 0.
Proof.
  revert i. induction l as [|f l IH]; intros i; simpl; [done|]. case_decide as Hf.
  - intros [= <-]. by exists f.
  - intros (j & Hj & ->)%fmap_Some. by apply IH.
Qed.

Lemma find_file_None l : find_file l = None → count idle l = 0.
Proof.
  induction l as [|f l IH]; simpl; [done|]. case_decide as Hf; [done|].
  intros Hn%fmap_None. rewrite count_cons, IH by done. by rewrite decide_False.
Qed.

(** Every file is of one of three kinds. *)
Lemma count_kinds l : count active l + count idle l = count unread l.
Proof.
  induction l as [|f l IH]; [done|]. rewrite !count_cons.
  unfold active, idle, unread in *. repeat case_decide; try lia; try naive_solver.
  all: unfold F_JOINED in *; naive_solver lia.
Qed.

Lemma start_inv s :
  inv s → main s = Start → inv (start s) ∧ main (start s) ≠ Quit.
Proof using Hlimit.
  intros Hinv Hm. assert (Hno : ndone_mutex s ≠ Some Main).
  { intros Ho. apply (i_main s Hinv) in Ho; rewrite Hm in *; done. }
  destruct (i_limit s Hinv) as [Hmx Hlim]. unfold start. case_decide as Hr.
  2: { split; [|done]. apply inv_set_main; try done. }
  case_decide as Hc.
  - destruct (find_file (files s)) as [i|] eqn:Hfind.
    2: { apply find_file_None in Hfind. rewrite <-(i_toconn s Hinv) in Hfind. lia. }
    split; [|done]. destruct (find_file_Some _ _ Hfind) as ([fl p] & Hi & Hfl). simpl in Hfl. subst fl.
    assert (Hok := i_ok s Hinv i _ Hi).
    assert (p = NotMade) as -> by (destruct p; try done; by destruct Hok).
    apply inv_file with s i (File 0 NotMade) (File F_CONNECTING Connect); try done; simpl; try lia.
    all: try (unfold bit; simpl; lia).
    rewrite (i_thread s Hinv i _ Hi). done.
  - split; [|done]. apply inv_set_main; try done. intros _.
    assert (Hk := count_kinds (files s)).
    rewrite <-(i_conn s Hinv), <-(i_toconn s Hinv), <-(i_toread s Hinv) in Hk.
    assert (0 <= nlefttoconn s) by (rewrite (i_toconn s Hinv); apply count_nonneg). lia.
Qed.

Lemma web_main_step_inv s s' :
  inv s → main s ≠ Quit → main_step s = Some s' → inv s' ∧ main s' ≠ Quit.
Proof using Hlimit.
  intros Hinv Hq. assert (Ho := i_main s Hinv Hq). assert (Hb := i_busy s Hinv).
  assert (Hj := i_join s Hinv). unfold main_step.
  destruct (main s) as [| | | | |i|i| |] eqn:Hm; try done; simpl in Ho, Hb.
  - intros [= <-]. by apply start_inv.
  - case_decide as Hn; [|done]. intros [= <-]. split; [|done]. apply inv_set_main; try done; naive_solver.
  - case_decide as Hn; intros [= <-]; (split; [|done]); apply inv_set_main; try done; naive_solver.
  - case_decide as Hn; [|done]. intros [= <-]. split; [|done]. apply inv_set_main; try done; naive_solver.
  - destruct (files s !! i) as [f|] eqn:Hi.
    + case_decide as Hd; intros [= <-]; (split; [|done]); apply inv_set_main; try done.
      intros j [= <-]. exists f. split; [done|].
      assert (Hok := i_ok s Hinv i f Hi). unfold ok in Hok.
      destruct (f_pc f); rewrite ?Hok in *; try done. by destruct Hok as [Hk|Hk]; rewrite Hk in *.
    + intros [= <-]. split; [|done]. apply inv_set_main; try done; naive_solver.
  - destruct (Hj i eq_refl) as ([fl p] & Hi & Hfl). rewrite Hi. simpl in Hfl |- *. subst fl.
    case_decide as Hp; [|done]. subst p. intros [= <-]. split; [|done].
    apply inv_file with s i (File F_DONE Return) (File F_JOINED Return); try done; simpl; try lia.
    all: try (unfold bit; simpl; lia).
    + by right.
    + by rewrite (i_thread s Hinv i _ Hi).
    + destruct (i_limit s Hinv). lia.
Qed.

(** A step of the thread of file [i]. *)
Lemma inv_thread s i f f' o nd m :
  inv s → files s !! i = Some f → ok f' → main s ≠ Quit →
  bit (active f) = bit (active f') → bit (idle f) = bit (idle f') → bit (unread f) = bit (unread f') →
  nd = ndone s - bit (counted f) + bit (counted f') →
  (f_flags f = F_DONE → f_flags f' = F_DONE) →
  (∀ w, o = Some w ↔ if decide (w = Thread i) then owns (f_pc f') else ndone_mutex s = Some w) →
  m = main s ∨ main s = MWait ∧ m = MWoken →
  f_pc f' = Signal ∨ m ≠ MWait ∨ f_pc f ≠ Signal ∧ nd = ndone s →
  inv (State (<[i := f']> (files s)) (maxnconn s) (nconn s) (nlefttoconn s) (nlefttoread s) nd o m).
Proof.
  intros Hinv Hi Hok Hq Ha Hid Hu Hnd Hfl Ho Hm Hs. assert (Hlen := lookup_lt_Some _ _ _ Hi).
  apply inv_file with s i f f'; try done; simpl; try lia.
  - by rewrite Ho, decide_True.
  - intros j Hj. rewrite Ho, decide_False by congruence. done.
  - intros _. rewrite Ho, decide_False by done. rewrite (i_main s Hinv Hq).
    destruct Hm as [->|[-> ->]]; done.
  - apply Hinv.
  - intros Hb. apply (i_busy s Hinv). by destruct Hm as [->|[-> ->]].
  - intros j Hj. destruct (i_join s Hinv j) as (g & Hg & Hgf).
    { destruct Hm as [->|[_ ->]]; congruence. }
    destruct (decide (j = i)) as [->|Hn].
    + rewrite list_lookup_insert_eq by done. exists f'. split; [done|]. apply Hfl. congruence.
    + rewrite list_lookup_insert_ne by done. by exists g.
  - intros Hmw. destruct Hs as [Hsig|[Hn|[Hns Hnd']]]; [|done|].
    + right. exists i, f'. by rewrite list_lookup_insert_eq.
    + destruct (i_wait s Hinv) as [H0|(j & g & Hg & Hgs)].
      { destruct Hm as [->|[_ ->]]; congruence. }
      * left. congruence.
      * right. exists j, g. rewrite list_lookup_insert_ne; [done|]. intros ->. congruence.
  - intros He. apply (i_exit s Hinv). destruct Hm as [->|[_ ->]]; congruence.
Qed.

Lemma thread_step_inv s s' i :
  inv s → main s ≠ Quit → thread_step i s = Some s' → inv s' ∧ main s' ≠ Quit.
Proof using Hlimit.
  intros Hinv Hq. unfold thread_step. destruct (files s !! i) as [[fl p]|] eqn:Hi; [|done]. simpl.
  assert (Hok := i_ok s Hinv i _ Hi). assert (Ht := i_thread s Hinv i _ Hi). simpl in Ht.
  assert (Hmain := i_main s Hinv Hq). unfold set_file.
  unfold ok in Hok. destruct p; try done; simpl in Hok, Ht; subst fl; try case_decide as Hn; try done;
    intros [= <-]; (split; [|simpl; by try case_decide]).
  all: eapply inv_thread; [done|exact Hi|try done|try done|try done|try done|try done|try done|..].
  all: try (unfold bit; simpl; lia); try done; try (by left); try (by right; right);
    try (intros w; destruct (decide (w = Thread i)) as [->|]; simpl; naive_solver).
  all: first [by right|by right; left].
Qed.

Lemma web_step_inv e s s' : inv s → step e s = Some s' → inv s'.
Proof using Hlimit.
  intros Hinv. unfold step. case_decide as Hn; [done|].
  assert (Hq : main s ≠ Quit) by tauto. destruct e as [|i|i|].
  - intros Hs. by apply (web_main_step_inv s s').
  - intros Hs. by apply (thread_step_inv s s' i).
  - destruct (files s !! i) as [f|]; [|done]. simpl. case_decide; [|done]. intros [= <-].
    by apply inv_set_main.
  - case_decide as Hw; [|done]. intros [= <-]. assert (Ho := i_main s Hinv Hq). rewrite Hw in Ho.
    apply inv_set_main; try done. intros _. apply (i_busy s Hinv). by rewrite Hw.
Qed.

Section stuck.
Context (s : state) (Hinv : inv s) (Hrun : main s ≠ Exited ∧ main s ≠ Quit).
Context (Hstuck : ∀ e, e ≠ ESpurious → step e s = None).

Lemma stuck_main : main_step s = None.
Proof using Hstuck Hrun.
  assert (H := Hstuck EMain ltac:(done)). unfold step in H. rewrite decide_False in H by tauto. done.
Qed.

(** A thread that cannot go on is not made, waits for the mutex, or has returned. *)
Lemma stuck_thread i f :
  files s !! i = Some f →
  f_pc f = NotMade ∨ f_pc f = Return ∨ f_pc f = Lock ∧ ndone_mutex s ≠ None.
Proof using Hstuck Hrun.
  intros Hi. assert (H := Hstuck (EThread i) ltac:(done)). unfold step in H.
  rewrite decide_False in H by tauto. unfold thread_step in H. rewrite Hi in H. simpl in H.
  destruct (f_pc f); try done; auto. right. right. split; [done|]. intros Hn.
  by rewrite decide_True in H.
Qed.

Lemma web_stuck_owner : ndone_mutex s = None ∨ ndone_mutex s = Some Main.
Proof using Hinv Hstuck Hrun.
  destruct (ndone_mutex s) as [[|i]|] eqn:Ho; auto. exfalso.
  destruct (i_lt s Hinv i Ho) as [f Hf]. assert (Hown := proj1 (i_thread s Hinv i f Hf) Ho).
  destruct (stuck_thread i f Hf) as [Hp|[Hp|[Hp _]]]; by rewrite Hp in Hown.
Qed.

(** The main thread cannot be asleep: a thread would have to wake it. *)
Lemma stuck_not_asleep : main s ≠ MWait.
Proof using Hinv Hstuck Hrun.
  intros Hm. assert (Ho := i_main s Hinv (proj2 Hrun)). rewrite Hm in Ho.
  assert (Hn : ndone_mutex s = None) by (destruct web_stuck_owner as [|Hs]; [done|by apply Ho in Hs]).
  assert (Hth : ∀ i f, files s !! i = Some f → f_pc f = NotMade ∨ f_pc f = Return).
  { intros i f Hf. destruct (stuck_thread i f Hf) as [|[|[_ Hno]]]; auto. congruence. }
  assert (Hb := i_busy s Hinv). rewrite Hm in Hb. specialize (Hb I). rewrite (i_conn s Hinv) in Hb.
  destruct (count_pos active _ Hb) as (i & f & Hi & Hact).
  assert (Hc : counted f).
  { assert (Hok := i_ok s Hinv i f Hi). unfold ok in Hok. destruct Hact as [H0 H8].
    destruct (Hth i f Hi) as [Hp|Hp]; rewrite Hp in Hok; [done|]. split; [|by auto].
    by destruct Hok. }
  destruct (i_wait s Hinv Hm) as [Hd|(j & g & Hg & Hs)].
  - rewrite (i_done s Hinv) in Hd. by apply (count_zero counted _ i f Hd Hi).
  - destruct (Hth j g Hg); congruence.
Qed.

Lemma stuck_join :
  ∃ i f, main s = Join i ∧ files s !! i = Some f ∧ f_pc f = Lock ∧ ndone_mutex s = Some Main.
Proof using Hinv Hstuck Hrun.
  assert (Hm := stuck_main). assert (Ho := i_main s Hinv (proj2 Hrun)).
  assert (Hn := stuck_not_asleep). assert (Hsome := web_stuck_owner). unfold main_step in Hm.
  assert (Hi := stuck_thread). destruct Hrun as [Hne Hnq].
  assert (Hmm : ∃ m, main s = m) by eauto. destruct Hmm as [m Hmm]. rewrite Hmm in Hm, Ho, Hn.
  destruct m as [| | | | |i|i| |]; try done; simpl in Ho.
  - destruct Hsome as [Hs|Hs]; [by rewrite decide_True in Hm|by apply Ho in Hs].
  - by destruct (decide (ndone s = 0)).
  - destruct Hsome as [Hs|Hs]; [by rewrite decide_True in Hm|by apply Ho in Hs].
  - destruct (files s !! i); [|done]. by destruct (decide (Z.land (f_flags f) F_DONE ≠ 0)).
  - destruct (i_join s Hinv i Hmm) as (f & Hf & Hfl). exists i, f. rewrite Hf in Hm. simpl in Hm.
    split; [done|]. split; [done|]. split; [|by apply Ho].
    assert (Hok := i_ok s Hinv i f Hf). unfold ok in Hok.
    destruct (Hi i f Hf) as [Hp|[Hp|[Hp _]]]; [|by rewrite decide_True in Hm|done].
    rewrite Hp in Hok. by rewrite Hok in Hfl.
Qed.
End stuck.
End web.

(** C16: the threads of [web03], for a limit of at least one connection: under any
    scheduling its counters count the connections in use, never more than the
    limit, the files not yet asked for and those not yet read; the search for a
    file never fails; the process exits normally only when every file has been
    read; and it can always go on without spurious returns, but for one
    deadlock: [main] waits in [pthread_join], owning [ndone_mutex], for a thread
    that waits for [ndone_mutex]. *)
Theorem web03_counts n limit s :
  1 <= limit → reachable step (init n limit) s →
  nconn s = count active (files s) ∧ nconn s <= limit
  ∧ nlefttoconn s = count idle (files s) ∧ nlefttoread s = count unread (files s)
  ∧ (∀ s', main s ≠ Quit → main_step s = Some s' → main s' ≠ Quit)
  ∧ (main s = Exited → ∀ i f, files s !! i = Some f → f_flags f = F_JOINED)
  ∧ ((∀ e, e ≠ ESpurious → step e s = None) →
     main s = Exited ∨ main s = Quit
     ∨ ∃ i f, main s = Join i ∧ files s !! i = Some f ∧ f_pc f = Lock ∧ ndone_mutex s = Some Main).
Proof.
  intros Hlim Hr. assert (Hinv : inv limit s).
  { revert Hr. apply reachable_inv; [by apply web_inv_init|]. intros e s1 s2. by apply web_step_inv. }
  split; [apply Hinv|]. split; [apply Hinv|]. split; [apply Hinv|]. split; [apply Hinv|].
  split; [intros s' Hq Hs; by apply (web_main_step_inv limit Hlim s s')|]. split.
  - intros He i f Hi. assert (Hu := i_exit limit s Hinv He). rewrite (i_toread limit s Hinv) in Hu.
    assert (Hz : count unread (files s) = 0) by (pose proof (count_nonneg unread (files s)); lia).
    assert (Hn := count_zero unread _ i f Hz Hi). unfold unread in Hn. by apply dec_stable.
  - intros Hstuck. destruct (decide (main s = Exited)); [by left|].
    destruct (decide (main s = Quit)); [by right; left|]. right. right. by eapply stuck_join.
Qed.

(** Two files: the first thread ends and wakes [main], which finds that the second
    one has set its flag, and joins it before it has the mutex. *)
Definition deadlock_run : list event :=
  [EMain; EMain; EMain; EMain; EMain; EThread 0; EThread 0; EThread 0; EThread 0; EThread 0; EThread 0;
   EThread 1; EThread 1; EMain; EMain; EMain; EMain; EMain].
Definition deadlock_state : state :=
  Eval vm_compute in default (init 2 2) (run step deadlock_run (init 2 2)).

Lemma deadlock_runs : run step deadlock_run (init 2 2) = Some deadlock_state.
Proof. by vm_compute. Qed.

Lemma web03_counts_witness :
  main deadlock_state = Join 1 ∧ nlefttoread deadlock_state = 1
  ∧ nconn deadlock_state = count active (files deadlock_state).
Proof.
  split; [reflexivity|]. split; [reflexivity|].
  destruct (web03_counts 2 2 deadlock_state) as [H _]; [done|exists deadlock_run; apply deadlock_runs|exact H].
Defined.

(** [web03] can deadlock: an execution with two files and two connections ends
    in a state where a file is left to read and no thread can ever go on. *)
Theorem web03_deadlock :
  ∃ s, reachable step (init 2 2) s ∧ main s ≠ Exited ∧ main s ≠ Quit ∧ 0 < nlefttoread s
    ∧ ∀ e, step e s = None.
Proof.
  exists deadlock_state. split; [exists deadlock_run; apply deadlock_runs|]. split_and!; try done.
  intros [|[|[|i]]|[|[|i]]|]; reflexivity.
Qed.
End WebSpec.
