(* ===== verification/WebCli.v ===== *)
(** [nonblock/web.c] and the files beside it: a client that fetches the files of
    a web server over several non-blocking connections at once; and the threads
    of [threads/web01.c] and [web03.c], of [threads/strclithread.c],
    [strclithread2.c], [tcpserv01.c] and [tcpserv02.c], each by itself. *)

From S2P Require Import Prelude Net Sys Error Wrap Io Connect TcpServ SelectCli.

(** * web.h *)

Definition MAXFILES : Z := 20.
Definition SERV : list Z := str "80".
Definition F_CONNECTING : Z := 1.
Definition F_READING : Z := 2.
Definition F_DONE : Z := 4.

Record file := File {
  f_name : list Z;
  f_host : list Z;
  f_fd : Z;
  f_flags : Z
}.

(** The global variables. *)
Record web := Web {
  files : list file;
  nconn : Z;
  nlefttoconn : Z;
  nlefttoread : Z;
  maxfd : Z;
  rset : gset Z;
  wset : gset Z
}.

Definition crlf : list Z := [13; 10].
Definition GET_CMD (fname : list Z) : list Z :=
  str "GET " ++ fname ++ str " HTTP/1.0" ++ crlf ++ crlf.

(** [snprintf(line, sizeof(line), GET_CMD, fname)] and [Writen(fd, line, n)]: the
    value of [snprintf] is the length of the whole text, so that [Writen] can read
    the terminating NUL, and memory beyond [line], which is undefined behaviour. *)
Definition write_cmd (fuel : nat) (fd : Z) (fname : list Z) : M Z :=
  let n := Z.of_nat (length (GET_CMD fname)) in
  let line := snprintf_trunc MAXLINE (GET_CMD fname) ++ [0] in
  if decide (n > MAXLINE) then abort
  else Writen fuel fd (take (Z.to_nat n) line);; mret n.

Section web.
Context (fuel : nat).

(** * home_page.c *)

Definition home_page (host fname : list Z) : M unit :=
  fd ← Tcp_connect (Some host) (Some SERV);
  write_cmd fuel fd fname;;
  iter fuel (λ _ : unit,
    line ← Read fd MAXLINE;
    if decide (length line = 0%nat) then mret (inr tt)
    else
      printf (str "read " ++ fmt_d (Z.of_nat (length line)) ++ str " bytes of home page" ++ [ch_nl]);;
      mret (inl tt)) tt;;
  printf (str "end-of-file on home page" ++ [ch_nl]);;
  Close fd.

(** * write_get_cmd.c and start_connect.c *)

(** [FD_SET] of a descriptor beyond the set is undefined behaviour. *)
Definition fd_set (fd : Z) (set : gset Z) : M (gset Z) :=
  if decide (fd >= FD_SETSIZE) then abort else mret ({[fd]} ∪ set).

Definition write_get_cmd (i : nat) (f : file) (s : web) : M web :=
  n ← write_cmd fuel (f_fd f) (f_name f);
  printf (str "wrote " ++ fmt_d n ++ str " bytes for " ++ f_name f ++ [ch_nl]);;
  rset ← fd_set (f_fd f) (rset s);
  mret (Web (<[i := File (f_name f) (f_host f) (f_fd f) F_READING]> (files s)) (nconn s)
          (nlefttoconn s) (nlefttoread s) (Z.max (maxfd s) (f_fd f)) rset (wset s)).

Definition start_connect (i : nat) (f : file) (s : web) : M web :=
  '(ai, _) ← Host_serv (Some (f_host f)) (Some SERV) 0 SOCK_STREAM;
  fd ← Socket (ai_family ai) (ai_socktype ai) (ai_protocol ai);
  printf (str "start_connect for " ++ f_name f ++ str ", fd " ++ fmt_d fd ++ [ch_nl]);;
  flags ← Fcntl fd F_GETFL 0;
  Fcntl fd F_SETFL (Z.lor flags O_NONBLOCK);;
  r ← checked (sys (Cconnect fd (ai_addr ai)));
  match r with
  | RErr _ =>
      errno ← get_errno;
      (if decide (errno ≠ EINPROGRESS) then err_sys (str "nonblocking connect error") else mret tt);;
      rset ← fd_set fd (rset s);
      wset ← fd_set fd (wset s);
      mret (Web (<[i := File (f_name f) (f_host f) fd F_CONNECTING]> (files s)) (nconn s)
              (nlefttoconn s) (nlefttoread s) (Z.max (maxfd s) fd) rset wset)
  | ROk _ => write_get_cmd i (File (f_name f) (f_host f) fd (f_flags f)) s
  end.

(** * web.c *)

(** The first file whose flags are 0. *)
Definition find_file (l : list file) : option (nat * file) :=
  list_find (λ f, f_flags f = 0) l.

(** [while (nconn < maxnconn && nlefttoconn > 0)]. *)
Definition web_fill (maxnconn : Z) (s : web) : M web :=
  iter fuel (λ s,
    if decide (nconn s < maxnconn ∧ nlefttoconn s > 0) then
      match find_file (files s) with
      | None =>
          err_quit (str "nlefttoconn = " ++ fmt_d (nlefttoconn s) ++ str " but nothing found")
      | Some (i, f) =>
          s ← start_connect i f s;
          mret (inl (Web (files s) (nconn s + 1) (nlefttoconn s - 1) (nlefttoread s) (maxfd s)
                       (rset s) (wset s)))
      end
    else mret (inr s)) s.

(** One file of the loop that follows [Select]; [rs] and [ws] are its results. *)
Definition web_ready (rs ws : gset Z) (i : nat) (s : web) : M web :=
  match files s !! i with
  | None => mret s
  | Some f =>
      let flags := f_flags f in
      let fd := f_fd f in
      if decide (flags = 0 ∨ Z.land flags F_DONE ≠ 0) then mret s
      else if decide (Z.land flags F_CONNECTING ≠ 0 ∧ (fd ∈ rs ∨ fd ∈ ws)) then
        e ← checked (sys (Cgetsockopt fd SOL_SOCKET SO_ERROR));
        let failed := err_ret (str "nonblocking connect failed for " ++ f_name f) in
        match e with
        | RErr _ => failed
        | ROk error => if decide (error ≠ 0) then failed else mret tt
        end;;
        printf (str "connection established for " ++ f_name f ++ [ch_nl]);;
        write_get_cmd i f
          (Web (files s) (nconn s) (nlefttoconn s) (nlefttoread s) (maxfd s) (rset s)
             (wset s ∖ {[fd]}))
      else if decide (Z.land flags F_READING ≠ 0 ∧ fd ∈ rs) then
        buf ← Read fd MAXLINE;
        if decide (length buf = 0%nat) then
          printf (str "end-of-file on " ++ f_name f ++ [ch_nl]);;
          Close fd;;
          mret (Web (<[i := File (f_name f) (f_host f) fd F_DONE]> (files s)) (nconn s - 1)
                  (nlefttoconn s) (nlefttoread s - 1) (maxfd s) (rset s ∖ {[fd]}) (wset s))
        else
          printf (str "read " ++ fmt_d (Z.of_nat (length buf)) ++ str " bytes from " ++ f_name f
                    ++ [ch_nl]);;
          mret s
      else mret s
  end.

Definition web_round (maxnconn : Z) (s : web) : M (web + unit) :=
  if decide (nlefttoread s > 0) then
    s ← web_fill maxnconn s;
    '(rs, ws) ← Select_sets (maxfd s + 1) (rset s) (wset s);
    s ← for_each (seq 0 (length (files s))) (web_ready rs ws) s;
    mret (inl s)
  else mret (inr tt).

Definition web_init (argv : list (list Z)) : web :=
  let nfiles := Z.min (Z.of_nat (length argv) - 4) MAXFILES in
  Web (map (λ name, File name (nth 2 argv []) 0 0) (take (Z.to_nat nfiles) (drop 4 argv)))
    0 nfiles nfiles (-1) ∅ ∅.

Definition web_main (argv : list (list Z)) : M unit :=
  (if decide (length argv < 5)%nat
   then err_quit (str "usage: web <#conns> <hostname> <homepage> <file1> ...") else mret tt);;
  let maxnconn := atoi (nth 1 argv []) in
  printf (str "nfiles = " ++ fmt_d (nlefttoread (web_init argv)) ++ [ch_nl]);;
  home_page (nth 2 argv []) (nth 3 argv []);;
  iter fuel (web_round maxnconn) (web_init argv);;
  exit 0.

(** * Threads *)

(** [do_get_read] of [threads/web01.c] and [web03.c], up to its last assignment
    to [f_flags]; the counting of [web03.c] is in [Threads]. *)
Definition do_get_read (fptr : file) : M file :=
  fd ← Tcp_connect (Some (f_host fptr)) (Some SERV);
  tid ← sys Cpthread_self;
  printf (str "do_get_read for " ++ f_name fptr ++ str ", fd " ++ fmt_d fd ++ str ", thread "
            ++ fmt_d tid ++ [ch_nl]);;
  n ← write_cmd fuel fd (f_name fptr);
  printf (str "wrote " ++ fmt_d n ++ str " bytes for " ++ f_name fptr ++ [ch_nl]);;
  iter fuel (λ _ : unit,
    line ← Read fd MAXLINE;
    if decide (length line = 0%nat) then mret (inr tt)
    else
      printf (str "read " ++ fmt_d (Z.of_nat (length line)) ++ str " bytes from " ++ f_name fptr
                ++ [ch_nl]);;
      mret (inl tt)) tt;;
  printf (str "end-of-file on " ++ f_name fptr ++ [ch_nl]);;
  Close fd;;
  mret (File (f_name fptr) (f_host fptr) fd F_DONE).

(** [strclithread.c]: [str_cli] is the reading thread, [copyto] the other one. *)
Definition copyto (sockfd : Z) : M unit :=
  iter fuel (λ _ : unit,
    sendline ← Fgets MAXLINE;
    match sendline with
    | None => mret (inr tt)
    | Some sendline => Writen fuel sockfd (c_str sendline);; mret (inl tt)
    end) tt;;
  Shutdown sockfd SHUT_WR.

Definition strclithread (st : rline) (sockfd : Z) : M rline :=
  Pthread_create 0 "copyto" 0;;
  iter fuel (λ st,
    '(st, n, recvline) ← Readline fuel st sockfd MAXLINE;
    if decide (n > 0) then Fputs (c_str recvline) stdout;; mret (inl st)
    else mret (inr st)) st.

(** [strclithread2.c]; [done] is the value of the shared variable when it is read. *)
Definition strclithread2 (done : bool) (st : rline) (sockfd : Z) : M rline :=
  st ← strclithread st sockfd;
  if done then mret st else err_quit (str "server terminated prematurely").

(** [tcpserv01.c] and [tcpserv02.c] *)
Definition threads_tcpserv01 (argv : list (list Z)) : M unit :=
  '(listenfd, addrlen) ←
    (if decide (length argv = 2)%nat then Tcp_listen None (Some (nth 1 argv []))
     else if decide (length argv = 3)%nat then Tcp_listen (Some (nth 1 argv [])) (Some (nth 2 argv []))
     else err_quit (str "usage: tcpserv01 [ <host> ] <service or port>"));
  Malloc addrlen;;
  iter fuel (λ _ : unit,
    '(connfd, _) ← Accept fuel listenfd;
    Pthread_create 0 "doit" connfd;;
    mret (inl tt)) tt.

Definition threads_tcpserv02 (argv : list (list Z)) : M unit :=
  '(listenfd, addrlen) ←
    (if decide (length argv = 2)%nat then Tcp_listen None (Some (nth 1 argv []))
     else if decide (length argv = 3)%nat then Tcp_listen (Some (nth 1 argv [])) (Some (nth 2 argv []))
     else err_quit (str "usage: tcpserv01 [ <host> ] <service or port>"));
  Malloc addrlen;;
  iter fuel (λ _ : unit,
    iptr ← Malloc 4;
    '(connfd, _) ← Accept fuel listenfd;
    Pthread_create 0 "doit" iptr;;
    mret (inl tt)) tt.

(** [doit]; in [tcpserv02.c] [connfd] is what its argument points to, freed at once. *)
Definition doit (connfd : Z) : M unit :=
  tid ← sys Cpthread_self;
  Pthread_detach tid;;
  str_echo fuel connfd;;
  Close connfd.

Definition threads_tcpcli (str_cli : Z → M rline) (argv : list (list Z)) : M unit :=
  (if decide (length argv = 3)%nat then mret tt
   else err_quit (str "usage: tcpcli <hostname> <service>"));;
  sockfd ← Tcp_connect (Some (nth 1 argv [])) (Some (nth 2 argv []));
  str_cli sockfd;;
  exit 0.
End web.
