(* ===== verification/WebCliSpec.v ===== *)
(** Properties of [WebCli]: the counters and descriptor sets of the non-blocking
    web client describe its connections exactly. *)

From S2P Require Import Prelude Net Sys Error Wrap Io IoSpec Connect ConnectSpec TcpServ SelectCli WebCli.

(** * Descriptors *)

Definition keeps_sockets (c : call) : Prop :=
  match c with Csocket _ _ _ | Cclose _ => False | _ => True end.

Lemma report_keeps c : report_call c → keeps_sockets c.
Proof. by destruct c. Qed.

Lemma opened_keeps K cs cs' : Forall keeps_sockets cs → opened K (cs ++ cs') = opened K cs'.
Proof. induction 1 as [|c cs Hc Hcs IH]; [done|]. simpl. rewrite IH. by destruct c. Qed.

Lemma elem_of_remove_first fd x l : x ≠ fd → x ∈ l → x ∈ remove_first fd l.
Proof.
  intros Hx. induction l as [|y l IH]; [done|]. simpl. rewrite elem_of_cons. intros [->|Hin].
  - rewrite decide_False by done. by left.
  - case_decide; [done|]. right. by apply IH.
Qed.

(** [socket] answers a descriptor that is not in use. *)
Class KernelSocket (K : kernel) : Prop :=
  socket_fresh cs family type protocol fd :
    K cs (Csocket family type protocol) = ROk fd → 0 <= fd ∧ fd ∉ opened K cs.

(** * The invariant *)

Definition active (f : file) : Prop := f_flags f = F_CONNECTING ∨ f_flags f = F_READING.
Definition connecting (f : file) : Prop := f_flags f = F_CONNECTING.
Definition idle (f : file) : Prop := f_flags f = 0.
Definition unread (f : file) : Prop := f_flags f ≠ F_DONE.
#[global] Instance active_dec f : Decision (active f) := or_dec _ _.
#[global] Instance connecting_dec f : Decision (connecting f) := decide (f_flags f = F_CONNECTING).
#[global] Instance idle_dec f : Decision (idle f) := decide (f_flags f = 0).
#[global] Instance unread_dec f : Decision (unread f) := decide (f_flags f ≠ F_DONE).

(** The descriptors of the files that satisfy [P]. *)
Definition has_fd (P : file → Prop) (l : list file) (fd : Z) : Prop :=
  ∃ i f, l !! i = Some f ∧ P f ∧ f_fd f = fd.

Section web.
Context (K : kernel) `{!KernelSocket K} (limit : Z).

(** What concerns the files, the sets and the history; the counters apart. *)
Record files_inv (s : web) (w : world) : Prop := {
  fi_flags i f : files s !! i = Some f → idle f ∨ active f ∨ f_flags f = F_DONE;
  fi_rset fd : fd ∈ rset s ↔ has_fd active (files s) fd;
  fi_wset fd : fd ∈ wset s ↔ has_fd connecting (files s) fd;
  fi_maxfd i f : files s !! i = Some f → active f → f_fd f <= maxfd s;
  fi_open i f : files s !! i = Some f → active f → 0 <= f_fd f ∧ f_fd f ∈ opened K (w_calls w);
  fi_inj i j f g : files s !! i = Some f → files s !! j = Some g → active f → active g →
    f_fd f = f_fd g → i = j
}.

Record web_inv (s : web) (w : world) : Prop := {
  wi_files : files_inv s w;
  wi_conn : nconn s = count active (files s);
  wi_toconn : nlefttoconn s = count idle (files s);
  wi_toread : nlefttoread s = count unread (files s);
  wi_limit : nconn s <= Z.max 0 limit
}.

Lemma files_inv_calls s w w' cs :
  files_inv s w → w_calls w' = cs ++ w_calls w → Forall keeps_sockets cs → files_inv s w'.
Proof.
  intros [] Hw Hcs. split; try done. rewrite Hw, opened_keeps by done. done.
Qed.

Lemma web_inv_calls s w w' cs :
  web_inv s w → w_calls w' = cs ++ w_calls w → Forall keeps_sockets cs → web_inv s w'.
Proof. intros [] Hw Hcs. split; try done. by eapply files_inv_calls. Qed.

(** File [i] changes. *)
Lemma lookup_set {A} (l : list A) i x y j z :
  l !! i = Some x → <[i := y]> l !! j = Some z → j = i ∧ z = y ∨ j ≠ i ∧ l !! j = Some z.
Proof. intros Hi [(-> & -> & _)|[Hn Hz]]%list_lookup_insert_Some; auto. Qed.

Lemma has_fd_set P l i f f' fd :
  l !! i = Some f →
  has_fd P (<[i := f']> l) fd ↔
    (P f' ∧ f_fd f' = fd) ∨ ∃ j g, j ≠ i ∧ l !! j = Some g ∧ P g ∧ f_fd g = fd.
Proof.
  intros Hi. split.
  - intros (j & g & Hj & HP & Hfd). destruct (lookup_set _ _ _ _ _ _ Hi Hj) as [[-> ->]|[Hn Hg]]; eauto 10.
  - intros [[HP Hfd]|(j & g & Hn & Hj & HP & Hfd)].
    + exists i, f'. rewrite list_lookup_insert_eq by (by eapply lookup_lt_Some). done.
    + exists j, g. by rewrite list_lookup_insert_ne.
Qed.

(** The descriptors of the files other than [i]. *)
Definition other_fd (P : file → Prop) (l : list file) (i : nat) (fd : Z) : Prop :=
  ∃ j g, j ≠ i ∧ l !! j = Some g ∧ P g ∧ f_fd g = fd.

Lemma has_fd_other P l i f fd :
  l !! i = Some f → has_fd P l fd ↔ (P f ∧ f_fd f = fd) ∨ other_fd P l i fd.
Proof.
  intros Hi. rewrite <-(has_fd_set P l i f f fd Hi). by rewrite list_insert_id.
Qed.

Lemma files_inv_update s w s' w' i f f' :
  files_inv s w → files s !! i = Some f → files s' = <[i := f']> (files s) →
  idle f' ∨ active f' ∨ f_flags f' = F_DONE →
  (∀ fd, fd ∈ rset s' ↔ (active f' ∧ f_fd f' = fd) ∨ other_fd active (files s) i fd) →
  (∀ fd, fd ∈ wset s' ↔ (connecting f' ∧ f_fd f' = fd) ∨ other_fd connecting (files s) i fd) →
  maxfd s <= maxfd s' →
  (active f' → f_fd f' <= maxfd s' ∧ 0 <= f_fd f' ∧ f_fd f' ∈ opened K (w_calls w') ∧
     ¬ other_fd active (files s) i (f_fd f')) →
  (∀ fd, other_fd active (files s) i fd → fd ∈ opened K (w_calls w')) →
  files_inv s' w'.
Proof.
  intros [Hfl Hr Hw Hm Ho Hinj] Hi Hfs Hf' Hr' Hw' Hmax Hact Hopen.
  assert (Hoth : ∀ j g, j ≠ i → files s !! j = Some g → active g →
                   other_fd active (files s) i (f_fd g)) by (intros j g ???; by exists j, g).
  split; rewrite ?Hfs.
  - intros j g Hj. destruct (lookup_set _ _ _ _ _ _ Hi Hj) as [[-> ->]|[Hn Hg]]; [done|by apply (Hfl j)].
  - intros fd. by rewrite Hr', (has_fd_set _ _ _ _ _ _ Hi).
  - intros fd. by rewrite Hw', (has_fd_set _ _ _ _ _ _ Hi).
  - intros j g Hj Ha. destruct (lookup_set _ _ _ _ _ _ Hi Hj) as [[-> ->]|[Hn Hg]]; [by destruct (Hact Ha) as (? & ? & ? & ?)|].
    specialize (Hm j g Hg Ha). lia.
  - intros j g Hj Ha. destruct (lookup_set _ _ _ _ _ _ Hi Hj) as [[-> ->]|[Hn Hg]]; [by destruct (Hact Ha) as (? & ? & ? & ?)|].
    split; [by apply (Ho j g)|]. by apply Hopen, (Hoth j g).
  - intros j k g h Hj Hk Hg Hh Heq.
    destruct (lookup_set _ _ _ _ _ _ Hi Hj) as [[-> ->]|[Hn Hg']],
      (lookup_set _ _ _ _ _ _ Hi Hk) as [[-> ->]|[Hn' Hh']]; [done|..].
    + destruct (Hact Hg) as (_ & _ & _ & Hno). destruct Hno. rewrite Heq. by apply (Hoth k).
    + destruct (Hact Hh) as (_ & _ & _ & Hno). destruct Hno. rewrite <-Heq. by apply (Hoth j).
    + by apply (Hinj j k g h).
Qed.

Lemma connecting_active f : connecting f → active f.
Proof. by left. Qed.

Lemma other_connecting l i fd : other_fd connecting l i fd → other_fd active l i fd.
Proof. intros (j & g & Hj & Hg & Hc & Hfd). exists j, g. split_and!; try done. by left. Qed.

Lemma other_open s w i fd :
  files_inv s w → other_fd active (files s) i fd → fd ∈ opened K (w_calls w).
Proof. intros Hinv (j & g & Hj & Hg & Ha & <-). by apply (fi_open s w Hinv j g). Qed.

Lemma other_apart s w i f :
  files_inv s w → files s !! i = Some f → active f → ¬ other_fd active (files s) i (f_fd f).
Proof.
  intros Hinv Hi Ha (j & g & Hj & Hg & Hga & Hfd). apply Hj.
  by apply (fi_inj s w Hinv j i g f).
Qed.

Lemma mem_rset s w i f fd :
  files_inv s w → files s !! i = Some f →
  fd ∈ rset s ↔ (active f ∧ f_fd f = fd) ∨ other_fd active (files s) i fd.
Proof. intros Hinv Hi. by rewrite (fi_rset s w Hinv), (has_fd_other _ _ _ _ _ Hi). Qed.

Lemma mem_wset s w i f fd :
  files_inv s w → files s !! i = Some f →
  fd ∈ wset s ↔ (connecting f ∧ f_fd f = fd) ∨ other_fd connecting (files s) i fd.
Proof. intros Hinv Hi. by rewrite (fi_wset s w Hinv), (has_fd_other _ _ _ _ _ Hi). Qed.

(** A file is requested: it was waiting to connect, or is new with descriptor [fd]. *)
Lemma inv_start s w w' i f fd flags nc ntc ntr :
  files_inv s w → files s !! i = Some f → idle f → 0 <= fd → fd ∉ opened K (w_calls w) →
  (∀ x, x ∈ fd :: opened K (w_calls w) → x ∈ opened K (w_calls w')) →
  flags = F_CONNECTING ∨ flags = F_READING →
  files_inv (Web (<[i := File (f_name f) (f_host f) fd flags]> (files s)) nc ntc ntr
    (Z.max (maxfd s) fd) ({[fd]} ∪ rset s)
    (if decide (flags = F_CONNECTING) then {[fd]} ∪ wset s else wset s)) w'.
Proof.
  intros Hinv Hi Hid Hfd Hfr Hop Hfl. assert (Hna : ¬ active f) by (unfold idle, active in *; by rewrite Hid; intros [|]).
  apply (files_inv_update s w _ w' i f (File (f_name f) (f_host f) fd flags)); try done; simpl.
  - by right; left.
  - intros x. rewrite elem_of_union, elem_of_singleton, (mem_rset s w i f x Hinv Hi).
    unfold active at 3. simpl. naive_solver.
  - intros x. unfold connecting at 1. simpl. destruct (decide (flags = F_CONNECTING)) as [Hc|Hc].
    + rewrite elem_of_union, elem_of_singleton, (mem_wset s w i f x Hinv Hi).
      split; [|naive_solver]. intros [->|[[Hcf _]|Ho]]; [by left| |by right].
      destruct Hna. by left.
    + rewrite (mem_wset s w i f x Hinv Hi). split; [|naive_solver].
      intros [[Hcf _]|Ho]; [destruct Hna; by left|by right].
  - lia.
  - intros _. split; [lia|]. split; [done|]. split; [apply Hop; by left|].
    intros Ho. by apply Hfr, (other_open s w i).
  - intros x Ho. apply Hop. right. by apply (other_open s w i).
Qed.

Lemma inv_established s w w' i f nc ntc ntr :
  files_inv s w → files s !! i = Some f → connecting f → opened K (w_calls w') = opened K (w_calls w) →
  files_inv (Web (<[i := File (f_name f) (f_host f) (f_fd f) F_READING]> (files s)) nc ntc ntr
    (Z.max (maxfd s) (f_fd f)) ({[f_fd f]} ∪ rset s) (wset s ∖ {[f_fd f]})) w'.
Proof.
  intros Hinv Hi Hc Hop. assert (Ha := connecting_active f Hc).
  assert (Hno := other_apart s w i f Hinv Hi Ha).
  apply (files_inv_update s w _ w' i f (File (f_name f) (f_host f) (f_fd f) F_READING)); try done; simpl.
  - right. left. by right.
  - intros x. rewrite elem_of_union, elem_of_singleton, (mem_rset s w i f x Hinv Hi).
    split; [|naive_solver]. intros [->|[[_ <-]|Ho]]; [| |by right]; left; (split; [by right|done]).
  - intros x. rewrite elem_of_difference, elem_of_singleton, (mem_wset s w i f x Hinv Hi). split.
    + intros [[[_ <-]|Ho] Hn]; [done|by right].
    + intros [[Hf _]|Ho]; [done|]. split; [by right|]. intros ->. by apply Hno, other_connecting.
  - lia.
  - intros _. split; [lia|]. rewrite Hop. split; [by apply (fi_open s w Hinv i f)|].
    split; [by apply (fi_open s w Hinv i f)|done].
  - intros x Ho. rewrite Hop. by apply (other_open s w i).
Qed.

Lemma inv_finished s w w' i f nc ntc ntr :
  files_inv s w → files s !! i = Some f → f_flags f = F_READING →
  opened K (w_calls w') = remove_first (f_fd f) (opened K (w_calls w)) →
  files_inv (Web (<[i := File (f_name f) (f_host f) (f_fd f) F_DONE]> (files s)) nc ntc ntr
    (maxfd s) (rset s ∖ {[f_fd f]}) (wset s)) w'.
Proof.
  intros Hinv Hi Hfl Hop. assert (Ha : active f) by (by right).
  assert (Hno := other_apart s w i f Hinv Hi Ha).
  apply (files_inv_update s w _ w' i f (File (f_name f) (f_host f) (f_fd f) F_DONE)); try done; simpl.
  - by right; right.
  - intros x. rewrite elem_of_difference, elem_of_singleton, (mem_rset s w i f x Hinv Hi). split.
    + intros [[[_ <-]|Ho] Hn]; [done|by right].
    + intros [[[|] _]|Ho]; [done..|]. split; [by right|]. by intros ->.
  - intros x. rewrite (mem_wset s w i f x Hinv Hi).
    split; (intros [[Hc _]|Ho]; [unfold connecting in Hc; simpl in Hc; by rewrite ?Hfl in Hc|by right]).
  - by intros [|].
  - intros x Ho. rewrite Hop. apply elem_of_remove_first; [by intros ->|]. by apply (other_open s w i).
Qed.

(** * The steps of the program *)

Definition returns {A} (R : A → world → Prop) (o : outcome A) (w : world) : Prop :=
  match o with Val a => R a w | _ => True end.

(** A step that opens and closes no socket. *)
Lemma wp_quiet_bind {A B} (m : M A) (f : A → M B) w R :
  emits keeps_sockets m →
  (∀ a cs w', Forall keeps_sockets cs → w_calls w' = cs ++ w_calls w → wp K (f a) w' (returns R)) →
  wp K (m ≫= f) w (returns R).
Proof using Type.
  intros Hm Hf. wp_step. apply (wp_emits K _ _ _ _ Hm). intros [a|c| |] cs w' Hcs Hw; simpl; try done.
  by apply (Hf a cs).
Qed.

Lemma emits_write_cmd fuel fd name : emits keeps_sockets (write_cmd fuel fd name).
Proof using Type.
  unfold write_cmd. emits_tac. apply emits_Writen; [apply report_keeps|done].
Qed.

Lemma emits_fd_set fd set : emits keeps_sockets (fd_set fd set).
Proof using Type. unfold fd_set. emits_tac. Qed.

Lemma emits_printf text : emits keeps_sockets (printf text).
Proof using Type. unfold printf, void. emits_tac. done. Qed.

Lemma wp_fd_set {B} fd set (f : gset Z → M B) w R :
  wp K (f ({[fd]} ∪ set)) w (returns R) → wp K (fd_set fd set ≫= f) w (returns R).
Proof using Type. intros Hf. wp_step. unfold fd_set. wp_if; [by wp_step|]. by wp_step. Qed.

Definition keeps (w w' : world) : Prop :=
  ∃ cs, Forall keeps_sockets cs ∧ w_calls w' = cs ++ w_calls w.

Lemma keeps_cons w w' c : keeps_sockets c → keeps w w' →
  keeps w (World (c :: w_calls w') (w_errno w') (w_daemon w')).
Proof using Type. intros Hc (cs & Hcs & Hw). exists (c :: cs). split; [by constructor|]. simpl. by rewrite Hw. Qed.

Lemma keeps_trans w1 w2 w3 : keeps w1 w2 → keeps w2 w3 → keeps w1 w3.
Proof using Type.
  intros (cs & Hcs & Hw) (cs' & Hcs' & Hw'). exists (cs' ++ cs). split; [by apply Forall_app|].
  by rewrite Hw', Hw, app_assoc.
Qed.

Lemma keeps_opened w w' : keeps w w' → opened K (w_calls w') = opened K (w_calls w).
Proof using Type. intros (cs & Hcs & ->). by apply opened_keeps. Qed.

Lemma wp_write_get_cmd fuel i f s w R :
  (∀ w', keeps w w' →
     R (Web (<[i := File (f_name f) (f_host f) (f_fd f) F_READING]> (files s)) (nconn s)
          (nlefttoconn s) (nlefttoread s) (Z.max (maxfd s) (f_fd f)) ({[f_fd f]} ∪ rset s) (wset s)) w') →
  wp K (write_get_cmd fuel i f s) w (returns R).
Proof using Type.
  intros HR. unfold write_get_cmd. apply wp_quiet_bind; [apply emits_write_cmd|]. intros n cs1 w1 H1 Hw1.
  apply wp_quiet_bind; [apply emits_printf|]. intros [] cs2 w2 H2 Hw2.
  apply wp_fd_set. wp_step. apply HR. exists (cs2 ++ cs1). split; [by apply Forall_app|].
  by rewrite Hw2, Hw1, app_assoc.
Qed.

Lemma emits_Host_serv host serv family socktype :
  emits keeps_sockets (Host_serv host serv family socktype).
Proof using Type.
  unfold Host_serv. emits_tac; try done. apply emits_err_quit, report_keeps.
Qed.

Lemma emits_Fcntl fd cmd arg : emits keeps_sockets (Fcntl fd cmd arg).
Proof using Type. unfold Fcntl. apply emits_or_err_sys; [apply report_keeps|]. by emits_tac. Qed.

(** What [start_connect] does to file [i]. *)
Lemma wp_start_connect fuel i f s w R :
  files_inv s w → files s !! i = Some f → idle f →
  (∀ fd flags s' w', flags = F_CONNECTING ∨ flags = F_READING →
     files s' = <[i := File (f_name f) (f_host f) fd flags]> (files s) →
     nconn s' = nconn s → nlefttoconn s' = nlefttoconn s → nlefttoread s' = nlefttoread s →
     (∀ nc ntc ntr, files_inv (Web (files s') nc ntc ntr (maxfd s') (rset s') (wset s')) w') →
     R s' w') →
  wp K (start_connect fuel i f s) w (returns R).
Proof using All.
  intros Hinv Hi Hid HR. unfold start_connect.
  apply wp_quiet_bind; [apply emits_Host_serv|]. intros [ai rest] cs1 w1 H1 Hw1.
  wp_step. unfold Socket. apply wp_or_err_sys. wp_step.
  destruct (K (w_calls w1) _) as [fd|e] eqn:HK; [|done]. cbn [bind_post].
  destruct (socket_fresh _ _ _ _ _ HK) as [Hfd Hfr].
  assert (Hop : opened K (w_calls w1) = opened K (w_calls w)) by (by rewrite Hw1, opened_keeps).
  set (w2 := World _ _ _).
  assert (Hop2 : opened K (w_calls w2) = fd :: opened K (w_calls w)).
  { unfold w2. cbn [w_calls]. by rewrite opened_socket, HK, Hop. }
  rewrite Hop in Hfr.
  apply wp_quiet_bind; [apply emits_printf|]. intros [] cs3 w3 H3 Hw3.
  apply wp_quiet_bind; [apply emits_Fcntl|]. intros flags cs4 w4 H4 Hw4.
  apply wp_quiet_bind; [apply emits_Fcntl|]. intros z cs5 w5 H5 Hw5.
  assert (Hk : keeps w2 w5).
  { exists (cs5 ++ cs4 ++ cs3). rewrite !Forall_app. split; [done|]. by rewrite Hw5, Hw4, Hw3, <-!app_assoc. }
  assert (Hgo : ∀ w' flags, keeps w2 w' → flags = F_CONNECTING ∨ flags = F_READING →
    ∀ nc ntc ntr, files_inv (Web (<[i := File (f_name f) (f_host f) fd flags]> (files s)) nc ntc ntr
      (Z.max (maxfd s) fd) ({[fd]} ∪ rset s)
      (if decide (flags = F_CONNECTING) then {[fd]} ∪ wset s else wset s)) w').
  { intros w' fl Hk' Hfl nc ntc ntr. apply (inv_start s w); try done.
    by rewrite (keeps_opened _ _ Hk'), Hop2. }
  wp_step. do 2 wp_step. set (c := Cconnect _ _). destruct (K (w_calls w5) c) as [[]|e]; simpl.
  - apply wp_write_get_cmd. simpl. intros w' Hk'.
    apply (HR fd F_READING); try done; [by right|]. simpl. apply (Hgo w' F_READING); [|by right].
    eapply keeps_trans; [|exact Hk']. by apply keeps_cons.
  - do 2 wp_step. wp_step.
    wp_if; [by apply wp_err_sys|]. wp_step.
    apply wp_fd_set, wp_fd_set. wp_step.
    apply (HR fd F_CONNECTING); try done; [by left|]. simpl. apply (Hgo _ F_CONNECTING); [|by left].
    by apply (keeps_cons w2 w5 c).
Qed.

(** ** Counters *)

Lemma find_idle_Some l i f :
  find_file l = Some (i, f) → l !! i = Some f ∧ idle f.
Proof using Type. intros (Hi & Hf & _)%list_find_Some. done. Qed.

Lemma find_file_idle l : 0 < count idle l → is_Some (find_file l).
Proof using Type.
  intros Hc. destruct (count_pos idle l Hc) as (i & f & Hi & Hf).
  apply list_find_elem_of with f; [by eapply list_elem_of_lookup_2|done].
Qed.

(** Every file that is left to read has been asked for, or is left to connect. *)
Lemma files_count_kinds l : (∀ i f, l !! i = Some f → idle f ∨ active f ∨ f_flags f = F_DONE) →
  count active l + count idle l = count unread l.
Proof using Type.
  induction l as [|f l IH]; [done|]. intros Hk. rewrite !count_cons.
  rewrite <-IH by (intros i g Hg; by apply (Hk (S i) g)).
  assert (Hf := Hk 0%nat f eq_refl). destruct f as [n h d fl]. unfold idle, active in Hf.
  simpl in Hf. destruct Hf as [->|[[->| ->]| ->]]; simpl; lia.
Qed.

Lemma inv_started s w i f fd flags s' w' :
  web_inv s w → nconn s < limit → files s !! i = Some f → idle f →
  flags = F_CONNECTING ∨ flags = F_READING →
  files s' = <[i := File (f_name f) (f_host f) fd flags]> (files s) →
  nconn s' = nconn s → nlefttoconn s' = nlefttoconn s → nlefttoread s' = nlefttoread s →
  (∀ nc ntc ntr, files_inv (Web (files s') nc ntc ntr (maxfd s') (rset s') (wset s')) w') →
  web_inv (Web (files s') (nconn s' + 1) (nlefttoconn s' - 1) (nlefttoread s') (maxfd s') (rset s')
             (wset s')) w'.
Proof using Type.
  intros [Hfi Hc1 Hc2 Hc3 Hl] Hlim Hi Hid Hfl Hfs E1 E2 E3 Hf'. destruct f as [n h d fl]. unfold idle in Hid.
  simpl in Hid, Hfs. subst fl. split; simpl; [done| | | |lia];
    rewrite Hfs, (count_insert _ _ _ _ _ Hi), ?E1, ?E2, ?E3, ?Hc1, ?Hc2, ?Hc3;
    destruct Hfl as [-> | ->]; simpl; lia.
Qed.

Lemma wp_web_fill fuel s w :
  web_inv s w →
  wp K (web_fill fuel limit s) w (returns (λ s' w', web_inv s' w' ∧ nlefttoread s' = nlefttoread s
    ∧ ¬ (nconn s' < limit ∧ nlefttoconn s' > 0))).
Proof using All.
  intros Hinv. unfold web_fill.
  apply (wp_iter K (λ s1 w1, web_inv s1 w1 ∧ nlefttoread s1 = nlefttoread s)); [done| |done].
  intros s1 w1 [H1 Hr1]. destruct (decide (nconn s1 < limit ∧ nlefttoconn s1 > 0)) as [Hd|Hd].
  2: { by wp_step. }
  destruct (find_file (files s1)) as [[i f]|] eqn:Hf; [|by apply wp_err_quit].
  destruct (find_idle_Some _ _ _ Hf) as [Hi Hid]. wp_step.
  eapply wp_mono.
  - apply (wp_start_connect fuel i f s1 w1 (λ s2 w2,
      web_inv (Web (files s2) (nconn s2 + 1) (nlefttoconn s2 - 1) (nlefttoread s2) (maxfd s2)
                 (rset s2) (wset s2)) w2 ∧ nlefttoread s2 = nlefttoread s)); [apply H1|done..|].
    intros fd flags s2 w2 Hfl Hfs E1 E2 E3 Hinv2. split; [|congruence].
    apply (inv_started s1 w1 i f fd flags); try done; by destruct Hd.
  - intros [s2|c| |] w2; simpl; try done.
Qed.

Lemma web_ready_read s w w' i f :
  web_inv s w → files s !! i = Some f → f_flags f = F_READING →
  opened K (w_calls w') = remove_first (f_fd f) (opened K (w_calls w)) →
  web_inv (Web (<[i := File (f_name f) (f_host f) (f_fd f) F_DONE]> (files s)) (nconn s - 1)
             (nlefttoconn s) (nlefttoread s - 1) (maxfd s) (rset s ∖ {[f_fd f]}) (wset s)) w'.
Proof using Type.
  intros [Hfi Hc1 Hc2 Hc3 Hl] Hi Hfl Hop. split; simpl; [by apply (inv_finished s w)| | | |lia];
    destruct f as [n h d fl]; simpl in Hfl; subst fl;
    rewrite (count_insert _ _ _ _ _ Hi), ?Hc1, ?Hc2, ?Hc3; simpl; lia.
Qed.

Lemma web_ready_established s w w' i f :
  web_inv s w → files s !! i = Some f → connecting f → keeps w w' →
  web_inv (Web (<[i := File (f_name f) (f_host f) (f_fd f) F_READING]> (files s)) (nconn s)
             (nlefttoconn s) (nlefttoread s) (Z.max (maxfd s) (f_fd f)) ({[f_fd f]} ∪ rset s)
             (wset s ∖ {[f_fd f]})) w'.
Proof using Type.
  intros [Hfi Hc1 Hc2 Hc3 Hl] Hi Hfl Hop%keeps_opened.
  split; simpl; [by apply (inv_established s w)| | | |done];
    destruct f as [n h d fl]; unfold connecting in Hfl; simpl in Hfl; subst fl;
    rewrite (count_insert _ _ _ _ _ Hi), ?Hc1, ?Hc2, ?Hc3; simpl; lia.
Qed.

Lemma web_inv_keeps s w w' : web_inv s w → keeps w w' → web_inv s w'.
Proof using Type. intros H (cs & Hcs & Hw). by apply (web_inv_calls s w w' cs). Qed.

(** The flags of a file that is not done tell what is under way. *)
Lemma flags_connecting s w i f :
  web_inv s w → files s !! i = Some f → ¬ (f_flags f = 0 ∨ Z.land (f_flags f) F_DONE ≠ 0) →
  Z.land (f_flags f) F_CONNECTING ≠ 0 → connecting f.
Proof using Type.
  intros [Hfi _ _ _ _] Hi Hn Hc. destruct (fi_flags s w Hfi i f Hi) as [H0|[[Hf|Hf]|Hf]]; [|done|..].
  - destruct Hn. by left.
  - by rewrite Hf in Hc.
  - by rewrite Hf in Hc.
Qed.

Lemma flags_reading s w i f :
  web_inv s w → files s !! i = Some f → ¬ (f_flags f = 0 ∨ Z.land (f_flags f) F_DONE ≠ 0) →
  Z.land (f_flags f) F_READING ≠ 0 → f_flags f = F_READING.
Proof using Type.
  intros [Hfi _ _ _ _] Hi Hn Hc. destruct (fi_flags s w Hfi i f Hi) as [H0|[[Hf|Hf]|Hf]]; [| |done|].
  - destruct Hn. by left.
  - by rewrite Hf in Hc.
  - by rewrite Hf in Hc.
Qed.

(** [Read] and [Close] answer, or end the process. *)
Lemma wp_Read_bind {B} fd n (f : list Z → M B) w R :
  (∀ l w', keeps w w' → wp K (f l) w' (returns R)) → wp K (Read fd n ≫= f) w (returns R).
Proof using Type.
  intros Hf. wp_step. unfold Read. apply wp_or_err_sys. wp_step.
  destruct (K (w_calls w) (Cread fd n)) as [l|e]; [|done]. cbn [bind_post]. apply Hf.
  apply keeps_cons; [done|]. by exists [].
Qed.

Lemma wp_Close_bind {B} fd (f : unit → M B) w R :
  (∀ w', opened K (w_calls w') = remove_first fd (opened K (w_calls w)) →
     wp K (f tt) w' (returns R)) → wp K (Close fd ≫= f) w (returns R).
Proof using Type.
  intros Hf. wp_step. unfold Close. apply wp_or_err_sys. wp_step.
  destruct (K (w_calls w) (Cclose fd)) as [[]|e]; [|done]. cbn [bind_post]. by apply Hf.
Qed.

Lemma wp_printf_bind {B} text (f : unit → M B) w R :
  (∀ w', keeps w w' → wp K (f tt) w' (returns R)) → wp K (printf text ≫= f) w (returns R).
Proof using Type.
  intros Hf. apply wp_quiet_bind; [apply emits_printf|]. intros [] cs w' Hcs Hw. apply Hf. by exists cs.
Qed.

Lemma wp_web_ready fuel rs ws i s w :
  web_inv s w → wp K (web_ready fuel rs ws i s) w (returns web_inv).
Proof using Type.
  intros Hinv. unfold web_ready. destruct (files s !! i) as [f|] eqn:Hi; [|by wp_step].
  cbn zeta. destruct (decide (f_flags f = 0 ∨ Z.land (f_flags f) F_DONE ≠ 0)) as [|Hn]; [by wp_step|].
  destruct (decide (Z.land (f_flags f) F_CONNECTING ≠ 0 ∧ (f_fd f ∈ rs ∨ f_fd f ∈ ws))) as [[Hc _]|].
  - assert (Hcon := flags_connecting s w i f Hinv Hi Hn Hc).
    apply wp_quiet_bind; [by emits_tac|]. intros e cs1 w1 H1 Hw1.
    apply wp_quiet_bind.
    { destruct e; emits_tac; by apply emits_err_ret, report_keeps. }
    intros [] cs2 w2 H2 Hw2. apply wp_printf_bind. intros w3 H3.
    apply wp_write_get_cmd. simpl. intros w4 H4.
    apply (web_ready_established s w w4 i f Hinv Hi Hcon).
    apply (keeps_trans w w2); [|by eapply keeps_trans]. exists (cs2 ++ cs1).
    split; [by apply Forall_app|]. by rewrite Hw2, Hw1, app_assoc.
  - destruct (decide (Z.land (f_flags f) F_READING ≠ 0 ∧ f_fd f ∈ rs)) as [[Hr _]|]; [|by wp_step].
    assert (Hrd := flags_reading s w i f Hinv Hi Hn Hr).
    apply wp_Read_bind. intros buf w1 H1. wp_if.
    + apply wp_printf_bind. intros w2 H2. apply wp_Close_bind. intros w3 H3. wp_step.
      apply (web_ready_read s w); try done. by rewrite H3, (keeps_opened w1 w2), (keeps_opened w w1).
    + apply wp_printf_bind. intros w2 H2. wp_step. apply (web_inv_keeps s w); [done|].
      by eapply keeps_trans.
Qed.

Lemma wp_web_round fuel s w :
  web_inv s w →
  wp K (web_round fuel limit s) w
    (returns (λ r w', match r with inl s' => web_inv s' w' | inr _ => nlefttoread s <= 0 end)).
Proof using All.
  intros Hinv. unfold web_round. wp_if; [|wp_step; simpl; lia]. wp_step.
  eapply wp_mono; [by apply wp_web_fill|]. intros [s1|c| |] w1; simpl; try done. intros (H1 & _ & _).
  apply wp_quiet_bind.
  { unfold Select_sets, Select. emits_tac. apply emits_or_err_sys; [apply report_keeps|]. by emits_tac. }
  intros [rs ws] cs2 w2 H2 Hw2. assert (Hi2 := web_inv_calls s1 w1 w2 cs2 H1 Hw2 H2).
  wp_step. apply (wp_for_each K (λ _ s w, web_inv s w)); [done| |by simpl].
  intros i l s3 w3 H3. eapply wp_mono; [by apply wp_web_ready|].
  intros [s4|c| |] w4; simpl; done.
Qed.
End web.

(** The state at the start: [argv] names between 1 and [MAXFILES] files. *)
Lemma web_inv_start K limit argv w :
  (5 <= length argv)%nat → web_inv K limit (web_init argv) w.
Proof.
  intros Hlen. set (n := Z.min (Z.of_nat (length argv) - 4) MAXFILES).
  assert (Hall : ∀ i f, files (web_init argv) !! i = Some f → f_flags f = 0).
  { intros i f. unfold web_init. simpl. rewrite list_lookup_fmap. intros (x & _ & ->)%fmap_Some. done. }
  assert (Hno : ∀ (P : file → Prop) fd, (∀ f, P f → f_flags f ≠ 0) →
            fd ∈ (∅ : gset Z) ↔ has_fd P (files (web_init argv)) fd).
  { intros P fd HP. split; [set_solver|]. intros (i & f & Hi & Hf & _). destruct (HP f Hf). by apply (Hall i). }
  assert (Hlen' : Z.of_nat (length (files (web_init argv))) = n).
  { unfold web_init. simpl. rewrite length_map, length_take, length_drop. fold n. unfold MAXFILES in *. lia. }
  assert (Hnot : ∀ (P : file → Prop) f, (∀ f, P f → f_flags f ≠ 0) → f_flags f = 0 → ¬ P f) by naive_solver.
  assert (Hact : ∀ f, active f → f_flags f ≠ 0) by (intros f [-> | ->]; done).
  assert (Hcon : ∀ f, connecting f → f_flags f ≠ 0) by (by intros f ->).
  split; simpl.
  - split; simpl.
    + intros i f Hi. left. by apply (Hall i).
    + intros fd. by apply Hno.
    + intros fd. by apply Hno.
    + intros i f Hi Ha. destruct (Hact f Ha). by apply (Hall i).
    + intros i f Hi Ha. destruct (Hact f Ha). by apply (Hall i).
    + intros i j f g Hi _ Ha. destruct (Hact f Ha). by apply (Hall i).
  - symmetry. apply count_none. intros i f Hi Ha. destruct (Hact f Ha). by apply (Hall i).
  - rewrite count_full; [done|]. apply Hall.
  - rewrite count_full; [done|]. intros i f Hi. unfold unread. by rewrite (Hall i).
  - lia.
Qed.

(** C17: the non-blocking web client, whatever the kernel answers: between any two
    rounds [nconn], [nlefttoconn] and [nlefttoread] count the connections in use,
    the files not asked for and those not read, at most [maxnconn] connections
    are in use, [rset] and [wset] hold exactly their descriptors, each once and
    open; the search for a file never fails; with [maxnconn] at least 1 [select]
    is not called without a descriptor; and the loop ends only when every file
    has been read. *)
Theorem web_main_inv (K : kernel) `{!KernelSocket K} fuel maxnconn argv w0 s w :
  (5 <= length argv)%nat →
  rounds K (web_round fuel maxnconn) (web_init argv) w0 s w →
  web_inv K maxnconn s w
  ∧ (0 < nlefttoconn s → is_Some (find_file (files s)))
  ∧ (∀ s' w', 1 <= maxnconn → 0 < nlefttoread s →
       web_fill fuel maxnconn s K w = (Val s', w') → rset s' ≠ ∅)
  ∧ (∀ w', web_round fuel maxnconn s K w = (Val (inr tt), w') →
       ∀ i f, files s !! i = Some f → f_flags f = F_DONE).
Proof.
  intros Hargv Hr. assert (Hinv : web_inv K maxnconn s w).
  { refine (rounds_inv K (web_inv K maxnconn) _ _ _ _ _ _ _ Hr); [by apply web_inv_start|].
    intros s1 w1 s2 w2 H1 Hb. pose proof (wp_web_round K maxnconn fuel s1 w1 H1) as H.
    unfold wp in H. by rewrite Hb in H. }
  split; [done|]. split; [|split].
  - intros Hc. apply find_file_idle. by rewrite <-(wi_toconn K _ _ _ Hinv).
  - intros s' w' Hm Hread Hfill. pose proof (wp_web_fill K maxnconn fuel s w Hinv) as H.
    unfold wp in H. rewrite Hfill in H. destruct H as ([Hfi Hc1 Hc2 Hc3 _] & Heq & Hstop).
    assert (Hk := files_count_kinds (files s') (fi_flags K _ _ Hfi)).
    assert (Hpos : 0 < count active (files s')) by lia.
    destruct (count_pos active _ Hpos) as (i & f & Hi & Ha).
    intros He. assert (Hin : f_fd f ∈ rset s') by (apply (fi_rset K _ _ Hfi); by exists i, f).
    rewrite He in Hin. set_solver.
  - intros w' Hend i f Hi. pose proof (wp_web_round K maxnconn fuel s w Hinv) as H.
    unfold wp in H. rewrite Hend in H. simpl in H. rewrite (wi_toread K _ _ _ Hinv) in H.
    assert (Hz : count unread (files s) = 0) by (pose proof (count_nonneg unread (files s)); lia).
    assert (Hn := count_zero unread _ i f Hz Hi). unfold unread in Hn. by apply dec_stable.
Qed.

(** A kernel whose connections are established at the first [select] and closed by
    the server after one reply. *)
Fixpoint count_sockets (cs : list call) : Z :=
  match cs with
  | [] => 0
  | Csocket _ _ _ :: cs' => 1 + count_sockets cs'
  | _ :: cs' => count_sockets cs'
  end.

(** The descriptors read so far. *)
Fixpoint received_from (cs : list call) : list Z :=
  match cs with
  | [] => []
  | Cread fd _ :: cs' => fd :: received_from cs'
  | _ :: cs' => received_from cs'
  end.

Definition web_kernel : kernel := λ cs c,
  match c as c return ans c with
  | Csocket _ _ _ => ROk (3 + count_sockets cs)
  | Cgetaddrinfo _ _ _ => inr (Addrinfo 0 AF_INET SOCK_STREAM 0 (SaIn 0 INADDR_ANY) None, [])
  | Cconnect _ _ => RErr EINPROGRESS
  | Cselect _ r w _ => ROk (1, r, w)
  | Cfcntl _ _ _ | Cgetsockopt _ _ _ => ROk 0
  | Cwrite _ d => ROk (Z.of_nat (length d))
  | Cclose _ => ROk tt
  | Cread fd _ => ROk (if decide (fd ∈ received_from cs) then [] else [7])
  | c => default_ans c
  end.

#[global] Instance web_kernel_socket : KernelSocket web_kernel.
Proof.
  intros cs f t p fd. cbn [web_kernel]. intros [= <-].
  assert (Hb : 0 <= count_sockets cs ∧ ∀ x, x ∈ opened web_kernel cs → x < 3 + count_sockets cs).
  { induction cs as [|c cs [IH0 IH]]; [by split; [|set_solver]|].
    destruct c; cbn [count_sockets opened]; unfold open_step; try (split; [lia|done]).
    - split; [lia|]. intros x Hx. apply IH. revert Hx. generalize (opened web_kernel cs).
      intros l. induction l as [|y l IHl]; [done|]. simpl. case_decide; [by right|].
      intros [->|Hx]%elem_of_cons; [by left|]. right. by apply IHl.
    - cbn [web_kernel]. split; [lia|]. intros x [->|Hx]%elem_of_cons; [lia|]. specialize (IH x Hx). lia. }
  destruct Hb as [Hb0 Hb]. split; [lia|]. intros Hin. specialize (Hb _ Hin). lia.
Qed.

Definition web_argv : list (list Z) := [str "web"; str "2"; str "host"; str "/"; str "a"; str "b"; str "c"].

Definition web_next (r : outcome (web + unit) * world) : web * world :=
  match r with (Val (inl s), w) => (s, w) | (_, w) => (web_init web_argv, w) end.

(** Three files over two connections: after the first two rounds. *)
Lemma web_main_inv_witness :
  let r1 := web_next (web_round 9 2 (web_init web_argv) web_kernel (World [] 0 false)) in
  let r2 := web_next (web_round 9 2 r1.1 web_kernel r1.2) in
  web_inv web_kernel 2 r2.1 r2.2 ∧ nconn r2.1 = 2 ∧ map f_flags (files r2.1) = [2; 2; 0].
Proof.
  intros r1 r2. split; [|by vm_compute].
  destruct (web_main_inv web_kernel 9 2 web_argv (World [] 0 false) r2.1 r2.2) as [H _]; [simpl; lia| |exact H].
  apply (rounds_step _ _ _ _ r1.1 r1.2); [|vm_compute; reflexivity].
  apply (rounds_step _ _ _ _ (web_init web_argv) (World [] 0 false)); [|vm_compute; reflexivity].
  apply rounds_refl.
Defined.

(** A connection that fails ([SO_ERROR] is not 0) is reported, and then used as if
    it were established. *)
Definition refused_kernel : kernel := λ cs c,
  match c as c return ans c with
  | Cgetsockopt _ _ _ => ROk 111
  | c => web_kernel cs c
  end.

Lemma web_failed_connect :
  let f := File (str "a") (str "host") 3 F_CONNECTING in
  let r := web_ready 9 ∅ {[3]} 0 (Web [f] 1 0 1 3 {[3]} {[3]}) refused_kernel (World [] 0 false) in
  (match r.1 with Val s => map f_flags (files s) | _ => [] end) = [F_READING]
  ∧ Cwrite 3 (GET_CMD (str "a")) ∈ w_calls r.2.
Proof. split; [by vm_compute|]. vm_compute. repeat constructor. Qed.
