(* ===== verification/Rtt.v ===== *)
(** [lib/rtt.c] and [rtt/]: a UDP client that sends a request again until a reply
    comes, with the timeouts of Jacobson's estimator.

    The [float] and [double] values are IEEE binary32 and binary64, computed by
    the operations of [SpecFloat] (x86_64 has no excess precision); only the text
    of a [double] in [printf] is a parameter. *)

From S2P Require Import Prelude Net Sys Error Wrap Io Connect TcpServ Mcast.
From Stdlib Require Import SpecFloat.

(** * Floating point *)

(** The conversions between [float] and [double], and from an integer. *)
Definition to_format (prec emax : Z) (x : spec_float) : spec_float :=
  match x with
  | S754_finite s m e => binary_normalize prec emax (if s then Zneg m else Zpos m) e s
  | _ => x
  end.
Definition to_float (x : spec_float) : spec_float := to_format 24 128 x.
Definition to_double (x : spec_float) : spec_float := to_format 53 1024 x.
Definition double_of_Z (n : Z) : spec_float := binary_normalize 53 1024 n 0 false.
Definition float_of_Z (n : Z) : spec_float := binary_normalize 24 128 n 0 false.

(** [(int) x]: the fraction is discarded; the value must fit. *)
Definition int_of_double (x : spec_float) : option Z :=
  let fit n := if decide (- 2 ^ 31 <= n < 2 ^ 31) then Some n else None in
  match x with
  | S754_zero _ => Some 0
  | S754_finite s m e =>
      let a := if decide (0 <= e) then Zpos m * 2 ^ e else Zpos m / 2 ^ (- e) in
      fit (if s then - a else a)
  | _ => None
  end.

Definition dadd := SFadd 53 1024.
Definition dsub := SFsub 53 1024.
Definition dmul := SFmul 53 1024.
Definition ddiv := SFdiv 53 1024.
Definition fsub := SFsub 24 128.
Definition fmul := SFmul 24 128.

(** * lib/rtt.c *)

Definition RTT_RXTMIN : Z := 2.
Definition RTT_RXTMAX : Z := 60.
Definition RTT_MAXNREXMT : Z := 3.

(** The [float] members, then the counters. *)
Record rtt_info := Rtt_info {
  rtt_rtt : spec_float;
  rtt_srtt : spec_float;
  rtt_rttvar : spec_float;
  rtt_rto : spec_float;
  rtt_nrexmt : Z;
  rtt_base : Z
}.

Definition RTT_RTOCALC (srtt rttvar : spec_float) : spec_float :=
  dadd (to_double srtt) (dmul (double_of_Z 4) (to_double rttvar)).

Definition rtt_minmax (rto : spec_float) : spec_float :=
  if SFltb rto (float_of_Z RTT_RXTMIN) then float_of_Z RTT_RXTMIN
  else if SFltb (float_of_Z RTT_RXTMAX) rto then float_of_Z RTT_RXTMAX
  else rto.

(** The members that [rtt_init] leaves alone are those of [ptr]. *)
Definition rtt_init (ptr : rtt_info) : M rtt_info :=
  '(tv_sec, _) ← Gettimeofday;
  let srtt := float_of_Z 0 in
  let rttvar := to_float (ddiv (double_of_Z 3) (double_of_Z 4)) in
  mret (Rtt_info (float_of_Z 0) srtt rttvar (rtt_minmax (to_float (RTT_RTOCALC srtt rttvar)))
          (rtt_nrexmt ptr) (u32 tv_sec)).

Definition rtt_ts (ptr : rtt_info) : M Z :=
  '(tv_sec, tv_usec) ← Gettimeofday;
  mret (u32 ((tv_sec - rtt_base ptr) * 1000 + tv_usec / 1000)).

Definition rtt_newpack (ptr : rtt_info) : rtt_info :=
  Rtt_info (rtt_rtt ptr) (rtt_srtt ptr) (rtt_rttvar ptr) (rtt_rto ptr) 0 (rtt_base ptr).

(** [(int) (ptr->rtt_rto + 0.5)]; a value out of range is undefined behaviour. *)
Definition rtt_start (ptr : rtt_info) : option Z :=
  int_of_double (dadd (to_double (rtt_rto ptr)) (ddiv (double_of_Z 1) (double_of_Z 2))).

Definition rtt_stop (ptr : rtt_info) (ms : Z) : rtt_info :=
  let rtt := to_float (ddiv (double_of_Z ms) (double_of_Z 1000)) in
  let delta := to_double (fsub rtt (rtt_srtt ptr)) in
  let srtt := to_float (dadd (to_double (rtt_srtt ptr)) (ddiv delta (double_of_Z 8))) in
  let delta := if SFltb delta (double_of_Z 0) then SFopp delta else delta in
  let rttvar := to_float (dadd (to_double (rtt_rttvar ptr))
                            (ddiv (dsub delta (to_double (rtt_rttvar ptr))) (double_of_Z 4))) in
  Rtt_info rtt srtt rttvar (rtt_minmax (to_float (RTT_RTOCALC srtt rttvar))) (rtt_nrexmt ptr)
    (rtt_base ptr).

(** The value is 0 or -1. *)
Definition rtt_timeout (ptr : rtt_info) : rtt_info * Z :=
  let n := rtt_nrexmt ptr + 1 in
  (Rtt_info (rtt_rtt ptr) (rtt_srtt ptr) (rtt_rttvar ptr) (fmul (rtt_rto ptr) (float_of_Z 2)) n
     (rtt_base ptr),
   if decide (n > RTT_MAXNREXMT) then -1 else 0).

Section rtt.
(** The text of a [double] in the format [%.3f]. *)
Context (fmt_3f : spec_float → list Z).

Definition rtt_debug (rtt_d_flag : Z) (ptr : rtt_info) : M unit :=
  if decide (rtt_d_flag = 0) then mret tt
  else
    void (sys (Cfputs stderr
      (str "rtt = " ++ fmt_3f (to_double (rtt_rtt ptr)) ++ str ", srtt = " ++
       fmt_3f (to_double (rtt_srtt ptr)) ++ str ", rttvar = " ++
       fmt_3f (to_double (rtt_rttvar ptr)) ++ str ", rto = " ++
       fmt_3f (to_double (rtt_rto ptr)) ++ [ch_nl])));;
    void (sys (Cfflush stderr)).

(** * rtt/dg_send_recv.c *)

(** [%4d] *)
Definition fmt_4d (n : Z) : list Z :=
  let t := fmt_d n in repeat 32 (4 - length t) ++ t.

Definition un_le32 (b : list Z) : Z :=
  nth 0 b 0 + 2 ^ 8 * nth 1 b 0 + 2 ^ 16 * nth 2 b 0 + 2 ^ 24 * nth 3 b 0.

(** The static variables; [recvhdr] is kept as its bytes. *)
Record statics := Statics {
  rttinfo : rtt_info;
  rttinit : bool;
  send_seq : Z;
  recvhdr : list Z
}.

Definition recv_seq (st : statics) : Z := un_le32 (take 4 (recvhdr st)).
Definition recv_ts (st : statics) : Z := un_le32 (drop 4 (recvhdr st)).

Definition set_rtt (st : statics) (ptr : rtt_info) (init : bool) : statics :=
  Statics ptr init (send_seq st) (recvhdr st).

(** Whether the handler of [SIGALRM] runs here, and goes back to [sigsetjmp].  The
    points are those after [sigsetjmp]: that the alarm, at least two seconds away,
    expires before [sigsetjmp] is called is not modelled. *)
Definition interrupted : M bool :=
  n ← sys (Cdeliver SIGALRM);
  mret (bool_decide (0 < n)%nat).

Definition SIZEOF_HDR : Z := 8.

(** The loop around [Recvmsg]: the length received and what followed the header,
    or nothing when a signal has ended the wait. *)
Definition await_reply (fuel : nat) (fd inbytes : Z) (st : statics)
    : M (statics * option (Z * list Z)) :=
  iter fuel (λ st,
    jump ← interrupted;
    if (jump : bool) then mret (inr (st, None))
    else
      '(data, _) ← Recvmsg fd (SIZEOF_HDR + inbytes);
      let n := Z.of_nat (length data) in
      let st := Statics (rttinfo st) (rttinit st) (send_seq st) (overwrite (recvhdr st) (take 8 data)) in
      void (sys (Cfputs stderr (str "recv " ++ fmt_4d (s32 (recv_seq st)) ++ [ch_nl])));;
      if decide (n < SIZEOF_HDR ∨ recv_seq st ≠ send_seq st) then mret (inl st)
      else
        jump ← interrupted;
        if (jump : bool) then mret (inr (st, None))
        else mret (inr (st, Some (n, drop 8 data)))) st.

(** From the label [sendagain] to the reply or the timeout. *)
Definition send_round (fuel : nat) (fd : Z) (outbuff : list Z) (inbytes : Z) (destaddr : sockaddr)
    (st : statics) : M (statics + statics * option (list Z)) :=
  void (sys (Cfputs stderr (str "send " ++ fmt_4d (s32 (send_seq st)) ++ str ": ")));;
  ts ← rtt_ts (rttinfo st);
  Sendmsg fd [le32 (send_seq st) ++ le32 ts; outbuff] (Some destaddr) None;;
  match rtt_start (rttinfo st) with
  | None => abort
  | Some sec =>
      sys (Calarm (u32 sec));;
      rtt_debug 1 (rttinfo st);;
      '(st, reply) ← await_reply fuel fd inbytes st;
      match reply with
      | None =>
          let '(ptr, r) := rtt_timeout (rttinfo st) in
          if decide (r < 0) then
            err_msg (str "dg_send_recv: no response from server, giving up");;
            set_errno ETIMEDOUT;;
            mret (inr (set_rtt st ptr false, None))
          else
            err_msg (str "dg_send_recv: timeout, retransmitting");;
            mret (inl (set_rtt st ptr (rttinit st)))
      | Some (n, inbuff) =>
          sys (Calarm 0);;
          ts ← rtt_ts (rttinfo st);
          mret (inr (set_rtt st (rtt_stop (rttinfo st) (u32 (ts - recv_ts st))) (rttinit st),
                     Some inbuff))
      end
  end.

(** [None] is the result -1. *)
Definition dg_send_recv (fuel : nat) (fd : Z) (outbuff : list Z) (inbytes : Z) (destaddr : sockaddr)
    (st : statics) : M (statics * option (list Z)) :=
  st ← (if rttinit st then mret st
        else ptr ← rtt_init (rttinfo st); mret (set_rtt st ptr true));
  let st := Statics (rttinfo st) (rttinit st) (u32 (send_seq st + 1)) (recvhdr st) in
  Signal SIGALRM (Handler "sig_alrm");;
  iter fuel (send_round fuel fd outbuff inbytes destaddr) (set_rtt st (rtt_newpack (rttinfo st)) (rttinit st)).

Definition Dg_send_recv (fuel : nat) (fd : Z) (outbuff : list Z) (inbytes : Z) (destaddr : sockaddr)
    (st : statics) : M (statics * list Z) :=
  '(st, r) ← dg_send_recv fuel fd outbuff inbytes destaddr st;
  match r with
  | None => err_quit (str "dg_send_recv error")
  | Some inbuff => mret (st, inbuff)
  end.

Definition rtt_dg_cli (fuel : nat) (sockfd : Z) (servaddr : sockaddr) (st : statics) : M statics :=
  iter fuel (λ st,
    sendline ← Fgets MAXLINE;
    match sendline with
    | None => mret (inr st)
    | Some sendline =>
        '(st, recvline) ← Dg_send_recv fuel sockfd (c_str sendline) MAXLINE servaddr st;
        Fputs (c_str (recvline ++ [0])) stdout;;
        mret (inl st)
    end) st.

(** [udpcli01.c], with the statics zero. *)
Definition statics_init : statics :=
  Statics (Rtt_info (float_of_Z 0) (float_of_Z 0) (float_of_Z 0) (float_of_Z 0) 0 0) false 0
    (repeat 0 8).

Definition rtt_udpcli01 (fuel : nat) (argv : list (list Z)) : M unit :=
  (if decide (length argv = 2)%nat then mret tt else err_quit (str "usage: udpcli <IPaddress>"));;
  addr ← Inet_pton AF_INET (nth 1 argv []);
  sockfd ← Socket AF_INET SOCK_DGRAM 0;
  rtt_dg_cli fuel sockfd (SaIn (htons 7) addr) statics_init;;
  exit 0.
End rtt.
