(* ===== verification/RttSpec.v ===== *)
(** Properties of [Rtt]: a request is sent at most four times, with growing
    timeouts, and only the reply with its sequence number is returned. *)

From S2P Require Import Prelude Net Sys Error Wrap Io Connect ConnectSpec TcpServ Mcast Rtt.
From Stdlib Require Import SpecFloat.

(** * The estimator *)

(** The order of binary floating-point values. *)
Lemma SFltb_leb x y : SFcompare x y ≠ None → SFltb x y = false → SFleb y x = true.
Proof.
  unfold SFltb, SFleb. destruct x as [s|s| |s m e], y as [s'|s'| |s' m' e']; simpl; try done;
    try (by destruct s); try (by destruct s'); try (by destruct s, s').
  intros _. change (Pos.compare_cont Eq m m') with (m ?= m')%positive.
  change (Pos.compare_cont Eq m' m) with (m' ?= m)%positive.
  rewrite (Z.compare_antisym e e'), (Pos.compare_antisym m m').
  destruct s, s'; try done; destruct (e ?= e'); try done; by destruct (m ?= m')%positive.
Qed.

(** A comparison fails only for NaN. *)
Lemma SFcompare_ordered x y : x ≠ S754_nan → y ≠ S754_nan → SFcompare x y ≠ None.
Proof. by destruct x, y. Qed.

(** The timeout that [rtt_init] and [rtt_stop] set lies between 2 and 60 seconds. *)
Lemma rtt_minmax_range x :
  x ≠ S754_nan →
  SFleb (float_of_Z RTT_RXTMIN) (rtt_minmax x) = true ∧
  SFleb (rtt_minmax x) (float_of_Z RTT_RXTMAX) = true.
Proof.
  intros Hx. unfold rtt_minmax. destruct (SFltb x _) eqn:H1; [by vm_compute|].
  destruct (SFltb (float_of_Z RTT_RXTMAX) x) eqn:H2; [by vm_compute|].
  split; apply SFltb_leb; try done; by apply SFcompare_ordered.
Qed.

(** * Histories *)

Definition sends (cs : list call) : list (list Z) :=
  omap (λ c, match c with Csendmsg _ d _ _ => Some d | _ => None end) cs.
Definition alarms (cs : list call) : list Z :=
  omap (λ c, match c with Calarm n => Some n | _ => None end) cs.
Definition recvs (cs : list call) : nat :=
  length (omap (λ c, match c with Crecvmsg _ _ => Some tt | _ => None end) cs).

Definition quiet (c : call) : Prop :=
  match c with Csendmsg _ _ _ _ | Calarm _ => False | _ => True end.

Lemma report_no_send c : report_call c → quiet c.
Proof. by destruct c. Qed.

Lemma sends_quiet cs cs' : Forall quiet cs → sends (cs ++ cs') = sends cs'.
Proof. unfold sends. rewrite omap_app. induction 1 as [|c cs Hc _ IH]; [done|]. by destruct c. Qed.

Lemma alarms_quiet cs cs' : Forall quiet cs → alarms (cs ++ cs') = alarms cs'.
Proof. unfold alarms. rewrite omap_app. induction 1 as [|c cs Hc _ IH]; [done|]. by destruct c. Qed.

Lemma recvs_app cs cs' : recvs (cs ++ cs') = (recvs cs + recvs cs')%nat.
Proof. unfold recvs. by rewrite omap_app, length_app. Qed.

(** The world after [cs] more calls; [errno] is not said. *)
Definition after (w w' : world) (cs : list call) : Prop := w_calls w' = cs ++ w_calls w.

Lemma after_app w w' cs l e b : after w w' cs → after w (World (l ++ w_calls w') e b) (l ++ cs).
Proof. unfold after. simpl. intros ->. by rewrite app_assoc. Qed.

Lemma after_trans w w1 w2 cs cs' : after w w1 cs → after w1 w2 cs' → after w w2 (cs' ++ cs).
Proof. unfold after. intros -> ->. by rewrite app_assoc. Qed.

Section rtt.
Context (fmt_3f : spec_float → list Z) (K : kernel).

Definition set_hdr (st : statics) (hdr : list Z) : statics :=
  Statics (rttinfo st) (rttinit st) (send_seq st) hdr.

Lemma take_overwrite n hdr data : (n <= length data)%nat → take n (overwrite hdr data) = take n data.
Proof. intros H. unfold overwrite. by rewrite take_app_le. Qed.

(** Whether [SIGALRM] is delivered at a call after the history [h], and the
    deliveries of the calls [cs] that follow it. *)
Definition jumped (h : list call) (c : call) : bool :=
  match c as c' return ans c' → bool with
  | Cdeliver s => λ n, bool_decide (s = SIGALRM ∧ (0 < n)%nat)
  | _ => λ _, false
  end (K h c).
#[local] Arguments jumped : simpl never.

Fixpoint expired (h cs : list call) : nat :=
  match cs with
  | [] => 0
  | c :: cs' => (if jumped (cs' ++ h) c then 1 else 0) + expired h cs'
  end.

(** Every transmission after the first waits for an alarm: when the next one is
    made, [SIGALRM] has been delivered once for each before it. *)
Fixpoint paced (h cs : list call) : Prop :=
  match cs with
  | [] => True
  | c :: cs' =>
      match c with Csendmsg _ _ _ _ => expired h cs' = length (sends cs') | _ => True end
      ∧ paced h cs'
  end.

(** A call after which the program gives up with a message. *)
Definition failed (h : list call) (c : call) : Prop :=
  match c as c' return ans c' → Prop with
  | Cgettimeofday => λ a, ∃ e, a = RErr e
  | Csigaction _ _ _ => λ a, ∃ e, a = RErr e
  | Csendmsg _ d _ _ => λ a, a ≠ ROk (Z.of_nat (length d))
  | Crecvmsg _ _ => λ a, ∃ e, a = RErr e
  | _ => λ _, False
  end (K h c).

Lemma expired_app h cs cs' : expired h (cs' ++ cs) = (expired (cs ++ h) cs' + expired h cs)%nat.
Proof. induction cs' as [|c cs' IH]; [done|]. simpl. rewrite IH, <-app_assoc. lia. Qed.

Lemma paced_quiet h cs cs' : Forall quiet cs' → paced h cs → paced h (cs' ++ cs).
Proof. induction 1 as [|c cs' Hc _ IH]; [done|]. intros H. by destruct c; split; auto. Qed.

(** Calls at which nothing is delivered. *)
Definition undelivered (c : call) : Prop := match c with Cdeliver _ => False | _ => True end.

Lemma expired_undelivered h cs cs' :
  Forall undelivered cs' → expired h (cs' ++ cs) = expired h cs.
Proof. induction 1 as [|c cs' Hc _ IH]; [done|]. simpl. rewrite IH. by destruct c. Qed.

Lemma reports_undelivered rs : Forall report_call rs → Forall undelivered rs.
Proof. intros H. eapply Forall_impl; [done|]. by intros []. Qed.

(** Waiting for the reply: a datagram with the right number, or a timeout. *)
Lemma wp_await_reply fuel fd inb st w (Q : outcome (statics * option (Z * list Z)) → world → Prop) :
  (∀ cs hdr w', Forall quiet cs → after w w' cs → expired (w_calls w) cs = 1%nat →
     Q (Val (set_hdr st hdr, None)) w') →
  (∀ cs1 cs2 hdr data ctl w', let c := Crecvmsg fd (8 + inb) in
     Forall quiet (cs2 ++ c :: cs1) → after w w' (cs2 ++ c :: cs1) →
     K (cs1 ++ w_calls w) c = ROk (data, ctl) → (8 <= length data)%nat →
     un_le32 (take 4 data) = send_seq st → expired (w_calls w) (cs2 ++ c :: cs1) = 0%nat →
     Q (Val (set_hdr st hdr, Some (Z.of_nat (length data), drop 8 data))) w') →
  (∀ rs cs w', let c := Crecvmsg fd (8 + inb) in
     Forall report_call rs → Forall quiet cs → failed (cs ++ w_calls w) c →
     after w w' (rs ++ c :: cs) → Q (Exit 1) w') →
  (∀ cs w', Forall quiet cs → after w w' cs → (fuel <= recvs cs)%nat → Q Diverge w') →
  wp K (await_reply fuel fd inb st) w Q.
Proof using Type.
  intros Htime Hreply Hexit Hdiv. unfold await_reply.
  apply (wp_iter_count K (λ k st1 w1, ∃ hdr cs, st1 = set_hdr st hdr ∧ Forall quiet cs ∧
    after w w1 cs ∧ (k <= recvs cs)%nat ∧ expired (w_calls w) cs = 0%nat)).
  - exists (recvhdr st), []. split; [by destruct st|]. done.
  - intros k st1 w1 (hdr & cs & -> & Hcs & Hw & Hk & Hx).
    assert (Hjump : jumped (cs ++ w_calls w) (Cdeliver SIGALRM)
              = bool_decide (0 < K (w_calls w1) (Cdeliver SIGALRM))%nat).
    { unfold jumped. rewrite <-Hw. apply bool_decide_ext. naive_solver. }
    wp_step. unfold interrupted at 1. do 2 wp_step. wp_step.
    assert (Hcs1 : Forall quiet (Cdeliver SIGALRM :: cs)) by (by constructor).
    case_bool_decide as Hd.
    { wp_step. apply (Htime _ hdr _ Hcs1); [by apply (after_app w w1 cs [_])|].
      simpl. by rewrite Hjump, Hx. }
    assert (Hx1 : expired (w_calls w) (Cdeliver SIGALRM :: cs) = 0%nat) by (simpl; by rewrite Hjump, Hx).
    wp_step. unfold Recvmsg. apply wp_or_err_sys. wp_step. cbn [w_calls].
    set (c := Crecvmsg fd (SIZEOF_HDR + inb)).
    assert (Hcs2 : Forall quiet (c :: Cdeliver SIGALRM :: cs)) by (by constructor).
    destruct (K (Cdeliver SIGALRM :: w_calls w1) c) as [[data ctl]|e] eqn:HK; cbn [bind_post].
    2: { intros rs Hrs. apply (Hexit rs (Cdeliver SIGALRM :: cs)); [done|done| |].
         - unfold after in Hw. simpl. rewrite <-Hw. unfold c, SIZEOF_HDR in HK. rewrite HK. by exists e.
         - unfold after in *. simpl. by rewrite Hw, <-app_assoc. }
    set (st2 := Statics _ _ _ _). unfold void. do 4 wp_step.
    set (t := Cfputs stderr _).
    destruct (decide (Z.of_nat (length data) < SIZEOF_HDR ∨ recv_seq st2 ≠ send_seq st2)) as [Hn|Hn].
    + wp_step. exists (overwrite hdr (take 8 data)), (t :: c :: Cdeliver SIGALRM :: cs).
      split; [done|]. split; [by constructor|]. split; [by apply (after_app w w1 cs [_; _; _])|].
      split; [change (S k <= S (recvs cs))%nat; lia|]. exact Hx1.
    + assert (Hlen : ¬ Z.of_nat (length data) < SIZEOF_HDR) by tauto. unfold SIZEOF_HDR in Hlen.
      assert (Hseq : un_le32 (take 4 data) = send_seq st).
      { destruct (decide (recv_seq st2 = send_seq st2)) as [Heq|]; [|tauto].
        rewrite <-(Heq : _ = send_seq st). unfold recv_seq, st2. simpl.
        rewrite take_overwrite, take_take by (rewrite length_take; lia). done. }
      assert (Hcs3 : Forall quiet (Cdeliver SIGALRM :: t :: c :: Cdeliver SIGALRM :: cs))
        by (by repeat constructor).
      assert (Hjump2 : jumped (t :: c :: Cdeliver SIGALRM :: cs ++ w_calls w) (Cdeliver SIGALRM)
                = bool_decide (0 < K (t :: c :: Cdeliver SIGALRM :: w_calls w1) (Cdeliver SIGALRM))%nat).
      { unfold jumped. rewrite <-Hw. apply bool_decide_ext. naive_solver. }
      wp_step. unfold interrupted. do 2 wp_step. wp_step. case_bool_decide as Hd2; wp_step.
      * apply (Htime _ (overwrite hdr (take 8 data)) _ Hcs3); [by apply (after_app w w1 cs [_; _; _; _])|].
        cbn [expired app]. by rewrite Hjump2, Hjump, Hx.
      * apply (Hreply (Cdeliver SIGALRM :: cs) [Cdeliver SIGALRM; t]
                 (overwrite hdr (take 8 data)) data ctl _ Hcs3); try done; try lia.
        -- by apply (after_app w w1 cs [_; _; _; _]).
        -- unfold after in Hw. cbn [app]. by rewrite <-Hw.
        -- change (expired (w_calls w) (Cdeliver SIGALRM :: t :: c :: Cdeliver SIGALRM :: cs) = 0%nat).
           cbn [expired app]. by rewrite Hjump2, Hjump, Hx.
  - intros st1 w1 (hdr & cs & -> & Hcs & Hw & Hk & _). by apply (Hdiv cs).
Qed.

(** * dg_send_recv *)

Definition rto_secs (rto : spec_float) : option Z :=
  int_of_double (dadd (to_double rto) (ddiv (double_of_Z 1) (double_of_Z 2))).
(** The timeout after [k] expirations. *)
Definition rto_after (rto : spec_float) (k : nat) : spec_float :=
  Nat.iter k (λ r, fmul r (float_of_Z 2)) rto.
(** The alarms set by [k] transmissions, the latest first. *)
Fixpoint timeouts (rto : spec_float) (k : nat) : list Z :=
  match k with
  | O => []
  | S k' => u32 (default 0 (rto_secs (rto_after rto k'))) :: timeouts rto k'
  end.

(** The timeout that [rtt_init] sets. *)
Definition rto_init : spec_float := S754_finite false 12582912 (-22).

Section exchange.
Context (fuel : nat) (fd inb seq0 : Z) (outb : list Z) (dest : sockaddr) (rto0 : spec_float) (w : world).

(** A transmission of the request. *)
Definition request (d : list Z) : Prop := ∃ ts, d = le32 seq0 ++ le32 ts ++ outb.

(** The transmissions of a history: [k] of them, each after the first on a timeout. *)
Definition exchange (k : nat) (cs : list call) : Prop :=
  length (sends cs) = k ∧ Forall request (sends cs) ∧ paced (w_calls w) cs.

(** A reply to the request, received in a history. *)
Definition replied (cs : list call) (reply : list Z) : Prop :=
  ∃ cs1 cs2 data ctl, cs = cs2 ++ Crecvmsg fd (8 + inb) :: cs1
    ∧ K (cs1 ++ w_calls w) (Crecvmsg fd (8 + inb)) = ROk (data, ctl)
    ∧ (8 <= length data)%nat ∧ un_le32 (take 4 data) = seq0 ∧ reply = drop 8 data
    ∧ sends cs2 = [].

Definition outcome_ok (k : nat) (cs : list call) (o : outcome (statics * option (list Z)))
    (w' : world) : Prop :=
  match o with
  | Val (_, Some reply) =>
      alarms cs = 0 :: timeouts rto0 k ∧ replied cs reply ∧ S (expired (w_calls w) cs) = k
  | Val (st', None) =>
      k = 4%nat ∧ alarms cs = timeouts rto0 4 ∧ expired (w_calls w) cs = 4%nat
      ∧ w_errno w' = ETIMEDOUT ∧ rttinit st' = false
  | Aborted => ∃ j, (j < 4)%nat ∧ rto_secs (rto_after rto0 j) = None
  | Diverge => (fuel <= recvs cs)%nat
  | Exit c =>
      c = 1 ∧ ∃ rs c0 cs1, cs = rs ++ c0 :: cs1 ∧ Forall report_call rs ∧ failed (cs1 ++ w_calls w) c0
  end.

Definition exchanged (o : outcome (statics * option (list Z))) (w' : world) : Prop :=
  ∃ k cs, (k <= 4)%nat ∧ after w w' cs ∧ exchange k cs ∧ outcome_ok k cs o w'.

(** Before transmission [k]. *)
Definition before (k : nat) (st : statics) (w' : world) : Prop :=
  ∃ cs, (k <= 3)%nat ∧ after w w' cs ∧ exchange k cs ∧ alarms cs = timeouts rto0 k
    ∧ expired (w_calls w) cs = k ∧ rtt_nrexmt (rttinfo st) = Z.of_nat k ∧ rtt_rto (rttinfo st) = rto_after rto0 k
    ∧ send_seq st = seq0.

Lemma exchange_quiet k cs cs' : exchange k cs → Forall quiet cs' → exchange k (cs' ++ cs).
Proof using Type.
  unfold exchange. intros (H1 & H2 & H3) Hq. rewrite sends_quiet by done.
  split; [done|]. split; [done|]. by apply paced_quiet.
Qed.

Lemma exchange_call k cs c : exchange k cs → quiet c → exchange k (c :: cs).
Proof using Type. intros He Hq. apply (exchange_quiet k cs [c] He). by repeat constructor. Qed.

Lemma exchange_alarm k cs n : exchange k cs → exchange k (Calarm n :: cs).
Proof using Type. intros (H1 & H2 & H3). by split_and!. Qed.

Lemma exchange_send k cs d :
  exchange k cs → request d → expired (w_calls w) cs = k → exchange (S k) (Csendmsg fd d (Some dest) None :: cs).
Proof using Type.
  intros (Hc & Hm & Hp) Hd Hx. split; simpl; [by rewrite Hc|]. split; [by constructor|].
  split; [by rewrite Hc|done].
Qed.

Lemma quiet_reports rs : Forall report_call rs → Forall quiet rs.
Proof using Type. intros H. by eapply Forall_impl; [|apply report_no_send]. Qed.

(** [rtt_ts] reads the clock, or the process ends. *)
Lemma wp_rtt_ts {B} (ptr : rtt_info) (f : Z → M B) w1 Q :
  (∀ ts w2, w_calls w2 = Cgettimeofday :: w_calls w1 → wp K (f ts) w2 Q) →
  (∀ rs w2, Forall report_call rs → failed (w_calls w1) Cgettimeofday →
     w_calls w2 = rs ++ Cgettimeofday :: w_calls w1 → Q (Exit 1) w2) →
  wp K (rtt_ts ptr ≫= f) w1 Q.
Proof using Type.
  intros Hok Herr. wp_step. unfold rtt_ts. wp_step. unfold Gettimeofday. apply wp_or_err_sys. wp_step.
  destruct (K (w_calls w1) Cgettimeofday) as [[s us]|e] eqn:HK; cbn [bind_post].
  - wp_step. by apply Hok.
  - intros rs Hrs. eapply Herr; [done| |done]. simpl. rewrite HK. by exists e.
Qed.

Lemma iov_length a (iov : list (list Z)) :
  foldl (λ (n : Z) (b : list Z), n + Z.of_nat (length b)) a iov = a + Z.of_nat (length (concat iov)).
Proof using Type.
  revert a. induction iov as [|b iov IH]; intros a; simpl; [lia|]. rewrite IH, length_app. lia.
Qed.

Lemma wp_Sendmsg {B} (iov : list (list Z)) (f : unit → M B) w1 Q :
  let c := Csendmsg fd (concat iov) (Some dest) None in
  (∀ w2, w_calls w2 = c :: w_calls w1 → wp K (f tt) w2 Q) →
  (∀ rs w2, Forall report_call rs → failed (w_calls w1) c →
     w_calls w2 = rs ++ c :: w_calls w1 → Q (Exit 1) w2) →
  wp K (Sendmsg fd iov (Some dest) None ≫= f) w1 Q.
Proof using Type.
  intros c Hok Herr. wp_step. unfold Sendmsg, all_or_err_sys. do 3 wp_step. fold c.
  destruct (K (w_calls w1) c) as [n|e] eqn:HK; simpl.
  - case_decide as Hn; [|wp_step; by apply Hok]. apply wp_err_sys. intros rs Hrs.
    eapply Herr; [done| |done]. unfold failed, c in *. rewrite HK.
    rewrite iov_length in Hn. intros [= ?]. lia.
  - apply wp_err_sys. intros rs Hrs. eapply Herr; [done| |done]. unfold failed, c in *. by rewrite HK.
Qed.

(** An exit with status 1 keeps what has been said of the calls. *)
Lemma exchanged_exit k c cs rs w2 :
  (k <= 4)%nat → exchange k (c :: cs) → Forall report_call rs → failed (cs ++ w_calls w) c →
  w_calls w2 = rs ++ (c :: cs) ++ w_calls w → exchanged (Exit 1) w2.
Proof using Type.
  intros Hk He Hrs Hf Hw. exists k, (rs ++ c :: cs). split; [done|].
  split; [unfold after; by rewrite Hw, app_assoc|].
  split; [by apply exchange_quiet, quiet_reports|]. split; [done|]. by exists rs, c, cs.
Qed.

Definition round_post (k : nat) (r : statics + statics * option (list Z)) (w' : world) : Prop :=
  match r with inl st => before (S k) st w' | inr x => exchanged (Val x) w' end.

(** The timeout, after [sendagain]. *)
Lemma timed_out k st w1 cs :
  (k <= 3)%nat → after w w1 cs → exchange (S k) cs → alarms cs = timeouts rto0 (S k) →
  expired (w_calls w) cs = S k →
  rtt_nrexmt (rttinfo st) = Z.of_nat k → rtt_rto (rttinfo st) = rto_after rto0 k →
  send_seq st = seq0 →
  wp K (let '(ptr, r) := rtt_timeout (rttinfo st) in
        if decide (r < 0) then
          err_msg (str "dg_send_recv: no response from server, giving up");;
          set_errno ETIMEDOUT;;
          mret (inr (set_rtt st ptr false, None))
        else
          err_msg (str "dg_send_recv: timeout, retransmitting");;
          mret (inl (set_rtt st ptr (rttinit st)))) w1
    (bind_post (round_post k) exchanged).
Proof using Type.
  intros Hk Haf He Ha Hx Hn Hr Hs. unfold rtt_timeout. cbn zeta beta iota. rewrite Hn. unfold RTT_MAXNREXMT.
  assert (Hal : ∀ rs, Forall report_call rs → alarms (rs ++ cs) = alarms cs)
    by (intros rs Hrs; by apply alarms_quiet, quiet_reports).
  assert (Hxr : ∀ rs, Forall report_call rs → expired (w_calls w) (rs ++ cs) = S k)
    by (intros rs Hrs; by rewrite expired_undelivered by by apply reports_undelivered).
  destruct (decide (Z.of_nat k + 1 > 3)) as [Hk3|Hk3]; cbv beta iota.
  - rewrite decide_True by lia. wp_step. apply wp_err_msg. intros rs Hrs. cbn [bind_post].
    do 2 wp_step. wp_step. assert (k = 3%nat) as -> by lia. exists 4%nat, (rs ++ cs). split; [lia|].
    split; [by apply after_app|]. split; [by apply exchange_quiet, quiet_reports|]. simpl.
    rewrite Hal, Hxr by done. done.
  - rewrite decide_False by lia. wp_step. apply wp_err_msg. intros rs Hrs. cbn [bind_post]. wp_step.
    exists (rs ++ cs). split; [lia|]. split; [by apply after_app|].
    split; [by apply exchange_quiet, quiet_reports|].
    rewrite Hal, Hxr by done. split; [done|]. split; [done|]. simpl. rewrite Hr. split; [lia|]. done.
Qed.

Lemma wp_rtt_debug {B} flag ptr (f : unit → M B) w1 Q :
  (∀ cs w2, Forall quiet cs → Forall undelivered cs → w_calls w2 = cs ++ w_calls w1 →
     wp K (f tt) w2 Q) →
  wp K (rtt_debug fmt_3f flag ptr ≫= f) w1 Q.
Proof using Type.
  intros Hf. wp_step. unfold rtt_debug, void. wp_if; [wp_step; by apply (Hf [])|].
  repeat wp_step. eapply (Hf [_; _]); [| |reflexivity]; by repeat constructor.
Qed.

(** A reply ends the exchange. *)
Lemma got_reply k st w1 cs inbuff :
  (k <= 3)%nat → after w w1 cs → exchange (S k) cs → alarms cs = timeouts rto0 (S k) →
  replied cs inbuff → expired (w_calls w) cs = k →
  wp K (sys (Calarm 0);;
        ts ← rtt_ts (rttinfo st);
        mret (inr (set_rtt st (rtt_stop (rttinfo st) (u32 (ts - recv_ts st))) (rttinit st),
                   Some inbuff) : statics + statics * option (list Z))) w1
    (bind_post (round_post k) exchanged).
Proof using Type.
  intros Hk Haf He Ha (cs1 & cs2 & data & ctl & -> & HK & Hlen & Hseq & -> & Hno) Hx. do 2 wp_step.
  set (cs := cs2 ++ Crecvmsg fd (8 + inb) :: cs1) in *.
  assert (He2 : exchange (S k) (Cgettimeofday :: Calarm 0 :: cs)) by (apply exchange_call; [by apply exchange_alarm|done]).
  apply wp_rtt_ts; cbn [w_calls].
  - intros ts w2 Hw2. wp_step. exists (S k), (Cgettimeofday :: Calarm 0 :: cs). split; [lia|].
    split; [unfold after in *; by rewrite Hw2, Haf|]. split; [done|]. split.
    + change (0 :: alarms cs = 0 :: timeouts rto0 (S k)). by rewrite Ha.
    + split; [by exists cs1, (Cgettimeofday :: Calarm 0 :: cs2), data, ctl|]. by rewrite <-Hx.
  - intros rs w2 Hrs Hf Hw2. rewrite Haf in Hf, Hw2.
    apply (exchanged_exit (S k) Cgettimeofday (Calarm 0 :: cs) rs); first [done|lia].
Qed.

Lemma wp_send_round k st w1 :
  before k st w1 →
  wp K (send_round fmt_3f fuel fd outb inb dest st) w1 (bind_post (round_post k) exchanged).
Proof using Type.
  intros (cs & Hk & Haf & He & Ha & Hx & Hn & Hr & Hs). unfold send_round, void. do 4 wp_step.
  set (t := Cfputs stderr _).
  assert (He2 : exchange k (Cgettimeofday :: t :: cs))
    by (apply (exchange_quiet k cs [_; _]); [done|by repeat constructor]).
  apply wp_rtt_ts; cbn [w_calls].
  2: { intros rs w2 Hrs Hf Hw2. rewrite Haf in Hf, Hw2.
       apply (exchanged_exit k Cgettimeofday (t :: cs) rs); first [done|lia]. }
  intros ts w2 Hw2. assert (Hreq : request (concat [le32 (send_seq st) ++ le32 ts; outb])).
  { exists ts. rewrite Hs. simpl. by rewrite app_nil_r. }
  set (d := concat _) in Hreq. set (c := Csendmsg fd d (Some dest) None).
  assert (He3 : exchange (S k) (c :: Cgettimeofday :: t :: cs)) by (by apply exchange_send).
  apply wp_Sendmsg.
  2: { intros rs w3 Hrs Hf Hw3. rewrite Hw2, Haf in Hf, Hw3.
       apply (exchanged_exit (S k) c (Cgettimeofday :: t :: cs) rs); first [done|lia]. }
  intros w3 Hw3. unfold rtt_start. rewrite Hr. fold (rto_secs (rto_after rto0 k)).
  assert (Haf3 : after w w3 (c :: Cgettimeofday :: t :: cs)) by (unfold after in *; by rewrite Hw3, Hw2, Haf).
  destruct (rto_secs (rto_after rto0 k)) as [sec|] eqn:Hsec.
  2: { wp_step. exists (S k), (c :: Cgettimeofday :: t :: cs). do 3 (split; [lia || done|]).
       exists k. split; [lia|done]. }
  do 2 wp_step. set (al := Calarm (u32 sec)). set (cs4 := al :: c :: Cgettimeofday :: t :: cs).
  set (w4 := World (al :: w_calls w3) _ _).
  assert (Ha4 : alarms cs4 = timeouts rto0 (S k)) by (unfold cs4; simpl; by rewrite Hsec, Ha).
  assert (Haf4 : after w w4 cs4) by (unfold after, w4, cs4 in *; simpl; by rewrite Haf3).
  assert (He4 : exchange (S k) cs4) by by apply exchange_alarm.
  apply wp_rtt_debug. intros dcs w5 Hd Hud Hw5.
  assert (Haf5 : after w w5 (dcs ++ cs4)) by (by eapply after_trans).
  assert (Hrest : ∀ qs, Forall quiet qs → exchange (S k) (qs ++ dcs ++ cs4) ∧
            alarms (qs ++ dcs ++ cs4) = timeouts rto0 (S k) ∧
            expired (w_calls w) (qs ++ dcs ++ cs4) = (expired (w_calls w5) qs + k)%nat).
  { intros qs Hqs. split_and!; [by (apply exchange_quiet; [by apply exchange_quiet|])|by rewrite !alarms_quiet|].
    rewrite expired_app, expired_undelivered by done. f_equal; [|done].
    f_equal. rewrite Hw5, <-app_assoc. f_equal. exact (eq_sym Haf4). }
  wp_step. apply wp_await_reply.
  - intros qs hdr w6 Hqs Hw6 Hxq. destruct (Hrest qs Hqs) as (He6 & Ha6 & Hx6). cbn [bind_post].
    apply (timed_out k (set_hdr st hdr) w6 (qs ++ dcs ++ cs4)); try done; [by eapply after_trans|].
    by rewrite Hx6, Hxq.
  - intros cs1 cs2 hdr data ctl w6 r Hqs Hw6 HK Hlen Hseq Hxq.
    destruct (Hrest _ Hqs) as (He6 & Ha6 & Hx6).
    cbn [bind_post]. apply (got_reply k (set_hdr st hdr) w6 ((cs2 ++ r :: cs1) ++ dcs ++ cs4)); try done.
    + by eapply after_trans.
    + exists (cs1 ++ dcs ++ cs4), cs2, data, ctl. split; [by rewrite <-app_assoc|].
      split; [unfold after in Haf5; by rewrite <-app_assoc, <-Haf5|].
      split; [done|]. split; [congruence|]. split; [done|]. apply Forall_app in Hqs as [Hq _].
      rewrite <-(app_nil_r cs2). by rewrite sends_quiet.
    + by rewrite Hx6, Hxq.
  - intros rs qs w6 r Hrs Hqs Hf Hw6. cbn [bind_post].
    assert (Hqs' : Forall quiet (r :: qs)) by by constructor.
    destruct (Hrest _ Hqs') as [He6 _].
    apply (exchanged_exit (S k) r (qs ++ dcs ++ cs4) rs); try done; [lia| |].
    + unfold after in Haf5. by rewrite <-app_assoc, <-Haf5.
    + unfold after in *. rewrite Hw6, Haf5. cbn [app]. by rewrite <-!app_assoc.
  - intros qs w6 Hqs Hw6 Hf. destruct (Hrest qs Hqs) as [He6 _]. cbn [bind_post].
    exists (S k), (qs ++ dcs ++ cs4). split; [lia|]. split; [by eapply after_trans|]. split; [done|].
    simpl. rewrite recvs_app. lia.
Qed.
End exchange.

(** The part of [dg_send_recv] that follows the initialisation. *)
Definition exchange_from (fuel : nat) (fd : Z) (outb : list Z) (inb : Z) (dest : sockaddr)
    (st : statics) : M (statics * option (list Z)) :=
  let st := Statics (rttinfo st) (rttinit st) (u32 (send_seq st + 1)) (recvhdr st) in
  Signal SIGALRM (Handler "sig_alrm");;
  iter fuel (send_round fmt_3f fuel fd outb inb dest)
    (set_rtt st (rtt_newpack (rttinfo st)) (rttinit st)).

Lemma wp_exchange_from fuel fd outb inb dest st w w1 cs0 :
  (4 <= fuel)%nat → Forall quiet cs0 → Forall undelivered cs0 → after w w1 cs0 →
  wp K (exchange_from fuel fd outb inb dest st) w1
    (exchanged fuel fd inb (u32 (send_seq st + 1)) outb (rtt_rto (rttinfo st)) w).
Proof using Type.
  intros Hfuel Hq Hud Hw. unfold exchange_from. wp_step.
  assert (He0 : exchange (u32 (send_seq st + 1)) outb w 0 cs0).
  { rewrite <-(app_nil_r cs0). by apply exchange_quiet. }
  apply wp_Signal.
  - intros h _. cbn [bind_post]. set (sg := Csigaction _ _ _).
    apply (wp_iter_count K (λ k st1 w2, before (u32 (send_seq st + 1)) outb (rtt_rto (rttinfo st)) w k st1 w2)).
    + exists (sg :: cs0). split; [lia|]. split; [by apply (after_app w w1 cs0 [_])|].
      split; [by apply exchange_call|]. rewrite <-(app_nil_r cs0).
      change (sg :: cs0 ++ []) with ((sg :: cs0) ++ []).
      rewrite alarms_quiet, expired_undelivered by (by constructor). done.
    + intros k st1 w2 Hb. eapply wp_mono; [by apply wp_send_round|].
      intros [[st2|x]|c| |] w3; done.
    + intros st1 w2 (cs & Hk & _). lia.
  - intros e cs w2 HK Hrs Hw2. set (sg := Csigaction _ _ _) in *. unfold after in Hw.
    rewrite Hw in HK, Hw2.
    apply (exchanged_exit _ _ _ _ _ _ _ 0 sg cs0 cs);
      [lia|by apply exchange_call|done| |done]. simpl. fold sg.
    rewrite HK. by exists e.
Qed.

(** C18: [dg_send_recv] ends and answers truly, whatever the network does: it sends
    the request at most four times, each time with the same sequence number, one
    more than the last request's; a transmission after the first is made only
    when [SIGALRM] has been delivered once for each of those before it, so that
    no other datagram brings it on.  It returns a reply only when it has received
    a datagram with that number, whose contents after the header are the reply,
    and has turned off the alarm; it returns -1 only after four transmissions
    and the delivery of the alarm of each, with [errno] [ETIMEDOUT]; it exits
    only when its last call before the message has failed; and it does none of
    these only when it goes on receiving other datagrams without end.  The
    timeout doubles from a transmission to the next; of a first call the alarms
    are 3, 6, 12 and 24 seconds. *)
Theorem dg_send_recv_spec fuel fd outb inb dest st w :
  (4 <= fuel)%nat →
  let seq0 := u32 (send_seq st + 1) in
  let rto0 := if rttinit st then rtt_rto (rttinfo st) else rto_init in
  let '(o, w') := dg_send_recv fmt_3f fuel fd outb inb dest st K w in
  exchanged fuel fd inb seq0 outb rto0 w o w'
  ∧ (rttinit st = false → o ≠ Aborted)
  ∧ reverse (timeouts rto_init 4) = [3; 6; 12; 24].
Proof.
  intros Hfuel seq0 rto0.
  assert (H : wp K (dg_send_recv fmt_3f fuel fd outb inb dest st) w
                (exchanged fuel fd inb seq0 outb rto0 w)).
  { unfold dg_send_recv. wp_step.
    assert (Hgo : ∀ st1 w1 cs0, Forall quiet cs0 → Forall undelivered cs0 → after w w1 cs0 →
      rtt_rto (rttinfo st1) = rto0 → send_seq st1 = send_seq st →
      wp K (exchange_from fuel fd outb inb dest st1) w1 (exchanged fuel fd inb seq0 outb rto0 w)).
    { intros st1 w1 cs0 Hq Hud Hw Hr Hs. unfold seq0. rewrite <-Hr, <-Hs. by apply wp_exchange_from with cs0. }
    destruct (rttinit st) eqn:Hi; [wp_step; by apply (Hgo st w [])|].
    wp_step. unfold rtt_init. wp_step. unfold Gettimeofday. apply wp_or_err_sys. wp_step.
    destruct (K (w_calls w) Cgettimeofday) as [[s us]|e] eqn:HK; cbn [bind_post].
    - wp_step. wp_step. by apply (Hgo _ _ [Cgettimeofday]); [repeat constructor..|].
    - intros rs Hrs. apply (exchanged_exit _ _ _ _ _ _ _ 0 Cgettimeofday [] rs);
        [lia|by split_and!|done| |done]. simpl. rewrite HK. by exists e. }
  unfold wp in H. destruct (dg_send_recv _ _ _ _ _ _ _ K w) as [o w']. simpl in H.
  split; [done|]. split; [|by vm_compute]. intros Hi ->. destruct H as (k & cs & _ & _ & _ & j & Hj & Hs).
  unfold rto0 in Hs. rewrite Hi in Hs. destruct j as [|[|[|[|j]]]]; [by vm_compute in Hs..|lia].
Qed.
End rtt.

(** A network that loses the first two requests, and answers the third with a late
    copy and then the right reply. *)
Definition lossy_kernel : kernel := λ cs c,
  match c as c return ans c with
  | Cgettimeofday => ROk (1000, 5)
  | Csigaction _ _ _ => ROk SIG_DFL
  | Csendmsg _ d _ _ => ROk (Z.of_nat (length d))
  | Cdeliver _ => if decide (length (sends cs) < 3)%nat then 1%nat else 0%nat
  | Crecvmsg _ _ =>
      ROk (le32 (if decide (recvs cs = 0)%nat then 6 else 7) ++ le32 0 ++ [104; 105], None)
  | c => default_ans c
  end.

Definition lossy_call : outcome (statics * option (list Z)) * world :=
  dg_send_recv (λ _, []) 5 3 [1; 2] 100 (SaIn 7 INADDR_ANY)
    (Statics (rttinfo statics_init) false 6 (repeat 0 8)) lossy_kernel (World [] 0 false).

Lemma dg_send_recv_spec_witness :
  exchanged lossy_kernel 5 3 100 7 [1; 2] rto_init (World [] 0 false) lossy_call.1 lossy_call.2
  ∧ (match lossy_call.1 with Val (_, r) => r | _ => None end) = Some [104; 105]
  ∧ alarms (w_calls lossy_call.2) = [0; 12; 6; 3].
Proof.
  split; [|split; by vm_compute].
  assert (H := dg_send_recv_spec (λ _, []) lossy_kernel 5 3 [1; 2] 100 (SaIn 7 INADDR_ANY)
    (Statics (rttinfo statics_init) false 6 (repeat 0 8)) (World [] 0 false) ltac:(lia)).
  unfold lossy_call. destruct (dg_send_recv _ _ _ _ _ _ _ _ _) as [o w']. by destruct H as [H _].
Defined.

(** The timeouts after an expiration are not limited by [RTT_RXTMAX]. *)
Lemma rtt_timeout_unbounded :
  SFleb (float_of_Z 60) (float_of_Z RTT_RXTMAX) = true
  ∧ rto_secs (rto_after (float_of_Z 60) 3) = Some 480.
Proof. split; by vm_compute. Qed.
