(* ===== verification/Gai.v ===== *)
(** [libgai/]: the implementation of [getaddrinfo], [freeaddrinfo],
    [gai_strerror] and [getnameinfo].

    The linked list of [addrinfo] structures is the list of its nodes; a node
    keeps the addresses of the memory blocks it owns, which [freeaddrinfo] gives
    back.  Memory allocation, the resolver and the service database are calls. *)

From S2P Require Import Prelude Net Sys Error InetPton InetNtop.

Module Gai.

(** * addrinfo.h and gai_hdr.h *)

Definition AI_PASSIVE : Z := 1.
Definition AI_CANONNAME : Z := 2.
Definition AI_CLONE : Z := 4.

Definition EAI_ADDRFAMILY : Z := 1.
Definition EAI_AGAIN : Z := 2.
Definition EAI_BADFLAGS : Z := 3.
Definition EAI_FAIL : Z := 4.
Definition EAI_FAMILY : Z := 5.
Definition EAI_MEMORY : Z := 6.
Definition EAI_NODATA : Z := 7.
Definition EAI_NONAME : Z := 8.
Definition EAI_SERVICE : Z := 9.
Definition EAI_SOCKTYPE : Z := 10.
Definition EAI_SYSTEM : Z := 11.

(** [struct addrinfo] without [ai_next]; [n_ptr] is its own address, and the two
    pointers are with what they point to. *)
Record node := Node {
  n_ptr : Z;
  n_flags : Z;
  n_family : Z;
  n_socktype : Z;
  n_protocol : Z;
  n_addrlen : Z;
  n_canonname : option (Z * list Z);
  n_addr : option (Z * sockaddr)
}.

Record hints := Hints { hi_flags : Z; hi_family : Z; hi_socktype : Z; hi_protocol : Z }.

(** [calloc] and its relatives, [None] for NULL. *)
Definition calloc (size : Z) : M (option Z) :=
  r ← checked (sys (Ccalloc 1 size));
  mret (match r with ROk p => Some p | RErr _ => None end).
Definition malloc (size : Z) : M (option Z) :=
  r ← checked (sys (Cmalloc size));
  mret (match r with ROk p => Some p | RErr _ => None end).
Definition strdup (s : list Z) : M (option Z) :=
  r ← checked (sys (Cstrdup s));
  mret (match r with ROk p => Some p | RErr _ => None end).

(** * freeaddrinfo.c and gai_strerror.c *)

Definition free_opt {A} (p : option (Z * A)) : M unit :=
  match p with None => mret tt | Some (q, _) => sys (Cfree q) end.

Fixpoint freeaddrinfo (aihead : list node) : M unit :=
  match aihead with
  | [] => mret tt
  | ai :: ainext =>
      free_opt (n_addr ai);;
      free_opt (n_canonname ai);;
      sys (Cfree (n_ptr ai));;
      freeaddrinfo ainext
  end.

Definition gai_strerror (err : Z) : list Z :=
  if decide (err = EAI_ADDRFAMILY) then str "address family for host not supported"
  else if decide (err = EAI_AGAIN) then str "temporary failure in name resolution"
  else if decide (err = EAI_BADFLAGS) then str "invalid flags value"
  else if decide (err = EAI_FAIL) then str "non-recoverable failure in name resolution"
  else if decide (err = EAI_FAMILY) then str "address family not supported"
  else if decide (err = EAI_MEMORY) then str "memory allocation failure"
  else if decide (err = EAI_NODATA) then str "no address associated with host"
  else if decide (err = EAI_NONAME) then str "host nor service provided, or not known"
  else if decide (err = EAI_SERVICE) then str "service not supported for socket type"
  else if decide (err = EAI_SOCKTYPE) then str "socket type not supported"
  else if decide (err = EAI_SYSTEM) then str "system error"
  else str "unknown getaddrinfo() error".

(** * ga_aistruct.c *)

(** A structure without an address, then the address stored at [p]. *)
Definition new_node (p : Z) (hintsp : hints) (family : Z) : node :=
  Node p (if decide (hi_socktype hintsp = 0) then AI_CLONE else 0) family (hi_socktype hintsp)
    (hi_protocol hintsp) 0 None None.
Definition set_addr (ai : node) (len p : Z) (sa : sockaddr) : node :=
  Node (n_ptr ai) (n_flags ai) (n_family ai) (n_socktype ai) (n_protocol ai) len (n_canonname ai)
    (Some (p, sa)).

(** The list that ends at [*paipnext], with the new structure, and the result. *)
Definition ga_aistruct (l : list node) (hintsp : hints) (addr : list Z) (family : Z)
    : M (list node * Z) :=
  ai ← calloc 48;
  match ai with
  | None => mret (l, EAI_MEMORY)
  | Some p =>
      let ai := new_node p hintsp family in
      if decide (family = AF_INET) then
        sinptr ← calloc 16;
        match sinptr with
        | None => mret (l ++ [ai], EAI_MEMORY)
        | Some q => mret (l ++ [set_addr ai 16 q (SaIn 0 (take 4 addr))], 0)
        end
      else if decide (family = AF_INET6) then
        sin6ptr ← calloc 28;
        match sin6ptr with
        | None => mret (l ++ [ai], EAI_MEMORY)
        | Some q => mret (l ++ [set_addr ai 28 q (SaIn6 0 (take 16 addr))], 0)
        end
      else if decide (family = AF_LOCAL) then
        if decide (Z.of_nat (length addr) >= 108) then mret (l ++ [ai], EAI_SERVICE)
        else
          unp ← calloc 110;
          match unp with
          | None => mret (l ++ [ai], EAI_MEMORY)
          | Some q =>
              (if decide (Z.land (hi_flags hintsp) AI_PASSIVE ≠ 0) then
                 checked (sys (Cunlink addr));; mret tt
               else mret tt);;
              mret (l ++ [set_addr ai 110 q (SaUn addr)], 0)
          end
      else mret (l ++ [ai], 0)
  end.

(** * ga_clone.c: the new structure that follows [ai], if it was made, and whether
    it is complete.  The block of the address is kept also when [ai] has none: it
    has [n_addrlen ai] bytes, then zero, and [SaOther 0] stands for no contents. *)
Definition ga_clone (ai : node) : M (option node * bool) :=
  new ← calloc 48;
  match new with
  | None => mret (None, false)
  | Some p =>
      let new := Node p 0 (n_family ai) (n_socktype ai) (n_protocol ai) (n_addrlen ai) None None in
      q ← malloc (n_addrlen ai);
      match q with
      | None => mret (Some new, false)
      | Some q =>
          let sa := match n_addr ai with Some (_, sa) => sa | None => SaOther 0 end in
          mret (Some (Node p 0 (n_family ai) (n_socktype ai) (n_protocol ai) (n_addrlen ai) None
                        (Some (q, sa))), true)
      end
  end.

(** * ga_echeck.c *)

Definition is_null_or_empty (s : option (list Z)) : bool :=
  match s with None | Some [] => true | _ => false end.

Definition ga_echeck (hostname servname : option (list Z)) (flags family socktype protocol : Z) : Z :=
  if decide (Z.land flags (Z.lnot (Z.lor AI_PASSIVE AI_CANONNAME)) ≠ 0) then EAI_BADFLAGS
  else if is_null_or_empty hostname && is_null_or_empty servname then EAI_NONAME
  else if decide (family = AF_UNSPEC) then 0
  else if decide (family = AF_INET ∨ family = AF_INET6) then
    if decide (socktype ≠ 0 ∧ socktype ≠ SOCK_STREAM ∧ socktype ≠ SOCK_DGRAM ∧ socktype ≠ SOCK_RAW)
    then EAI_SOCKTYPE else 0
  else if decide (family = AF_LOCAL) then
    if decide (socktype ≠ 0 ∧ socktype ≠ SOCK_STREAM ∧ socktype ≠ SOCK_DGRAM)
    then EAI_SOCKTYPE else 0
  else EAI_FAMILY.

(** * ga_nsearch.c *)

Definition ga_nsearch (hostname : option (list Z)) (hintsp : hints) : M (list (list Z * Z)) :=
  let both (host4 host6 : list Z) :=
    if decide (hi_family hintsp = AF_INET) then [(host4, AF_INET)]
    else if decide (hi_family hintsp = AF_INET6) then [(host6, AF_INET6)]
    else if decide (hi_family hintsp = AF_UNSPEC) then [(host6, AF_INET6); (host4, AF_INET)]
    else [] in
  let search :=
    match hostname with
    | None | Some [] =>
        if decide (Z.land (hi_flags hintsp) AI_PASSIVE ≠ 0) then both (str "0.0.0.0") (str "0::0")
        else both (str "localhost") (str "0::1")
    | Some h => both h h
    end in
  if decide (length search = 0%nat) then err_quit (str "nsearch = 0") else mret search.

(** * ga_port.c *)

Definition set_port (port : Z) (sa : sockaddr) : sockaddr :=
  match sa with SaIn _ a => SaIn port a | SaIn6 _ a => SaIn6 port a | _ => sa end.

(** The two assignments after the tests, and whether the port was stored. *)
Definition fill_port (ai : node) (port socktype : Z) : node * Z :=
  if decide (n_family ai = AF_INET ∨ n_family ai = AF_INET6) then
    (Node (n_ptr ai) (n_flags ai) (n_family ai) socktype (n_protocol ai) (n_addrlen ai)
       (n_canonname ai) ((λ x, (fst x, set_port port (snd x))) <$> n_addr ai), 1)
  else
    (Node (n_ptr ai) (n_flags ai) (n_family ai) socktype (n_protocol ai) (n_addrlen ai)
       (n_canonname ai) (n_addr ai), 0).

(** The list after the call, and the result. *)
Fixpoint ga_port (aihead : list node) (port socktype : Z) : M (list node * Z) :=
  match aihead with
  | [] => mret ([], 0)
  | ai :: ainext =>
      if decide (Z.land (n_flags ai) AI_CLONE ≠ 0) then
        if decide (n_socktype ai ≠ 0) then
          '(new, ok) ← ga_clone ai;
          match new with
          | None => mret (ai :: ainext, -1)
          | Some new =>
              if (ok : bool) then
                let '(new, found) := fill_port new port socktype in
                '(l, n) ← ga_port ainext port socktype;
                mret (ai :: new :: l, if decide (n < 0) then n else found + n)
              else mret (ai :: new :: ainext, -1)
          end
        else
          let '(ai, found) := fill_port ai port socktype in
          '(l, n) ← ga_port ainext port socktype;
          mret (ai :: l, if decide (n < 0) then n else found + n)
      else if decide (n_socktype ai ≠ socktype) then
        '(l, n) ← ga_port ainext port socktype;
        mret (ai :: l, n)
      else
        let '(ai, found) := fill_port ai port socktype in
        '(l, n) ← ga_port ainext port socktype;
        mret (ai :: l, if decide (n < 0) then n else found + n)
  end.

(** * ga_serv.c *)

(** [if ( (rc = ga_port(...)) < 0) return(EAI_MEMORY); nfound += rc;], with the
    list so far and [nfound]; [None] for the return. *)
Definition try_port (port socktype : Z) (st : list node * option Z) : M (list node * option Z) :=
  match st with
  | (l, None) => mret (l, None)
  | (l, Some nfound) =>
      '(l, rc) ← ga_port l port socktype;
      mret (l, if decide (rc < 0) then None else Some (nfound + rc))
  end.

Definition try_service (serv proto : list Z) (socktype : Z) (hintsp : hints)
    (st : list node * option Z) : M (list node * option Z) :=
  match st with
  | (l, None) => mret st
  | _ =>
      if decide (hi_socktype hintsp = 0 ∨ hi_socktype hintsp = socktype) then
        sptr ← sys (Cgetservbyname serv proto);
        match sptr with
        | Some s => try_port (s_port s) socktype st
        | None => mret st
        end
      else mret st
  end.

Definition ga_serv (aihead : list node) (hintsp : hints) (serv : list Z) : M (list node * Z) :=
  '(l, nfound) ←
    (if decide (is_digit (nth 0 serv 0)) then
       let port := htons (atoi serv) in
       if decide (hi_socktype hintsp ≠ 0) then try_port port (hi_socktype hintsp) (aihead, Some 0)
       else try_port port SOCK_STREAM (aihead, Some 0) ≫= try_port port SOCK_DGRAM
     else
       try_service serv (str "tcp") SOCK_STREAM hintsp (aihead, Some 0)
         ≫= try_service serv (str "udp") SOCK_DGRAM hintsp);
  match nfound with
  | None => mret (l, EAI_MEMORY)
  | Some nfound =>
      mret (l, if decide (nfound = 0) then
                 if decide (hi_socktype hintsp = 0) then EAI_NONAME else EAI_SERVICE
               else 0)
  end.

(** * ga_unix.c: the list, or the error returned *)

Definition set_socktype (h : hints) (t : Z) : hints := Hints (hi_flags h) (hi_family h) t (hi_protocol h).
Definition set_canon (l : list node) (p : Z) (name : list Z) : list node :=
  match l with
  | [] => []
  | ai :: l' => Node (n_ptr ai) (n_flags ai) (n_family ai) (n_socktype ai) (n_protocol ai)
                  (n_addrlen ai) (Some (p, name)) (n_addr ai) :: l'
  end.

Definition ga_unix (path : list Z) (hintsp : hints) : M (Z + list node) :=
  if decide (hi_family hintsp ≠ AF_UNSPEC ∧ hi_family hintsp ≠ AF_LOCAL) then mret (inl EAI_ADDRFAMILY)
  else
    '(l, rc, hintsp) ←
      (if decide (hi_socktype hintsp = 0) then
         '(l, rc) ← ga_aistruct [] (set_socktype hintsp SOCK_STREAM) path AF_LOCAL;
         mret (l, rc, set_socktype hintsp SOCK_DGRAM)
       else mret ([], 0, hintsp));
    if decide (rc ≠ 0) then mret (inl rc)
    else
      '(l, rc) ← ga_aistruct l hintsp path AF_LOCAL;
      if decide (rc ≠ 0) then mret (inl rc)
      else if decide (Z.land (hi_flags hintsp) AI_CANONNAME ≠ 0) then
        r ← checked (sys Cuname);
        match r with
        | RErr _ => mret (inl EAI_SYSTEM)
        | ROk nodename =>
            p ← strdup nodename;
            match p with
            | None => mret (inl EAI_MEMORY)
            | Some p => mret (inr (set_canon l p nodename))
            end
        end
      else mret (inr l).

(** * getaddrinfo.c *)

Definition HOST_NOT_FOUND : Z := 1.
Definition TRY_AGAIN : Z := 2.
Definition NO_RECOVERY : Z := 3.
Definition NO_DATA : Z := 4.

Definition of_h_errno (e : Z) : Z :=
  if decide (e = HOST_NOT_FOUND) then EAI_NONAME
  else if decide (e = TRY_AGAIN) then EAI_AGAIN
  else if decide (e = NO_RECOVERY) then EAI_FAIL
  else if decide (e = NO_DATA) then EAI_NODATA
  else EAI_NONAME.

(** What the search has built: [aihead] and [canon]. *)
Record found := Found { aihead : list node; canon : option (Z * list Z) }.

(** The answer to a numeric host, if it is one. *)
Definition numeric_host (host : list Z) : option (Z * list Z) :=
  let c := nth 0 host 0 in
  let v4 := if decide (is_digit c) then
              match inet_pton AF_INET host with Pton1 a => Some (AF_INET, a) | _ => None end
            else None in
  match v4 with
  | Some r => Some r
  | None =>
      if decide ((is_xdigit c ∨ c = ch_colon) ∧ ch_colon ∈ host) then
        match inet_pton AF_INET6 host with Pton1 a => Some (AF_INET6, a) | _ => None end
      else None
  end.

(** One [ga_aistruct] per address, until one fails. *)
Fixpoint add_addrs (l : list node) (h : hints) (family : Z) (addrs : list (list Z))
    : M (list node * Z) :=
  match addrs with
  | [] => mret (l, 0)
  | a :: addrs' =>
      '(l, rc) ← ga_aistruct l h a family;
      if decide (rc ≠ 0) then mret (l, rc) else add_addrs l h family addrs'
  end.

(** The hostname that is not empty. *)
Definition named (hostname : option (list Z)) : bool := negb (is_null_or_empty hostname).

(** One element of [search[]]; the result is [error], or 0.  With [nsearch] 2 the
    resolver is [gethostbyname2]; otherwise [_res.options] makes [gethostbyname]
    look for the same family. *)
Definition search_one (hostname : option (list Z)) (h : hints) (nsearch : nat) (sptr : list Z * Z)
    (st : found) : M (found * Z) :=
  let '(host, family) := sptr in
  match numeric_host host with
  | Some (af, a) =>
      if decide (hi_family h ≠ AF_UNSPEC ∧ hi_family h ≠ af) then mret (st, EAI_ADDRFAMILY)
      else if decide (family ≠ af) then mret (st, 0)
      else
        '(l, rc) ← ga_aistruct (aihead st) h a af;
        mret (Found l (canon st), rc)
  | None =>
      r ← sys (Cgethostbyname host family);
      match r with
      | inl h_errno => if decide (nsearch = 2)%nat then mret (st, 0) else mret (st, of_h_errno h_errno)
      | inr hptr =>
          if decide (hi_family h ≠ AF_UNSPEC ∧ hi_family h ≠ h_addrtype hptr) then
            mret (st, EAI_ADDRFAMILY)
          else
            c ← (if named hostname && bool_decide (Z.land (hi_flags h) AI_CANONNAME ≠ 0)
                    && bool_decide (canon st = None) then
                   match h_name hptr with
                   | None => abort                       (* [strdup(NULL)] *)
                   | Some name => p ← strdup name; mret ((λ p, (p, name)) <$> p, true)
                   end
                 else mret (canon st, false));
            let '(c, saved) := c in
            if (saved : bool) && bool_decide (c = None) then mret (st, EAI_MEMORY)
            else
              '(l, rc) ← add_addrs (aihead st) h (h_addrtype hptr) (h_addr_list hptr);
              mret (Found l c, rc)
      end
  end.

Fixpoint search_all (hostname : option (list Z)) (h : hints) (nsearch : nat)
    (search : list (list Z * Z)) (st : found) : M (found * Z) :=
  match search with
  | [] => mret (st, 0)
  | sptr :: search' =>
      '(st, rc) ← search_one hostname h nsearch sptr st;
      if decide (rc ≠ 0) then mret (st, rc) else search_all hostname h nsearch search' st
  end.

(** After the search: the canonical name and the service. *)
Definition finish (hostname servname : option (list Z)) (h : hints) (host0 : list Z) (st : found)
    : M (list node * Z) :=
  '(l, rc) ←
    (if named hostname && bool_decide (Z.land (hi_flags h) AI_CANONNAME ≠ 0) then
       match canon st with
       | Some (p, name) => mret (set_canon (aihead st) p name, 0)
       | None =>
           p ← strdup host0;
           match p with
           | None => mret (aihead st, EAI_MEMORY)
           | Some p => mret (set_canon (aihead st) p host0, 0)
           end
       end
     else mret (aihead st, 0));
  if decide (rc ≠ 0) then mret (l, rc)
  else
    match servname with
    | None | Some [] => mret (l, 0)
    | Some serv => ga_serv l h serv
    end.

(** The part of [getaddrinfo] for IPv4 and IPv6; [bad] is its last label. *)
Definition getaddrinfo_ip (hostname servname : option (list Z)) (h : hints)
    (bad : list node → Z → M (Z + list node)) : M (Z + list node) :=
  search ← ga_nsearch hostname h;
  '(st, rc) ← search_all hostname h (length search) search (Found [] None);
  if decide (rc ≠ 0) then bad (aihead st) rc
  else
    match aihead st with
    | [] => bad [] EAI_NONAME
    | _ =>
        '(l, rc) ← finish hostname servname h (nth 0 search ([], 0)).1 st;
        if decide (rc ≠ 0) then bad l rc else mret (inr l)
    end.

(** The list stored through [result], or the error returned. *)
Definition getaddrinfo (hostname servname : option (list Z)) (hintsp : option hints)
    : M (Z + list node) :=
  let h := default (Hints 0 AF_UNSPEC 0 0) hintsp in
  let bad (l : list node) (e : Z) : M (Z + list node) := freeaddrinfo l;; mret (inl e) in
  let rc := ga_echeck hostname servname (hi_flags h) (hi_family h) (hi_socktype h) (hi_protocol h) in
  if decide (rc ≠ 0) then bad [] rc
  else
    match hostname, servname with
    | Some host, Some ((47 :: _) as path) =>
        if decide (host = str "/local" ∨ host = str "/unix") then ga_unix path h
        else getaddrinfo_ip hostname servname h bad
    | _, _ => getaddrinfo_ip hostname servname h bad
    end.

(** * gn_ipv46.c and getnameinfo.c *)

Definition NI_NOFQDN : Z := 1.
Definition NI_NUMERICHOST : Z := 2.
Definition NI_NAMEREQD : Z := 4.
Definition NI_NUMERICSERV : Z := 8.
Definition NI_DGRAM : Z := 16.

(** [strchr(name, '.')] and the NUL stored there. *)
Fixpoint cut_dot (name : list Z) : list Z :=
  match name with
  | [] => []
  | c :: name' => if decide (c = ch_dot) then [] else c :: cut_dot name'
  end.

(** The texts stored in [host] and [serv] ([None] where nothing is stored), and the
    result. *)
Definition gn_ipv46 (hostlen servlen : Z) (aptr : list Z) (family port flags : Z)
    : M (option (list Z) * option (list Z) * Z) :=
  let numeric : M (option (list Z) * Z) :=
    match inet_ntop family aptr hostlen with
    | NtopErr e => set_errno e;; mret (None, 1)
    | NtopOk s => mret (Some (removelast s), 0)             (* without the NUL *)
    end in
  '(host, rc) ←
    (if decide (hostlen > 0) then
       if decide (Z.land flags NI_NUMERICHOST ≠ 0) then numeric
       else
         hptr ← sys (Cgethostbyaddr aptr family);
         match hptr ≫= h_name with
         | Some name =>
             let name := if decide (Z.land flags NI_NOFQDN ≠ 0) then cut_dot name else name in
             mret (Some (snprintf_trunc hostlen name), 0)
         | None =>
             if decide (Z.land flags NI_NAMEREQD ≠ 0) then mret (None, 1) else numeric
         end
     else mret (None, 0));
  if decide (rc ≠ 0) then mret (host, None, rc)
  else if decide (servlen > 0) then
    if decide (Z.land flags NI_NUMERICSERV ≠ 0) then
      mret (host, Some (snprintf_trunc servlen (fmt_d (ntohs port))), 0)
    else
      sptr ← sys (Cgetservbyport port (if decide (Z.land flags NI_DGRAM ≠ 0) then Some (str "udp") else None));
      let name := default (fmt_d (ntohs port)) (sptr ≫= s_name) in
      mret (host, Some (snprintf_trunc servlen name), 0)
  else mret (host, None, 0).

Definition getnameinfo (sa : sockaddr) (hostlen servlen flags : Z)
    : M (option (list Z) * option (list Z) * Z) :=
  match sa with
  | SaIn port addr => gn_ipv46 hostlen servlen addr AF_INET port flags
  | SaIn6 port addr => gn_ipv46 hostlen servlen addr AF_INET6 port flags
  | SaUn path =>
      mret (if decide (hostlen > 0) then Some (snprintf_trunc hostlen (str "/local")) else None,
            if decide (servlen > 0) then Some (snprintf_trunc servlen path) else None, 0)
  | SaOther _ => mret (None, None, 1)
  end.

End Gai.
