(* ===== verification/GaiSpec.v ===== *)
(** Properties of [Gai]: the list that [getaddrinfo] returns is well formed, and
    the memory it allocates is exactly that of the list.

    The blocks allocated and not yet freed are a multiset computed from the
    history of calls and the kernel's answers, so that no assumption on how the
    allocator reuses addresses is needed. *)

From stdpp Require Import gmultiset.
From S2P Require Import Prelude Net Sys Error InetPton InetNtop SockAddr Gai.

Import Gai.

(** Equations between multisets, whatever the context. *)
Ltac msolve := clear; multiset_solver.

(** A service that does not begin with a slash. *)
Ltac no_slash c :=
  destruct c; repeat match goal with p : positive |- _ => first [done|destruct p] end; try done.

(** * The heap *)

Definition heap_step (K : kernel) (cs : list call) (c : call) (b : gmultiset Z) : gmultiset Z :=
  match c as c return ans c → gmultiset Z with
  | Cmalloc _ | Ccalloc _ _ | Cstrdup _ =>
      λ a, match a with ROk p => {[+ p +]} ⊎ b | RErr _ => b end
  | Cfree p => λ _, b ∖ {[+ p +]}
  | _ => λ _, b
  end (K cs c).

(** The blocks that the history has allocated and not freed. *)
Fixpoint heap (K : kernel) (cs : list call) : gmultiset Z :=
  match cs with [] => ∅ | c :: cs' => heap_step K cs' c (heap K cs') end.

(** The blocks of a pointer, a structure and a list. *)
Definition owned_opt {A} (p : option (Z * A)) : gmultiset Z :=
  match p with Some (q, _) => {[+ q +]} | None => ∅ end.
Definition owned_node (ai : node) : gmultiset Z :=
  {[+ n_ptr ai +]} ⊎ owned_opt (n_addr ai) ⊎ owned_opt (n_canonname ai).
Definition owned (l : list node) : gmultiset Z := foldr (λ ai b, owned_node ai ⊎ b) ∅ l.

Lemma owned_app l1 l2 : owned (l1 ++ l2) = owned l1 ⊎ owned l2.
Proof. induction l1 as [|ai l1 IH]; simpl; [|rewrite IH]; msolve. Qed.

Definition not_heap_call (c : call) : Prop :=
  match c with Cmalloc _ | Ccalloc _ _ | Cstrdup _ | Cfree _ => False | _ => True end.

Lemma heap_other K c cs : not_heap_call c → heap K (c :: cs) = heap K cs.
Proof. by destruct c. Qed.

(** * What a structure of the list satisfies *)

(** The address that goes with a family. *)
Inductive addr_wf (ai : node) : Prop :=
  | addr_in q port a :
      n_family ai = AF_INET → n_addrlen ai = 16 → n_addr ai = Some (q, SaIn port a) →
      length a = 4%nat → addr_wf ai
  | addr_in6 q port a :
      n_family ai = AF_INET6 → n_addrlen ai = 28 → n_addr ai = Some (q, SaIn6 port a) →
      length a = 16%nat → addr_wf ai
  | addr_un q path :
      n_family ai = AF_LOCAL → n_addrlen ai = 110 → n_addr ai = Some (q, SaUn path) →
      Z.of_nat (length path) < 108 → addr_wf ai.

(** The structure answers the request [h]. *)
Record node_wf (h : hints) (ai : node) : Prop := NodeWf {
  wf_addr : addr_wf ai;
  wf_family : hi_family h = AF_UNSPEC ∨ n_family ai = hi_family h;
  wf_socktype : hi_socktype h = 0 ∨ n_socktype ai = hi_socktype h;
  wf_clone : n_socktype ai = 0 → n_flags ai = AI_CLONE;
  wf_protocol : n_protocol ai = hi_protocol h
}.

(** * Memory allocation *)

Section walk.
Context (K : kernel).

Local Abbreviation live w := (heap K (w_calls w)).

(** What the three allocating functions do to the heap. *)
Definition allocates (m : M (option Z)) : Prop :=
  ∀ w Q, (∀ r w', live w' = match r with Some p => {[+ p +]} ⊎ live w | None => live w end →
                  Q (Val r) w') → wp K m w Q.

Lemma wp_calloc n : allocates (calloc n).
Proof.
  intros w Q HQ. unfold calloc. wp_step. wp_step. wp_step.
  destruct (K (w_calls w) (Ccalloc 1 n)) as [p|e] eqn:Hk; cbn; apply HQ; simpl;
    unfold heap_step; by rewrite Hk.
Qed.
Lemma wp_malloc n : allocates (malloc n).
Proof.
  intros w Q HQ. unfold malloc. wp_step. wp_step. wp_step.
  destruct (K (w_calls w) (Cmalloc n)) as [p|e] eqn:Hk; cbn; apply HQ; simpl;
    unfold heap_step; by rewrite Hk.
Qed.
Lemma wp_strdup s : allocates (strdup s).
Proof.
  intros w Q HQ. unfold strdup. wp_step. wp_step. wp_step.
  destruct (K (w_calls w) (Cstrdup s)) as [p|e] eqn:Hk; cbn; apply HQ; simpl;
    unfold heap_step; by rewrite Hk.
Qed.

(** Giving back exactly what a list owns. *)
Lemma wp_free p w (Q : outcome unit → world → Prop) :
  (∀ w', live w' = live w ∖ {[+ p +]} → Q (Val tt) w') → wp K (sys (Cfree p)) w Q.
Proof. intros HQ. wp_step. destruct (K _ _). by apply HQ. Qed.

Lemma wp_free_opt {A} (p : option (Z * A)) R w (Q : outcome unit → world → Prop) :
  live w = owned_opt p ⊎ R → (∀ w', live w' = R → Q (Val tt) w') → wp K (free_opt p) w Q.
Proof.
  intros Hh HQ. destruct p as [[q x]|]; simpl in *.
  - apply wp_free. intros w' Hw. apply HQ. rewrite Hw, Hh. msolve.
  - apply wp_ret, HQ. rewrite Hh. msolve.
Qed.

Lemma wp_freeaddrinfo l R w (Q : outcome unit → world → Prop) :
  live w = owned l ⊎ R → (∀ w', live w' = R → Q (Val tt) w') → wp K (freeaddrinfo l) w Q.
Proof.
  revert w. induction l as [|ai l IH]; intros w Hh HQ; simpl in *.
  - apply wp_ret, HQ. rewrite Hh. msolve.
  - wp_step.
    apply (wp_free_opt _ (owned_opt (n_canonname ai) ⊎ ({[+ n_ptr ai +]} ⊎ (owned l ⊎ R))));
      [rewrite Hh; unfold owned_node; msolve|]. intros w1 H1. simpl. wp_step.
    apply (wp_free_opt _ ({[+ n_ptr ai +]} ⊎ (owned l ⊎ R))); [done|]. intros w2 H2. simpl. wp_step.
    apply wp_free. intros w3 H3. simpl. apply IH; [|done]. rewrite H3, H2. msolve.
Qed.


(** * Building a structure *)

(** The families of the socket addresses that the library builds, and the
    addresses that go with them. *)
Definition good_addr (family : Z) (addr : list Z) : Prop :=
  (family = AF_INET ∨ family = AF_INET6) ∧ length addr = addr_size family ∨ family = AF_LOCAL.

Lemma wp_ga_aistruct l h addr family R w (Q : outcome (list node * Z) → world → Prop) :
  live w = owned l ⊎ R → good_addr family addr →
  hi_family h = AF_UNSPEC ∨ family = hi_family h →
  (∀ l' rc w', live w' = owned l' ⊎ R →
     (rc = 0 → ∃ ai, l' = l ++ [ai] ∧ node_wf h ai ∧ n_canonname ai = None) → Q (Val (l', rc)) w') →
  wp K (ga_aistruct l h addr family) w Q.
Proof.
  intros Hh Hgood Hfam HQ. unfold ga_aistruct. wp_step. apply wp_calloc. intros [p|] w1 H1; simpl.
  2:{ wp_step. apply HQ; [by rewrite H1|done]. }
  assert (Hsoc : hi_socktype h = 0 → (if decide (hi_socktype h = 0) then AI_CLONE else 0) = AI_CLONE)
    by (intros; by rewrite decide_True).
  assert (Hnew : live w1 = owned (l ++ [new_node p h family]) ⊎ R).
  { rewrite H1, Hh, owned_app. simpl. unfold owned_node. simpl. msolve. }
  assert (Hset : ∀ q w', live w' = {[+ q +]} ⊎ live w1 → ∀ len sa,
    live w' = owned (l ++ [set_addr (new_node p h family) len q sa]) ⊎ R).
  { intros q w' Hw' len sa. rewrite Hw', Hnew, !owned_app. simpl. unfold owned_node. simpl. msolve. }
  destruct Hgood as [[[-> | ->] Hlen] | ->]; cbn [decide].
  - rewrite decide_True by done. wp_step. apply wp_calloc. intros [q|] w2 H2; simpl; wp_step; apply HQ.
    + by apply Hset.
    + intros _. eexists; split; [done|]. split; [|done]. constructor; simpl; [|by auto..].
      eapply addr_in; simpl; try done. rewrite length_take, Hlen. done.
    + by rewrite H2.
    + done.
  - rewrite decide_False, decide_True by done. wp_step. apply wp_calloc.
    intros [q|] w2 H2; simpl; wp_step; apply HQ.
    + by apply Hset.
    + intros _. eexists; split; [done|]. split; [|done]. constructor; simpl; [|by auto..].
      eapply addr_in6; simpl; try done. rewrite length_take, Hlen. done.
    + by rewrite H2.
    + done.
  - rewrite decide_False, decide_False, decide_True by done.
    wp_if; [wp_step; by apply HQ|]. wp_step. apply wp_calloc. intros [q|] w2 H2; simpl.
    2:{ wp_step. apply HQ; [by rewrite H2|done]. }
    wp_step.
    apply (wp_mono _ _ _ (λ o w', o = Val tt ∧ live w' = live w2)).
    { wp_if; [|by wp_step]. repeat wp_step. by destruct (K _ _). }
    intros o w3 [-> H3]. simpl. wp_step. apply HQ.
    + apply Hset. by rewrite H3.
    + intros _. eexists; split; [done|]. split; [|done]. constructor; simpl; [|by auto..].
      eapply addr_un; simpl; try done. lia.
Qed.

Lemma wp_ga_clone h ai R w (Q : outcome (option node * bool) → world → Prop) :
  live w = R → node_wf h ai → n_socktype ai ≠ 0 →
  (∀ o ok w',
     match o with
     | None => live w' = R
     | Some new => live w' = owned_node new ⊎ R ∧ (ok = true → node_wf h new ∧
         n_socktype new = n_socktype ai ∧ n_family new = n_family ai ∧
         snd <$> n_addr new = snd <$> n_addr ai)
     end → Q (Val (o, ok)) w') →
  wp K (ga_clone ai) w Q.
Proof.
  intros Hh Hwf Hsoc HQ. unfold ga_clone. wp_step. apply wp_calloc. intros [p|] w1 H1; simpl.
  2:{ wp_step. apply HQ. by rewrite H1. }
  wp_step. apply wp_malloc. intros [q|] w2 H2; simpl; wp_step; apply HQ.
  - destruct Hwf as [Haddr ? ? ? ?]. split; [|intros _; repeat split].
    + rewrite H2, H1, Hh. unfold owned_node. simpl. msolve.
    + destruct Haddr as [? ? ? Hf Hl Ha ?|? ? ? Hf Hl Ha ?|? ? Hf Hl Ha ?]; rewrite Ha.
      * by eapply addr_in.
      * by eapply addr_in6.
      * by eapply addr_un.
    + done.
    + done.
    + done.
    + done.
    + simpl. by destruct Haddr as [? ? ? ? ? -> | ? ? ? ? ? -> | ? ? ? ? ->].
  - rewrite H2, H1, Hh. unfold owned_node. simpl. split; [msolve|done].
Qed.


(** * The service *)

(** The socket type asked of [ga_port] for [h]. *)
Definition type_for (h : hints) (t : Z) : Prop := t ≠ 0 ∧ (hi_socktype h = 0 ∨ t = hi_socktype h).

Lemma fill_port_wf h ai port t :
  node_wf h ai → type_for h t →
  let ai' := (fill_port ai port t).1 in
  node_wf h ai' ∧ n_socktype ai' ≠ 0 ∧ owned_node ai' = owned_node ai.
Proof.
  intros [Haddr Hf Hs Hc Hp] [Ht Hty]. unfold fill_port.
  destruct Haddr as [q po a Hfam Hl Ha Hla|q po a Hfam Hl Ha Hla|q path Hfam Hl Ha Hla];
    [rewrite decide_True by auto..|rewrite decide_False by (rewrite Hfam; by intros [|])];
    cbn [fst]; (split; [|split]);
    try (unfold owned_node; simpl; by rewrite Ha); try (by simpl);
    constructor; simpl; auto; try (by destruct Hty; auto); try done.
  - eapply addr_in; simpl; try done. by rewrite Ha.
  - eapply addr_in6; simpl; try done. by rewrite Ha.
  - by eapply addr_un.
Qed.

(** Structures that answer [h] and have their socket type. *)
Definition typed (h : hints) (ai : node) : Prop := node_wf h ai ∧ n_socktype ai ≠ 0.

Lemma wp_ga_port h l port t R w (Q : outcome (list node * Z) → world → Prop) :
  live w = owned l ⊎ R → Forall (node_wf h) l → type_for h t →
  (∀ l' rc w', live w' = owned l' ⊎ R → (0 <= rc → Forall (typed h) l' ∧ (l ≠ [] → l' ≠ [])) →
     Q (Val (l', rc)) w') →
  wp K (ga_port l port t) w Q.
Proof.
  intros Hh Hwf Ht. revert R w Q Hh. induction Hwf as [|ai l Hai Hwf IH]; intros R w Q Hh HQ; simpl.
  { wp_step. by apply HQ. }
  destruct (fill_port_wf h ai port t Hai Ht) as (Hai' & Hs' & Ho').
  assert (Hskip : ∀ ai', typed h ai' → owned_node ai' = owned_node ai → ∀ f : Z → Z,
      (∀ n, 0 <= f n → 0 <= n) →
      wp K ('(l1, n) ← ga_port l port t; mret (ai' :: l1, f n)) w Q).
  { intros ai' Hty Ho f Hfn. wp_step. apply (IH (owned_node ai ⊎ R)); [rewrite Hh; simpl; msolve|].
    intros l1 n w1 H1 Hok. simpl. wp_step. apply HQ.
    - rewrite H1. simpl. rewrite Ho. msolve.
    - intros Hn%Hfn. destruct (Hok Hn). split; [by constructor|done]. }
  assert (Hcount : ∀ found n, 0 <= (if decide (n < 0) then n else found + n) → 0 <= n)
    by (intros found n; case_decide; lia).
  destruct (decide (Z.land (n_flags ai) AI_CLONE ≠ 0)) as [Hcl|Hcl];
    [destruct (decide (n_socktype ai ≠ 0)) as [Hsoc|Hsoc]|destruct (decide (n_socktype ai ≠ t)) as [Hsoc|Hsoc]].
  - wp_step. apply (wp_ga_clone h ai (owned (ai :: l) ⊎ R)); [done..|].
    intros [new|] ok w1 Hnew; simpl.
    2:{ wp_step. by apply HQ. }
    destruct Hnew as [H1 Hok]. destruct ok.
    2:{ wp_step. apply HQ; [rewrite H1; simpl; msolve|lia]. }
    destruct (Hok eq_refl) as (Hnwf & _).
    destruct (fill_port_wf h new port t Hnwf Ht) as (Hn' & Hns' & Hno').
    destruct (fill_port new port t) as [new' found]. simpl in Hn', Hns', Hno'. wp_step.
    apply (IH (owned_node ai ⊎ owned_node new ⊎ R)); [rewrite H1; simpl; msolve|].
    intros l1 n w2 H2 Hok2. simpl. wp_step. apply HQ.
    + rewrite H2. simpl. rewrite Hno'. msolve.
    + intros Hn%Hcount. destruct (Hok2 Hn). split; [|done]. constructor; [by split|]. by constructor.
  - destruct (fill_port ai port t) as [ai' found]. apply (Hskip ai' (conj Hai' Hs')); [done|apply Hcount].
  - apply (Hskip ai); [split; [done|]|done|auto]. intros H0.
    apply Hcl. by rewrite (wf_clone _ _ Hai H0).
  - destruct (fill_port ai port t) as [ai' found]. apply (Hskip ai' (conj Hai' Hs')); [done|apply Hcount].
Qed.

(** The state of [ga_serv] between two calls of [ga_port]: either a return is
    under way, or nothing was found yet, or the structures have their type. *)
Definition serv_inv (h : hints) (R : gmultiset Z) (st : list node * option Z) (w : world) : Prop :=
  live w = owned st.1 ⊎ R ∧
  ∀ n, st.2 = Some n → st.1 ≠ [] ∧ Forall (node_wf h) st.1 ∧ (n = 0 ∨ Forall (typed h) st.1).

Lemma wp_try_port h port t st R w (Q : outcome (list node * option Z) → world → Prop) :
  serv_inv h R st w → type_for h t → (∀ st' w', serv_inv h R st' w' → Q (Val st') w') →
  wp K (try_port port t st) w Q.
Proof.
  intros [Hh Hst] Ht HQ. destruct st as [l [n|]]; simpl in *; [|wp_step; by apply HQ].
  destruct (Hst n eq_refl) as (Hne & Hwf & _). wp_step. apply (wp_ga_port h _ _ _ R); [done..|].
  intros l' rc w' Hh' Hok. simpl. wp_step. apply HQ. split; [done|]. simpl. intros m.
  case_decide; [done|]. intros [= <-]. destruct Hok as [Hty Hne']; [lia|].
  split; [by apply Hne'|]. split; [|by right]. eapply Forall_impl; [exact Hty|]. by intros ? [].
Qed.

Lemma wp_try_service h serv proto t st R w (Q : outcome (list node * option Z) → world → Prop) :
  serv_inv h R st w → t ≠ 0 → (∀ st' w', serv_inv h R st' w' → Q (Val st') w') →
  wp K (try_service serv proto t h st) w Q.
Proof.
  intros Hinv Ht HQ. unfold try_service. destruct st as [l [n|]]; [|wp_step; by apply HQ].
  destruct (decide _) as [Hty|]; [|wp_step; by apply HQ]. wp_step. wp_step.
  assert (Hinv' : serv_inv h R (l, Some n)
    (World (Cgetservbyname serv proto :: w_calls w) (w_errno w) (w_daemon w))).
  { by destruct Hinv. }
  destruct (K _ _) as [s|]; [|wp_step; by apply HQ].
  apply (wp_try_port h _ _ _ R); [done| |done]. split; [done|]. destruct Hty; auto.
Qed.

Lemma wp_ga_serv h l serv R w (Q : outcome (list node * Z) → world → Prop) :
  live w = owned l ⊎ R → Forall (node_wf h) l → l ≠ [] →
  (∀ l' rc w', live w' = owned l' ⊎ R → (rc = 0 → l' ≠ [] ∧ Forall (typed h) l') →
     Q (Val (l', rc)) w') →
  wp K (ga_serv l h serv) w Q.
Proof.
  intros Hh Hwf Hne HQ. unfold ga_serv. wp_step.
  assert (Hinv : serv_inv h R (l, Some 0) w) by (split; simpl; naive_solver).
  assert (Hend : ∀ st w', serv_inv h R st w' →
    wp K (let '(l, nfound) := st in
          match nfound with
          | None => mret (l, EAI_MEMORY)
          | Some nfound => mret (l, if decide (nfound = 0) then
              if decide (hi_socktype h = 0) then EAI_NONAME else EAI_SERVICE else 0)
          end) w' Q).
  { intros [l' [n|]] w' [Hh' Hst]; simpl in *; wp_step; apply HQ; try done.
    destruct (Hst n eq_refl) as (Hne' & Hwf' & Hty).
    destruct (decide (n = 0)); [by case_decide|]. intros _. split; [done|]. by destruct Hty. }
  destruct (decide (is_digit (nth 0 serv 0))); [destruct (decide (hi_socktype h ≠ 0)) as [Hs|Hs]|].
  - apply (wp_try_port h _ _ _ R); [done|split; auto|]. exact Hend.
  - apply dec_stable in Hs. wp_step. apply (wp_try_port h _ _ _ R); [done|split; [done|auto]|].
    intros st1 w1 H1. simpl. apply (wp_try_port h _ _ _ R); [done|split; [done|auto]|]. exact Hend.
  - wp_step. apply (wp_try_service h _ _ _ _ R); [done..|]. intros st1 w1 H1. simpl.
    apply (wp_try_service h _ _ _ _ R); [done..|]. exact Hend.
Qed.


(** * The search *)

(** The resolver answers with addresses of the family it is asked for. *)
Definition resolver_ok : Prop := ∀ cs host family hp,
  K cs (Cgethostbyname host family) = inr hp →
  h_addrtype hp = family ∧ Forall (λ a, length a = addr_size family) (h_addr_list hp).

(** The caller asks for the canonical name. *)
Definition wants_canon (hostname : option (list Z)) (h : hints) : bool :=
  named hostname && bool_decide (Z.land (hi_flags h) AI_CANONNAME ≠ 0).

(** A structure that the search has just built. *)
Definition fresh (h : hints) (ai : node) : Prop := node_wf h ai ∧ n_canonname ai = None.

(** The heap between two searches. *)
Definition found_heap (want : bool) (R : gmultiset Z) (st : found) (w : world) : Prop :=
  live w = owned (aihead st) ⊎ (owned_opt (canon st) ⊎ R) ∧ (want = false → canon st = None).

(** What a search establishes. *)
Definition searched (hostname : option (list Z)) (h : hints) (R : gmultiset Z)
    (Q : outcome (found * Z) → world → Prop) : Prop :=
  (∀ w, wants_canon hostname h = true → Q Aborted w) ∧
  ∀ st rc w', found_heap (wants_canon hostname h) R st w' → (rc = 0 → Forall (fresh h) (aihead st)) →
    Q (Val (st, rc)) w'.

Lemma wp_add_addrs h family addrs l R w (Q : outcome (list node * Z) → world → Prop) :
  live w = owned l ⊎ R → Forall (fresh h) l →
  family = AF_INET ∨ family = AF_INET6 → hi_family h = AF_UNSPEC ∨ family = hi_family h →
  Forall (λ a, length a = addr_size family) addrs →
  (∀ l' rc w', live w' = owned l' ⊎ R → (rc = 0 → Forall (fresh h) l') → Q (Val (l', rc)) w') →
  wp K (add_addrs l h family addrs) w Q.
Proof.
  intros Hh Hl Hf Hfam Haddrs HQ. revert l w Hh Hl. induction Haddrs as [|a addrs Ha _ IH];
    intros l w Hh Hl; simpl.
  - wp_step. by apply HQ.
  - wp_step. apply (wp_ga_aistruct _ _ _ _ R); [done|by left|done|]. intros l' rc w' Hh' Hok. simpl.
    case_decide as Hrc; [wp_step; by apply HQ|]. apply IH; [done|].
    destruct (Hok Hrc) as (ai & -> & Hai). apply Forall_app; auto.
Qed.

Lemma numeric_host_good host af a :
  numeric_host host = Some (af, a) → (af = AF_INET ∨ af = AF_INET6) ∧ length a = addr_size af.
Proof.
  unfold numeric_host.
  destruct (if decide (is_digit _) then _ else None) as [[af' a']|] eqn:H4.
  - intros [= <- <-]. destruct (decide (is_digit (nth 0 host 0))); [|done]. destruct (inet_pton AF_INET host) eqn:Hp; [|done..].
    injection H4 as <- <-. split; [by left|]. by apply inet_pton_length in Hp.
  - destruct (decide (_ ∧ _)); [|done]. destruct (inet_pton AF_INET6 host) eqn:Hp; [|done..].
    intros [= <- <-]. split; [by right|]. by apply inet_pton_length in Hp.
Qed.

Lemma wp_search_one hostname h nsearch host family st R w Q :
  resolver_ok → found_heap (wants_canon hostname h) R st w → Forall (fresh h) (aihead st) →
  family = AF_INET ∨ family = AF_INET6 →
  searched hostname h R Q → wp K (search_one hostname h nsearch (host, family) st) w Q.
Proof.
  intros Hres [Hh Hcan] Hl Hfam [HQa HQ]. cbn [search_one].
  destruct (numeric_host host) as [[af a]|] eqn:Hnum.
  - apply numeric_host_good in Hnum as [Haf Ha].
    destruct (decide (hi_family h ≠ AF_UNSPEC ∧ hi_family h ≠ af)) as [|Hhf]; [wp_step; by apply HQ|].
    destruct (decide (family ≠ af)); [wp_step; by apply HQ|].
    wp_step. apply (wp_ga_aistruct _ _ _ _ (owned_opt (canon st) ⊎ R)); [done|by left| |].
    { destruct (decide (hi_family h = AF_UNSPEC)); [by left|right].
      destruct (decide (hi_family h = af)); [done|]. by destruct Hhf. }
    intros l' rc w' Hh' Hok. simpl. wp_step. apply HQ; [by split|].
    intros Hrc. destruct (Hok Hrc) as (ai & -> & Hai). apply Forall_app; auto.
  - wp_step. wp_step. set (w1 := World _ _ _). assert (Hh1 : live w1 = live w) by done.
    destruct (K (w_calls w) (Cgethostbyname host family)) as [e|hp] eqn:Hk.
    { case_decide; wp_step; (apply HQ; [by split|done]). }
    destruct (Hres _ _ _ _ Hk) as [Hty Haddrs].
    destruct (decide (hi_family h ≠ AF_UNSPEC ∧ hi_family h ≠ h_addrtype hp)) as [|Hhf]; [wp_step; by apply HQ|].
    assert (Hgo : ∀ c w', live w' = owned (aihead st) ⊎ (owned_opt c ⊎ R) →
      (wants_canon hostname h = false → c = None) →
      wp K ('(l, rc) ← add_addrs (aihead st) h (h_addrtype hp) (h_addr_list hp);
            mret (Found l c, rc)) w' Q).
    { intros c w' Hw' Hc. wp_step. rewrite Hty in *. apply (wp_add_addrs _ _ _ _ (owned_opt c ⊎ R)); try done.
      - destruct (decide (hi_family h = AF_UNSPEC)); [by left|right].
        destruct (decide (hi_family h = family)); [done|]. by destruct Hhf.
      - intros l' rc w2 H2 Hok. simpl. wp_step. by apply HQ. }
    wp_step. change (named hostname && bool_decide (Z.land (hi_flags h) AI_CANONNAME ≠ 0))
      with (wants_canon hostname h).
    destruct (wants_canon hostname h) eqn:Hw; cbn [andb]; [|wp_step; by apply Hgo].
    case_bool_decide as Hc; [|wp_step; by apply Hgo].
    destruct (h_name hp) as [name|]; [|wp_step; by apply HQa]. wp_step. apply wp_strdup.
    intros [p|] w2 H2; simpl; wp_step.
    + apply Hgo; [|done]. rewrite H2, Hh1, Hh, Hc. simpl. msolve.
    + apply wp_ret, HQ; [|done]. split; [by rewrite H2|done].
Qed.

Lemma wp_search_all hostname h nsearch search st R w Q :
  resolver_ok → found_heap (wants_canon hostname h) R st w → Forall (fresh h) (aihead st) →
  Forall (λ s, snd s = AF_INET ∨ snd s = AF_INET6) search →
  searched hostname h R Q → wp K (search_all hostname h nsearch search st) w Q.
Proof.
  intros Hres Hh Hl Hs HQ. revert st w Hh Hl.
  induction Hs as [|[host family] search Hf _ IH]; intros st w Hh Hl; simpl.
  - wp_step. by apply HQ.
  - wp_step. apply (wp_search_one _ _ _ _ _ _ R); [done..|]. split.
    { intros w' Hw. by apply HQ. }
    intros st' rc w' Hh' Hl'. simpl. case_decide as Hrc; [wp_step; by apply HQ|].
    apply IH; auto.
Qed.


(** * The canonical name and the whole function *)

Lemma set_canon_owned l p name :
  l ≠ [] → Forall (λ ai, n_canonname ai = None) l →
  owned (set_canon l p name) = {[+ p +]} ⊎ owned l.
Proof.
  intros Hne Hl. destruct Hl as [|ai l Hai _]; [done|]. simpl. unfold owned_node. simpl.
  rewrite Hai. simpl. msolve.
Qed.

Lemma set_canon_wf (P : node → Prop) l p name :
  (∀ ai c, P ai → P (Node (n_ptr ai) (n_flags ai) (n_family ai) (n_socktype ai) (n_protocol ai)
                       (n_addrlen ai) c (n_addr ai))) →
  Forall P l → Forall P (set_canon l p name).
Proof. intros HP Hl. destruct Hl as [|ai l Hai Hl]; [done|]. constructor; [by apply HP|done]. Qed.

Lemma node_wf_canon h ai c :
  node_wf h ai → node_wf h (Node (n_ptr ai) (n_flags ai) (n_family ai) (n_socktype ai)
    (n_protocol ai) (n_addrlen ai) c (n_addr ai)).
Proof.
  intros [Ha ? ? ? ?]. constructor; simpl; try done.
  destruct Ha; [by eapply addr_in|by eapply addr_in6|by eapply addr_un].
Qed.

(** What a successful call returns. *)
Definition result_wf (h : hints) (servname : option (list Z)) (l : list node) : Prop :=
  l ≠ [] ∧ Forall (node_wf h) l ∧
  (is_null_or_empty servname = false → Forall (λ ai, n_socktype ai ≠ 0) l).

Lemma set_canon_ne l p name : l ≠ [] → set_canon l p name ≠ [].
Proof. by destruct l. Qed.

Lemma Forall_fresh h l : Forall (fresh h) l → Forall (node_wf h) l ∧ Forall (λ ai, n_canonname ai = None) l.
Proof. intros H. split; (eapply Forall_impl; [exact H|]); by intros ? []. Qed.

Lemma wp_finish hostname servname h host0 st R w (Q : outcome (list node * Z) → world → Prop) :
  found_heap (wants_canon hostname h) R st w → Forall (fresh h) (aihead st) → aihead st ≠ [] →
  (∀ l rc w', live w' = owned l ⊎ R → (rc = 0 → result_wf h servname l) → Q (Val (l, rc)) w') →
  wp K (finish hostname servname h host0 st) w Q.
Proof.
  intros [Hh Hcan] [Hl Hnone]%Forall_fresh Hne HQ. unfold finish.
  change (named hostname && bool_decide (Z.land (hi_flags h) AI_CANONNAME ≠ 0))
    with (wants_canon hostname h).
  assert (Hend : ∀ l rc w', live w' = owned l ⊎ R → l ≠ [] → Forall (node_wf h) l →
    wp K (let '(l, rc) := (l, rc) in
      if decide (rc ≠ 0) then mret (l, rc)
      else match servname with None | Some [] => mret (l, 0) | Some serv => ga_serv l h serv end) w' Q).
  { intros l rc w' Hw' Hl0 Hwf. case_decide; [wp_step; by apply HQ|].
    destruct servname as [[|c s]|]; try (wp_step; apply HQ; [done|]; by repeat split).
    apply (wp_ga_serv h _ _ R); [done..|]. intros l' rc' w2 H2 Hok. apply HQ; [done|].
    intros Hrc. destruct (Hok Hrc) as [Hne' Hty]. split; [done|].
    split; [|intros _]; (eapply Forall_impl; [exact Hty|]); by intros ? []. }
  wp_step. destruct (wants_canon hostname h) eqn:Hw.
  - destruct (canon st) as [[p name]|] eqn:Hc.
    + wp_step. apply Hend; [|by apply set_canon_ne|apply set_canon_wf; [apply node_wf_canon|done]].
      rewrite Hh, set_canon_owned by done. simpl. msolve.
    + wp_step. apply wp_strdup. intros [p|] w1 H1; simpl; wp_step.
      * apply Hend; [|by apply set_canon_ne|apply set_canon_wf; [apply node_wf_canon|done]].
        rewrite H1, Hh, set_canon_owned by done. simpl. msolve.
      * apply Hend; [|done..]. rewrite H1, Hh. simpl. msolve.
  - wp_step. apply Hend; [|done..]. rewrite Hh, (Hcan eq_refl). simpl. msolve.
Qed.

(** The results of [getaddrinfo] in a heap [R]; [exact] says whether an error gives
    back everything. *)
Definition gai_post (h : hints) (servname : option (list Z)) (R : gmultiset Z)
    (exact want : bool) (Q : outcome (Z + list node) → world → Prop) : Prop :=
  (∀ l w', live w' = owned l ⊎ R → result_wf h servname l → Q (Val (inr l)) w') ∧
  (∀ e b w', e ≠ 0 → live w' = b ⊎ R → (exact = true → b = ∅) → Q (Val (inl e)) w') ∧
  (∀ w', hi_family h = AF_LOCAL → Q (Exit 1) w') ∧
  (∀ w', want = true → Q Aborted w').

Lemma ga_nsearch_search hostname h w (Q : outcome (list (list Z * Z)) → world → Prop) :
  hi_family h ∈ [AF_UNSPEC; AF_INET; AF_INET6; AF_LOCAL] →
  (∀ search, Forall (λ s, snd s = AF_INET ∨ snd s = AF_INET6) search → search ≠ [] → Q (Val search) w) →
  (∀ cs e, Forall report_call cs → hi_family h = AF_LOCAL →
     Q (Exit 1) (World (cs ++ w_calls w) e (w_daemon w))) →
  wp K (ga_nsearch hostname h) w Q.
Proof.
  intros Hfam HQ Hexit. unfold ga_nsearch.
  assert (H4 : ∀ h4 h6 : list Z,
    (if decide (hi_family h = AF_INET) then [(h4, AF_INET)]
     else if decide (hi_family h = AF_INET6) then [(h6, AF_INET6)]
     else if decide (hi_family h = AF_UNSPEC) then [(h6, AF_INET6); (h4, AF_INET)] else []) = [] ∧
      hi_family h = AF_LOCAL ∨
    ∃ x l, (if decide (hi_family h = AF_INET) then [(h4, AF_INET)]
     else if decide (hi_family h = AF_INET6) then [(h6, AF_INET6)]
     else if decide (hi_family h = AF_UNSPEC) then [(h6, AF_INET6); (h4, AF_INET)] else []) = x :: l ∧
     Forall (λ s : list Z * Z, snd s = AF_INET ∨ snd s = AF_INET6) (x :: l)).
  { intros h4 h6. destruct (decide (hi_family h = AF_INET)), (decide (hi_family h = AF_INET6)),
      (decide (hi_family h = AF_UNSPEC)); try (right; eexists _, _; split; [done|];
        repeat first [apply Forall_nil_2|apply Forall_cons_2; [simpl; auto|]]).
    left. split; [done|]. set_solver. }
  assert (Hgo : ∀ search, search = [] ∧ hi_family h = AF_LOCAL ∨
      (∃ x l, search = x :: l ∧ Forall (λ s : list Z * Z, snd s = AF_INET ∨ snd s = AF_INET6) (x :: l)) →
    wp K (if decide (length search = 0%nat) then err_quit (str "nsearch = 0") else mret search) w Q).
  { intros search [[-> Hloc]|(x & l & -> & Hf)]; cbn [length].
    - rewrite decide_True by done. apply wp_err_quit. intros cs Hcs. by apply Hexit.
    - rewrite decide_False by done. wp_step. by apply HQ. }
  apply Hgo. destruct hostname as [[|c s]|]; [destruct (decide (Z.land _ _ ≠ 0))| |
    destruct (decide (Z.land _ _ ≠ 0))]; apply H4.
Qed.

Definition bad_ (l : list node) (e : Z) : M (Z + list node) := freeaddrinfo l;; mret (inl e).

Lemma heap_report cs cs' : Forall report_call cs → heap K (cs ++ cs') = heap K cs'.
Proof. induction 1 as [|c cs Hc _ IH]; [done|]. simpl. rewrite <-IH. by destruct c. Qed.

Lemma wp_bad l e b (exact : bool) R w h servname want (Q : outcome (Z + list node) → world → Prop) :
  live w = owned l ⊎ (b ⊎ R) → (exact = true → b = ∅) → e ≠ 0 → gai_post h servname R exact want Q →
  wp K (bad_ l e) w Q.
Proof.
  intros Hh Hb He (_ & HQ & _). unfold bad_. wp_step. apply (wp_freeaddrinfo _ (b ⊎ R)); [done|].
  intros w' Hw'. simpl. wp_step. by apply (HQ e b).
Qed.

Lemma wp_getaddrinfo_ip hostname servname h R w Q :
  resolver_ok → live w = R → hi_family h ∈ [AF_UNSPEC; AF_INET; AF_INET6; AF_LOCAL] →
  gai_post h servname R (negb (wants_canon hostname h)) (wants_canon hostname h) Q →
  wp K (getaddrinfo_ip hostname servname h bad_) w Q.
Proof.
  intros Hres Hh Hfam HQ. assert (HQ' := HQ). destruct HQ' as (HQok & _ & HQexit & HQab).
  unfold getaddrinfo_ip. wp_step. apply ga_nsearch_search; [done| |intros; by apply HQexit].
  intros search Hs Hsne. simpl. wp_step.
  apply (wp_search_all _ _ _ _ _ R);
    [done|split; [rewrite Hh; simpl; msolve|done]|constructor|done|]. split.
  { intros w1 Hw. by apply HQab. }
  intros st rc w1 [H1 Hcan] Hl. simpl.
  assert (Hb : negb (wants_canon hostname h) = true → owned_opt (canon st) = ∅).
  { intros Hw. rewrite Hcan; [done|]. by destruct (wants_canon hostname h). }
  case_decide as Hrc; [by apply (wp_bad _ _ (owned_opt (canon st)) _ R _ _ _ _ _ H1 Hb Hrc HQ)|].
  destruct (aihead st) as [|ai l] eqn:Hai.
  { exact (wp_bad [] EAI_NONAME (owned_opt (canon st)) _ R _ _ _ _ _ H1 Hb ltac:(done) HQ). }
  wp_step. apply (wp_finish _ _ _ _ _ R); [by rewrite <-Hai in H1|rewrite Hai; auto|by rewrite Hai|].
  intros l' rc' w2 H2 Hok. simpl. case_decide as Hrc'; [|wp_step; by apply HQok; auto].
  apply (wp_bad _ _ ∅ (negb (wants_canon hostname h)) R _ h servname (wants_canon hostname h)); try done.
  rewrite H2. msolve.
Qed.


(** A structure built for [h] with one of the types that [h] admits. *)
Lemma node_wf_type h t ai :
  node_wf (set_socktype h t) ai → t ≠ 0 → hi_socktype h = 0 ∨ t = hi_socktype h → typed h ai.
Proof.
  intros [Ha Hf Hs Hc Hp] Ht Hty. simpl in *.
  assert (Hst : n_socktype ai = t) by (by destruct Hs).
  split; [|by rewrite Hst]. constructor; [done..| | |done].
  - destruct Hty; [by left|right; congruence].
  - rewrite Hst. done.
Qed.

Lemma ga_unix_done h path l R w Q :
  live w = owned l ⊎ R → l ≠ [] → Forall (typed h) l → Forall (λ ai, n_canonname ai = None) l →
  gai_post h (Some path) R false false Q →
  wp K (if decide (Z.land (hi_flags h) AI_CANONNAME ≠ 0) then
          r ← checked (sys Cuname);
          match r with
          | RErr _ => mret (inl EAI_SYSTEM)
          | ROk nodename =>
              p ← strdup nodename;
              match p with
              | None => mret (inl EAI_MEMORY)
              | Some p => mret (inr (set_canon l p nodename))
              end
          end
        else mret (inr l)) w Q.
Proof.
  intros Hh Hne Hty Hnone (HQok & HQbad & _).
  assert (Hwf : Forall (node_wf h) l) by (eapply Forall_impl; [exact Hty|by intros ? []]).
  assert (Hs : Forall (λ ai, n_socktype ai ≠ 0) l) by (eapply Forall_impl; [exact Hty|by intros ? []]).
  wp_if; [|wp_step; by apply HQok].
  wp_step. wp_step. wp_step. destruct (K (w_calls w) Cuname) as [name|e]; simpl.
  2:{ wp_step. by apply (HQbad _ (owned l)). }
  wp_step. apply wp_strdup. intros [p|] w1 H1; simpl; wp_step.
  - apply HQok.
    + rewrite H1, set_canon_owned by done. simpl. rewrite Hh. msolve.
    + split; [by apply set_canon_ne|].
      split; [apply set_canon_wf; [apply node_wf_canon|done]|intros _; by apply set_canon_wf].
  - apply (HQbad _ (owned l)); [done|by rewrite H1|done].
Qed.

Lemma wp_ga_unix h path R w Q :
  live w = R → gai_post h (Some path) R false false Q → wp K (ga_unix path h) w Q.
Proof.
  intros Hh HQ. assert (HQ' := HQ). destruct HQ' as (_ & HQbad & _).
  assert (Herr : ∀ e b w', e ≠ 0 → live w' = b ⊎ R → Q (Val (inl e)) w') by (intros; by eapply HQbad).
  unfold ga_unix. case_decide as Hf; [wp_step; apply (Herr _ ∅); [done|rewrite Hh; msolve]|].
  assert (Hfam : hi_family h = AF_UNSPEC ∨ AF_LOCAL = hi_family h).
  { destruct (decide (hi_family h = AF_UNSPEC)); [by left|right].
    destruct (decide (hi_family h = AF_LOCAL)); [done|]. by destruct Hf. }
  assert (Hlast : ∀ l h' t w', t ≠ 0 → hi_socktype h = 0 ∨ t = hi_socktype h →
    h' = set_socktype h t → live w' = owned l ⊎ R → Forall (λ ai, typed h ai ∧ n_canonname ai = None) l →
    wp K ('(l, rc) ← ga_aistruct l h' path AF_LOCAL;
          if decide (rc ≠ 0) then mret (inl rc)
          else if decide (Z.land (hi_flags h') AI_CANONNAME ≠ 0) then
            r ← checked (sys Cuname);
            match r with
            | RErr _ => mret (inl EAI_SYSTEM)
            | ROk nodename =>
                p ← strdup nodename;
                match p with
                | None => mret (inl EAI_MEMORY)
                | Some p => mret (inr (set_canon l p nodename))
                end
            end
          else mret (inr l)) w' Q).
  { intros l h' t w' Ht Hty -> Hw' Hl. wp_step. apply (wp_ga_aistruct _ _ _ _ R); [done|by right|done|].
    intros l' rc w2 H2 Hok. cbn [bind_post]. case_decide as Hrc; [wp_step; by apply (Herr _ (owned l'))|].
    destruct (Hok Hrc) as (ai & -> & Hai & Hnone).
    apply (node_wf_type h t) in Hai; [|done..].
    assert (Hall : Forall (λ ai, typed h ai ∧ n_canonname ai = None) (l ++ [ai])).
    { apply Forall_app. split; [done|]. by apply Forall_singleton. }
    apply (ga_unix_done h path _ R); [done|by destruct l| | |done];
      (eapply Forall_impl; [exact Hall|]); by intros ? []. }
  wp_step. case_decide as Hs.
  - wp_step. apply (wp_ga_aistruct _ _ _ _ R); [rewrite Hh; simpl; msolve|by right|done|].
    intros l rc w1 H1 Hok. cbn [bind_post]. wp_step.
    case_decide as Hrc; [wp_step; by apply (Herr _ (owned l))|].
    destruct (Hok Hrc) as (ai & -> & Hai & Hnone).
    apply (Hlast _ _ SOCK_DGRAM); [done|by left|done|done|].
    apply (node_wf_type h SOCK_STREAM) in Hai; [|done|by left]. by apply Forall_singleton.
  - wp_step. case_decide; [done|].
    apply (Hlast _ _ (hi_socktype h)); [done|by right|by destruct h|rewrite Hh; simpl; msolve|constructor].
Qed.

(** The call asks for a Unix-domain address. *)
Definition unix_call (hostname servname : option (list Z)) : bool :=
  match hostname, servname with
  | Some host, Some (47 :: _) => bool_decide (host = str "/local" ∨ host = str "/unix")
  | _, _ => false
  end.

Lemma ga_echeck_family hostname servname h :
  ga_echeck hostname servname (hi_flags h) (hi_family h) (hi_socktype h) (hi_protocol h) = 0 →
  hi_family h ∈ [AF_UNSPEC; AF_INET; AF_INET6; AF_LOCAL].
Proof.
  unfold ga_echeck. case_decide; [done|]. destruct (_ && _); [done|].
  destruct (decide (hi_family h = AF_UNSPEC)); [set_solver|].
  destruct (decide (hi_family h = AF_INET ∨ hi_family h = AF_INET6)) as [[|]|]; [set_solver..|].
  destruct (decide (hi_family h = AF_LOCAL)); [set_solver|done].
Qed.

Definition hints_of (hintsp : option hints) : hints := default (Hints 0 AF_UNSPEC 0 0) hintsp.

Lemma getaddrinfo_not_unix hostname servname hintsp :
  let h := hints_of hintsp in
  ga_echeck hostname servname (hi_flags h) (hi_family h) (hi_socktype h) (hi_protocol h) = 0 →
  unix_call hostname servname = false →
  getaddrinfo hostname servname hintsp = getaddrinfo_ip hostname servname h bad_.
Proof.
  intros h Hrc Hu. unfold getaddrinfo. fold (hints_of hintsp). fold h. cbn zeta.
  rewrite decide_False by auto.
  unfold unix_call in Hu. destruct hostname as [host|], servname as [[|c path]|]; try done.
  destruct (decide (c = 47)) as [->|]; [|no_slash c].
  apply bool_decide_eq_false in Hu. by rewrite decide_False.
Qed.

Lemma wp_getaddrinfo hostname servname hintsp R w Q :
  let h := hints_of hintsp in
  resolver_ok → live w = R →
  gai_post h servname R (negb (wants_canon hostname h) && negb (unix_call hostname servname))
    (wants_canon hostname h) Q →
  wp K (getaddrinfo hostname servname hintsp) w Q.
Proof.
  intros h Hres Hh HQ.
  destruct (decide (ga_echeck hostname servname (hi_flags h) (hi_family h) (hi_socktype h) (hi_protocol h) = 0))
    as [Hrc|Hrc].
  - destruct (unix_call hostname servname) eqn:Hu.
    + unfold getaddrinfo. fold (hints_of hintsp). fold h. cbn zeta. rewrite decide_False by auto.
      unfold unix_call in Hu. destruct hostname as [host|], servname as [[|c path]|]; try done.
      destruct (decide (c = 47)) as [->|]; [|no_slash c].
      apply bool_decide_eq_true in Hu. rewrite (decide_True _ _ Hu).
      apply (wp_ga_unix _ _ R); [done|]. rewrite andb_false_r in HQ.
      destruct HQ as (H1 & H2 & H3 & H4). by split.
    + rewrite getaddrinfo_not_unix by done. rewrite andb_true_r in HQ. apply (wp_getaddrinfo_ip _ _ _ R); try done.
      by eapply ga_echeck_family.
  - unfold getaddrinfo. fold (hints_of hintsp). fold h. cbn zeta. rewrite decide_True by done.
    apply (wp_bad [] _ ∅ _ R _ _ _ _ _) with (4 := HQ); [rewrite Hh; simpl; msolve|done..].
Qed.

End walk.

(** C19: for any allocator and any resolver that answers with addresses of the
    family it is asked for, [getaddrinfo] returns: a nonempty list in which every
    structure has the requested family, socket type and protocol and a socket
    address of its family with the length that goes with it, and a socket type
    other than 0 when a service was asked for; or an error other than 0.  It ends
    the process only for the hint [AF_LOCAL] (in [ga_nsearch]), and crashes only
    when the canonical name is wanted (and the resolver has none). *)
Theorem getaddrinfo_wf K hostname servname hintsp w :
  resolver_ok K →
  match (getaddrinfo hostname servname hintsp K w).1 with
  | Val (inr l) => result_wf (hints_of hintsp) servname l
  | Val (inl e) => e ≠ 0
  | Exit c => c = 1 ∧ hi_family (hints_of hintsp) = AF_LOCAL
  | Aborted => wants_canon hostname (hints_of hintsp) = true
  | Diverge => False
  end.
Proof.
  intros Hres.
  apply (wp_getaddrinfo K hostname servname hintsp (heap K (w_calls w)) w
    (λ o _, match o with
            | Val (inr l) => result_wf (hints_of hintsp) servname l
            | Val (inl e) => e ≠ 0
            | Exit c => c = 1 ∧ hi_family (hints_of hintsp) = AF_LOCAL
            | Aborted => wants_canon hostname (hints_of hintsp) = true
            | Diverge => False
            end)); [done|done|].
  split; [done|]. split; [done|]. by split.
Qed.

(** C20: whatever the allocator answers, a successful [getaddrinfo] has allocated
    exactly the blocks of the list it returns, and [freeaddrinfo] of that list
    gives all of them back; a failed one has freed all that it allocated, unless
    the canonical name or a Unix-domain address was asked for. *)
Theorem getaddrinfo_memory K hostname servname hintsp w :
  resolver_ok K →
  let '(o, w1) := getaddrinfo hostname servname hintsp K w in
  match o with
  | Val (inr l) =>
      heap K (w_calls w1) = owned l ⊎ heap K (w_calls w) ∧
      let '(o2, w2) := freeaddrinfo l K w1 in
      o2 = Val tt ∧ heap K (w_calls w2) = heap K (w_calls w)
  | Val (inl e) =>
      heap K (w_calls w) ⊆ heap K (w_calls w1) ∧
      (wants_canon hostname (hints_of hintsp) = false → unix_call hostname servname = false →
       heap K (w_calls w1) = heap K (w_calls w))
  | _ => True
  end.
Proof.
  intros Hres.
  assert (H := wp_getaddrinfo K hostname servname hintsp (heap K (w_calls w)) w
    (λ o w1, match o with
      | Val (inr l) => heap K (w_calls w1) = owned l ⊎ heap K (w_calls w)
      | Val (inl e) => heap K (w_calls w) ⊆ heap K (w_calls w1) ∧
          (wants_canon hostname (hints_of hintsp) = false → unix_call hostname servname = false →
           heap K (w_calls w1) = heap K (w_calls w))
      | _ => True end) Hres eq_refl).
  unfold wp in H. destruct (getaddrinfo hostname servname hintsp K w) as [o w1]. cbn [fst snd] in H.
  lapply H; [|split; [done|split; [|done]]].
  - destruct o as [[e|l]|c| |]; [done| |done..]. intros Hh. split; [done|].
    assert (Hf := wp_freeaddrinfo K l (heap K (w_calls w)) w1
      (λ o w2, o = Val tt ∧ heap K (w_calls w2) = heap K (w_calls w)) Hh ltac:(by split)).
    unfold wp in Hf. by destruct (freeaddrinfo l K w1).
  - intros e b w' _ -> Hb. split; [msolve|]. intros Hw Hu. rewrite Hb by (by rewrite Hw, Hu). msolve.
Qed.


(** An allocator that does not reuse addresses, and a resolver that knows every
    name with two addresses of each family and every service. *)
Definition gai_kernel : kernel := λ cs c,
  match c as c return ans c with
  | Ccalloc _ _ | Cmalloc _ | Cstrdup _ => ROk (4096 + Z.of_nat (length cs))
  | Cgethostbyname _ family =>
      inr (Hostent (Some (str "host.example")) family
             [repeat 1 (addr_size family); repeat 2 (addr_size family)] [])
  | Cgetservbyname serv proto =>
      Some (Servent (Some serv) (htons (if decide (proto = str "tcp") then 13 else 14)))
  | Cuname => ROk (str "host")
  | c => default_ans c
  end.

Lemma gai_kernel_resolves : resolver_ok gai_kernel.
Proof.
  intros cs host family hp [= <-]. simpl. split; [done|].
  repeat constructor; by rewrite repeat_length.
Qed.

Lemma getaddrinfo_wf_witness :
  match (getaddrinfo (Some (str "host")) (Some (str "daytime")) None gai_kernel (World [] 0 false)).1 with
  | Val (inr l) => result_wf (Hints 0 AF_UNSPEC 0 0) (Some (str "daytime")) l ∧ length l = 8%nat
  | _ => False
  end.
Proof.
  assert (H := getaddrinfo_wf gai_kernel (Some (str "host")) (Some (str "daytime")) None (World [] 0 false)
    gai_kernel_resolves).
  assert (Hlen : match (getaddrinfo (Some (str "host")) (Some (str "daytime")) None gai_kernel (World [] 0 false)).1
    with Val (inr l) => length l = 8%nat | _ => False end) by (vm_compute; reflexivity).
  destruct (getaddrinfo _ _ _ _ _) as [[[e|l]|c| |] w1]; cbn [fst] in *; try done.
Defined.

Lemma getaddrinfo_memory_witness :
  let '(o, w1) := getaddrinfo (Some (str "127.0.0.1")) (Some (str "80")) None gai_kernel (World [] 0 false) in
  match o with
  | Val (inr l) =>
      heap gai_kernel (w_calls w1) = owned l ⊎ ∅ ∧
      let '(o2, w2) := freeaddrinfo l gai_kernel w1 in
      o2 = Val tt ∧ heap gai_kernel (w_calls w2) = ∅
  | _ => False
  end.
Proof.
  assert (H := getaddrinfo_memory gai_kernel (Some (str "127.0.0.1")) (Some (str "80")) None (World [] 0 false)
    gai_kernel_resolves).
  assert (Hval : match (getaddrinfo (Some (str "127.0.0.1")) (Some (str "80")) None gai_kernel
      (World [] 0 false)).1 with Val (inr _) => True | _ => False end) by (vm_compute; exact I).
  destruct (getaddrinfo _ _ _ _ _) as [[[e|l]|c| |] w1]; cbn [fst] in *; done.
Defined.

(** * Cloning *)

(** What the caller sees of a structure. *)
Definition nview (ai : node) : Z * Z * Z * option sockaddr :=
  (n_family ai, n_socktype ai, n_protocol ai, snd <$> n_addr ai).

(** The structure with a socket type and a port. *)
Definition with_service (port t : Z) (ai : node) : Z * Z * Z * option sockaddr :=
  (n_family ai, t, n_protocol ai, set_port port ∘ snd <$> n_addr ai).

(** A structure of the search, for a caller that asks for no socket type. *)
Definition clonable (ai : node) : Prop :=
  n_flags ai = AI_CLONE ∧ (n_family ai = AF_INET ∨ n_family ai = AF_INET6).

(** Allocation does not fail. *)
Definition allocator_ok (K : kernel) : Prop :=
  ∀ cs n, (∃ p, K cs (Ccalloc 1 n) = ROk p) ∧ (∃ p, K cs (Cmalloc n) = ROk p).

Lemma set_port_twice p q sa : set_port p (set_port q sa) = set_port p sa.
Proof. by destruct sa. Qed.

Section clone.
Context (K : kernel).

Lemma fill_port_view ai port t :
  clonable ai →
  ∃ ai', fill_port ai port t = (ai', 1) ∧ clonable ai' ∧ n_socktype ai' = t ∧
    nview ai' = with_service port t ai ∧
    (∀ p u, with_service p u ai' = with_service p u ai).
Proof.
  intros [Hfl Hf]. unfold fill_port. rewrite decide_True by done. eexists. split; [done|].
  split; [by split|]. split; [done|]. unfold nview, with_service. simpl.
  split; [by destruct (n_addr ai) as [[]|]|]. intros p u.
  destruct (n_addr ai) as [[q sa]|]; [|done]. simpl. by rewrite set_port_twice.
Qed.

(** The first service found sets the structures of the search. *)
Lemma wp_ga_port_first l port t w (Q : outcome (list node * Z) → world → Prop) :
  Forall (λ ai, clonable ai ∧ n_socktype ai = 0) l → t ≠ 0 →
  (∀ l', map nview l' = map (with_service port t) l → Forall (λ ai, clonable ai ∧ n_socktype ai ≠ 0) l' →
     (∀ p u, map (with_service p u) l' = map (with_service p u) l) →
     Q (Val (l', Z.of_nat (length l))) w) →
  wp K (ga_port l port t) w Q.
Proof.
  intros Hl Ht. revert w Q. induction Hl as [|ai l [Hai Hs] _ IH]; intros w Q HQ; simpl.
  - wp_step. apply (HQ []); [done|constructor|done].
  - rewrite decide_True by (by rewrite (proj1 Hai)). rewrite decide_False by (rewrite Hs; auto).
    destruct (fill_port_view ai port t Hai) as (ai' & -> & Hai' & Hs' & Hv & Hw).
    wp_step. apply IH. intros l' Hl' Hc Hwl. simpl. wp_step. case_decide; [lia|].
    replace (1 + Z.of_nat (length l)) with (Z.of_nat (length (ai :: l))) by (simpl; lia).
    apply HQ; simpl; [by rewrite Hv, Hl'| |by intros; rewrite Hw, Hwl].
    constructor; [split; [done|by rewrite Hs']|done].
Qed.

(** The second one doubles them. *)
Lemma wp_ga_port_again l port t w (Q : outcome (list node * Z) → world → Prop) :
  allocator_ok K → Forall (λ ai, clonable ai ∧ n_socktype ai ≠ 0 ∧ n_addr ai ≠ None) l → t ≠ 0 →
  (∀ l' w', map nview l' = flat_map (λ ai, [nview ai; with_service port t ai]) l →
     Q (Val (l', Z.of_nat (length l))) w') →
  wp K (ga_port l port t) w Q.
Proof.
  intros HK Hl Ht. revert w Q. induction Hl as [|ai l (Hai & Hs & Ha) _ IH]; intros w Q HQ; simpl.
  - wp_step. by apply (HQ []).
  - rewrite decide_True by (by rewrite (proj1 Hai)). rewrite decide_True by done.
    unfold ga_clone, calloc, malloc. repeat wp_step.
    destruct (HK (w_calls w) 48) as [[p ->] _]. repeat wp_step.
    match goal with |- context [K ?cs (Cmalloc ?n)] => destruct (HK cs n) as [_ [q ->]] end.
    cbn [bind_post]. repeat wp_step. cbn beta iota.
    unfold fill_port. simpl. rewrite decide_True by apply Hai. wp_step. apply IH. intros l' w' Hl'. simpl.
    wp_step. case_decide; [lia|].
    replace (1 + Z.of_nat (length l)) with (Z.of_nat (length (ai :: l))) by (simpl; lia).
    apply HQ. simpl. rewrite Hl'. unfold nview, with_service. simpl.
    by destruct (n_addr ai) as [[]|].
Qed.
End clone.

(** The port of a service: the number, or what the service database answers. *)
Definition service_port (serv : list Z) (known : option Z) : option Z :=
  if decide (is_digit (nth 0 serv 0)) then Some (htons (atoi serv)) else known.

(** The structures that [ai] becomes. *)
Definition answers (tcp udp : option Z) (ai : node) : list (Z * Z * Z * option sockaddr) :=
  match tcp, udp with
  | None, None => [nview ai]
  | Some p, None => [with_service p SOCK_STREAM ai]
  | None, Some q => [with_service q SOCK_DGRAM ai]
  | Some p, Some q => [with_service p SOCK_STREAM ai; with_service q SOCK_DGRAM ai]
  end.

Section serv.
Context (K : kernel) (h : hints) (serv : list Z) (HK : allocator_ok K) (Hh : hi_socktype h = 0).

Definition unset (ai : node) : Prop := (clonable ai ∧ n_socktype ai = 0) ∧ n_addr ai ≠ None.

(** A first service, if there is one, for structures without a type. *)
Lemma wp_first port t l w (Q : outcome (list node * option Z) → world → Prop) :
  l ≠ [] → Forall unset l → t ≠ 0 →
  (∀ l' n, 0 < n → map nview l' = map (with_service port t) l →
     Forall (λ ai, clonable ai ∧ n_socktype ai ≠ 0 ∧ n_addr ai ≠ None) l' →
     (∀ p u, map (with_service p u) l' = map (with_service p u) l) → Q (Val (l', Some n)) w) →
  wp K (try_port port t (l, Some 0)) w Q.
Proof.
  intros Hne Hl Ht HQ. unfold try_port. wp_step. apply (wp_ga_port_first K); [|done|].
  { eapply Forall_impl; [exact Hl|]. by intros ? []. }
  intros l' Hv Hc Hw. simpl. wp_step. rewrite decide_False by lia. apply HQ; [|done| |done].
  { destruct l; simpl; [done|lia]. }
  assert (Ha : Forall (λ ai, n_addr ai ≠ None) l').
  { apply Forall_forall. intros ai Hai Hn. apply (list_elem_of_fmap_2 nview) in Hai.
    change (nview <$> l') with (map nview l') in Hai. rewrite Hv in Hai.
    apply list_elem_of_fmap in Hai as (ai0 & Heq & Hin). unfold nview, with_service in Heq.
    rewrite Hn in Heq. rewrite Forall_forall in Hl. destruct (Hl _ Hin) as [_ Ha0].
    by destruct (n_addr ai0). }
  apply Forall_forall. intros ai Hai. rewrite Forall_forall in Hc, Ha. destruct (Hc _ Hai); auto.
Qed.

(** A second service, for structures that have a type. *)
Lemma wp_second port t l n w (Q : outcome (list node * option Z) → world → Prop) :
  0 < n → Forall (λ ai, clonable ai ∧ n_socktype ai ≠ 0 ∧ n_addr ai ≠ None) l → t ≠ 0 →
  (∀ l' n' w', 0 < n' → map nview l' = flat_map (λ ai, [nview ai; with_service port t ai]) l →
     Q (Val (l', Some n')) w') →
  wp K (try_port port t (l, Some n)) w Q.
Proof using HK.
  intros Hn Hl Ht HQ. unfold try_port. wp_step. apply (wp_ga_port_again K); [done..|].
  intros l' w' Hv. simpl. wp_step. rewrite decide_False by lia. apply HQ; [lia|done].
Qed.

Lemma flat_map_pairs {A B} (f g f' g' : A → B) l l' :
  map f l' = map f' l → map g l' = map g' l →
  flat_map (λ x, [f x; g x]) l' = flat_map (λ x, [f' x; g' x]) l.
Proof.
  revert l. induction l' as [|x l' IH]; intros [|y l]; simpl; try done.
  intros [= -> Hf] [= -> Hg]. by rewrite (IH l).
Qed.

Lemma flat_map_single {A B} (f : A → B) l : flat_map (λ x, [f x]) l = map f l.
Proof. induction l as [|x l IH]; simpl; congruence. Qed.

(** The two services one after the other. *)
Lemma wp_both p q l w (Q : outcome (list node * option Z) → world → Prop) :
  l ≠ [] → Forall unset l →
  (∀ l' n w', 0 < n → map nview l' = flat_map (answers (Some p) (Some q)) l → Q (Val (l', Some n)) w') →
  wp K (try_port p SOCK_STREAM (l, Some 0) ≫= try_port q SOCK_DGRAM) w Q.
Proof using HK.
  intros Hne Hl HQ. wp_step. apply wp_first; [done..|]. intros l1 n1 Hn1 Hv1 Hc1 Hw1. simpl.
  apply wp_second; [done..|]. intros l2 n2 w2 Hn2 Hv2. apply HQ; [done|]. rewrite Hv2.
  by apply flat_map_pairs.
Qed.

Lemma wp_by_name proto t l st w (Q : outcome (list node * option Z) → world → Prop) :
  (∀ s w', K (w_calls w) (Cgetservbyname serv proto) = Some s → wp K (try_port (s_port s) t (l, Some st)) w' Q) →
  (∀ w', K (w_calls w) (Cgetservbyname serv proto) = None → Q (Val (l, Some st)) w') →
  wp K (try_service serv proto t h (l, Some st)) w Q.
Proof using Hh.
  intros HS HN. unfold try_service. rewrite decide_True by auto. wp_step. wp_step.
  destruct (K _ _) as [s|]; [by apply HS|wp_step; by apply HN].
Qed.
End serv.

(** For a caller that asks for no socket type, [ga_serv] turns every structure
    of the search into one per service found, the stream one first, in the order
    of the addresses: the structure itself for the first service and its clone
    for the second, with the port of each; it fails with [EAI_NONAME] when no
    service is found. *)
Theorem ga_serv_clones K h serv tcp udp l w :
  allocator_ok K → hi_socktype h = 0 → l ≠ [] → Forall unset l →
  (∀ cs, s_port <$> K cs (Cgetservbyname serv (str "tcp")) = tcp) →
  (∀ cs, s_port <$> K cs (Cgetservbyname serv (str "udp")) = udp) →
  let tcp := service_port serv tcp in
  let udp := service_port serv udp in
  ∃ l', (ga_serv l h serv K w).1 =
      Val (l', match tcp, udp with None, None => EAI_NONAME | _, _ => 0 end) ∧
    map nview l' = flat_map (answers tcp udp) l.
Proof.
  intros HK Hh Hne Hl Ht Hu tcp' udp'.
  change (wp K (ga_serv l h serv) w (λ o _, ∃ l', o = Val (l', match tcp', udp' with None, None => EAI_NONAME | _, _ => 0 end) ∧
    map nview l' = flat_map (answers tcp' udp') l)).
  unfold ga_serv. wp_step. unfold tcp', udp', service_port. case_decide as Hd.
  - rewrite decide_False by auto. apply (wp_both K HK); [done..|]. intros l' n w' Hn Hv. simpl.
    rewrite decide_False by lia. by exists l'.
  - wp_step. apply (wp_by_name K h serv Hh).
    + intros s w1 Hs. rewrite <-(Ht (w_calls w)), Hs. cbn [fmap option_fmap option_map].
      apply wp_first; [done..|]. intros l1 n1 Hn1 Hv1 Hc1 Hw1. cbn [bind_post].
      apply (wp_by_name K h serv Hh).
      * intros s2 w2 Hs2. rewrite <-(Hu (w_calls w1)), Hs2. apply (wp_second K HK); [done..|].
        intros l2 n2 w3 Hn2 Hv2. simpl. rewrite decide_False by lia. exists l2. split; [done|].
        rewrite Hv2. by apply flat_map_pairs.
      * intros w2 Hs2. rewrite <-(Hu (w_calls w1)), Hs2. simpl. rewrite decide_False by lia.
        exists l1. split; [done|]. rewrite Hv1. symmetry. exact (flat_map_single (with_service _ _) l).
    + intros w1 Hs. rewrite <-(Ht (w_calls w)), Hs. cbn [bind_post fmap option_fmap option_map]. apply (wp_by_name K h serv Hh).
      * intros s2 w2 Hs2. rewrite <-(Hu (w_calls w1)), Hs2. apply wp_first; [done..|].
        intros l2 n2 Hn2 Hv2 _ _. simpl. rewrite decide_False by lia. exists l2. split; [done|].
        rewrite Hv2. symmetry. exact (flat_map_single (with_service _ _) l).
      * intros w2 Hs2. rewrite <-(Hu (w_calls w1)), Hs2. simpl. rewrite (decide_True _ _ Hh).
        exists l. split; [done|]. symmetry. exact (flat_map_single nview l).
Qed.

(** Two addresses, the service known to both protocols, then a port number. *)
Definition two_nodes : list node :=
  [Node 1 AI_CLONE AF_INET6 0 0 28 None (Some (2, SaIn6 0 (repeat 1 16)));
   Node 3 AI_CLONE AF_INET 0 0 16 None (Some (4, SaIn 0 (repeat 2 4)))].

Lemma ga_serv_clones_witness :
  ∃ l', (ga_serv two_nodes (Hints 0 AF_UNSPEC 0 0) (str "daytime") gai_kernel (World [] 0 false)).1 = Val (l', 0) ∧
    map nview l' =
      [(AF_INET6, SOCK_STREAM, 0, Some (SaIn6 (htons 13) (repeat 1 16)));
       (AF_INET6, SOCK_DGRAM, 0, Some (SaIn6 (htons 14) (repeat 1 16)));
       (AF_INET, SOCK_STREAM, 0, Some (SaIn (htons 13) (repeat 2 4)));
       (AF_INET, SOCK_DGRAM, 0, Some (SaIn (htons 14) (repeat 2 4)))].
Proof.
  apply (ga_serv_clones gai_kernel (Hints 0 AF_UNSPEC 0 0) (str "daytime") (Some (htons 13)) (Some (htons 14))
    two_nodes (World [] 0 false)); try done.
  - intros cs n. split; by eexists.
  - apply Forall_cons_2; [|apply Forall_singleton]; (split; [split; [split; [done|]|done]|done]);
      [by right|by left].
Defined.

(** * From an address to text and back *)

Lemma atoi_digits_val f acc :
  Forall is_digit f → atoi_digits f acc = foldl (λ a c, a * 10 + (c - 48)) acc f.
Proof.
  intros Hf. revert acc. induction Hf as [|c f Hc _ IH]; intros acc; [done|]. simpl.
  rewrite decide_True by exact Hc. apply IH.
Qed.

Lemma fmt_u_digits n : 0 <= n → Forall is_digit (fmt_u n).
Proof.
  intros Hn. apply Forall_map. eapply Forall_impl; [by apply digits_range|].
  intros d Hd. simpl. by apply digit_char_dec.
Qed.

(** [atoi] reads what [%d] prints. *)
Lemma atoi_fmt_u n : 0 <= n → atoi (fmt_u n) = n.
Proof.
  intros Hn. pose proof (fmt_u_digits n Hn) as Hf.
  assert (Hv : foldl (λ a c, a * 10 + (c - 48)) 0 (fmt_u n) = n).
  { unfold fmt_u. rewrite <-(digits_val 10 n) at 2 by lia. unfold base_val.
    assert (Hr : Forall (λ d, 0 <= d < 10) (digits 10 n)) by (apply digits_range; lia).
    generalize 0. induction Hr as [|d ds Hd _ IH]; intros acc; [done|]. simpl. rewrite IH.
    by rewrite (proj2 (digit_char_dec d Hd)). }
  destruct (fmt_u n) as [|c s]; [done|]. inversion Hf as [|? ? Hc Hs]; subst. unfold is_digit in Hc.
  cbn [atoi]. unfold is_space. rewrite bool_decide_eq_false_2, !decide_False by lia.
  by rewrite atoi_digits_val.
Qed.

(** A text that [inet_pton] reads is taken as a numeric host. *)
Lemma numeric_host4 s a : inet_pton4 s = Some a → numeric_host s = Some (AF_INET, a).
Proof.
  intros Hs. assert (H := Hs). apply inet_pton4_text in H as (_ & c & s' & -> & Hc).
  unfold numeric_host. cbn [nth]. rewrite (decide_True _ _ Hc).
  change (inet_pton AF_INET (c :: s')) with (of_pton (inet_pton4 (c :: s'))). by rewrite Hs.
Qed.

Lemma numeric_host6 s a : inet_pton6 s = Some a → numeric_host s = Some (AF_INET6, a).
Proof.
  intros Hs. assert (H := Hs). apply inet_pton6_text in H as (Hcol & c & s' & -> & Hc).
  unfold numeric_host. cbn [nth].
  change (inet_pton AF_INET (c :: s')) with (of_pton (inet_pton4 (c :: s'))).
  destruct (inet_pton4 (c :: s')) as [b|] eqn:H4; [by apply inet_pton4_text in H4 as [? _]|].
  simpl of_pton. replace (if decide (is_digit c) then None else None) with (@None (Z * list Z)) by by case_decide.
  rewrite decide_True by done. by rewrite inet_pton_AF_INET6, Hs.
Qed.

Section numeric.
Context (K : kernel) (HK : allocator_ok K).

(** [ga_aistruct] when there is memory. *)
Lemma ga_aistruct_ok l h addr family w (Q : outcome (list node * Z) → world → Prop) :
  family = AF_INET ∨ family = AF_INET6 →
  (∀ p q w', Q (Val (l ++ [set_addr (new_node p h family) (if decide (family = AF_INET) then 16 else 28) q
      (if decide (family = AF_INET) then SaIn 0 (take 4 addr) else SaIn6 0 (take 16 addr))], 0)) w') →
  wp K (ga_aistruct l h addr family) w Q.
Proof using HK.
  intros Hf HQ. unfold ga_aistruct, calloc. repeat wp_step.
  destruct (HK (w_calls w) 48) as [[p ->] _]. cbn [bind_post]. repeat wp_step. cbn beta iota.
  destruct Hf as [-> | ->]; first [rewrite decide_True by done|rewrite decide_False, decide_True by done]; repeat wp_step;
    match goal with |- context [K ?cs (Ccalloc 1 ?n)] => destruct (HK cs n) as [[q ->] _] end;
    cbn [bind_post]; repeat wp_step; apply HQ.
Qed.

(** A numeric host and a numeric service, with a socket type: one structure, and
    no question to the resolver. *)
Lemma wp_getaddrinfo_numeric host port af a t w (Q : outcome (Z + list node) → world → Prop) :
  numeric_host host = Some (af, a) → host ≠ [] → is_u16 port → t ∈ [SOCK_STREAM; SOCK_DGRAM; SOCK_RAW] →
  (∀ p q w', Q (Val (inr [Node p 0 af t 0 (if decide (af = AF_INET) then 16 else 28) None
     (Some (q, if decide (af = AF_INET) then SaIn port (take 4 a) else SaIn6 port (take 16 a)))])) w') →
  wp K (getaddrinfo (Some host) (Some (fmt_u (ntohs port))) (Some (Hints 0 AF_UNSPEC t 0))) w Q.
Proof using HK.
  intros Hnum Hne Hport Ht HQ.
  assert (Hr : 0 <= ntohs port < 2 ^ 16) by apply ntohs_range.
  assert (Hafs := numeric_host_good _ _ _ Hnum). destruct Hafs as [Haf _].
  pose proof (fmt_u_digits (ntohs port) ltac:(lia)) as Hdig.
  pose proof (atoi_fmt_u (ntohs port) ltac:(lia)) as Hatoi.
  assert (Hts : t ≠ 0) by (unfold SOCK_STREAM, SOCK_DGRAM, SOCK_RAW in Ht; set_solver by lia).
  destruct (fmt_u (ntohs port)) as [|c serv] eqn:Hserv.
  { unfold fmt_u in Hserv. by apply map_eq_nil, digits_ne in Hserv. }
  inversion Hdig as [|? ? Hc _]; subst. destruct host as [|hc host]; [done|].
  rewrite (getaddrinfo_not_unix _ _ _); [|done|].
  2:{ unfold unix_call. unfold is_digit in Hc. destruct (decide (c = 47)); [lia|no_slash c]. }
  change (hints_of _) with (Hints 0 AF_UNSPEC t 0). unfold getaddrinfo_ip.
  change (ga_nsearch (Some (hc :: host)) (Hints 0 AF_UNSPEC t 0)) with
    (mret (M := M) [(hc :: host, AF_INET6); (hc :: host, AF_INET)]).
  wp_step. wp_step. wp_step.
  assert (Hone : ∀ st w1 (Q1 : outcome (found * Z) → world → Prop) family,
    wp K (if decide (family ≠ af) then mret (st, 0)
          else '(l, rc) ← ga_aistruct (aihead st) (Hints 0 AF_UNSPEC t 0) a af; mret (Found l (canon st), rc)) w1 Q1 →
    wp K (search_one (Some (hc :: host)) (Hints 0 AF_UNSPEC t 0) 2 (hc :: host, family) st) w1 Q1).
  { intros st w1 Q1 family HQ1. cbn [search_one]. rewrite Hnum. cbn [hi_family].
    rewrite decide_False by (by intros [? _]). done. }
  set (sa := if decide (af = AF_INET) then SaIn 0 (take 4 a) else SaIn6 0 (take 16 a)).
  set (len := if decide (af = AF_INET) then 16 else 28).
  assert (Hend : ∀ p q w1, wp K (finish (Some (hc :: host)) (Some (c :: serv)) (Hints 0 AF_UNSPEC t 0) (hc :: host)
     (Found [set_addr (new_node p (Hints 0 AF_UNSPEC t 0) af) len q sa] None)) w1
     (λ o w', o = Val ([Node p 0 af t 0 len None (Some (q, set_port port sa))], 0))).
  { intros p q w1.
    change (wp K (ga_serv [set_addr (new_node p (Hints 0 AF_UNSPEC t 0) af) len q sa]
      (Hints 0 AF_UNSPEC t 0) (c :: serv)) w1
      (λ o w', o = Val ([Node p 0 af t 0 len None (Some (q, set_port port sa))], 0))).
    unfold ga_serv. cbn [nth]. wp_step.
    rewrite (decide_True _ _ Hc), decide_True by done. rewrite Hatoi, htons_ntohs by done.
    unfold try_port. wp_step. cbn [ga_port]. unfold set_addr, new_node.
    cbn [n_flags n_socktype hi_socktype]. rewrite (decide_False (P := t = 0)) by done.
    rewrite decide_False by auto. rewrite decide_False by auto.
    unfold fill_port. cbn [n_family]. rewrite decide_True by done. wp_step. wp_step. cbn beta iota. wp_step.
    done. }
  assert (Hlast : ∀ p q w1, wp K (
      '(l, rc) ← finish (Some (hc :: host)) (Some (c :: serv)) (Hints 0 AF_UNSPEC t 0) (hc :: host)
     (Found [set_addr (new_node p (Hints 0 AF_UNSPEC t 0) af) len q sa] None);
      if decide (rc ≠ 0) then bad_ l rc else mret (inr l)) w1 Q).
  { intros p q w1. wp_step. eapply wp_mono; [apply Hend|]. intros o w2 ->. simpl. wp_step.
    specialize (HQ p q w2). unfold len, sa. by destruct Haf as [-> | ->]. }
  cbn [search_all length]. destruct Haf as [Haf|Haf].
  - wp_step. apply Hone. rewrite decide_True by (rewrite Haf; done). wp_step. cbn beta iota.
    rewrite decide_False by auto. wp_step. apply Hone. rewrite decide_False by (rewrite Haf; auto).
    wp_step. apply ga_aistruct_ok; [by left|]. intros p q w1. exact (Hlast p q w1).
  - wp_step. apply Hone. rewrite decide_False by (rewrite Haf; auto). wp_step.
    apply ga_aistruct_ok; [by right|]. intros p q w1. cbn [bind_post]. wp_step. cbn beta iota.
    rewrite decide_False by auto. wp_step. apply Hone. rewrite decide_True by (rewrite Haf; done).
    exact (Hlast p q w1).
Qed.
End numeric.

(** The text of an address, as [getnameinfo] stores it. *)
Lemma numeric_text af a size :
  af = AF_INET ∨ af = AF_INET6 → bytes a → length a = addr_size af → INET6_ADDRSTRLEN <= size →
  ∃ s, inet_ntop af a size = NtopOk (s ++ [0]) ∧ numeric_host s = Some (af, a) ∧ s ≠ [].
Proof.
  intros Haf Ha Hl Hs. unfold INET6_ADDRSTRLEN in Hs. destruct Haf as [-> | ->].
  - destruct (ntop4_round_trip a size Ha Hl) as (s & Hn & Hp & _); [unfold INET_ADDRSTRLEN; lia|].
    exists s. split; [done|]. split; [by apply numeric_host4|]. by intros ->.
  - destruct (ntop6_round_trip a size Ha Hl) as (s & Hn & Hp & _); [unfold INET6_ADDRSTRLEN; lia|].
    exists s. rewrite inet_ntop_AF_INET6. split; [done|]. split; [by apply numeric_host6|]. by intros ->.
Qed.

Lemma gn_numeric K w hostlen servlen a af port s :
  0 < hostlen → 6 <= servlen → is_u16 port → inet_ntop af a hostlen = NtopOk (s ++ [0]) →
  gn_ipv46 hostlen servlen a af port (Z.lor NI_NUMERICHOST NI_NUMERICSERV) K w =
    (Val (Some s, Some (fmt_u (ntohs port)), 0), w).
Proof.
  intros Hh Hs Hp Hn.
  assert (H : wp K (gn_ipv46 hostlen servlen a af port (Z.lor NI_NUMERICHOST NI_NUMERICSERV)) w
    (λ o w', (o, w') = (Val (Some s, Some (fmt_u (ntohs port)), 0), w))).
  { unfold gn_ipv46. wp_step. rewrite decide_True by lia. rewrite decide_True by done. rewrite Hn.
    wp_step. cbn beta iota. rewrite decide_False by auto. rewrite decide_True by lia.
    rewrite decide_True by done. wp_step. rewrite removelast_last.
    destruct (fmt_d_port (ntohs port) (ntohs_range _)) as [-> Hl].
    by rewrite snprintf_trunc_id by lia. }
  unfold wp in H. by rewrite <-H, <-surjective_pairing.
Qed.

(** C21: the numeric host and service that [getnameinfo] prints for an IPv4 or IPv6
    address and port are turned back by [getaddrinfo] into exactly one structure
    with the same address, port and family and the socket type asked for, without
    a question to the resolver or the service database. *)
Theorem getnameinfo_getaddrinfo K sa hostlen servlen t w :
  allocator_ok K → sockaddr_wf sa → sa_family sa ∈ [AF_INET; AF_INET6] →
  INET6_ADDRSTRLEN <= hostlen → 6 <= servlen → t ∈ [SOCK_STREAM; SOCK_DGRAM; SOCK_RAW] →
  ∃ host serv,
    getnameinfo sa hostlen servlen (Z.lor NI_NUMERICHOST NI_NUMERICSERV) K w =
      (Val (Some host, Some serv, 0), w) ∧
    ∃ ai, (getaddrinfo (Some host) (Some serv) (Some (Hints 0 AF_UNSPEC t 0)) K w).1 = Val (inr [ai]) ∧
      n_family ai = sa_family sa ∧ n_socktype ai = t ∧ snd <$> n_addr ai = Some sa.
Proof.
  intros HK Hwf Hfam Hh Hs Ht. rewrite !elem_of_cons, elem_of_nil in Hfam.
  assert (Hgo : ∀ af port a, af = AF_INET ∨ af = AF_INET6 → is_u16 port → bytes a → length a = addr_size af →
    sa = (if decide (af = AF_INET) then SaIn port a else SaIn6 port a) →
    getnameinfo sa hostlen servlen (Z.lor NI_NUMERICHOST NI_NUMERICSERV) =
      gn_ipv46 hostlen servlen a af port (Z.lor NI_NUMERICHOST NI_NUMERICSERV) →
    sa_family sa = af → ∃ host serv,
    getnameinfo sa hostlen servlen (Z.lor NI_NUMERICHOST NI_NUMERICSERV) K w =
      (Val (Some host, Some serv, 0), w) ∧
    ∃ ai, (getaddrinfo (Some host) (Some serv) (Some (Hints 0 AF_UNSPEC t 0)) K w).1 = Val (inr [ai]) ∧
      n_family ai = sa_family sa ∧ n_socktype ai = t ∧ snd <$> n_addr ai = Some sa).
  { intros af port a Haf Hp Ha Hl Hsa Hgn Hsf. destruct (numeric_text af a hostlen Haf Ha Hl Hh) as (s & Hn & Hnum & Hne).
    exists s, (fmt_u (ntohs port)). rewrite Hgn. unfold INET6_ADDRSTRLEN in Hh. split; [by apply gn_numeric; try lia|].
    apply (wp_getaddrinfo_numeric K HK s port af a t w (λ o _, ∃ ai, o = Val (inr [ai]) ∧
      n_family ai = sa_family sa ∧ n_socktype ai = t ∧ snd <$> n_addr ai = Some sa)); [done..|].
    intros p q _. eexists. split; [reflexivity|]. simpl. rewrite Hsf, Hsa.
    split; [done|]. split; [done|]. unfold addr_size in Hl.
    destruct (decide (af = AF_INET)); do 2 f_equal; apply take_ge; lia. }
  destruct sa as [port a|port a|path|f]; simpl in Hfam, Hwf.
  - destruct Hwf as (Hp & Ha & Hl). apply (Hgo AF_INET port a); auto.
  - destruct Hwf as (Hp & Ha & Hl). apply (Hgo AF_INET6 port a); auto.
  - unfold AF_INET, AF_INET6, AF_UNIX in Hfam. lia.
  - unfold AF_INET, AF_INET6 in *. lia.
Qed.

Lemma getnameinfo_getaddrinfo_witness :
  ∃ host serv,
    getnameinfo (SaIn6 (htons 8080) (repeat 0 15 ++ [1])) 46 32 (Z.lor NI_NUMERICHOST NI_NUMERICSERV)
      gai_kernel (World [] 0 false) = (Val (Some host, Some serv, 0), World [] 0 false) ∧
    ∃ ai, (getaddrinfo (Some host) (Some serv) (Some (Hints 0 AF_UNSPEC SOCK_DGRAM 0)) gai_kernel
             (World [] 0 false)).1 = Val (inr [ai]) ∧
      n_family ai = AF_INET6 ∧ n_socktype ai = SOCK_DGRAM ∧
      snd <$> n_addr ai = Some (SaIn6 (htons 8080) (repeat 0 15 ++ [1])).
Proof.
  apply (getnameinfo_getaddrinfo gai_kernel (SaIn6 (htons 8080) (repeat 0 15 ++ [1])) 46 32 SOCK_DGRAM
    (World [] 0 false)); try by_decide.
  intros cs n. split; by eexists.
Defined.

(** * Where memory is lost *)

(** The number of blocks still allocated after a call, if it failed. *)
Definition lost (K : kernel) (hostname servname : option (list Z)) (hintsp : option hints) : option nat :=
  let '(o, w) := getaddrinfo hostname servname hintsp K (World [] 0 false) in
  match o with Val (inl _) => Some (size (heap K (w_calls w))) | _ => None end.

(** [gai_kernel] without [uname]: the two Unix-domain structures are lost when
    [ga_unix] returns [EAI_SYSTEM]. *)
Definition no_uname : kernel := λ cs c,
  match c as c return ans c with Cuname => RErr 1 | c => gai_kernel cs c end.

Lemma ga_unix_leaks :
  lost no_uname (Some (str "/local")) (Some (str "/tmp/s")) (Some (Hints AI_CANONNAME AF_UNSPEC 0 0)) = Some 4%nat.
Proof. vm_compute. reflexivity. Qed.

(** [gai_kernel] with no structures: the canonical name is lost when the first
    [ga_aistruct] fails. *)
Definition no_calloc : kernel := λ cs c,
  match c as c return ans c with Ccalloc _ _ => RErr 12 | c => gai_kernel cs c end.

Lemma canon_leaks :
  lost no_calloc (Some (str "host")) None (Some (Hints AI_CANONNAME AF_UNSPEC 0 0)) = Some 1%nat.
Proof. vm_compute. reflexivity. Qed.
