(* ===== verification/Packet.v ===== *)
(** Packets as the raw-socket programs see them: the structures of
    [<netinet/ip.h>], [<netinet/ip_icmp.h>], [<netinet/ip6.h>],
    [<netinet/icmp6.h>] and [<netinet/udp.h>] at their offsets in a buffer, and
    objects as their bytes on a little-endian host. *)

From S2P Require Import Prelude Net.

(** * Bytes and integers in memory *)

(** A byte of a buffer; the offsets of the programs stay below its size. *)
Definition byte_at (buf : list Z) (i : Z) : Z := nth (Z.to_nat i) buf 0.
Definition bytes_at (buf : list Z) (i n : Z) : list Z := take (Z.to_nat n) (drop (Z.to_nat i) buf).

(** A 16-bit member as the host loads it. *)
Definition u16_at (buf : list Z) (i : Z) : Z := byte_at buf i + 256 * byte_at buf (i + 1).

Definition le_bytes (n : nat) (x : Z) : list Z :=
  map (λ i, (x / 2 ^ (8 * Z.of_nat i)) mod 256) (seq 0 n).
Definition of_le_bytes (l : list Z) : Z := foldr (λ b a, b + 256 * a) 0 l.

(** The bytes stored at an offset of an object. *)
Definition store_at (mem : list Z) (off : nat) (data : list Z) : list Z :=
  take off mem ++ data ++ drop (off + length data) mem.

(** * Headers *)

(** [ip_hl << 2], [ip_p], [ip_src], [ip_dst], [ip_ttl] of the header at [o]. *)
Definition ip_hlen (buf : list Z) (o : Z) : Z := Z.shiftl (Z.land (byte_at buf o) 15) 2.
Definition ip_ttl (buf : list Z) (o : Z) : Z := byte_at buf (o + 8).
Definition ip_p (buf : list Z) (o : Z) : Z := byte_at buf (o + 9).
Definition ip_src (buf : list Z) (o : Z) : list Z := bytes_at buf (o + 12) 4.
Definition ip_dst (buf : list Z) (o : Z) : list Z := bytes_at buf (o + 16) 4.

(** [ip6_nxt], [ip6_src], [ip6_dst]. *)
Definition sizeof_ip6_hdr : Z := 40.
Definition ip6_nxt (buf : list Z) (o : Z) : Z := byte_at buf (o + 6).
Definition ip6_src (buf : list Z) (o : Z) : list Z := bytes_at buf (o + 8) 16.
Definition ip6_dst (buf : list Z) (o : Z) : list Z := bytes_at buf (o + 24) 16.

(** [icmp_type], [icmp_code], and the identifier and sequence number of an echo;
    ICMPv6 has the same offsets. *)
Definition icmp_type (buf : list Z) (o : Z) : Z := byte_at buf o.
Definition icmp_code (buf : list Z) (o : Z) : Z := byte_at buf (o + 1).
Definition icmp_id (buf : list Z) (o : Z) : Z := u16_at buf (o + 4).
Definition icmp_seq (buf : list Z) (o : Z) : Z := u16_at buf (o + 6).

Definition uh_sport (buf : list Z) (o : Z) : Z := u16_at buf o.
Definition uh_dport (buf : list Z) (o : Z) : Z := u16_at buf (o + 2).

Definition ICMP_ECHOREPLY : Z := 0.
Definition ICMP_UNREACH : Z := 3.
Definition ICMP_SOURCEQUENCH : Z := 4.
Definition ICMP_ECHO : Z := 8.
Definition ICMP_TIMXCEED : Z := 11.
Definition ICMP_TIMXCEED_INTRANS : Z := 0.
Definition ICMP_UNREACH_PORT : Z := 3.
Definition ICMP_UNREACH_NEEDFRAG : Z := 4.
Definition ICMP6_DST_UNREACH : Z := 1.
Definition ICMP6_PACKET_TOO_BIG : Z := 2.
Definition ICMP6_TIME_EXCEEDED : Z := 3.
Definition ICMP6_TIME_EXCEED_TRANSIT : Z := 0.
Definition ICMP6_DST_UNREACH_NOPORT : Z := 4.
Definition ICMP6_ECHO_REQUEST : Z := 128.
Definition ICMP6_ECHO_REPLY : Z := 129.

(** * Socket addresses in memory *)

Definition sockaddr_mem (sa : sockaddr) : list Z :=
  match sa with
  | SaIn port addr => le_bytes 2 AF_INET ++ le_bytes 2 port ++ addr ++ repeat 0 8
  | SaIn6 port addr => le_bytes 2 AF_INET6 ++ le_bytes 2 port ++ repeat 0 4 ++ addr ++ repeat 0 4
  | SaUn path => le_bytes 2 AF_UNIX ++ path ++ [0]
  | SaOther f => le_bytes 2 f
  end.

(** The bytes of a string in memory. *)
Definition until_nul (mem : list Z) : list Z :=
  match list_find (λ c, c = 0) mem with Some (i, _) => take i mem | None => mem end.

(** The structure at the start of an object. *)
Definition sockaddr_of_mem (mem : list Z) : sockaddr :=
  let f := u16_at mem 0 in
  if decide (f = AF_INET) then SaIn (u16_at mem 2) (bytes_at mem 4 4)
  else if decide (f = AF_INET6) then SaIn6 (u16_at mem 2) (bytes_at mem 8 16)
  else if decide (f = AF_UNIX) then SaUn (until_nul (drop 2 mem))
  else SaOther f.

(** * Lemmas *)

Lemma ip_hlen_range buf o : 0 <= ip_hlen buf o <= 60.
Proof.
  unfold ip_hlen. change 15 with (Z.ones 4). rewrite Z.land_ones, Z.shiftl_mul_pow2 by lia.
  pose proof (Z.mod_pos_bound (byte_at buf o) (2 ^ 4)). lia.
Qed.

(** A proper IPv4 header: its length is the one it states. *)
Definition ip_header (h : list Z) : Prop :=
  20 <= Z.of_nat (length h) ∧ ip_hlen h 0 = Z.of_nat (length h).

Lemma byte_at_app l1 l2 i : 0 <= i → byte_at (l1 ++ l2) (Z.of_nat (length l1) + i) = byte_at l2 i.
Proof. intros Hi. unfold byte_at. rewrite app_nth2 by lia. f_equal. lia. Qed.

Lemma byte_at_head l1 l2 i : 0 <= i < Z.of_nat (length l1) → byte_at (l1 ++ l2) i = byte_at l1 i.
Proof. intros Hi. unfold byte_at. apply app_nth1. lia. Qed.

Lemma ip_hlen_head h l : ip_header h → ip_hlen (h ++ l) 0 = Z.of_nat (length h).
Proof. intros [Hl Hh]. rewrite <-Hh. unfold ip_hlen. by rewrite byte_at_head by lia. Qed.

Lemma u16_at_app l1 l2 i : 0 <= i → u16_at (l1 ++ l2) (Z.of_nat (length l1) + i) = u16_at l2 i.
Proof. intros Hi. unfold u16_at. rewrite <-Z.add_assoc. by rewrite !byte_at_app by lia. Qed.

Lemma be16_u16 x rest : u16_at (be16 x ++ rest) 0 = swap16 x.
Proof. unfold u16_at, be16, byte_at, swap16. simpl. lia. Qed.

Lemma ip_hlen_at h l o : 0 <= o → ip_hlen (h ++ l) (Z.of_nat (length h) + o) = ip_hlen l o.
Proof. intros Ho. unfold ip_hlen. by rewrite byte_at_app. Qed.

Lemma bytes_at_app l1 l2 i n : 0 <= i → bytes_at (l1 ++ l2) (Z.of_nat (length l1) + i) n = bytes_at l2 i n.
Proof. intros Hi. unfold bytes_at. f_equal. rewrite drop_app_ge by lia. f_equal. lia. Qed.

Lemma length_le_bytes n x : length (le_bytes n x) = n.
Proof. unfold le_bytes. by rewrite length_map, length_seq. Qed.

Lemma bytes_le_bytes n x : bytes (le_bytes n x).
Proof.
  unfold bytes, le_bytes. apply Forall_map, Forall_true. intros i. simpl. unfold is_byte.
  apply Z.mod_pos_bound. lia.
Qed.

(** Storing an integer and loading it. *)
Lemma le_bytes_S n x : le_bytes (S n) x = x mod 256 :: le_bytes n (x / 256).
Proof.
  unfold le_bytes. simpl. f_equal; [by rewrite Z.div_1_r|].
  rewrite <-seq_shift, map_map. apply map_ext. intros i.
  rewrite Z.div_div by lia. do 2 f_equal.
  rewrite Nat2Z.inj_succ, Z.mul_succ_r, Z.add_comm, Z.pow_add_r by lia. done.
Qed.

Lemma of_le_bytes_le_bytes n x : of_le_bytes (le_bytes n x) = x mod 2 ^ (8 * Z.of_nat n).
Proof.
  revert x. induction n as [|n IH]; intros x; [by rewrite Z.mod_1_r|].
  rewrite le_bytes_S. cbn [of_le_bytes foldr]. fold (of_le_bytes (le_bytes n (x / 256))). rewrite IH.
  replace (8 * Z.of_nat (S n)) with (8 + 8 * Z.of_nat n) by lia. rewrite Z.pow_add_r by lia.
  change (2 ^ 8) with 256. rewrite Z.rem_mul_r by lia. lia.
Qed.

Lemma u16_at_le x rest : u16_at (le_bytes 2 x ++ rest) 0 = u16 x.
Proof.
  unfold u16_at, byte_at, le_bytes, u16. simpl. rewrite Z.div_1_r.
  change (2 ^ 16) with (256 * 256). change (2 ^ (8 * Z.of_nat 1)) with 256.
  by rewrite (Z.rem_mul_r x 256 256) by lia.
Qed.

Lemma le_bytes_mod n x y : x mod 2 ^ (8 * Z.of_nat n) = y mod 2 ^ (8 * Z.of_nat n) → le_bytes n x = le_bytes n y.
Proof.
  revert x y. induction n as [|n IH]; intros x y; [done|].
  replace (8 * Z.of_nat (S n)) with (8 + 8 * Z.of_nat n) by lia. rewrite Z.pow_add_r by lia.
  change (2 ^ 8) with 256. intros H. rewrite !le_bytes_S.
  rewrite !Z.rem_mul_r in H by lia.
  pose proof (Z.mod_pos_bound x 256). pose proof (Z.mod_pos_bound y 256).
  assert (x mod 256 = y mod 256 ∧ (x / 256) mod 2 ^ (8 * Z.of_nat n) = (y / 256) mod 2 ^ (8 * Z.of_nat n))
    as [-> H2] by lia.
  f_equal. by apply IH.
Qed.

(** * ICMP errors *)

(** An ICMP error with the start of the datagram it is about. *)
Definition icmp_error (h1 : list Z) (type code : Z) (x6 h2 ports rest : list Z) : list Z :=
  h1 ++ type :: code :: x6 ++ h2 ++ ports ++ rest.

Section icmp_error.
Context (h1 : list Z) (type code : Z) (x6 h2 ports rest : list Z).
Context (H1 : ip_header h1) (H2 : ip_header h2) (Hx : length x6 = 6%nat).
Local Abbreviation buf := (icmp_error h1 type code x6 h2 ports rest).
Local Abbreviation h := (Z.of_nat (length h1)).

Lemma length_icmp_error :
  Z.of_nat (length buf) = h + 8 + Z.of_nat (length h2) + Z.of_nat (length ports) + Z.of_nat (length rest).
Proof using Hx. unfold icmp_error. rewrite length_app. cbn [length]. rewrite !length_app. lia. Qed.

Lemma icmp_error_quoted i : 0 <= i → byte_at buf (h + 8 + i) = byte_at (h2 ++ ports ++ rest) i.
Proof using Hx.
  intros Hi. unfold icmp_error. rewrite <-Z.add_assoc, byte_at_app by lia.
  replace (8 + i) with (Z.of_nat (length (type :: code :: x6)) + i) by (cbn [length]; lia).
  change (type :: code :: x6 ++ h2 ++ ports ++ rest) with ((type :: code :: x6) ++ h2 ++ ports ++ rest).
  by rewrite byte_at_app.
Qed.

Lemma icmp_error_udp i :
  0 <= i → byte_at buf (h + 8 + Z.of_nat (length h2) + i) = byte_at (ports ++ rest) i.
Proof using Hx. intros Hi. rewrite <-Z.add_assoc, icmp_error_quoted by lia. by rewrite byte_at_app. Qed.

Lemma icmp_error_head :
  ip_hlen buf 0 = h ∧ icmp_type buf h = type ∧ icmp_code buf h = code.
Proof using H1 Hx.
  split; [by apply ip_hlen_head|]. split.
  - unfold icmp_type. replace h with (h + 0) by lia. unfold icmp_error. by rewrite byte_at_app.
  - unfold icmp_code, icmp_error. by rewrite byte_at_app.
Qed.

Lemma icmp_error_ip :
  ip_hlen buf (h + 8) = Z.of_nat (length h2) ∧ ip_p buf (h + 8) = byte_at h2 9.
Proof using H2 Hx.
  destruct H2 as [Hl2 Hh2]. split.
  - rewrite <-Hh2. unfold ip_hlen. replace (h + 8) with (h + 8 + 0) by lia.
    by rewrite icmp_error_quoted, byte_at_head by lia.
  - unfold ip_p. by rewrite icmp_error_quoted, byte_at_head by lia.
Qed.

Lemma icmp_error_dst : ip_dst buf (h + 8) = bytes_at h2 16 4.
Proof using H2 Hx.
  destruct H2 as [Hl2 _]. unfold ip_dst, icmp_error. rewrite <-Z.add_assoc, bytes_at_app by lia.
  replace (8 + 16) with (Z.of_nat (length (type :: code :: x6)) + 16) by (cbn [length]; lia).
  change (type :: code :: x6 ++ h2 ++ ports ++ rest) with ((type :: code :: x6) ++ h2 ++ ports ++ rest).
  rewrite bytes_at_app by lia. unfold bytes_at. rewrite drop_app_le by lia.
  apply take_app_le. rewrite length_drop. lia.
Qed.

Lemma icmp_error_src : ip_src buf (h + 8) = bytes_at h2 12 4.
Proof using H2 Hx.
  destruct H2 as [Hl2 _]. unfold ip_src, icmp_error. rewrite <-Z.add_assoc, bytes_at_app by lia.
  replace (8 + 12) with (Z.of_nat (length (type :: code :: x6)) + 12) by (cbn [length]; lia).
  change (type :: code :: x6 ++ h2 ++ ports ++ rest) with ((type :: code :: x6) ++ h2 ++ ports ++ rest).
  rewrite bytes_at_app by lia. unfold bytes_at. rewrite drop_app_le by lia.
  apply take_app_le. rewrite length_drop. lia.
Qed.

Lemma icmp_error_ports sp dp :
  ports = be16 sp ++ be16 dp →
  uh_sport buf (h + 8 + Z.of_nat (length h2)) = swap16 sp ∧
  uh_dport buf (h + 8 + Z.of_nat (length h2)) = swap16 dp.
Proof using Hx.
  intros Hp. pose proof icmp_error_udp as Hu. rewrite Hp in *. set (o := h + 8 + Z.of_nat (length h2)) in *.
  unfold uh_sport, uh_dport, u16_at. split.
  - replace o with (o + 0) at 1 by lia. rewrite !Hu by lia. apply (be16_u16 sp).
  - rewrite <-(Z.add_assoc _ 2 1), !Hu by lia. exact (be16_u16 dp rest).
Qed.
End icmp_error.
