(* ===== verification/Icmpd.v ===== *)
(** [icmpd/]: the daemon that passes ICMP errors on to the UDP sockets of its
    clients, and its client. *)

From S2P Require Import Prelude Net Sys Error InetPton InetNtop Wrap SockAddr Io Connect TcpServ Packet.

(** * icmpd.h and unpicmpd.h *)

Record dclient := DClient { connfd : Z; family : Z; lport : Z }.

(** The globals; [client] has [FD_SETSIZE] entries, [connfd] -1 for a free one. *)
Record icmpd := Icmpd {
  fd4 : Z;
  fd6 : Z;
  listenfd : Z;
  d_maxi : Z;
  d_maxfd : Z;
  d_nready : Z;
  d_allset : gset Z;
  d_client : list dclient
}.

Definition set_nready (s : icmpd) (n : Z) : icmpd :=
  Icmpd (fd4 s) (fd6 s) (listenfd s) (d_maxi s) (d_maxfd s) n (d_allset s) (d_client s).
Definition set_client (s : icmpd) (i : nat) (c : dclient) : icmpd :=
  Icmpd (fd4 s) (fd6 s) (listenfd s) (d_maxi s) (d_maxfd s) (d_nready s) (d_allset s)
    (<[i := c]> (d_client s)).

(** [return(--nready)]: the result is in the state. *)
Definition one_less (s : icmpd) : icmpd := set_nready s (d_nready s - 1).

Definition no_client : dclient := DClient (-1) 0 0.
Definition nth_client (s : icmpd) (i : nat) : dclient := nth i (d_client s) no_client.

Definition ICMPD_PATH : list Z := str "/tmp/icmpd".

(** [struct icmpd_err]: [errno], type, code and the destination; it is written as
    it lies in memory, over what the automatic variable held. *)
Definition sizeof_icmpd_err : Z := 144.
Definition icmpd_err_mem (junk : list Z) (errno type code : Z) (dest : sockaddr) : list Z :=
  let m := store_at junk 4 [type] in
  let m := store_at m 5 [code] in
  let m := store_at m 8 (le_bytes 4 (sa_len dest)) in
  let m := store_at m 16 (sockaddr_mem dest) in
  store_at m 0 (le_bytes 4 errno).

(** * readable_listen.c *)

Definition readable_listen (fuel : nat) (s : icmpd) : M icmpd :=
  '(fd, _) ← Accept fuel (listenfd s);
  match list_find (λ c, connfd c < 0) (d_client s) with
  | None => sys (Cclose fd);; mret (one_less s)
  | Some (i, c) =>
      let s := set_client s i (DClient fd (family c) (lport c)) in
      printf (str "new connection, i = " ++ fmt_d (Z.of_nat i) ++ str ", connfd = " ++ fmt_d fd ++ [ch_nl]);;
      if decide (fd >= FD_SETSIZE) then abort             (* [FD_SET] beyond the set *)
      else
        mret (one_less (Icmpd (fd4 s) (fd6 s) (listenfd s) (Z.max (d_maxi s) (Z.of_nat i))
                (Z.max (d_maxfd s) fd) (d_nready s) ({[fd]} ∪ d_allset s) (d_client s)))
  end.

(** * readable_conn.c *)

(** The labels [clientdone] and [clienterr]. *)
Definition clientdone (i : nat) (unixfd recvfd : Z) (s : icmpd) : M icmpd :=
  Close unixfd;;
  (if decide (recvfd >= 0) then Close recvfd else mret tt);;
  let c := nth_client s i in
  mret (one_less (Icmpd (fd4 s) (fd6 s) (listenfd s) (d_maxi s) (d_maxfd s) (d_nready s)
          (d_allset s ∖ {[unixfd]}) (<[i := DClient (-1) (family c) (lport c)]> (d_client s)))).

Definition clienterr (i : nat) (unixfd recvfd : Z) (s : icmpd) : M icmpd :=
  Write unixfd (str "0");;
  clientdone i unixfd recvfd s.

Definition readable_conn (i : nat) (s : icmpd) : M icmpd :=
  let unixfd := connfd (nth_client s i) in
  '(n, _, r) ← Read_fd unixfd 1;
  let recvfd := default (-1) r in
  if decide (n = 0) then
    err_msg (str "client " ++ fmt_d (Z.of_nat i) ++ str " terminated, recvfd = " ++ fmt_d recvfd);;
    clientdone i unixfd recvfd s
  else if decide (recvfd < 0) then
    err_msg (str "read_fd did not return descriptor");;
    clienterr i unixfd recvfd s
  else
    r ← checked (sys (Cgetsockname recvfd));
    match r with
    | RErr _ => err_ret (str "getsockname error");; clienterr i unixfd recvfd s
    | ROk ss =>
        let p := sock_get_port ss in
        let s := set_client s i (DClient unixfd (sa_family ss) p) in
        '(s, ok) ←
          (if decide (p = 0) then
             p ← sock_bind_wild recvfd (sa_family ss);
             let s := set_client s i (DClient unixfd (sa_family ss) p) in
             if decide (p <= 0) then err_ret (str "error binding ephemeral port");; mret (s, false)
             else mret (s, true)
           else mret (s, true));
        if (ok : bool) then
          (Write unixfd (str "1"));;
          Close recvfd;;
          mret (one_less s)
        else clienterr i unixfd recvfd s
    end.

(** * readable_v4.c and readable_v6.c *)

(** The [for (i = 0; i <= maxi; i++)] loop: the clients whose socket has the
    family and port, in the order of the array. *)
Definition to_clients (s : icmpd) (af sport : Z) (err : list Z) : M unit :=
  for_each (take (Z.to_nat (d_maxi s + 1)) (d_client s)) (λ c _,
    if decide (connfd c >= 0 ∧ family c = af ∧ lport c = sport) then Write (connfd c) err else mret tt) tt.

Definition errno_v4 (type code : Z) : Z :=
  if decide (type = ICMP_UNREACH) then
    if decide (code = ICMP_UNREACH_PORT) then ECONNREFUSED
    else if decide (code = ICMP_UNREACH_NEEDFRAG) then EMSGSIZE
    else EHOSTUNREACH
  else EHOSTUNREACH.

(** [buf0] and [junk] are what the automatic variables hold at entry. *)
Definition readable_v4 (buf0 junk : list Z) (s : icmpd) : M icmpd :=
  '(data, from) ← Recvfrom (fd4 s) MAXLINE;
  let n := Z.of_nat (length data) in
  let buf := overwrite buf0 data in
  h ← Sock_ntop_host from (sa_len from);
  printf (fmt_d n ++ str " bytes ICMPv4 from " ++ h ++ str ":");;
  let hlen1 := ip_hlen buf 0 in
  let icmplen := n - hlen1 in
  if decide (icmplen < 8) then err_quit (str "icmplen (" ++ fmt_d icmplen ++ str ") < 8")
  else
    let type := icmp_type buf hlen1 in
    let code := icmp_code buf hlen1 in
    printf (str " type = " ++ fmt_d type ++ str ", code = " ++ fmt_d code ++ [ch_nl]);;
    (if decide (type = ICMP_UNREACH ∨ type = ICMP_TIMXCEED ∨ type = ICMP_SOURCEQUENCH) then
       if decide (icmplen < 8 + 20 + 8) then
         err_quit (str "icmplen (" ++ fmt_d icmplen ++ str ") < 8 + 20 + 8")
       else
         let hip := hlen1 + 8 in
         let hlen2 := ip_hlen buf hip in
         src ← Inet_ntop AF_INET (ip_src buf hip) (Some tt) INET_ADDRSTRLEN;
         dst ← Inet_ntop AF_INET (ip_dst buf hip) (Some tt) INET_ADDRSTRLEN;
         printf (9 :: str "srcip = " ++ removelast src ++ str ", dstip = " ++ removelast dst
                   ++ str ", proto = " ++ fmt_d (ip_p buf hip) ++ [ch_nl]);;
         if decide (ip_p buf hip = IPPROTO_UDP) then
           let udp := hip + hlen2 in
           let dest := SaIn (uh_dport buf udp) (ip_dst buf hip) in
           to_clients s AF_INET (uh_sport buf udp)
             (icmpd_err_mem junk (errno_v4 type code) type code dest)
         else mret tt
     else mret tt);;
    mret (one_less s).

Definition errno_v6 (type code : Z) : Z :=
  if decide (type = ICMP6_PACKET_TOO_BIG) then EMSGSIZE
  else if decide (type = ICMP6_DST_UNREACH ∧ code = ICMP6_DST_UNREACH_NOPORT) then ECONNREFUSED
  else EHOSTUNREACH.

Definition readable_v6 (buf0 junk : list Z) (s : icmpd) : M icmpd :=
  '(data, from) ← Recvfrom (fd6 s) MAXLINE;
  let icmp6len := Z.of_nat (length data) in
  let buf := overwrite buf0 data in
  h ← Sock_ntop_host from (sa_len from);
  printf (fmt_d icmp6len ++ str " bytes ICMPv6 from " ++ h ++ str ":");;
  if decide (icmp6len < 8) then err_quit (str "icmp6len (" ++ fmt_d icmp6len ++ str ") < 8")
  else
    let type := icmp_type buf 0 in
    let code := icmp_code buf 0 in
    printf (str " type = " ++ fmt_d type ++ str ", code = " ++ fmt_d code ++ [ch_nl]);;
    (if decide (type = ICMP6_DST_UNREACH ∨ type = ICMP6_PACKET_TOO_BIG ∨ type = ICMP6_TIME_EXCEEDED) then
       if decide (icmp6len < 8 + 8) then
         err_quit (str "icmp6len (" ++ fmt_d icmp6len ++ str ") < 8 + 8")
       else
         let hip6 := 8 in
         let hlen2 := sizeof_ip6_hdr in
         src ← Inet_ntop AF_INET6 (ip6_src buf hip6) (Some tt) INET6_ADDRSTRLEN;
         dst ← Inet_ntop AF_INET6 (ip6_dst buf hip6) (Some tt) INET6_ADDRSTRLEN;
         printf (9 :: str "srcip = " ++ removelast src ++ str ", dstip = " ++ removelast dst
                   ++ str ", next hdr = " ++ fmt_d (ip6_nxt buf hip6) ++ [ch_nl]);;
         if decide (ip6_nxt buf hip6 = IPPROTO_UDP) then
           let udp := hip6 + hlen2 in
           let dest := SaIn6 (uh_dport buf udp) (ip6_dst buf hip6) in
           to_clients s AF_INET6 (uh_sport buf udp)
             (icmpd_err_mem junk (errno_v6 type code) type code dest)
         else mret tt
     else mret tt);;
    mret (one_less s).

(** * icmpd.c *)

(** [if (FD_ISSET(fd, &rset)) if (readable() <= 0) continue;], with the rest of
    the round. *)
Definition if_readable (fd : Z) (rset : gset Z) (readable : icmpd → M icmpd)
    (rest : icmpd → M icmpd) (s : icmpd) : M icmpd :=
  if decide (fd ∈ rset) then
    s ← readable s;
    if decide (d_nready s <= 0) then mret s else rest s
  else rest s.

Fixpoint icmpd_conns (idx : list nat) (rset : gset Z) (s : icmpd) : M icmpd :=
  match idx with
  | [] => mret s
  | i :: idx' =>
      let sockfd := connfd (nth_client s i) in
      if decide (sockfd < 0) then icmpd_conns idx' rset s
      else if decide (sockfd ∈ rset) then
        s ← readable_conn i s;
        if decide (d_nready s <= 0) then mret s else icmpd_conns idx' rset s
      else icmpd_conns idx' rset s
  end.

Definition icmpd_round (fuel : nat) (buf4 junk4 buf6 junk6 : list Z) (s : icmpd) : M (icmpd + unit) :=
  '(nready, rset, _) ← Select (d_maxfd s + 1) (d_allset s) ∅ None;
  s ← if_readable (listenfd s) rset (readable_listen fuel)
        (if_readable (fd4 s) rset (readable_v4 buf4 junk4)
           (if_readable (fd6 s) rset (readable_v6 buf6 junk6)
              (λ s, icmpd_conns (seq 0 (Z.to_nat (d_maxi s + 1))) rset s)))
        (set_nready s nready);
  mret (inl s).

Definition icmpd_init (fd4 fd6 listenfd : Z) : icmpd :=
  Icmpd fd4 fd6 listenfd (-1) (Z.max (Z.max fd4 fd6) listenfd) 0 {[fd4; fd6; listenfd]}
    (repeat no_client (Z.to_nat FD_SETSIZE)).

Definition icmpd_main (fuel : nat) (buf4 junk4 buf6 junk6 : list Z) (argv : list (list Z)) : M unit :=
  if decide (length argv ≠ 1%nat) then err_quit (str "usage: icmpd")
  else
    fd4 ← Socket AF_INET SOCK_RAW IPPROTO_ICMP;
    fd6 ← Socket AF_INET6 SOCK_RAW IPPROTO_ICMPV6;
    listenfd ← Socket AF_UNIX SOCK_STREAM 0;
    checked (sys (Cunlink ICMPD_PATH));;
    Bind listenfd (SaUn ICMPD_PATH);;
    Listen listenfd LISTENQ;;
    iter fuel (icmpd_round fuel buf4 junk4 buf6 junk6) (icmpd_init fd4 fd6 listenfd);;
    exit 0.

(** * dgcli01.c and udpcli01.c *)

Definition icmpd_printed (err : list Z) : M unit :=
  let dest := sockaddr_of_mem (drop 16 err) in
  d ← Sock_ntop dest (of_le_bytes (bytes_at err 8 4));
  e ← sys (Cstrerror (s32 (of_le_bytes (bytes_at err 0 4))));
  let char c := if decide (c < 128) then c else c - 256 in
  printf (str "ICMP error: dest = " ++ d ++ str ", " ++ e ++ str ", type = "
            ++ fmt_d (char (byte_at err 4)) ++ str ", code = " ++ fmt_d (char (byte_at err 5)) ++ [ch_nl]).

(** [recvline0] is what the buffer holds at entry. *)
Definition icmpd_dg_cli (fuel : nat) (recvline0 : list Z) (sockfd : Z) (servaddr : sockaddr) : M unit :=
  Sock_bind_wild sockfd (sa_family servaddr);;
  icmpfd ← Socket AF_LOCAL SOCK_STREAM 0;
  Connect icmpfd (SaUn ICMPD_PATH);;
  Write_fd icmpfd (str "1") sockfd;;
  data ← Read icmpfd 1;
  let recvline := overwrite recvline0 data in
  let n := Z.of_nat (length data) in
  (if decide (n ≠ 1 ∨ byte_at recvline 0 ≠ 49) then
     err_quit (str "error creating icmp socket, n = " ++ fmt_d n ++ str ", char = " ++ [byte_at recvline 0])
   else mret tt);;
  let maxfdp1 := Z.max sockfd icmpfd + 1 in
  iter fuel (λ _ : unit,
    sendline ← Fgets MAXLINE;
    match sendline with
    | None => mret (inr tt)
    | Some sendline =>
        Sendto sockfd (c_str sendline) servaddr;;
        '(n, rset, _) ← Select maxfdp1 {[sockfd; icmpfd]} ∅ (Some (5, 0));
        if decide (n = 0) then
          sys (Cfputs 2 (str "socket timeout" ++ [ch_nl]));; mret (inl tt)
        else
          (if decide (sockfd ∈ rset) then
             '(data, _) ← Recvfrom sockfd MAXLINE;
             Fputs (c_str data) stdout
           else mret tt);;
          (if decide (icmpfd ∈ rset) then
             err ← Read icmpfd sizeof_icmpd_err;
             let n := Z.of_nat (length err) in
             if decide (n = 0) then err_quit (str "ICMP daemon terminated")
             else if decide (n ≠ sizeof_icmpd_err) then
               err_quit (str "n = " ++ fmt_d n ++ str ", expected " ++ fmt_d sizeof_icmpd_err)
             else icmpd_printed err
           else mret tt);;
          mret (inl tt)
    end) tt.

Definition icmpd_udpcli01 (fuel : nat) (recvline0 : list Z) (argv : list (list Z)) : M unit :=
  if decide (length argv ≠ 3%nat) then err_quit (str "usage: udpcli01 <hostname> <service>")
  else
    '(sockfd, sa, _) ← Udp_client (Some (nth 1 argv [])) (Some (nth 2 argv []));
    icmpd_dg_cli fuel recvline0 sockfd sa;;
    exit 0.
