(* ===== verification/IcmpdSpec.v ===== *)
(** Properties of [Icmpd]: what the daemon passes on and to whom, and what it
    keeps true between its rounds. *)

From S2P Require Import Prelude Net Sys Error InetPton InetNtop Wrap SockAddr Io IoSpec Connect ConnectSpec TcpServ TcpServSpec Packet Icmpd.
From Stdlib Require Import Sorted.

(** * [struct icmpd_err] *)

Definition dest_ok (sa : sockaddr) : Prop :=
  match sa with
  | SaIn port addr => is_u16 port ∧ length addr = 4%nat
  | SaIn6 port addr => is_u16 port ∧ length addr = 16%nat
  | _ => False
  end.

Lemma u16_small x : is_u16 x → u16 x = x.
Proof. intros Hx. apply Z.mod_small. exact Hx. Qed.

Lemma u16_at_2 l x rest : length l = 2%nat → u16_at (l ++ le_bytes 2 x ++ rest) 2 = u16 x.
Proof.
  intros Hl. replace 2 with (Z.of_nat (length l) + 0) by lia. rewrite u16_at_app by lia. apply u16_at_le.
Qed.

Lemma bytes_at_mid l a rest i n :
  Z.of_nat (length l) = i → Z.of_nat (length a) = n → bytes_at (l ++ a ++ rest) i n = a.
Proof.
  intros <- <-. replace (Z.of_nat (length l)) with (Z.of_nat (length l) + 0) by lia.
  rewrite bytes_at_app by lia. unfold bytes_at. change (Z.to_nat 0) with 0%nat.
  rewrite drop_0, Nat2Z.id. by apply take_app_length'.
Qed.

(** A socket address in memory is the address. *)
Lemma sockaddr_of_mem_mem sa rest : dest_ok sa → sockaddr_of_mem (sockaddr_mem sa ++ rest) = sa.
Proof.
  destruct sa as [port addr|port addr| |]; cbn [sockaddr_mem dest_ok]; try done; intros [Hp Ha]; unfold sockaddr_of_mem;
    rewrite <-!app_assoc; rewrite u16_at_le; [rewrite decide_True by done|].
  - rewrite u16_at_2 by apply length_le_bytes. rewrite u16_small by done. f_equal.
    rewrite (app_assoc (le_bytes 2 AF_INET)). apply bytes_at_mid; [|lia].
    by rewrite length_app, !length_le_bytes.
  - rewrite decide_False, decide_True by done.
    rewrite u16_at_2 by apply length_le_bytes. rewrite u16_small by done. f_equal.
    rewrite (app_assoc (le_bytes 2 AF_INET6)), (app_assoc _ (repeat 0 4)). apply bytes_at_mid; [|lia].
    by rewrite !length_app, !length_le_bytes, repeat_length.
Qed.

Lemma length_sockaddr_mem sa : dest_ok sa → Z.of_nat (length (sockaddr_mem sa)) = sa_len sa.
Proof.
  destruct sa; cbn [sockaddr_mem dest_ok sa_len]; try done; intros [_ Ha]; rewrite !length_app, !length_le_bytes; cbn [length];
    rewrite ?length_app, ?Ha; done.
Qed.

(** The bytes of the structure, and what they leave of the variable. *)
Lemma icmpd_err_bytes junk errno type code dest :
  Z.of_nat (length junk) = sizeof_icmpd_err → dest_ok dest →
  ∃ p1 p2 rest, length p1 = 2%nat ∧ length p2 = 4%nat ∧
    icmpd_err_mem junk errno type code dest =
      le_bytes 4 errno ++ [type; code] ++ p1 ++ le_bytes 4 (sa_len dest) ++ p2 ++ sockaddr_mem dest ++ rest ∧
    Z.of_nat (length (icmpd_err_mem junk errno type code dest)) = sizeof_icmpd_err.
Proof.
  intros Hj Hd. unfold sizeof_icmpd_err in *.
  assert (Hsa : (length (sockaddr_mem dest) <= 28)%nat).
  { pose proof (length_sockaddr_mem dest Hd). destruct dest; cbn [sa_len dest_ok] in *; try done; lia. }
  assert (∃ j1 j2, junk = j1 ++ j2 ∧ length j1 = 16%nat) as (j1 & j2 & -> & H1).
  { exists (take 16 junk), (drop 16 junk). rewrite take_drop, length_take. split; [done|lia]. }
  rewrite length_app, H1 in Hj.
  do 16 (destruct j1 as [|? j1]; [done|]). destruct j1; [|done]. clear H1.
  set (el := le_bytes 4 errno) in *. assert (He : length el = 4%nat) by apply length_le_bytes.
  set (ll := le_bytes 4 (sa_len dest)) in *. assert (Hl : length ll = 4%nat) by apply length_le_bytes.
  unfold icmpd_err_mem. fold el ll.
  do 4 (destruct el as [|? el]; [done|]). destruct el; [|done].
  do 4 (destruct ll as [|? ll]; [done|]). destruct ll; [|done].
  set (sa := sockaddr_mem dest) in *.
  match goal with |- context [([?a0; ?a1; ?a2; ?a3; ?a4; ?a5; ?a6; ?a7; ?a8; ?a9; ?a10; ?a11; ?a12; ?a13; ?a14; ?a15] ++ j2)] =>
    exists [a6; a7], [a12; a13; a14; a15], (drop (length sa) j2) end.
  split; [done|]. split; [done|].
  match goal with |- ?m = ?m' ∧ _ => assert (Hm : m = m') by reflexivity end.
  split; [exact Hm|]. rewrite Hm, !length_app, length_drop. cbn [length]. lia.
Qed.

(** C24: the daemon's message is what its client reads: the client prints the
    destination, the error number, the type and the code that the daemon stored,
    whatever was in the rest of the variable. *)
Theorem icmpd_err_round_trip junk errno type code dest :
  Z.of_nat (length junk) = sizeof_icmpd_err → dest_ok dest →
  0 <= errno < 2 ^ 31 → 0 <= type < 128 → 0 <= code < 128 →
  let err := icmpd_err_mem junk errno type code dest in
  Z.of_nat (length err) = sizeof_icmpd_err ∧
  icmpd_printed err =
    (d ← Sock_ntop dest (sa_len dest);
     e ← sys (Cstrerror errno);
     printf (str "ICMP error: dest = " ++ d ++ str ", " ++ e ++ str ", type = "
               ++ fmt_d type ++ str ", code = " ++ fmt_d code ++ [ch_nl])).
Proof.
  intros Hj Hd He Ht Hc err.
  destruct (icmpd_err_bytes junk errno type code dest Hj Hd) as (p1 & p2 & rest & H1 & H2 & Herr & Hlen).
  split; [exact Hlen|]. fold err in Herr, Hlen.
  set (el := le_bytes 4 errno) in *. assert (Hel : length el = 4%nat) by apply length_le_bytes.
  set (ll := le_bytes 4 (sa_len dest)) in *. assert (Hll : length ll = 4%nat) by apply length_le_bytes.
  assert (Hdest : sockaddr_of_mem (drop 16 err) = dest).
  { rewrite Herr. replace (el ++ _) with ((el ++ [type; code] ++ p1 ++ ll ++ p2) ++ sockaddr_mem dest ++ rest)
      by by rewrite <-!app_assoc.
    rewrite drop_app_length'; [by apply sockaddr_of_mem_mem|]. rewrite !length_app, Hel, Hll, H1, H2. done. }
  assert (Hsa : of_le_bytes (bytes_at err 8 4) = sa_len dest).
  { assert (bytes_at err 8 4 = ll) as ->.
    { rewrite Herr. replace (el ++ _) with ((el ++ [type; code] ++ p1) ++ ll ++ p2 ++ sockaddr_mem dest ++ rest)
        by by rewrite <-!app_assoc.
      apply bytes_at_mid; [rewrite !length_app, Hel, H1|rewrite Hll]; done. }
    unfold ll. rewrite of_le_bytes_le_bytes. by destruct dest. }
  assert (Hno : s32 (of_le_bytes (bytes_at err 0 4)) = errno).
  { assert (bytes_at err 0 4 = el) as ->.
    { rewrite Herr. apply (bytes_at_mid []); [done|by rewrite Hel]. }
    unfold el. rewrite of_le_bytes_le_bytes. change (2 ^ (8 * Z.of_nat 4)) with (2 ^ 32). unfold s32.
    Z.div_mod_to_equations. lia. }
  assert (Hb : byte_at err 4 = type ∧ byte_at err 5 = code).
  { rewrite Herr. replace 4 with (Z.of_nat (length el) + 0) by lia. replace 5 with (Z.of_nat (length el) + 1) by lia.
    by rewrite !byte_at_app by lia. }
  destruct Hb as [Hb1 Hb2]. unfold icmpd_printed. rewrite Hdest, Hsa, Hno, Hb1, Hb2.
  by rewrite !decide_True by lia.
Qed.

(** * Delivery *)

(** The writes of a history, the first one first. *)
Fixpoint writes (cs : list call) : list (Z * list Z) :=
  match cs with
  | [] => []
  | Cwrite fd d :: cs' => writes cs' ++ [(fd, d)]
  | _ :: cs' => writes cs'
  end.

Definition nowrite_call (c : call) : Prop := match c with Cwrite _ _ => False | _ => True end.

Lemma report_nowrite c : report_call c → nowrite_call c.
Proof. by destruct c. Qed.

Lemma writes_nowrite cs cs' : Forall nowrite_call cs → writes (cs ++ cs') = writes cs'.
Proof. induction 1 as [|c cs Hc _ IH]; [done|]. by destruct c. Qed.

(** The connections of the clients with a socket of this family and port. *)
Definition targets (s : icmpd) (af sport : Z) : list Z :=
  map connfd (filter (λ c, connfd c >= 0 ∧ family c = af ∧ lport c = sport)
    (take (Z.to_nat (d_maxi s + 1)) (d_client s))).

Section deliver.
Context (K : kernel).

Lemma wp_nowrite {A} (m : M A) w (Q : outcome A → world → Prop) :
  emits nowrite_call m → (∀ o w', writes (w_calls w') = writes (w_calls w) → Q o w') → wp K m w Q.
Proof.
  intros Hm HQ. apply (wp_emits K nowrite_call); [done|]. intros o cs w' Hcs Hw. apply HQ.
  rewrite Hw. by apply writes_nowrite.
Qed.

Lemma wp_Write fd d w (Q : outcome unit → world → Prop) :
  (∀ o w', writes (w_calls w') = writes (w_calls w) ++ [(fd, d)] → Q o w') → wp K (Write fd d) w Q.
Proof.
  intros HQ. unfold Write, all_or_err_sys. repeat wp_step.
  assert (Herr : ∀ w2, writes (w_calls w2) = writes (w_calls w) ++ [(fd, d)] →
    wp K (err_sys (str "write error")) w2 Q).
  { intros w2 Hw2. apply wp_err_sys. intros cs Hcs. apply HQ. cbn [w_calls].
    rewrite writes_nowrite, Hw2; [done|]. eapply Forall_impl; [exact Hcs|apply report_nowrite]. }
  destruct (K (w_calls w) (Cwrite fd d)) as [n|e]; cbn [bind_post]; repeat wp_step; [|by apply Herr].
  wp_if; [by apply Herr|]. wp_step. by apply HQ.
Qed.

(** The error goes to those clients, in the order of the table. *)
Lemma wp_to_clients s af sport err w (Q : outcome unit → world → Prop) :
  (∀ o w' l, l `prefix_of` map (λ fd, (fd, err)) (targets s af sport) →
     writes (w_calls w') = writes (w_calls w) ++ l →
     (o = Val tt → l = map (λ fd, (fd, err)) (targets s af sport)) → Q o w') →
  wp K (to_clients s af sport err) w Q.
Proof.
  intros HQ. unfold to_clients, targets in *.
  set (P := λ c, connfd c >= 0 ∧ family c = af ∧ lport c = sport) in *.
  set (cl := take _ _) in *.
  apply (wp_for_each K (λ rest _ w', ∃ dn, cl = dn ++ rest ∧
    writes (w_calls w') = writes (w_calls w) ++ map (λ fd, (fd, err)) (map connfd (filter P dn)))).
  - exists []. by rewrite app_nil_r.
  - intros c rest _ w1 (dn & Hcl & Hw).
    assert (Hnext : cl = (dn ++ [c]) ++ rest) by (by rewrite <-app_assoc).
    destruct (decide (connfd c >= 0 ∧ family c = af ∧ lport c = sport)) as [Hc|Hc].
    + apply wp_Write. intros o w2 Hw2.
      assert (Hw3 : writes (w_calls w2) = writes (w_calls w) ++
        map (λ fd, (fd, err)) (map connfd (filter P (dn ++ [c])))).
      { rewrite filter_app, (filter_cons_True P) by done. simpl.
        by rewrite Hw2, Hw, !map_app, <-app_assoc. }
      destruct o as [[]|x| |]; cbn [bind_post]; [by eexists|..];
        (eapply HQ; [|exact Hw3|done]; rewrite Hnext, (filter_app P (dn ++ [c])), !map_app;
         by apply prefix_app_r).
    + wp_step. exists (dn ++ [c]). split; [done|].
      by rewrite filter_app, (filter_cons_False P), filter_nil, app_nil_r by done.
  - intros [] w1 (dn & Hcl & Hw). rewrite app_nil_r in Hcl. subst dn. by eapply HQ.
Qed.

Lemma emits_nowrite_host sa n : emits nowrite_call (Sock_ntop_host sa n).
Proof. apply emits_or_err_sys; [apply report_nowrite|apply emits_ret]. Qed.

Lemma emits_nowrite_printf text : emits nowrite_call (printf text).
Proof. unfold printf, void. emits_tac. done. Qed.

Lemma emits_nowrite_Inet_ntop af addr p len : emits nowrite_call (Inet_ntop af addr p len).
Proof. unfold Inet_ntop. emits_tac; (apply emits_err_sys || apply emits_err_quit); apply report_nowrite. Qed.

(** What a run that passes on [err] leaves. *)
Definition delivered (s : icmpd) (af sport : Z) (err : list Z) (B : list (Z * list Z))
    (o : outcome icmpd) (w' : world) : Prop :=
  ∃ l, writes (w_calls w') = B ++ l ∧ l `prefix_of` map (λ fd, (fd, err)) (targets s af sport) ∧
    (∀ s', o = Val s' → l = map (λ fd, (fd, err)) (targets s af sport) ∧ s' = one_less s).

(** A step that writes nothing, before. *)
Lemma wp_before {A} (m : M A) (f : A → M icmpd) s af sport err B w :
  emits nowrite_call m → writes (w_calls w) = B →
  (∀ a w', writes (w_calls w') = B → wp K (f a) w' (delivered s af sport err B)) →
  wp K (m ≫= f) w (delivered s af sport err B).
Proof.
  intros Hm HB Hf. wp_step. apply wp_nowrite; [done|]. intros o w' Hw. rewrite HB in Hw.
  destruct o; cbn [bind_post]; [by apply Hf|..];
    (exists []; rewrite app_nil_r; split; [done|]; split; [apply prefix_nil|done]).
Qed.

Lemma wp_pass_on s af sport err B w :
  writes (w_calls w) = B →
  wp K (to_clients s af sport err;; mret (one_less s)) w (delivered s af sport err B).
Proof.
  intros HB. wp_step. apply wp_to_clients. intros o w' l Hl Hw Ho. rewrite HB in Hw.
  destruct o as [[]|c| |]; cbn [bind_post]; [wp_step|..]; exists l;
    (split; [done|]; split; [done|]); [|done..].
  intros s' [= <-]. split; [by apply Ho|done].
Qed.
End deliver.

Lemma icmp_error_overwrite mem h1 type code x6 h2 ports rest :
  ∃ rest', overwrite mem (icmp_error h1 type code x6 h2 ports rest) = icmp_error h1 type code x6 h2 ports rest'.
Proof.
  unfold overwrite. set (n := length _). exists (rest ++ drop n mem). unfold icmp_error.
  rewrite <-app_assoc. simpl. by rewrite <-!app_assoc.
Qed.

Lemma wp_readable_v4 (K : kernel) s w buf0 junk h1 type code x6 h2 sp dp rest from :
  ip_header h1 → ip_header h2 → length x6 = 6%nat → (4 <= length rest)%nat →
  type = ICMP_UNREACH ∨ type = ICMP_TIMXCEED ∨ type = ICMP_SOURCEQUENCH →
  byte_at h2 9 = IPPROTO_UDP →
  K (w_calls w) (Crecvfrom (fd4 s) MAXLINE) =
    ROk (icmp_error h1 type code x6 h2 (be16 sp ++ be16 dp) rest, from) →
  wp K (readable_v4 buf0 junk s) w
    (delivered s AF_INET (swap16 sp)
       (icmpd_err_mem junk (errno_v4 type code) type code (SaIn (swap16 dp) (bytes_at h2 16 4)))
       (writes (w_calls w))).
Proof.
  intros H1 H2 Hx Hrest Htype Hudp HK. set (err := icmpd_err_mem _ _ _ _ _).
  unfold readable_v4. wp_step. unfold Recvfrom. apply wp_or_err_sys. wp_step. rewrite HK.
  cbn [bind_post]. set (B := writes (w_calls w)). set (w1 := World _ _ _).
  assert (HB : writes (w_calls w1) = B) by done. clearbody w1.
  rewrite (length_icmp_error h1 type code x6 h2 (be16 sp ++ be16 dp) rest Hx).
  destruct (icmp_error_overwrite buf0 h1 type code x6 h2 (be16 sp ++ be16 dp) rest) as [rest' ->].
  destruct (icmp_error_head h1 type code x6 h2 (be16 sp ++ be16 dp) rest' H1 Hx) as (-> & -> & ->).
  destruct (icmp_error_ip h1 type code x6 h2 (be16 sp ++ be16 dp) rest' H2 Hx) as (-> & ->).
  destruct (icmp_error_ports h1 type code x6 h2 (be16 sp ++ be16 dp) rest' Hx sp dp eq_refl) as (-> & ->).
  rewrite (icmp_error_dst h1 type code x6 h2 (be16 sp ++ be16 dp) rest' H2 Hx).
  destruct H1 as [Hl1 _]. destruct H2 as [Hl2 _]. cbn [length be16 app]. fold err.
  apply wp_before; [apply emits_nowrite_host|done|intros h w2 HB2].
  apply wp_before; [apply emits_nowrite_printf|done|intros ? w3 HB3].
  rewrite (decide_False (P := _ < 8)) by lia.
  apply wp_before; [apply emits_nowrite_printf|done|intros ? w4 HB4].
  rewrite (decide_True (P := _ ∨ _)) by done. rewrite (decide_False (P := _ < 8 + 20 + 8)) by lia.
  rewrite Hudp. rewrite (decide_True (P := IPPROTO_UDP = _)) by done.
  apply wp_assoc, wp_before; [apply emits_nowrite_Inet_ntop|done|intros src w5 HB5].
  apply wp_assoc, wp_before; [apply emits_nowrite_Inet_ntop|done|intros dst w6 HB6].
  apply wp_assoc, wp_before; [apply emits_nowrite_printf|done|intros ? w7 HB7].
  by apply wp_pass_on.
Qed.

(** ** A daemon whose writes succeed goes on *)

Definition whole_writes (K : kernel) : Prop :=
  ∀ cs fd d, K cs (Cwrite fd d) = ROk (Z.of_nat (length d)).
Definition returns {A} (o : outcome A) (w : world) : Prop := ∃ a, o = Val a.

Lemma wp_returns_bind {A B} (K : kernel) (m : M A) (f : A → M B) w :
  wp K m w returns → (∀ a w', wp K (f a) w' returns) → wp K (m ≫= f) w returns.
Proof.
  intros Hm Hf. wp_step. eapply wp_mono; [exact Hm|]. intros o w' [a ->]. apply Hf.
Qed.

Lemma wp_returns_printf (K : kernel) text w : wp K (printf text) w returns.
Proof. unfold printf, void. repeat wp_step. by exists tt. Qed.

Lemma wp_returns_to_clients (K : kernel) s af sport err w :
  whole_writes K → wp K (to_clients s af sport err) w returns.
Proof.
  intros HK. unfold to_clients. apply (wp_for_each K (λ _ _ _, True)); [done| |].
  - intros c l [] w1 _. wp_if; [|by wp_step]. unfold Write, all_or_err_sys. repeat wp_step.
    rewrite HK. cbn [bind_post]. rewrite decide_False by tauto. by wp_step.
  - intros [] w1 _. by exists tt.
Qed.

Lemma wp_returns_Inet_ntop (K : kernel) a w :
  bytes a → length a = 4%nat → wp K (Inet_ntop AF_INET a (Some tt) INET_ADDRSTRLEN) w returns.
Proof.
  intros Hb Hl. unfold Inet_ntop.
  change (inet_ntop AF_INET a INET_ADDRSTRLEN) with (inet_ntop4 a 16).
  unfold inet_ntop4. pose proof (quad_length a Hb Hl). rewrite decide_False by lia.
  wp_step. by eexists.
Qed.

Lemma wp_returns_host (K : kernel) port a n w :
  bytes a → length a = 4%nat → wp K (Sock_ntop_host (SaIn port a) n) w returns.
Proof.
  intros Hb Hl. unfold Sock_ntop_host, sock_ntop_host. apply wp_or_err_sys.
  destruct (sock_ntop4 a Hb Hl) as (t & -> & _). wp_step. cbn [bind_post]. by eexists.
Qed.

(** Four bytes of a header. *)
Lemma bytes_at_header h i :
  bytes h → 0 <= i → i + 4 <= Z.of_nat (length h) → bytes (bytes_at h i 4) ∧ length (bytes_at h i 4) = 4%nat.
Proof.
  intros Hb Hi Hl. unfold bytes_at. split; [by apply Forall_take, Forall_drop|].
  rewrite length_take, length_drop. lia.
Qed.

(** ** The slots of the table that match *)

Lemma filter_slots {A} (P : A → Prop) `{∀ x, Decision (P x)} (l : list A) (k : nat) :
  ∃ slots : list (nat * A), StronglySorted lt (slots.*1) ∧
    (∀ i x, (i, x) ∈ slots ↔ (k <= i)%nat ∧ l !! (i - k)%nat = Some x ∧ P x) ∧
    filter P l = slots.*2.
Proof.
  revert k. induction l as [|y l IH]; intros k.
  { exists []. split; [constructor|]. split; [|done]. intros i x. rewrite elem_of_nil. naive_solver. }
  destruct (IH (S k)) as (slots & Hs & Hin & Hf).
  assert (Hat : ∀ i x, (S k <= i)%nat ∧ l !! (i - S k)%nat = Some x ∧ P x ↔
                  (k <= i)%nat ∧ i ≠ k ∧ (y :: l) !! (i - k)%nat = Some x ∧ P x).
  { intros i x. destruct (decide (S k <= i)%nat) as [Hi|Hi]; [|split; intros; lia].
    replace (i - k)%nat with (S (i - S k)) by lia. simpl. split; intros (?&?); split_and!; naive_solver lia. }
  assert (Hk : ∀ x, (y :: l) !! (k - k)%nat = Some x ↔ y = x).
  { intros x. rewrite Nat.sub_diag. simpl. naive_solver. }
  destruct (decide (P y)) as [Hy|Hy].
  - exists ((k, y) :: slots). split; [|split].
    + simpl. constructor; [done|]. apply Forall_fmap, Forall_forall. intros [i x] Hix. simpl.
      apply Hin in Hix. lia.
    + intros i x. rewrite elem_of_cons, Hin, Hat. destruct (decide (i = k)) as [->|Hne]; [|naive_solver].
      rewrite Hk. naive_solver.
    + rewrite filter_cons_True by done. simpl. by rewrite Hf.
  - exists slots. split; [done|]. split; [|by rewrite filter_cons_False].
    intros i x. rewrite Hin, Hat. destruct (decide (i = k)) as [->|Hne]; [|naive_solver].
    rewrite Hk. naive_solver.
Qed.

(** Slot [i] is in use, within [maxi], and records this family and port. *)
Definition slot_for (s : icmpd) (af port : Z) (i : nat) (fd : Z) : Prop :=
  Z.of_nat i <= d_maxi s ∧ 0 <= fd ∧ d_client s !! i = Some (DClient fd af port).

Lemma targets_slots s af port :
  ∃ slots : list (nat * Z), StronglySorted lt (slots.*1) ∧
    (∀ i fd, (i, fd) ∈ slots ↔ slot_for s af port i fd) ∧ targets s af port = slots.*2.
Proof.
  unfold targets. set (P := λ c, connfd c >= 0 ∧ family c = af ∧ lport c = port).
  destruct (filter_slots P (take (Z.to_nat (d_maxi s + 1)) (d_client s)) 0) as (slots & Hs & Hin & Hf).
  exists (prod_map id connfd <$> slots). split; [|split].
  - rewrite <-list_fmap_compose. erewrite list_fmap_ext; [exact Hs|done].
  - intros i fd. rewrite list_elem_of_fmap. unfold slot_for. split.
    + intros ([j [f af' p]] & [= -> ->] & Hj). apply Hin in Hj as (_ & Hj & HP). unfold P in HP. simpl in *.
      rewrite Nat.sub_0_r in Hj. apply lookup_take_Some in Hj as [Hj ?]. destruct HP as (? & -> & ->).
      split; [lia|]. split; [lia|done].
    + intros (Hi & Hfd & Hc). exists (i, DClient fd af port). split; [done|]. apply Hin.
      split; [lia|]. rewrite Nat.sub_0_r, lookup_take_lt by lia. split; [done|]. unfold P. simpl. lia.
  - rewrite Hf, <-!list_fmap_compose. done.
Qed.

(** ** The contents of the message *)

(** The error number that a client is told, by the type and code. *)
Inductive icmp_errno : Z → Z → Z → Prop :=
  | ie_port : icmp_errno ICMP_UNREACH ICMP_UNREACH_PORT ECONNREFUSED
  | ie_frag : icmp_errno ICMP_UNREACH ICMP_UNREACH_NEEDFRAG EMSGSIZE
  | ie_other type code :
      (type, code) ≠ (ICMP_UNREACH, ICMP_UNREACH_PORT) →
      (type, code) ≠ (ICMP_UNREACH, ICMP_UNREACH_NEEDFRAG) →
      icmp_errno type code EHOSTUNREACH.

Lemma errno_v4_spec type code : icmp_errno type code (errno_v4 type code).
Proof. unfold errno_v4. repeat case_decide; subst; constructor; congruence. Qed.

(** The bytes of the [struct icmpd_err] of an IPv4 destination: [p1], [p2] and
    [rest] are padding and the unused part of the address. *)
Definition err_message (e type code dport : Z) (dst err : list Z) : Prop :=
  ∃ p1 p2 rest, length p1 = 2%nat ∧ length p2 = 4%nat ∧ length err = 144%nat ∧
    err = le_bytes 4 e ++ [type; code] ++ p1 ++ [16; 0; 0; 0] ++ p2 ++
          [2; 0] ++ be16 dport ++ dst ++ repeat 0 8 ++ rest.

Lemma err_message_mem junk e type code dp dst :
  Z.of_nat (length junk) = sizeof_icmpd_err → length dst = 4%nat →
  err_message e type code dp dst (icmpd_err_mem junk e type code (SaIn (swap16 dp) dst)).
Proof.
  intros Hj Hd.
  destruct (icmpd_err_bytes junk e type code (SaIn (swap16 dp) dst)) as (p1 & p2 & rest & H1 & H2 & H & Hl);
    [done|split; [apply swap16_range|done]|].
  exists p1, p2, rest. unfold sizeof_icmpd_err in Hl. do 3 (split; [done || lia|]). rewrite H at 1.
  cbn [sa_len sockaddr_mem]. change (le_bytes 4 16) with [16; 0; 0; 0].
  change (le_bytes 2 AF_INET) with [2; 0]. rewrite <-!app_assoc.
  assert (Hp : le_bytes 2 (swap16 dp) = be16 dp); [|by rewrite Hp].
  rewrite le_bytes_S, le_bytes_S. unfold be16, swap16. change (le_bytes 0 _) with (@nil Z).
  f_equal; [|f_equal]; Z.div_mod_to_equations; lia.
Qed.

Lemma wp_readable_v4_returns (K : kernel) s w buf0 junk h1 type code x6 h2 sp dp rest port a :
  ip_header h1 → ip_header h2 → length x6 = 6%nat → (4 <= length rest)%nat →
  K (w_calls w) (Crecvfrom (fd4 s) MAXLINE) =
    ROk (icmp_error h1 type code x6 h2 (be16 sp ++ be16 dp) rest, SaIn port a) →
  bytes h2 → bytes a → length a = 4%nat → whole_writes K →
  wp K (readable_v4 buf0 junk s) w returns.
Proof.
  intros H1 H2 Hx Hrest HK Hb Ha Hla HW.
  unfold readable_v4. wp_step. unfold Recvfrom. apply wp_or_err_sys. wp_step. rewrite HK. cbn [bind_post].
  rewrite (length_icmp_error h1 type code x6 h2 (be16 sp ++ be16 dp) rest Hx).
  destruct (icmp_error_overwrite buf0 h1 type code x6 h2 (be16 sp ++ be16 dp) rest) as [rest' ->].
  destruct (icmp_error_head h1 type code x6 h2 (be16 sp ++ be16 dp) rest' H1 Hx) as (-> & -> & ->).
  destruct (icmp_error_ip h1 type code x6 h2 (be16 sp ++ be16 dp) rest' H2 Hx) as (-> & ->).
  rewrite (icmp_error_dst h1 type code x6 h2 (be16 sp ++ be16 dp) rest' H2 Hx).
  rewrite (icmp_error_src h1 type code x6 h2 (be16 sp ++ be16 dp) rest' H2 Hx).
  destruct H1 as [Hl1 _]. destruct H2 as [Hl2 _].
  destruct (bytes_at_header h2 12 Hb) as [Hs1 Hs2]; [lia|lia|].
  destruct (bytes_at_header h2 16 Hb) as [Hd1 Hd2]; [lia|lia|]. cbn [length be16 app].
  apply wp_returns_bind; [by apply wp_returns_host|intros h w2].
  apply wp_returns_bind; [apply wp_returns_printf|intros _ w3].
  rewrite (decide_False (P := _ < 8)) by lia.
  apply wp_returns_bind; [apply wp_returns_printf|intros _ w4].
  apply wp_returns_bind; [|intros _ w5; wp_step; by eexists].
  wp_if; [|wp_step; by exists tt]. rewrite (decide_False (P := _ < 8 + 20 + 8)) by lia.
  apply wp_returns_bind; [by apply wp_returns_Inet_ntop|intros src w5].
  apply wp_returns_bind; [by apply wp_returns_Inet_ntop|intros dst w6].
  apply wp_returns_bind; [apply wp_returns_printf|intros _ w7].
  wp_if; [by apply wp_returns_to_clients|wp_step; by exists tt].
Qed.

(** * The table of clients *)

(** Calls that neither accept nor close a connection. *)
Definition keeps_call (c : call) : Prop := match c with Caccept _ | Cclose _ => False | _ => True end.

Lemma report_keeps_conn c : report_call c → keeps_call c.
Proof. by destruct c. Qed.

Lemma accepted_keeps (K : kernel) cs cs' : Forall keeps_call cs → accepted K (cs ++ cs') = accepted K cs'.
Proof. induction 1 as [|c cs Hc _ IH]; [done|]. rewrite <-IH. by destruct c. Qed.

(** What a program can return. *)
Definition gives {A} (m : M A) (P : A → Prop) : Prop := ∀ K w a w', m K w = (Val a, w') → P a.

Lemma gives_ret {A} (a : A) (P : A → Prop) : P a → gives (mret a) P.
Proof. by intros HP K w b w' [= <- _]. Qed.
Lemma gives_bind {A B} (m : M A) (f : A → M B) (P : B → Prop) : (∀ a, gives (f a) P) → gives (m ≫= f) P.
Proof.
  intros Hf K w b w'. unfold mbind, M_bind. destruct (m K w) as [[a|c| |] w1]; try done. apply Hf.
Qed.
Lemma gives_err_quit {A} msg (P : A → Prop) : gives (err_quit msg) P.
Proof.
  intros K w. assert (H : wp K (err_quit (A := A) msg) w (λ o _, o = Exit 1)) by (by apply wp_err_quit).
  unfold wp in H. intros a w' Heq. by rewrite Heq in H.
Qed.

(** The packets change nothing but the count. *)
Lemma readable_v4_gives buf0 junk s : gives (readable_v4 buf0 junk s) (λ s', s' = one_less s).
Proof.
  unfold readable_v4. apply gives_bind. intros [data from]. cbn zeta.
  apply gives_bind; intros h. apply gives_bind; intros _.
  destruct (decide _); [apply gives_err_quit|].
  apply gives_bind; intros _. apply gives_bind; intros _. by apply gives_ret.
Qed.

Lemma readable_v6_gives buf0 junk s : gives (readable_v6 buf0 junk s) (λ s', s' = one_less s).
Proof.
  unfold readable_v6. apply gives_bind. intros [data from]. cbn zeta.
  apply gives_bind; intros h. apply gives_bind; intros _.
  destruct (decide _); [apply gives_err_quit|].
  apply gives_bind; intros _. apply gives_bind; intros _. by apply gives_ret.
Qed.

Ltac keeps_tac :=
  emits_tac; repeat first
    [ done
    | apply emits_or_err_sys; [apply report_keeps_conn|]
    | apply emits_err_sys; apply report_keeps_conn
    | apply emits_err_quit; apply report_keeps_conn
    | apply emits_err_ret; apply report_keeps_conn
    | apply emits_err_msg; apply report_keeps_conn
    | emits_step ].

Lemma emits_keeps_Write fd d : emits keeps_call (Write fd d).
Proof. unfold Write, all_or_err_sys. by keeps_tac. Qed.
Lemma emits_keeps_printf text : emits keeps_call (printf text).
Proof. unfold printf, void. by keeps_tac. Qed.
Lemma emits_keeps_host sa n : emits keeps_call (Sock_ntop_host sa n).
Proof. unfold Sock_ntop_host. by keeps_tac. Qed.
Lemma emits_keeps_Inet_ntop af addr p len : emits keeps_call (Inet_ntop af addr p len).
Proof. unfold Inet_ntop. by keeps_tac. Qed.

Lemma emits_readable_v4 buf0 junk s : emits keeps_call (readable_v4 buf0 junk s).
Proof.
  unfold readable_v4, Recvfrom, to_clients. keeps_tac;
    first [apply emits_keeps_host|apply emits_keeps_printf|apply emits_keeps_Inet_ntop|apply emits_keeps_Write].
Qed.

Lemma emits_readable_v6 buf0 junk s : emits keeps_call (readable_v6 buf0 junk s).
Proof.
  unfold readable_v6, Recvfrom, to_clients. keeps_tac;
    first [apply emits_keeps_host|apply emits_keeps_printf|apply emits_keeps_Inet_ntop|apply emits_keeps_Write].
Qed.

(** The descriptors that the daemon is given are not among its connections. *)
Class KernelIcmpd (K : kernel) (own : gset Z) : Prop := {
  ki_accept cs fd n sa :
    K cs (Caccept fd) = ROk (n, sa) → 0 <= n ∧ (n ∉ own) ∧ (n ∉ accepted K cs);
  ki_pass cs fd n d cm : K cs (Crecvmsg fd n) = ROk (d, Some cm) → cmsg_fd cm ∉ accepted K cs
}.

Definition own_fds (s : icmpd) : gset Z := {[fd4 s; fd6 s; listenfd s]}.

Section inv.
Context (K : kernel) (own : gset Z) `{!KernelIcmpd K own}.

(** Between the rounds: the table holds exactly the connections accepted and not
    closed, each once and not beyond [d_maxi]; the descriptors selected are those
    and the daemon's own, none above [d_maxfd]. *)
Record icmpd_inv (s : icmpd) (w : world) : Prop := {
  ii_own : own_fds s = own;
  ii_table : table_ok (map connfd (d_client s)) (accepted K (w_calls w));
  ii_apart : own ## accepted K (w_calls w);
  ii_maxi i c : d_client s !! i = Some c → 0 <= connfd c → Z.of_nat i <= d_maxi s;
  ii_set : d_allset s = own ∪ accepted K (w_calls w);
  ii_maxfd fd : fd ∈ d_allset s → fd <= d_maxfd s
}.

Lemma icmpd_inv_nready s n w : icmpd_inv (set_nready s n) w ↔ icmpd_inv s w.
Proof. by split; intros []; split. Qed.

Lemma icmpd_inv_ext s w w' :
  accepted K (w_calls w') = accepted K (w_calls w) → icmpd_inv s w → icmpd_inv s w'.
Proof. intros Ha []. split; rewrite ?Ha; done. Qed.

Definition keeps_inv (o : outcome icmpd) (w' : world) : Prop :=
  match o with Val s' => icmpd_inv s' w' | _ => True end.

Lemma wp_keeps {A} (m : M A) w (Q : outcome A → world → Prop) :
  emits keeps_call m → (∀ o w', accepted K (w_calls w') = accepted K (w_calls w) → Q o w') → wp K m w Q.
Proof.
  intros Hm HQ. apply (wp_emits K keeps_call); [done|]. intros o cs w' Hcs Hw. apply HQ.
  rewrite Hw. by apply accepted_keeps.
Qed.

Lemma wp_readable_packet (m : M icmpd) s w :
  emits keeps_call m → gives m (λ s', s' = one_less s) → icmpd_inv s w → wp K m w keeps_inv.
Proof.
  intros Hm Hg Hinv. unfold wp. pose proof (Hg K w) as Hg'.
  assert (Ha : accepted K (w_calls (m K w).2) = accepted K (w_calls w)).
  { destruct (Hm K w) as (cs & -> & Hcs). by apply accepted_keeps. }
  destruct (m K w) as [[s'|c| |] w']; simpl; try done. rewrite (Hg' s' w' eq_refl).
  apply icmpd_inv_nready. by eapply icmpd_inv_ext.
Qed.

(** Changing the socket of a client. *)
Lemma icmpd_inv_client s w i c c' :
  icmpd_inv s w → d_client s !! i = Some c → connfd c' = connfd c → icmpd_inv (set_client s i c') w.
Proof.
  intros [Ho Ht Ha Hmi Hs Hm] Hi Hc. pose proof (lookup_lt_Some _ _ _ Hi) as Hlt.
  assert (Hmap : map connfd (<[i := c']> (d_client s)) = map connfd (d_client s)).
  { change (connfd <$> <[i := c']> (d_client s) = connfd <$> d_client s).
    rewrite list_fmap_insert, Hc. apply list_insert_id. by rewrite list_lookup_fmap, Hi. }
  split; cbn [set_client d_client d_maxi d_allset d_maxfd]; rewrite ?Hmap; try done.
  intros j y Hj Hy. destruct (decide (j = i)) as [->|Hne].
  - rewrite list_lookup_insert_eq in Hj by done. injection Hj as <-. rewrite Hc in Hy. by eapply Hmi.
  - rewrite list_lookup_insert_ne in Hj by done. by eapply Hmi.
Qed.

(** A new connection in a free slot. *)
Lemma icmpd_inv_add s w w' i c c' fd n :
  icmpd_inv s w → list_find (λ c, connfd c < 0) (d_client s) = Some (i, c) →
  0 <= fd → fd ∉ own → fd ∉ accepted K (w_calls w) → connfd c' = fd →
  accepted K (w_calls w') = {[fd]} ∪ accepted K (w_calls w) →
  icmpd_inv (Icmpd (fd4 s) (fd6 s) (listenfd s) (Z.max (d_maxi s) (Z.of_nat i)) (Z.max (d_maxfd s) fd)
    n ({[fd]} ∪ d_allset s) (<[i := c']> (d_client s))) w'.
Proof.
  intros [Ho Ht Ha Hmi Hs Hm] Hf Hfd Hno Hna Hc Hw'.
  assert (Hff : find_free (map connfd (d_client s)) = Some i).
  { unfold find_free. change (map connfd (d_client s)) with (connfd <$> d_client s).
    rewrite list_find_fmap. change (list_find ((λ fd, fd < 0) ∘ connfd) (d_client s)) with
      (list_find (λ c, connfd c < 0) (d_client s)). by rewrite Hf. }
  apply list_find_Some in Hf as (Hi & _ & _). pose proof (lookup_lt_Some _ _ _ Hi) as Hlt.
  split; cbn [d_client d_maxi d_allset d_maxfd]; rewrite ?Hw'.
  - done.
  - change (table_ok (connfd <$> <[i := c']> (d_client s)) ({[fd]} ∪ accepted K (w_calls w))).
    rewrite list_fmap_insert, Hc. by apply table_add.
  - set_solver.
  - intros j y Hj Hy. destruct (decide (j = i)) as [->|Hne]; [lia|].
    rewrite list_lookup_insert_ne in Hj by done. specialize (Hmi _ _ Hj Hy). lia.
  - rewrite Hs. set_solver.
  - intros y. rewrite elem_of_union, elem_of_singleton. intros [->|Hy]; [lia|]. specialize (Hm _ Hy). lia.
Qed.

(** The connection of slot [i] gone. *)
Lemma icmpd_inv_del s w w' i c n f p :
  icmpd_inv s w → d_client s !! i = Some c → 0 <= connfd c →
  accepted K (w_calls w') = accepted K (w_calls w) ∖ {[connfd c]} →
  icmpd_inv (Icmpd (fd4 s) (fd6 s) (listenfd s) (d_maxi s) (d_maxfd s) n
    (d_allset s ∖ {[connfd c]}) (<[i := DClient (-1) f p]> (d_client s))) w'.
Proof.
  intros [Ho Ht Ha Hmi Hs Hm] Hi Hc Hw'. pose proof (lookup_lt_Some _ _ _ Hi) as Hlt.
  assert (Hin : connfd c ∈ accepted K (w_calls w)).
  { apply (table_in _ _ Ht). split; [done|]. exists i.
    change (map connfd (d_client s)) with (connfd <$> d_client s). by rewrite list_lookup_fmap, Hi. }
  split; cbn [d_client d_maxi d_allset d_maxfd]; rewrite ?Hw'.
  - done.
  - change (table_ok (connfd <$> <[i := DClient (-1) f p]> (d_client s)) (accepted K (w_calls w) ∖ {[connfd c]})).
    rewrite list_fmap_insert. apply (table_del _ (accepted K (w_calls w))); [done| |done].
    change (map connfd (d_client s)) with (connfd <$> d_client s). by rewrite list_lookup_fmap, Hi.
  - set_solver.
  - intros j y Hj Hy. destruct (decide (j = i)) as [->|Hne].
    + rewrite list_lookup_insert_eq in Hj by done. injection Hj as <-. simpl in Hy. lia.
    + rewrite list_lookup_insert_ne in Hj by done. by eapply Hmi.
  - rewrite Hs. set_solver.
  - intros y Hy. apply Hm. set_solver.
Qed.

Lemma wp_readable_listen fuel s w :
  icmpd_inv s w → wp K (readable_listen fuel s) w keeps_inv.
Proof using Type*.
  intros Hinv. unfold readable_listen. wp_step. apply wp_Accept; [|done|done].
  intros k n sa w' Hcs HK Hq. cbn [bind_post].
  destruct (ki_accept _ _ _ _ HK) as (Hn0 & Hno & Hna). rewrite attempts_quiet in Hna by done.
  assert (Hacc : accepted K (w_calls w') = {[n]} ∪ accepted K (w_calls w)).
  { rewrite Hcs. change (attempts (listenfd s) (S k) (w_calls w)) with
      (Caccept (listenfd s) :: attempts (listenfd s) k (w_calls w)).
    rewrite (accepted_accept K _ _ n sa), attempts_quiet by done. done. }
  destruct (list_find _ (d_client s)) as [[i c]|] eqn:Hf.
  - wp_step. apply (wp_keeps (printf _)); [apply emits_keeps_printf|]. intros o w2 Hw2.
    destruct o as [[]|x| |]; cbn [bind_post]; [|done..].
    wp_if; [by wp_step|]. wp_step. unfold one_less, set_nready, keeps_inv.
    cbn [fd4 fd6 listenfd d_maxi d_maxfd d_nready d_allset d_client set_client].
    apply (icmpd_inv_add s w w2 i c); [done..|]. by rewrite Hw2.
  - wp_step. wp_step. cbn [bind_post]. wp_step. apply icmpd_inv_nready.
    apply (icmpd_inv_ext s w); [|done]. cbn [w_calls accepted].
    change (accepted K (w_calls w') ∖ {[n]} = accepted K (w_calls w)). rewrite Hacc. set_solver.
Qed.

(** The end of a connection: the descriptors it leaves are closed. *)
Lemma wp_clientdone i c recvfd s w :
  icmpd_inv s w → d_client s !! i = Some c → 0 <= connfd c → recvfd ∉ accepted K (w_calls w) →
  wp K (clientdone i (connfd c) recvfd s) w keeps_inv.
Proof using Type*.
  intros Hinv Hi Hc Hr. unfold clientdone, Close. wp_step. apply wp_or_err_sys. wp_step.
  destruct (K (w_calls w) (Cclose (connfd c))) as [[]|e]; [|done]. cbn [bind_post].
  set (w1 := World _ _ _).
  assert (H1 : accepted K (w_calls w1) = accepted K (w_calls w) ∖ {[connfd c]}) by done. clearbody w1.
  assert (Hend : ∀ w2, accepted K (w_calls w2) = accepted K (w_calls w) ∖ {[connfd c]} →
    keeps_inv (Val (one_less (Icmpd (fd4 s) (fd6 s) (listenfd s) (d_maxi s) (d_maxfd s) (d_nready s)
      (d_allset s ∖ {[connfd c]})
      (<[i := DClient (-1) (family (nth_client s i)) (lport (nth_client s i))]> (d_client s))))) w2).
  { intros w2 Hw2. by apply (icmpd_inv_del s w). }
  wp_step. wp_if.
  - apply wp_or_err_sys. wp_step. destruct (K (w_calls w1) (Cclose recvfd)) as [[]|e]; [|done].
    cbn [bind_post]. wp_step. apply Hend.
    change (accepted K (w_calls w1) ∖ {[recvfd]} = accepted K (w_calls w) ∖ {[connfd c]}).
    rewrite H1. set_solver.
  - wp_step. cbn [bind_post]. wp_step. by apply Hend.
Qed.

Lemma wp_clienterr i c recvfd s w :
  icmpd_inv s w → d_client s !! i = Some c → 0 <= connfd c → recvfd ∉ accepted K (w_calls w) →
  wp K (clienterr i (connfd c) recvfd s) w keeps_inv.
Proof using Type*.
  intros Hinv Hi Hc Hr. unfold clienterr. wp_step. apply wp_keeps; [apply emits_keeps_Write|].
  intros o w' Hw'. destruct o as [[]|x| |]; cbn [bind_post]; [|done..].
  apply wp_clientdone; [by eapply icmpd_inv_ext|done..|]. by rewrite Hw'.
Qed.

Lemma icmpd_inv_minus s w : icmpd_inv s w → -1 ∉ accepted K (w_calls w).
Proof. intros [_ Ht _ _ _ _] Hin. apply (table_in _ _ Ht) in Hin. lia. Qed.

(** The descriptor that [Read_fd] passes, if any, is not a connection. *)
Lemma wp_icmpd_Read_fd fd nbytes w (Q : outcome (Z * list Z * option Z) → world → Prop) :
  -1 ∉ accepted K (w_calls w) →
  (∀ n d r w', accepted K (w_calls w') = accepted K (w_calls w) →
     default (-1) r ∉ accepted K (w_calls w) → Q (Val (n, d, r)) w') →
  (∀ o w', (∀ x, o ≠ Val x) → Q o w') →
  wp K (Read_fd fd nbytes) w Q.
Proof using Type*.
  intros Hm HQ Hex. unfold Read_fd, read_fd.
  assert (Hfin : ∀ n d r w', accepted K (w_calls w') = accepted K (w_calls w) →
    default (-1) r ∉ accepted K (w_calls w) →
    bind_post (λ '(n, data, recvfd) w', wp K (if decide (n < 0) then err_sys (str "read_fd error")
       else mret (n, data, recvfd)) w' Q) Q (Val (n, d, r)) w').
  { intros n d r w' Hw' Hr. cbn [bind_post]. wp_if; [|wp_step; by apply HQ].
    apply wp_err_sys. intros. by apply Hex. }
  wp_step. repeat wp_step.
  destruct (K (w_calls w) (Crecvmsg fd nbytes)) as [[d cm]|e] eqn:HK; cbn [bind_post];
    [|repeat wp_step; by apply Hfin].
  wp_if; [wp_step; by apply Hfin|]. wp_step.
  destruct cm as [cm|]; [|wp_step; cbn [bind_post]; wp_step; by apply Hfin].
  wp_if; [|wp_step; cbn [bind_post]; wp_step; by apply Hfin].
  wp_if; [apply wp_err_quit; intros; by apply Hex|].
  wp_if; [apply wp_err_quit; intros; by apply Hex|].
  wp_step. cbn [bind_post]. wp_step. apply Hfin; [done|]. by apply (ki_pass _ _ _ _ _ HK).
Qed.

Lemma emits_keeps_bind_wild fd f : emits keeps_call (sock_bind_wild fd f).
Proof. unfold sock_bind_wild. by keeps_tac. Qed.

Lemma wp_readable_conn i s w :
  icmpd_inv s w → 0 <= connfd (nth_client s i) → wp K (readable_conn i s) w keeps_inv.
Proof using Type*.
  intros Hinv Hc. unfold readable_conn.
  assert (Hi : d_client s !! i = Some (nth_client s i)).
  { unfold nth_client in *. rewrite nth_lookup in Hc |- *.
    destruct (d_client s !! i); simpl in *; [done|lia]. }
  set (c := nth_client s i) in *. wp_step.
  apply wp_icmpd_Read_fd; [by eapply icmpd_inv_minus| |intros o w' Ho; destruct o as [x|x| |]; [by destruct (Ho x)|done..]].
  intros n d r w1 H1 Hr. cbn [bind_post]. cbn zeta. set (recvfd := default (-1) r) in *.
  assert (Hi1 : icmpd_inv s w1) by (by eapply icmpd_inv_ext). rewrite <-H1 in Hr. clear H1 Hinv w.
  assert (Hq : ∀ A (m : M A) (f : A → M icmpd) s2 w2, emits keeps_call m → icmpd_inv s2 w2 →
    recvfd ∉ accepted K (w_calls w2) →
    (∀ a w3, icmpd_inv s2 w3 → recvfd ∉ accepted K (w_calls w3) → wp K (f a) w3 keeps_inv) →
    wp K (m ≫= f) w2 keeps_inv).
  { intros A m f s2 w2 Hm H2 Hr2 Hf. wp_step. apply wp_keeps; [done|]. intros o w3 H3.
    destruct o; cbn [bind_post]; [|done..]. apply Hf; [by eapply icmpd_inv_ext|by rewrite H3]. }
  wp_if.
  { apply (Hq _ _ _ s); [by keeps_tac|done..|]. intros _ w3 H3 Hr3. by apply wp_clientdone. }
  wp_if.
  { apply (Hq _ _ _ s); [by keeps_tac|done..|]. intros _ w3 H3 Hr3. by apply wp_clienterr. }
  apply (Hq _ _ _ s); [by keeps_tac|done..|]. intros [ss|e] w3 H3 Hr3.
  2:{ apply (Hq _ _ _ s); [by keeps_tac|done..|]. intros _ w4 H4 Hr4. by apply wp_clienterr. }
  assert (Hset : ∀ s2 c2 w4, icmpd_inv s2 w4 → d_client s2 !! i = Some c2 → connfd c2 = connfd c →
    ∀ f p, icmpd_inv (set_client s2 i (DClient (connfd c) f p)) w4 ∧
      d_client (set_client s2 i (DClient (connfd c) f p)) !! i = Some (DClient (connfd c) f p)).
  { intros s2 c2 w4 H4 Hi2 Hc2 f p. split; [by apply (icmpd_inv_client s2 w4 i c2)|].
    apply list_lookup_insert_eq. by eapply lookup_lt_Some. }
  assert (Hok : ∀ s2 w4, icmpd_inv s2 w4 → recvfd ∉ accepted K (w_calls w4) →
    wp K (Write (connfd c) (str "1");; Close recvfd;; mret (one_less s2)) w4 keeps_inv).
  { intros s2 w4 H4 Hr4. apply (Hq _ _ _ s2); [apply emits_keeps_Write|done..|]. intros _ w5 H5 Hr5.
    wp_step. unfold Close. apply wp_or_err_sys. wp_step.
    destruct (K (w_calls w5) (Cclose recvfd)) as [[]|e]; [|done]. cbn [bind_post]. wp_step.
    apply icmpd_inv_nready. apply (icmpd_inv_ext s2 w5); [|done].
    change (accepted K (w_calls w5) ∖ {[recvfd]} = accepted K (w_calls w5)). set_solver. }
  cbn zeta. destruct (Hset s c w3 H3 Hi eq_refl (sa_family ss) (sock_get_port ss)) as [Hs3 Hi3].
  set (s3 := set_client s i _) in *. set (c3 := DClient _ _ _) in Hi3.
  wp_step. wp_if; [|wp_step; cbn [bind_post]; by apply Hok].
  wp_step. apply wp_keeps; [apply emits_keeps_bind_wild|]. intros o w4 H4.
  destruct o as [p|x| |]; cbn [bind_post]; [|done..]. cbn zeta.
  assert (H34 : icmpd_inv s3 w4) by (by eapply icmpd_inv_ext). rewrite <-H4 in Hr3.
  destruct (Hset s3 c3 w4 H34 Hi3 eq_refl (sa_family ss) p) as [Hs4 Hi4].
  set (s4 := set_client s3 i _) in *.
  wp_if; [|wp_step; cbn [bind_post]; by apply Hok].
  wp_step. apply wp_keeps; [by keeps_tac|]. intros o w5 H5.
  destruct o as [[]|x| |]; cbn [bind_post]; [|done..]. wp_step. cbn [bind_post].
  rewrite <-H5 in Hr3. apply (wp_clienterr i (DClient (connfd c) (sa_family ss) p) recvfd s4);
    [by eapply icmpd_inv_ext|done..].
Qed.

Lemma wp_icmpd_conns idx rset s w :
  icmpd_inv s w → wp K (icmpd_conns idx rset s) w keeps_inv.
Proof using Type*.
  revert s w. induction idx as [|i idx IH]; intros s w Hinv; cbn [icmpd_conns]; [by wp_step|].
  cbn zeta. wp_if; [by apply IH|]. wp_if; [|by apply IH].
  wp_step. eapply wp_mono; [apply wp_readable_conn; [done|lia]|].
  intros [s'|c| |] w'; cbn [bind_post keeps_inv]; try done. intros H'. wp_if; [by wp_step|by apply IH].
Qed.

Lemma wp_if_readable fd rset readable rest s w :
  icmpd_inv s w → (∀ s w, icmpd_inv s w → wp K (readable s) w keeps_inv) →
  (∀ s w, icmpd_inv s w → wp K (rest s) w keeps_inv) →
  wp K (if_readable fd rset readable rest s) w keeps_inv.
Proof.
  intros Hinv Hrd Hrest. unfold if_readable. wp_if; [|by apply Hrest].
  wp_step. eapply wp_mono; [by apply Hrd|].
  intros [s'|c| |] w'; cbn [bind_post keeps_inv]; try done. intros H'. wp_if; [by wp_step|by apply Hrest].
Qed.

Lemma wp_icmpd_round fuel buf4 junk4 buf6 junk6 s w :
  icmpd_inv s w →
  wp K (icmpd_round fuel buf4 junk4 buf6 junk6 s) w
    (λ o w', match o with Val (inl s') => icmpd_inv s' w' | Val (inr _) => False | _ => True end).
Proof using Type*.
  intros Hinv. unfold icmpd_round. wp_step. unfold Select. apply wp_or_err_sys. wp_step.
  destruct (K _ (Cselect _ _ _ _)) as [[[nready rset] wset]|e]; [|done]. cbn [bind_post].
  wp_step. eapply wp_mono.
  - apply wp_if_readable.
    + apply icmpd_inv_nready. by apply (icmpd_inv_ext s w).
    + intros. by apply wp_readable_listen.
    + intros s1 w1 H1. apply wp_if_readable; [done| |].
      * intros s2 w2 H2. apply (wp_readable_packet _ s2); [apply emits_readable_v4|apply readable_v4_gives|done].
      * intros s2 w2 H2. apply wp_if_readable; [done| |].
        -- intros s3 w3 H3. apply (wp_readable_packet _ s3); [apply emits_readable_v6|apply readable_v6_gives|done].
        -- intros s3 w3 H3. by apply wp_icmpd_conns.
  - intros [s'|c| |] w'; cbn [bind_post keeps_inv]; done.
Qed.

Lemma icmpd_init_inv f4 f6 l w :
  own = {[f4; f6; l]} → accepted K (w_calls w) = ∅ → icmpd_inv (icmpd_init f4 f6 l) w.
Proof.
  intros Hown Ha. unfold icmpd_init. split; rewrite ?Ha; cbn [d_client d_maxi d_allset d_maxfd].
  - by rewrite Hown.
  - assert (Hr : ∀ n, map connfd (repeat no_client n) = repeat (-1) n).
    { induction n as [|n IH]; [done|]. simpl. by rewrite IH. }
    rewrite Hr. apply table_init.
  - set_solver.
  - intros i c Hi. apply list_elem_of_lookup_2, list_elem_of_In, repeat_spec in Hi as ->. simpl. lia.
  - set_solver.
  - intros fd Hfd. set_solver by lia.
Qed.
End inv.

(** * Properties *)

(** C22: an ICMP error that quotes a UDP datagram is written, whatever options
    the two IP headers have, once to each slot of the table that is in use and
    records [AF_INET] and the datagram's source port, in the order of the table,
    and to nothing else.  The 144 bytes are those of the structure: the error
    number ([ECONNREFUSED] for an unreachable port, [EMSGSIZE] when a fragment
    would have been needed, [EHOSTUNREACH] for every other type and code), the
    type, the code, and the address and port that the datagram was for.  A run
    that ends early has reached a first part of the slots; when the message
    comes from an IPv4 address and no write fails, the run does not end early.
    What a slot records need not be what its client has registered: see
    [icmpd_stale_slot]. *)
Theorem readable_v4_delivers (K : kernel) s w buf0 junk h1 type code x6 h2 sp dp rest from :
  ip_header h1 → ip_header h2 → length x6 = 6%nat → (4 <= length rest)%nat →
  Z.of_nat (length junk) = sizeof_icmpd_err →
  type = ICMP_UNREACH ∨ type = ICMP_TIMXCEED ∨ type = ICMP_SOURCEQUENCH →
  byte_at h2 9 = IPPROTO_UDP →
  K (w_calls w) (Crecvfrom (fd4 s) MAXLINE) =
    ROk (icmp_error h1 type code x6 h2 (be16 sp ++ be16 dp) rest, from) →
  let '(o, w') := readable_v4 buf0 junk s K w in
  ∃ e err (slots : list (nat * Z)) l,
    icmp_errno type code e ∧ err_message e type code dp (bytes_at h2 16 4) err ∧
    StronglySorted lt (slots.*1) ∧
    (∀ i fd, (i, fd) ∈ slots ↔ slot_for s AF_INET (swap16 sp) i fd) ∧
    let all := map (λ fd, (fd, err)) (slots.*2) in
    writes (w_calls w') = writes (w_calls w) ++ l ∧ l `prefix_of` all ∧
    (∀ s', o = Val s' → l = all ∧ d_nready s' = d_nready s - 1 ∧
       d_client s' = d_client s ∧ d_maxi s' = d_maxi s ∧ d_allset s' = d_allset s) ∧
    ((∃ port a, from = SaIn port a ∧ bytes a ∧ length a = 4%nat) → bytes h2 → whole_writes K →
       ∃ s', o = Val s').
Proof.
  intros H1 H2 Hx Hr Hj Ht Hu HK.
  pose proof (wp_readable_v4 K s w buf0 junk h1 type code x6 h2 sp dp rest from H1 H2 Hx Hr Ht Hu HK) as H.
  pose proof (λ port a, wp_readable_v4_returns K s w buf0 junk h1 type code x6 h2 sp dp rest port a H1 H2 Hx Hr)
    as Hret.
  unfold wp in H, Hret. destruct (readable_v4 buf0 junk s K w) as [o w'].
  destruct (targets_slots s AF_INET (swap16 sp)) as (slots & Hs & Hin & Htg).
  destruct H as (l & Hw & Hl & Ho). rewrite Htg in Hl, Ho.
  exists (errno_v4 type code), (icmpd_err_mem junk (errno_v4 type code) type code (SaIn (swap16 dp) (bytes_at h2 16 4))),
    slots, l.
  split; [apply errno_v4_spec|]. split.
  { apply err_message_mem; [done|]. destruct H2 as [? _]. unfold bytes_at. rewrite length_take, length_drop. lia. }
  do 4 (split; [done|]). split.
  - intros s' Hs'. destruct (Ho s' Hs') as [-> ->]. done.
  - intros (port & a & -> & Ha & Hla) Hb HW. by apply (Hret port a).
Qed.

(** C23: from its start on, between any two rounds of the daemon the table holds
    exactly the connections of its clients that are open, each once and not
    beyond [maxi], and the set given to [select] is those and the three
    descriptors of its own, none above [maxfd]: no descriptor is forgotten, none
    is watched after it was closed. *)
Theorem icmpd_rounds_inv (K : kernel) fuel buf4 junk4 buf6 junk6 f4 f6 l w0 s w
    `{!KernelIcmpd K {[f4; f6; l]}} :
  accepted K (w_calls w0) = ∅ →
  rounds K (icmpd_round fuel buf4 junk4 buf6 junk6) (icmpd_init f4 f6 l) w0 s w →
  icmpd_inv K {[f4; f6; l]} s w.
Proof.
  intros Ha Hr. refine (rounds_inv K (icmpd_inv K {[f4; f6; l]}) _ _ _ _ _ _ _ Hr).
  - by apply icmpd_init_inv.
  - intros s1 w1 s2 w2 Hinv Hb.
    pose proof (wp_icmpd_round K {[f4; f6; l]} fuel buf4 junk4 buf6 junk6 s1 w1 Hinv) as H.
    unfold wp in H. rewrite Hb in H. exact H.
Qed.

(** A slot keeps the family and port of its last owner: a new client gets that
    client's errors before it has registered anything. *)
Lemma icmpd_stale_slot :
  ∃ (K : kernel) s w, targets s AF_INET 5 = [] ∧
    match (readable_listen 1 s K w).1 with Val s' => targets s' AF_INET 5 = [7] | _ => False end.
Proof.
  exists (λ _ c, match c return ans c with Caccept _ => ROk (7, SaUn []) | c => default_ans c end).
  exists (Icmpd 3 4 5 0 5 1 {[3; 4; 5]} [DClient (-1) AF_INET 5]), (World [] 0 false).
  split; vm_compute; reflexivity.
Qed.

(** * Instances *)

Lemma icmpd_err_round_trip_witness :
  let err := icmpd_err_mem (repeat 255 144) ECONNREFUSED 3 3 (SaIn (htons 53) [10; 0; 0; 9]) in
  Z.of_nat (length err) = sizeof_icmpd_err ∧
  icmpd_printed err =
    (d ← Sock_ntop (SaIn (htons 53) [10; 0; 0; 9]) (sa_len (SaIn (htons 53) [10; 0; 0; 9]));
     e ← sys (Cstrerror ECONNREFUSED);
     printf (str "ICMP error: dest = " ++ d ++ str ", " ++ e ++ str ", type = "
               ++ fmt_d 3 ++ str ", code = " ++ fmt_d 3 ++ [ch_nl])).
Proof.
  apply (icmpd_err_round_trip (repeat 255 144) ECONNREFUSED 3 3 (SaIn (htons 53) [10; 0; 0; 9]));
    [reflexivity|split; [by_decide|reflexivity]|by_decide|lia|lia].
Defined.

Definition quoted_error : list Z :=
  icmp_error (69 :: repeat 0 19) 3 3 (repeat 0 6) (69 :: repeat 0 8 ++ [17] ++ repeat 0 6 ++ [10; 0; 0; 9])
    (be16 40000 ++ be16 53) [0; 8; 0; 0].

Definition error_kernel : kernel := λ cs c,
  match c return ans c with
  | Crecvfrom _ _ => ROk (quoted_error, SaIn 0 [10; 0; 0; 1])
  | Cwrite _ d => ROk (Z.of_nat (length d))
  | c => default_ans c
  end.

Definition three_clients : icmpd :=
  Icmpd 3 4 5 2 9 1 {[3; 4; 5; 7; 8; 9]}
    [DClient 7 AF_INET (htons 40000); DClient 8 AF_INET (htons 40001); DClient 9 AF_INET (htons 40000)].

Lemma readable_v4_delivers_witness :
  let '(o, w') := readable_v4 [] (repeat 0 144) three_clients error_kernel (World [] 0 false) in
  ∃ e err (slots : list (nat * Z)) l,
    icmp_errno 3 3 e ∧ err_message e 3 3 53 [10; 0; 0; 9] err ∧
    StronglySorted lt (slots.*1) ∧
    (∀ i fd, (i, fd) ∈ slots ↔ slot_for three_clients AF_INET (swap16 40000) i fd) ∧
    let all := map (λ fd, (fd, err)) (slots.*2) in
    writes (w_calls w') = writes [] ++ l ∧ l `prefix_of` all ∧
    (∀ s', o = Val s' → l = all ∧ d_nready s' = d_nready three_clients - 1 ∧
       d_client s' = d_client three_clients ∧ d_maxi s' = 2 ∧
       d_allset s' = d_allset three_clients) ∧
    ((∃ port a, SaIn 0 [10; 0; 0; 1] = SaIn port a ∧ bytes a ∧ length a = 4%nat) →
       bytes (69 :: repeat 0 8 ++ [17] ++ repeat 0 6 ++ [10; 0; 0; 9]) → whole_writes error_kernel →
       ∃ s', o = Val s').
Proof.
  exact (readable_v4_delivers error_kernel three_clients (World [] 0 false) [] (repeat 0 144)
    (69 :: repeat 0 19) 3 3 (repeat 0 6) (69 :: repeat 0 8 ++ [17] ++ repeat 0 6 ++ [10; 0; 0; 9])
    40000 53 [0; 8; 0; 0] (SaIn 0 [10; 0; 0; 1])
    ltac:(split; vm_compute; congruence) ltac:(split; vm_compute; congruence) eq_refl ltac:(simpl; lia)
    eq_refl (or_introl eq_refl) eq_refl eq_refl).
Defined.

(** That run writes to the first and the third client. *)
Example three_clients_run :
  let err := icmpd_err_mem (repeat 0 144) ECONNREFUSED 3 3 (SaIn (htons 53) [10; 0; 0; 9]) in
  writes (w_calls (readable_v4 [] (repeat 0 144) three_clients error_kernel (World [] 0 false)).2) =
    [(7, err); (9, err)].
Proof. vm_compute. reflexivity. Qed.

(** A kernel with one client, which registers its socket. *)
Definition icmpd_kernel : kernel := λ cs c,
  match c return ans c with
  | Cselect _ _ _ _ => ROk (1, if has_accept cs then {[7]} else {[5]}, ∅)
  | Caccept _ => if has_accept cs then RErr EINVAL else ROk (7, SaUn [])
  | Crecvmsg _ _ => ROk ([49], Some (Cmsg (CMSG_LEN sizeof_int) SOL_SOCKET SCM_RIGHTS 8))
  | Cgetsockname _ => ROk (SaIn (htons 40000) [0; 0; 0; 0])
  | Cwrite _ d => ROk (Z.of_nat (length d))
  | Cclose _ => ROk tt
  | c => default_ans c
  end.

Lemma icmpd_kernel_accepted cs : accepted icmpd_kernel cs ⊆ {[7]}.
Proof.
  induction cs as [|c cs IH]; [done|]. cbn [accepted].
  destruct c; simpl; try done; [destruct (has_accept cs)|]; set_solver.
Qed.

#[global] Instance icmpd_kernel_ok : KernelIcmpd icmpd_kernel {[3; 4; 5]}.
Proof.
  split.
  - intros cs fd n sa. cbn [icmpd_kernel]. destruct (has_accept cs) eqn:Hh; [done|].
    intros [= <- <-]. split; [lia|]. split; [set_solver by lia|].
    assert (accepted icmpd_kernel cs = ∅); [|set_solver].
    induction cs as [|c cs IH]; [done|]. cbn [accepted].
    destruct c; simpl in Hh |- *; try done; rewrite IH by done; set_solver.
  - intros cs fd n d cm. cbn [icmpd_kernel]. intros [= _ <-]. cbn [cmsg_fd].
    pose proof (icmpd_kernel_accepted cs). set_solver by lia.
Qed.

Definition next_icmpd (r : outcome (icmpd + unit) * world) : icmpd * world :=
  match r with (Val (inl s), w) => (s, w) | (_, w) => (icmpd_init 3 4 5, w) end.

Lemma icmpd_rounds_inv_witness :
  let w0 := World [] 0 false in
  let r1 := next_icmpd (icmpd_round 9 [] [] [] [] (icmpd_init 3 4 5) icmpd_kernel w0) in
  let r2 := next_icmpd (icmpd_round 9 [] [] [] [] r1.1 icmpd_kernel r1.2) in
  icmpd_inv icmpd_kernel {[3; 4; 5]} r2.1 r2.2 ∧
  d_client r2.1 !! 0%nat = Some (DClient 7 AF_INET (htons 40000)).
Proof.
  intros w0 r1 r2. split; [|vm_compute; reflexivity].
  apply (icmpd_rounds_inv icmpd_kernel 9 [] [] [] [] 3 4 5 w0 r2.1 r2.2); [reflexivity|].
  apply (rounds_step _ _ _ _ r1.1 r1.2); [|vm_compute; reflexivity].
  apply (rounds_step _ _ _ _ (icmpd_init 3 4 5) w0); [|vm_compute; reflexivity].
  apply rounds_refl.
Defined.
