(* ===== verification/Ping.v ===== *)
(** [ping/]: the echo requests, the replies, and the loop that reads them.  The
    signal handler sends a request and sets the next alarm; it runs at the points
    [Cdeliver SIGALRM], which stand before each [recvmsg] (a signal inside it ends
    it with [EINTR]).

    The text of [%.3f] is a parameter, and so are the options found by [getopt]. *)

From S2P Require Import Prelude Net Sys Error Wrap SockAddr Io Connect TcpServ Mcast Cksum Rtt Packet.

(** * ping.h *)

Definition PING_BUFSIZE : Z := 1500.

(** The globals that change; [recvbuf] is the buffer of [readloop] and [sarecv]
    what [pr->sarecv] points to. *)
Record ping := Ping {
  nsent : Z;
  sendbuf : list Z;
  p_recvbuf : list Z;
  p_sarecv : sockaddr
}.
Definition set_sent (st : ping) (n : Z) (buf : list Z) : ping := Ping n buf (p_recvbuf st) (p_sarecv st).
Definition set_recv (st : ping) (buf : list Z) (sa : sockaddr) : ping := Ping (nsent st) (sendbuf st) buf sa.

(** [struct timeval] in memory. *)
Definition timeval_mem (tv : Z * Z) : list Z := le_bytes 8 tv.1 ++ le_bytes 8 tv.2.
Definition timeval_at (buf : list Z) (o : Z) : Z * Z :=
  (s64 (of_le_bytes (bytes_at buf o 8)), s64 (of_le_bytes (bytes_at buf (o + 8) 8))).

(** [tv_sec * 1000.0 + tv_usec / 1000.0] *)
Definition ms_of (tv : Z * Z) : SpecFloat.spec_float :=
  dadd (dmul (double_of_Z tv.1) (double_of_Z 1000)) (ddiv (double_of_Z tv.2) (double_of_Z 1000)).

(** An ancillary object: level, type, value. *)
Definition cmsg_obj : Type := Z * Z * Z.
Definition IPV6_RECVHOPLIMIT : Z := 51.
Definition IPV6_HOPLIMIT : Z := 52.
Definition IPV6_UNICAST_HOPS : Z := 16.
Definition ICMP6_FILTER : Z := 1.
Definition SO_RCVBUF : Z := 8.

(** A filter that passes only the given types: a set bit blocks. *)
Definition icmp6_filter (pass : list Z) : list Z :=
  flat_map (λ w, le_bytes 4 (foldl (λ m t, if decide (Z.shiftr t 5 = w)
    then Z.land m (Z.lnot (Z.shiftl 1 (Z.land t 31))) else m) (2 ^ 32 - 1) pass)) (seqZ 0 8).

Section ping.
Context (fmt_3f : SpecFloat.spec_float → list Z).
Context (datalen pid verbose : Z).

(** * send_v4.c and send_v6.c *)

(** The fields of the header, the data and the time, over the old contents. *)
Definition echo_request (type seq : Z) (tv : Z * Z) (buf : list Z) : list Z :=
  let buf := store_at buf 0 [type] in
  let buf := store_at buf 1 [0] in
  let buf := store_at buf 4 (le_bytes 2 pid) in
  let buf := store_at buf 6 (le_bytes 2 seq) in
  let buf := store_at buf 8 (repeat 165 (Z.to_nat datalen)) in
  store_at buf 8 (timeval_mem tv).

Definition send_v4 (sockfd : Z) (sasend : sockaddr) (st : ping) : M ping :=
  tv ← Gettimeofday;
  let buf := echo_request ICMP_ECHO (nsent st) tv (sendbuf st) in
  let len := 8 + datalen in
  let buf := store_at buf 2 [0; 0] in
  let sum := in_cksum (take (Z.to_nat len) buf) in
  let buf := store_at buf 2 (le_bytes 2 sum) in
  Sendto sockfd (take (Z.to_nat len) buf) sasend;;
  mret (set_sent st (s32 (nsent st + 1)) buf).

Definition send_v6 (sockfd : Z) (sasend : sockaddr) (st : ping) : M ping :=
  tv ← Gettimeofday;
  let buf := echo_request ICMP6_ECHO_REQUEST (nsent st) tv (sendbuf st) in
  let len := 8 + datalen in
  Sendto sockfd (take (Z.to_nat len) buf) sasend;;
  mret (set_sent st (s32 (nsent st + 1)) buf).

(** * proc_v4.c and proc_v6.c *)

(** What both print for another ICMP message. *)
Definition ping_verbose (buf : list Z) (o len : Z) (sarecv : sockaddr) : M unit :=
  if decide (verbose ≠ 0) then
    h ← Sock_ntop_host sarecv (sa_len sarecv);
    printf (str "  " ++ fmt_d len ++ str " bytes from " ++ h ++ str ": type = "
              ++ fmt_d (icmp_type buf o) ++ str ", code = " ++ fmt_d (icmp_code buf o) ++ [ch_nl])
  else mret tt.

Definition proc_v4 (ptr : list Z) (len : Z) (msg : list cmsg_obj) (sarecv : sockaddr) (tvrecv : Z * Z)
    : M unit :=
  let hlen1 := ip_hlen ptr 0 in
  if decide (ip_p ptr 0 ≠ IPPROTO_ICMP) then mret tt
  else
    let icmplen := len - hlen1 in
    if decide (icmplen < 8) then mret tt
    else if decide (icmp_type ptr hlen1 = ICMP_ECHOREPLY) then
      if decide (icmp_id ptr hlen1 ≠ pid) then mret tt
      else if decide (icmplen < 16) then mret tt
      else
        let tvrecv := tv_sub tvrecv (timeval_at ptr (hlen1 + 8)) in
        h ← Sock_ntop_host sarecv (sa_len sarecv);
        printf (fmt_d icmplen ++ str " bytes from " ++ h ++ str ": seq=" ++ fmt_u (icmp_seq ptr hlen1)
                  ++ str ", ttl=" ++ fmt_d (ip_ttl ptr 0) ++ str ", rtt=" ++ fmt_3f (ms_of tvrecv)
                  ++ str " ms" ++ [ch_nl])
    else ping_verbose ptr hlen1 icmplen sarecv.

(** The value of the first hop limit among the ancillary objects, or -1. *)
Fixpoint find_hlim (msg : list cmsg_obj) : Z :=
  match msg with
  | [] => -1
  | (level, type, value) :: msg' =>
      if decide (level = IPPROTO_IPV6 ∧ type = IPV6_HOPLIMIT) then value else find_hlim msg'
  end.

Definition proc_v6 (ptr : list Z) (len : Z) (msg : list cmsg_obj) (sarecv : sockaddr) (tvrecv : Z * Z)
    : M unit :=
  if decide (len < 8) then mret tt
  else if decide (icmp_type ptr 0 = ICMP6_ECHO_REPLY) then
    if decide (icmp_id ptr 0 ≠ pid) then mret tt
    else if decide (len < 16) then mret tt
    else
      let tvrecv := tv_sub tvrecv (timeval_at ptr 8) in
      let hlim := find_hlim msg in
      h ← Sock_ntop_host sarecv (sa_len sarecv);
      printf (fmt_d len ++ str " bytes from " ++ h ++ str ": seq=" ++ fmt_u (icmp_seq ptr 0) ++ str ", hlim=");;
      printf (if decide (hlim = -1) then str "???" else fmt_d hlim);;
      printf (str ", rtt=" ++ fmt_3f (ms_of tvrecv) ++ str " ms" ++ [ch_nl])
  else ping_verbose ptr 0 len sarecv.

(** * init_v6.c: errors are ignored *)

Definition init_v6 (sockfd : Z) : M unit :=
  (if decide (verbose = 0) then
     void (checked (sys (Csetsockopt sockfd IPPROTO_IPV6 ICMP6_FILTER (icmp6_filter [ICMP6_ECHO_REPLY]))))
   else mret tt);;
  void (checked (sys (Csetsockopt sockfd IPPROTO_IPV6 IPV6_RECVHOPLIMIT (le_bytes 4 1)))).

(** [struct proto]: the functions of a protocol. *)
Record proto := Proto {
  fproc : list Z → Z → list cmsg_obj → sockaddr → Z * Z → M unit;
  fsend : Z → sockaddr → ping → M ping;
  finit : option (Z → M unit);
  icmpproto : Z
}.
Definition proto_v4 : proto := Proto proc_v4 send_v4 None IPPROTO_ICMP.
Definition proto_v6 : proto := Proto proc_v6 send_v6 (Some init_v6) IPPROTO_ICMPV6.

(** * sig_alrm.c and readloop.c *)

Definition ping_sig_alrm (pr : proto) (sockfd : Z) (sasend : sockaddr) (st : ping) : M ping :=
  st ← fsend pr sockfd sasend st;
  sys (Calarm 1);;
  mret st.

(** The handler runs as often as the signal arrives at this point. *)
Definition ping_deliver (pr : proto) (sockfd : Z) (sasend : sockaddr) (st : ping) : M ping :=
  n ← sys (Cdeliver SIGALRM);
  for_each (repeat tt n) (λ _, ping_sig_alrm pr sockfd sasend) st.

Definition ping_round (pr : proto) (sockfd : Z) (sasend : sockaddr) (st : ping) : M (ping + unit) :=
  st ← ping_deliver pr sockfd sasend st;
  r ← checked (sys (Crecvmsg_ctl sockfd PING_BUFSIZE));
  match r with
  | RErr _ =>
      errno ← get_errno;
      if decide (errno = EINTR) then mret (inl st) else err_sys (str "recvmsg error")
  | ROk (data, from, msg) =>
      let st := set_recv st (overwrite (p_recvbuf st) data) from in
      tval ← Gettimeofday;
      fproc pr (p_recvbuf st) (Z.of_nat (length data)) msg (p_sarecv st) tval;;
      mret (inl st)
  end.

(** [recvbuf0] is what the automatic buffer holds at entry. *)
Definition readloop (fuel : nat) (pr : proto) (sasend : sockaddr) (recvbuf0 : list Z) : M unit :=
  sockfd ← Socket (sa_family sasend) SOCK_RAW (icmpproto pr);
  uid ← sys Cgetuid;
  checked (sys (Csetuid uid));;
  (match finit pr with Some f => f sockfd | None => mret tt end);;
  checked (sys (Csetsockopt sockfd SOL_SOCKET SO_RCVBUF (le_bytes 4 (60 * 1024))));;
  st ← ping_sig_alrm pr sockfd sasend
         (Ping 0 (repeat 0 (Z.to_nat PING_BUFSIZE)) recvbuf0 (SaOther 0));
  iter fuel (ping_round pr sockfd sasend) st.
End ping.

(** * main.c *)

(** [IN6_IS_ADDR_V4MAPPED] *)
Definition v4mapped (sa : sockaddr) : bool :=
  match sa with SaIn6 _ a => bool_decide (take 12 a = repeat 0 10 ++ [255; 255]) | _ => false end.

Definition ch_question : Z := 63.

(** The options in the order [getopt] finds them, then the arguments that are
    left; ['?'] stands for an option that is not known. *)
Definition ping_option (c : Z * list Z) (verbose : Z) : M Z :=
  if decide (fst c = 118) then mret (verbose + 1)
  else if decide (fst c = ch_question) then err_quit (str "unrecognized option: ?")
  else mret verbose.

Definition ping_main (fuel : nat) (fmt_3f : SpecFloat.spec_float → list Z)
    (getopt : list (list Z) → list (Z * list Z) * list (list Z)) (recvbuf0 : list Z)
    (argv : list (list Z)) : M unit :=
  let '(opts, args) := getopt argv in
  verbose ← for_each opts ping_option 0;
  match args with
  | [host] =>
      p ← sys Cgetpid;
      let pid := Z.land p 65535 in
      Signal SIGALRM (Handler "sig_alrm");;
      '(ai, _) ← Host_serv (Some host) None 0 0;
      h ← Sock_ntop_host (ai_addr ai) (ai_addrlen ai);
      let datalen := 56 in
      printf (str "PING " ++ default h (ai_canonname ai) ++ str " (" ++ h ++ str "): "
                ++ fmt_d datalen ++ str " data bytes" ++ [ch_nl]);;
      pr ← (if decide (ai_family ai = AF_INET) then mret (proto_v4 fmt_3f datalen pid verbose)
            else if decide (ai_family ai = AF_INET6) then
              if v4mapped (ai_addr ai) then err_quit (str "cannot ping IPv4-mapped IPv6 address")
              else mret (proto_v6 fmt_3f datalen pid verbose)
            else err_quit (str "unknown address family " ++ fmt_d (ai_family ai)));
      Calloc 1 (ai_addrlen ai);;
      readloop fuel pr (ai_addr ai) recvbuf0;;
      exit 0
  | _ => err_quit (str "usage: ping [ -v ] <hostname>")
  end.
