(* ===== verification/PingSpec.v ===== *)
(** Properties of [Ping]: the requests that are sent, and the replies that are
    reported. *)

From S2P Require Import Prelude Net Sys Error Wrap SockAddr Io Connect TcpServ Mcast Cksum Rtt Packet Ping.

(** * Requests *)

Section request.
Context (datalen pid : Z).

(** An echo request as it should be. *)
Definition request (type c0 c1 seq : Z) (tv : Z * Z) : list Z :=
  [type; 0; c0; c1] ++ le_bytes 2 pid ++ le_bytes 2 seq ++ timeval_mem tv
    ++ repeat 165 (Z.to_nat datalen - 16).

Lemma length_timeval tv : length (timeval_mem tv) = 16%nat.
Proof. unfold timeval_mem. by rewrite length_app, !length_le_bytes. Qed.

Lemma length_request type c0 c1 seq tv :
  16 <= datalen → Z.of_nat (length (request type c0 c1 seq tv)) = 8 + datalen.
Proof.
  intros Hd. unfold request. rewrite !length_app, !length_le_bytes, length_timeval, repeat_length.
  cbn [length]. lia.
Qed.

Lemma store_at_app l1 l2 l3 data :
  length data = length l2 → store_at (l1 ++ l2 ++ l3) (length l1) data = l1 ++ data ++ l3.
Proof.
  intros Hd. unfold store_at. rewrite take_app_length. f_equal. f_equal.
  rewrite drop_app_ge by lia. rewrite Hd. rewrite drop_app_ge by lia.
  by replace (length l1 + length l2 - length l1 - length l2)%nat with 0%nat by lia.
Qed.

(** What the stores of [echo_request] leave. *)
Lemma echo_request_buf type seq tv buf :
  16 <= datalen → 8 + datalen <= Z.of_nat (length buf) →
  ∃ c0 c1 rest, echo_request datalen pid type seq tv buf = request type c0 c1 seq tv ++ rest ∧
    length (request type c0 c1 seq tv ++ rest) = length buf.
Proof.
  intros Hd Hb.
  destruct buf as [|b0 [|b1 [|b2 [|b3 [|b4 [|b5 [|b6 [|b7 tl]]]]]]]]; cbn [length] in Hb; try lia.
  assert (∃ t1 t2, tl = t1 ++ t2 ∧ length t1 = Z.to_nat datalen) as (t1 & t2 & -> & Ht1).
  { exists (take (Z.to_nat datalen) tl), (drop (Z.to_nat datalen) tl).
    rewrite take_drop, length_take. split; [done|lia]. }
  unfold echo_request.
  change (store_at (b0 :: b1 :: b2 :: b3 :: b4 :: b5 :: b6 :: b7 :: t1 ++ t2) 0 [type])
    with ([type; b1; b2; b3; b4; b5; b6; b7] ++ t1 ++ t2).
  change (store_at _ 1 [0]) with ([type; 0; b2; b3; b4; b5; b6; b7] ++ t1 ++ t2).
  rewrite (store_at_app [type; 0; b2; b3] [b4; b5] ([b6; b7] ++ t1 ++ t2)) by by rewrite length_le_bytes.
  set (i := le_bytes 2 pid). assert (Hi : length i = 2%nat) by apply length_le_bytes.
  set (s := le_bytes 2 seq). assert (Hs : length s = 2%nat) by apply length_le_bytes.
  destruct i as [|i0 [|i1 [|]]] eqn:Ei; try done. destruct s as [|s0 [|s1 [|]]] eqn:Es; try done.
  change (store_at ([type; 0; b2; b3] ++ _ ++ _) 6 _) with ([type; 0; b2; b3; i0; i1; s0; s1] ++ t1 ++ t2).
  rewrite (store_at_app [type; 0; b2; b3; i0; i1; s0; s1])
    by by rewrite repeat_length.
  assert (repeat 165 (Z.to_nat datalen) = repeat 165 16 ++ repeat 165 (Z.to_nat datalen - 16)) as ->.
  { rewrite <-repeat_app. f_equal. lia. }
  rewrite <-(app_assoc (repeat 165 16)).
  rewrite (store_at_app [type; 0; b2; b3; i0; i1; s0; s1]) by by rewrite length_timeval.
  exists b2, b3, t2. unfold request. fold i s. rewrite Ei, Es. split.
  - by rewrite <-!app_assoc.
  - cbn [length]. rewrite !length_app, length_timeval, repeat_length. cbn [length]. lia.
Qed.

(** Storing the checksum. *)
Lemma request_sum type c0 c1 seq tv rest d0 d1 :
  store_at (request type c0 c1 seq tv ++ rest) 2 [d0; d1] = request type d0 d1 seq tv ++ rest.
Proof. done. Qed.

Lemma bytes_repeat b n : is_byte b → bytes (repeat b n).
Proof. intros Hb. unfold bytes. induction n; simpl; [done|]. by apply Forall_cons_2. Qed.

(** A request for ICMP carries its checksum. *)
Lemma request_verifies type seq tv :
  is_byte type → 16 <= datalen <= 65536 →
  let sum := in_cksum (request type 0 0 seq tv) in
  in_cksum (request type (sum mod 256) (sum / 256) seq tv) = 0.
Proof.
  intros Ht Hd sum. unfold request in *.
  set (post := le_bytes 2 pid ++ le_bytes 2 seq ++ timeval_mem tv ++ repeat 165 (Z.to_nat datalen - 16)) in *.
  apply (cksum_verifies [type; 0] post).
  - apply Forall_cons_2; [done|]. by apply Forall_singleton.
  - unfold post, timeval_mem, bytes. rewrite !Forall_app.
    repeat split; try apply bytes_le_bytes. by apply bytes_repeat.
  - by exists 1%nat.
  - unfold post. rewrite !length_app, !length_le_bytes, length_timeval, repeat_length. cbn [length]. lia.
Qed.
End request.

(** The datagrams sent, the first one first. *)
Fixpoint sent_data (cs : list call) : list (list Z) :=
  match cs with
  | [] => []
  | Csendto _ d _ :: cs' => sent_data cs' ++ [d]
  | _ :: cs' => sent_data cs'
  end.

(** Calls that send nothing. *)
Definition silent_call (c : call) : Prop := match c with Csendto _ _ _ => False | _ => True end.

Lemma report_silent c : report_call c → silent_call c.
Proof. by destruct c. Qed.

Lemma sent_silent cs cs' : Forall silent_call cs → sent_data (cs ++ cs') = sent_data cs'.
Proof. induction 1 as [|c cs Hc _ IH]; [done|]. by destruct c. Qed.

Section send.
Context (K : kernel) (fmt_3f : SpecFloat.spec_float → list Z).
Context (datalen pid verbose : Z) (Hdata : 16 <= datalen <= PING_BUFSIZE - 8).

(** Silent programs as steps. *)
Lemma wp_silent {A} (m : M A) w (Q : outcome A → world → Prop) :
  emits silent_call m → (∀ o w', sent_data (w_calls w') = sent_data (w_calls w) → Q o w') → wp K m w Q.
Proof.
  intros Hm HQ. apply (wp_emits K silent_call); [done|]. intros o cs w' Hcs Hw. apply HQ.
  rewrite Hw. by apply sent_silent.
Qed.

(** What a request looks like: for ICMP with a good checksum, for ICMPv6 with a
    field that the kernel fills. *)
Definition good_request (v6 : bool) (k : Z) (d : list Z) : Prop :=
  ∃ c0 c1 tv, d = request datalen pid (if v6 then ICMP6_ECHO_REQUEST else ICMP_ECHO) c0 c1 k tv ∧
    (v6 = false → in_cksum d = 0).

(** The variables between two requests. *)
Definition ready (k : Z) (st : ping) : Prop :=
  u16 (nsent st) = u16 k ∧ Z.of_nat (length (sendbuf st)) = PING_BUFSIZE.

Lemma u16_s32_succ n k : u16 n = u16 k → u16 (s32 (n + 1)) = u16 (k + 1).
Proof. unfold u16, s32. intros H. Z.div_mod_to_equations. lia. Qed.

Lemma le_bytes_sum l : le_bytes 2 (in_cksum l) = [in_cksum l mod 256; in_cksum l / 256].
Proof.
  unfold le_bytes, in_cksum. set (x := Z.lnot _). simpl. rewrite Z.div_1_r. do 2 f_equal.
  apply Z.mod_small. unfold u16. Z.div_mod_to_equations. lia.
Qed.

Lemma emits_Gettimeofday_silent : emits silent_call Gettimeofday.
Proof. apply emits_or_err_sys; [apply report_silent|by apply emits_sys]. Qed.

Lemma wp_Sendto_data fd d sa w (Q : outcome unit → world → Prop) :
  (∀ w', sent_data (w_calls w') = sent_data (w_calls w) ++ [d] → Q (Val tt) w') →
  (∀ o w', sent_data (w_calls w') = sent_data (w_calls w) ++ [d] → (∀ x, o ≠ Val x) → Q o w') →
  wp K (Sendto fd d sa) w Q.
Proof.
  intros Hval Hex. unfold Sendto, all_or_err_sys. repeat wp_step.
  assert (Herr : ∀ w2, sent_data (w_calls w2) = sent_data (w_calls w) ++ [d] →
    wp K (err_sys (str "sendto error")) w2 Q).
  { intros w2 Hw2. apply wp_err_sys. intros cs Hcs. apply Hex; [|done]. cbn [w_calls].
    rewrite sent_silent, Hw2; [done|]. eapply Forall_impl; [exact Hcs|apply report_silent]. }
  destruct (K (w_calls w) (Csendto fd d sa)) as [n|e]; cbn [bind_post]; repeat wp_step; [|by apply Herr].
  wp_if; [by apply Herr|]. wp_step. by apply Hval.
Qed.

Lemma wp_send (v6 : bool) sockfd sasend k st w (Q : outcome ping → world → Prop) :
  ready k st →
  (∀ o w', (sent_data (w_calls w') = sent_data (w_calls w) ∨
      ∃ d, good_request v6 k d ∧ sent_data (w_calls w') = sent_data (w_calls w) ++ [d]) →
    (∀ st', o ≠ Val st') → Q o w') →
  (∀ st' w' d, good_request v6 k d → sent_data (w_calls w') = sent_data (w_calls w) ++ [d] →
    ready (k + 1) st' → Q (Val st') w') →
  wp K ((if v6 then send_v6 datalen pid else send_v4 datalen pid) sockfd sasend st) w Q.
Proof using Hdata.
  intros [Hk Hb] Hex Hval.
  assert (Hseq : le_bytes 2 (nsent st) = le_bytes 2 k) by (by apply le_bytes_mod).
  assert (Hnext : ∀ buf, length buf = length (sendbuf st) → ready (k + 1) (set_sent st (s32 (nsent st + 1)) buf)).
  { intros buf Hbuf. split; [|simpl; by rewrite Hbuf]. cbn [nsent set_sent]. by apply u16_s32_succ. }
  assert (Hsend : ∀ buf d w1, length buf = length (sendbuf st) → good_request v6 k d →
    sent_data (w_calls w1) = sent_data (w_calls w) →
    wp K (Sendto sockfd d sasend;; mret (set_sent st (s32 (nsent st + 1)) buf)) w1 Q).
  { intros buf d w1 Hbuf Hd Hw1. wp_step. apply (wp_Sendto_data).
    - intros w2 Hw2. cbn [bind_post]. wp_step. apply (Hval _ _ d); [done|by rewrite Hw2, Hw1|by apply Hnext].
    - intros o w2 Hw2 Ho. destruct o as [[]|c| |]; [by destruct (Ho tt)|..]; cbn [bind_post];
        (apply Hex; [right; exists d; by rewrite Hw2, Hw1|done]). }
  assert (Hgood : ∀ tv c0 c1, (v6 = false → in_cksum (request datalen pid ICMP_ECHO c0 c1 k tv) = 0) →
    good_request v6 k (request datalen pid (if v6 then ICMP6_ECHO_REQUEST else ICMP_ECHO) c0 c1 k tv)).
  { intros tv c0 c1 Hsum. exists c0, c1, tv. split; [done|]. intros ->. by apply Hsum. }
  assert (Hreq : ∀ type c0 c1 tv,
    request datalen pid type c0 c1 (nsent st) tv = request datalen pid type c0 c1 k tv).
  { intros. unfold request. by rewrite Hseq. }
  assert (Htake : ∀ type c0 c1 tv rest, take (Z.to_nat (8 + datalen)) (request datalen pid type c0 c1 k tv ++ rest) =
    request datalen pid type c0 c1 k tv).
  { intros. rewrite take_app_le, firstn_all2; [done|..];
      pose proof (length_request datalen pid type c0 c1 k tv); lia. }
  destruct v6; [unfold send_v6|unfold send_v4]; wp_step;
    (apply wp_silent; [apply emits_Gettimeofday_silent|]; intros o w1 Hw1;
     destruct o as [tv|c| |]; cbn [bind_post]; try (apply Hex; [by left|done]); cbn zeta).
  - destruct (echo_request_buf datalen pid ICMP6_ECHO_REQUEST (nsent st) tv (sendbuf st))
      as (c0 & c1 & rest & -> & Hl); [lia|lia|].
    rewrite Hreq in *. rewrite Htake. apply Hsend; [done|by apply (Hgood tv)|done].
  - destruct (echo_request_buf datalen pid ICMP_ECHO (nsent st) tv (sendbuf st))
      as (c0 & c1 & rest & -> & Hl); [lia|lia|].
    rewrite Hreq, length_app in *. rewrite !request_sum, Htake.
    set (sum := in_cksum _).
    assert (Hsum : le_bytes 2 sum = [sum mod 256; sum / 256]) by (apply le_bytes_sum).
    rewrite Hsum, request_sum, Htake. apply Hsend; [|apply (Hgood tv)|done].
    + rewrite length_app, <-Hl. f_equal.
    + intros _. apply request_verifies; [done|unfold PING_BUFSIZE in *; lia].
Qed.

(** The datagram of a request made at [tv]: [echo_request], then the checksum over
    it with a zero in its field. *)
Lemma send_v4_bytes seq tv buf :
  Z.of_nat (length buf) = PING_BUFSIZE →
  let len := Z.to_nat (8 + datalen) in
  let b := store_at (echo_request datalen pid ICMP_ECHO seq tv buf) 2 [0; 0] in
  ∃ c0 c1, take len (store_at b 2 (le_bytes 2 (in_cksum (take len b)))) =
      request datalen pid ICMP_ECHO c0 c1 seq tv ∧
    in_cksum (request datalen pid ICMP_ECHO c0 c1 seq tv) = 0.
Proof using Hdata.
  intros Hb len b.
  destruct (echo_request_buf datalen pid ICMP_ECHO seq tv buf) as (c0 & c1 & rest & Hq & _); [lia|lia|].
  assert (Htake : ∀ c0 c1, take len (request datalen pid ICMP_ECHO c0 c1 seq tv ++ rest) =
    request datalen pid ICMP_ECHO c0 c1 seq tv).
  { intros d0 d1. unfold len. rewrite take_app_le, firstn_all2; [done|..];
      pose proof (length_request datalen pid ICMP_ECHO d0 d1 seq tv); lia. }
  unfold b. rewrite Hq, request_sum, Htake, le_bytes_sum, request_sum, Htake.
  eexists _, _. split; [done|]. apply request_verifies; [done|unfold PING_BUFSIZE in *; lia].
Qed.

(** What [send_v4] sends when the clock says [tv]. *)
Lemma wp_send_v4_at sockfd sasend st tv w :
  Z.of_nat (length (sendbuf st)) = PING_BUFSIZE →
  K (w_calls w) Cgettimeofday = ROk tv →
  wp K (send_v4 datalen pid sockfd sasend st) w (λ _ w', ∃ c0 c1,
    let d := request datalen pid ICMP_ECHO c0 c1 (nsent st) tv in
    sent_data (w_calls w') = sent_data (w_calls w) ++ [d] ∧ in_cksum d = 0).
Proof using Hdata.
  intros Hb HK. unfold send_v4. wp_step. unfold Gettimeofday. apply wp_or_err_sys. wp_step.
  rewrite HK. cbn [bind_post]. cbn zeta.
  destruct (send_v4_bytes (nsent st) tv (sendbuf st) Hb) as (c0 & c1 & -> & Hsum).
  wp_step. apply wp_Sendto_data.
  - intros w' Hw'. cbn [bind_post]. wp_step. by exists c0, c1.
  - intros o w' Hw' Ho. destruct o as [[]|c| |]; [by destruct (Ho tt)|..]; by exists c0, c1.
Qed.

(** * The loop *)

Lemma emits_silent_host sa n : emits silent_call (Sock_ntop_host sa n).
Proof. apply emits_or_err_sys; [apply report_silent|apply emits_ret]. Qed.

Lemma emits_silent_printf text : emits silent_call (printf text).
Proof. unfold printf, void. emits_tac. done. Qed.

(** The two protocols. *)
Definition ping_proto (v6 : bool) : proto :=
  if v6 then proto_v6 fmt_3f datalen pid verbose else proto_v4 fmt_3f datalen pid verbose.

Lemma emits_fproc v6 ptr len msg sa tv : emits silent_call (fproc (ping_proto v6) ptr len msg sa tv).
Proof.
  destruct v6; simpl; unfold proc_v4, proc_v6, ping_verbose;
    emits_tac; first [apply emits_silent_host|apply emits_silent_printf].
Qed.

(** The requests numbered from [a] to below [b]. *)
Definition good_requests (v6 : bool) (l : list (list Z)) : Prop :=
  ∀ i d, l !! i = Some d → good_request v6 (Z.of_nat i) d.

Lemma good_requests_snoc v6 l d :
  good_requests v6 l → good_request v6 (Z.of_nat (length l)) d → good_requests v6 (l ++ [d]).
Proof.
  intros Hl Hd i x Hx. apply lookup_app_Some in Hx as [Hx|[Hi Hx]]; [by apply Hl|].
  apply list_lookup_singleton_Some in Hx as [Hi0 <-]. by replace i with (length l) by lia.
Qed.

(** Between two rounds: the requests sent since [B] are numbered from 0. *)
Definition loop_inv (v6 : bool) (B : list (list Z)) (st : ping) (w : world) : Prop :=
  ∃ l, sent_data (w_calls w) = B ++ l ∧ good_requests v6 l ∧ ready (Z.of_nat (length l)) st.
Definition loop_post (v6 : bool) (B : list (list Z)) {A} (o : outcome A) (w : world) : Prop :=
  ∃ l, sent_data (w_calls w) = B ++ l ∧ good_requests v6 l.

Lemma wp_ping_sig_alrm v6 B sockfd sasend st w (Q : outcome ping → world → Prop) :
  loop_inv v6 B st w →
  (∀ o w', loop_post v6 B o w' → (∀ st', o = Val st' → loop_inv v6 B st' w') → Q o w') →
  wp K (ping_sig_alrm (ping_proto v6) sockfd sasend st) w Q.
Proof using Hdata.
  intros (l & Hw & Hl & Hr) HQ. unfold ping_sig_alrm. wp_step.
  replace (fsend (ping_proto v6)) with (if v6 then send_v6 datalen pid else send_v4 datalen pid)
    by by destruct v6.
  apply (wp_send v6 _ _ (Z.of_nat (length l))); [done|..].
  - intros o w' Hw' Ho.
    assert (Hp : ∀ A (o' : outcome A), loop_post v6 B o' w').
    { intros A o'. destruct Hw' as [Hw'|(d & Hd & Hw')].
      - exists l. by rewrite Hw', Hw.
      - exists (l ++ [d]). rewrite Hw', Hw, app_assoc. split; [done|]. by apply good_requests_snoc. }
    destruct o as [st'|c| |]; [by destruct (Ho st')|..]; cbn [bind_post]; by apply HQ.
  - intros st' w' d Hd Hw' Hr'. cbn [bind_post]. repeat wp_step.
    assert (Hl' : sent_data (w_calls w') = B ++ (l ++ [d]) ∧ good_requests v6 (l ++ [d])).
    { rewrite Hw', Hw, app_assoc. split; [done|]. by apply good_requests_snoc. }
    apply HQ; [by exists (l ++ [d])|]. intros st2 [= <-]. exists (l ++ [d]).
    destruct Hl' as [H1 H2]. split; [done|]. split; [done|]. rewrite length_app. simpl.
    by rewrite Nat2Z.inj_add.
Qed.

Lemma loop_inv_post {A} v6 B st (o : outcome A) w : loop_inv v6 B st w → loop_post v6 B o w.
Proof. intros (l & Hw & Hl & _). by exists l. Qed.

Lemma wp_ping_deliver v6 B sockfd sasend st w (Q : outcome ping → world → Prop) :
  loop_inv v6 B st w →
  (∀ o w', loop_post v6 B o w' → (∀ st', o = Val st' → loop_inv v6 B st' w') → Q o w') →
  wp K (ping_deliver (ping_proto v6) sockfd sasend st) w Q.
Proof using Hdata.
  intros HI HQ. unfold ping_deliver. repeat wp_step.
  apply (wp_for_each K (λ _, loop_inv v6 B)); [exact HI| |].
  - intros [] l' st1 w1 H1. apply (wp_ping_sig_alrm v6 B); [done|]. intros o w2 Hp Ho.
    destruct o as [st2|c| |]; cbn [bind_post]; [by apply Ho|..]; by apply HQ.
  - intros st1 w1 H1. apply HQ; [by eapply loop_inv_post|]. by intros st2 [= <-].
Qed.

(** Silent steps keep both. *)
Lemma loop_inv_silent v6 B st w w' :
  sent_data (w_calls w') = sent_data (w_calls w) → loop_inv v6 B st w → loop_inv v6 B st w'.
Proof. intros Hw (l & H & Hl & Hr). exists l. by rewrite Hw. Qed.

Lemma wp_ping_round v6 B sockfd sasend st w (Q : outcome (ping + unit) → world → Prop) :
  loop_inv v6 B st w →
  (∀ o w', loop_post v6 B o w' → (∀ r, o = Val r → ∃ st', r = inl st' ∧ loop_inv v6 B st' w') → Q o w') →
  wp K (ping_round (ping_proto v6) sockfd sasend st) w Q.
Proof using Hdata.
  intros HI HQ. unfold ping_round. wp_step. apply (wp_ping_deliver v6 B); [done|].
  intros o w1 Hp Ho. destruct o as [st1|c| |]; cbn [bind_post]; [|by apply HQ..].
  specialize (Ho st1 eq_refl). clear Hp HI. repeat wp_step.
  set (c := Crecvmsg_ctl sockfd PING_BUFSIZE). set (w2 := World (c :: _) _ _).
  assert (H2 : loop_inv v6 B st1 w2) by (by eapply loop_inv_silent).
  destruct (K (w_calls w1) c) as [[[data from] msg]|e]; cbn [bind_post].
  - wp_step. apply wp_silent; [apply emits_Gettimeofday_silent|]. intros o w3 H3.
    assert (Ho3 : loop_inv v6 B (set_recv st1 (overwrite (p_recvbuf st1) data) from) w3).
    { by eapply loop_inv_silent. }
    destruct o as [tv|x| |]; cbn [bind_post]; [|by apply HQ; [eapply loop_inv_post|]..].
    wp_step. apply wp_silent; [apply emits_fproc|]. intros o w4 H4.
    eapply loop_inv_silent in Ho3; [|exact H4].
    destruct o as [[]|x| |]; cbn [bind_post]; [|by apply HQ; [eapply loop_inv_post|]..].
    wp_step. apply HQ; [by eapply loop_inv_post|]. intros r [= <-]. by eexists.
  - repeat wp_step. wp_if.
    + wp_step. apply HQ; [by eapply loop_inv_post, loop_inv_silent|]. intros r [= <-]. eexists.
      split; [done|]. by eapply loop_inv_silent.
    + apply wp_err_sys. intros cs Hcs. apply HQ; [|done]. eapply (loop_inv_post v6 B st1).
      eapply loop_inv_silent; [|exact H2]. cbn [w_calls]. apply sent_silent.
      eapply Forall_impl; [exact Hcs|apply report_silent].
Qed.

Lemma wp_readloop fuel v6 B sasend recvbuf0 w :
  sent_data (w_calls w) = B →
  wp K (readloop fuel (ping_proto v6) sasend recvbuf0) w (loop_post v6 B).
Proof using Hdata.
  intros HB. unfold readloop, Socket.
  assert (Hq : ∀ A (m : M A) f w1, emits silent_call m → sent_data (w_calls w1) = B →
    (∀ a w', sent_data (w_calls w') = B → wp K (f a) w' (loop_post v6 B)) →
    wp K (m ≫= f : M unit) w1 (loop_post v6 B)).
  { intros A m f w1 Hm H1 Hf. wp_step. apply wp_silent; [done|]. intros o w2 H2. rewrite H1 in H2.
    destruct o; cbn [bind_post]; [by apply Hf|..]; (exists []; by rewrite app_nil_r). }
  apply Hq; [apply emits_or_err_sys; [apply report_silent|by emits_tac]|done|intros sockfd w1 H1].
  apply Hq; [by emits_tac|done|intros uid w2 H2].
  apply Hq; [by emits_tac|done|intros r3 w3 H3].
  apply Hq; [|done|intros r4 w4 H4].
  { destruct v6; simpl; [unfold init_v6, void|]; by emits_tac. }
  apply Hq; [by emits_tac|done|intros r5 w5 H5].
  wp_step. apply (wp_ping_sig_alrm v6 B).
  { exists []. rewrite app_nil_r. split; [done|]. split; [done|]. split; [done|].
    reflexivity. }
  intros o w6 Hp Ho. destruct o as [st|c| |]; cbn [bind_post]; [|done..].
  apply (wp_iter K (loop_inv v6 B)); [by apply Ho| |].
  - intros st1 w7 H7. apply (wp_ping_round v6 B); [done|]. intros o w8 Hp8 Ho8.
    destruct o as [r|c| |]; cbn [bind_post]; [|done..].
    destruct (Ho8 r eq_refl) as (st' & -> & Hst'). done.
  - intros st1 w7 H7. by eapply loop_inv_post.
Qed.
End send.

(** C25: whatever arrives and whenever the alarms come, the datagrams that
    [readloop] sends are the echo requests numbered 0, 1, 2 and so on, each with
    the identifier of the process, the time of its sending and [datalen] bytes of
    data; over IPv4 each carries a checksum that verifies. *)
Theorem readloop_requests K fmt_3f datalen pid verbose fuel v6 sasend recvbuf0 w :
  16 <= datalen <= PING_BUFSIZE - 8 →
  let w' := (readloop fuel (ping_proto fmt_3f datalen pid verbose v6) sasend recvbuf0 K w).2 in
  ∃ l, sent_data (w_calls w') = sent_data (w_calls w) ++ l ∧
    ∀ i d, l !! i = Some d → good_request datalen pid v6 (Z.of_nat i) d.
Proof. intros Hd. exact (wp_readloop K fmt_3f datalen pid verbose Hd fuel v6 _ sasend recvbuf0 w eq_refl). Qed.

(** * Replies *)

Definition tv_ok (tv : Z * Z) : Prop := -2 ^ 63 <= tv.1 < 2 ^ 63 ∧ -2 ^ 63 <= tv.2 < 2 ^ 63.

Lemma timeval_at_mem l tv rest :
  tv_ok tv → timeval_at (l ++ timeval_mem tv ++ rest) (Z.of_nat (length l)) = tv.
Proof.
  destruct tv as [s u]. intros [Hs Hu]. simpl in Hs, Hu. unfold timeval_at, timeval_mem. cbn [fst snd].
  assert (Hb : ∀ (a b : list Z), length a = 8%nat → bytes_at (a ++ b) 0 8 = a).
  { intros a b Ha. unfold bytes_at. change (Z.to_nat 0) with 0%nat. rewrite drop_0. by apply take_app_length'. }
  rewrite <-!app_assoc.
  assert (bytes_at (l ++ le_bytes 8 s ++ le_bytes 8 u ++ rest) (Z.of_nat (length l)) 8 = le_bytes 8 s) as ->.
  { replace (Z.of_nat (length l)) with (Z.of_nat (length l) + 0) by lia.
    rewrite bytes_at_app by lia. apply Hb, length_le_bytes. }
  assert (bytes_at (l ++ le_bytes 8 s ++ le_bytes 8 u ++ rest) (Z.of_nat (length l) + 8) 8 = le_bytes 8 u) as ->.
  { rewrite (app_assoc l). replace (Z.of_nat (length l) + 8) with (Z.of_nat (length (l ++ le_bytes 8 s)) + 0)
      by (rewrite length_app, length_le_bytes; lia).
    rewrite bytes_at_app by lia. apply Hb, length_le_bytes. }
  rewrite !of_le_bytes_le_bytes. change (2 ^ (8 * Z.of_nat 8)) with (2 ^ 64). unfold s64.
  f_equal; Z.div_mod_to_equations; lia.
Qed.

(** The answer of a host to a request: its type and checksum are changed. *)
Definition echo_reply (type code x0 x1 : Z) (d : list Z) : list Z := [type; code; x0; x1] ++ drop 4 d.

Section reply.
Context (fmt_3f : SpecFloat.spec_float → list Z) (datalen verbose : Z).

(** The fields of a reply behind [h], in a buffer. *)
Lemma reply_fields h pid k tv type code c0 c1 x0 x1 rest :
  tv_ok tv →
  let buf := h ++ echo_reply type code x0 x1 (request datalen pid ICMP_ECHO c0 c1 k tv) ++ rest in
  let o := Z.of_nat (length h) in
  icmp_type buf o = type ∧ icmp_id buf o = u16 pid ∧ icmp_seq buf o = u16 k ∧ timeval_at buf (o + 8) = tv.
Proof.
  intros Htv buf o.
  set (i := le_bytes 2 pid) in *. set (s := le_bytes 2 k) in *. set (pad := repeat 165 (Z.to_nat datalen - 16)) in *.
  assert (Hbuf : buf = (h ++ [type; code; x0; x1]) ++ i ++ s ++ timeval_mem tv ++ pad ++ rest).
  { unfold buf, echo_reply, request. change (drop 4 ([ICMP_ECHO; 0; c0; c1] ++ ?l)) with l.
    by rewrite <-!app_assoc. }
  assert (Hi : Z.of_nat (length i) = 2) by (unfold i; by rewrite length_le_bytes).
  assert (Hs : Z.of_nat (length s) = 2) by (unfold s; by rewrite length_le_bytes).
  split; [|split; [|split]].
  - unfold icmp_type, buf, o. replace (Z.of_nat (length h)) with (Z.of_nat (length h) + 0) by lia.
    by rewrite byte_at_app by lia.
  - unfold icmp_id. replace (o + 4) with (Z.of_nat (length (h ++ [type; code; x0; x1])) + 0)
      by (rewrite length_app; cbn [length]; lia).
    rewrite Hbuf, u16_at_app by lia. apply u16_at_le.
  - unfold icmp_seq. replace (o + 6) with (Z.of_nat (length ((h ++ [type; code; x0; x1]) ++ i)) + 0)
      by (rewrite !length_app; cbn [length]; lia).
    rewrite Hbuf, (app_assoc _ i), u16_at_app by lia. apply u16_at_le.
  - replace (o + 8) with (Z.of_nat (length (((h ++ [type; code; x0; x1]) ++ i) ++ s)))
      by (rewrite !length_app; cbn [length]; lia).
    rewrite Hbuf, (app_assoc _ i), (app_assoc _ s). by apply timeval_at_mem.
Qed.

(** The line for a reply. *)
Definition ping_line (len : Z) (host : list Z) (seq : Z) (ttl : list Z) (tv now : Z * Z) : list Z :=
  fmt_d len ++ str " bytes from " ++ host ++ str ": seq=" ++ fmt_u seq ++ ttl ++ str ", rtt="
    ++ fmt_3f (ms_of (tv_sub now tv)) ++ str " ms" ++ [ch_nl].

Lemma length_reply h pid k tv code c0 c1 x0 x1 :
  16 <= datalen →
  Z.of_nat (length (h ++ echo_reply ICMP_ECHOREPLY code x0 x1 (request datalen pid ICMP_ECHO c0 c1 k tv))) =
  Z.of_nat (length h) + 8 + datalen.
Proof.
  intros Hd. unfold echo_reply. pose proof (length_request datalen pid ICMP_ECHO c0 c1 k tv Hd).
  rewrite !length_app, length_drop. cbn [length]. lia.
Qed.

(** The reply to a request is reported with its number and time. *)
Lemma proc_v4_reply pid pid' h k tv code c0 c1 x0 x1 mem msg sa now :
  ip_header h → byte_at h 9 = IPPROTO_ICMP → 16 <= datalen → tv_ok tv →
  let d := request datalen pid ICMP_ECHO c0 c1 k tv in
  let ip := h ++ echo_reply ICMP_ECHOREPLY code x0 x1 d in
  proc_v4 fmt_3f pid' verbose (overwrite mem ip) (Z.of_nat (length ip)) msg sa now =
    if decide (u16 pid = pid') then
      (host ← Sock_ntop_host sa (sa_len sa);
       printf (ping_line (8 + datalen) host (u16 k) (str ", ttl=" ++ fmt_d (byte_at h 8)) tv now))
    else mret tt.
Proof.
  intros Hh Hp Hd Htv d ip. pose proof (length_reply h pid k tv code c0 c1 x0 x1 Hd) as Hlen.
  fold d in Hlen. fold ip in Hlen. unfold proc_v4.
  set (buf := overwrite mem ip).
  assert (Hbuf : buf = h ++ echo_reply ICMP_ECHOREPLY code x0 x1 d ++ drop (length ip) mem).
  { unfold buf, overwrite, ip. by rewrite <-app_assoc. }
  destruct (reply_fields h pid k tv ICMP_ECHOREPLY code c0 c1 x0 x1 (drop (length ip) mem) Htv)
    as (H1 & H2 & H3 & H4). fold d in H1, H2, H3, H4. rewrite <-Hbuf in H1, H2, H3, H4.
  assert (Hhl : ip_hlen buf 0 = Z.of_nat (length h)) by (rewrite Hbuf; by apply ip_hlen_head).
  destruct Hh as [Hh20 _].
  assert (Hip : ip_p buf 0 = IPPROTO_ICMP) by (rewrite Hbuf; unfold ip_p; by rewrite byte_at_head by lia).
  assert (Httl : ip_ttl buf 0 = byte_at h 8) by (rewrite Hbuf; unfold ip_ttl; by rewrite byte_at_head by lia).
  rewrite Hhl, Hip, Httl, H1, H2, H3, H4, Hlen.
  replace (Z.of_nat (length h) + 8 + datalen - Z.of_nat (length h)) with (8 + datalen) by lia.
  rewrite (decide_False (P := IPPROTO_ICMP ≠ IPPROTO_ICMP)), (decide_False (P := _ < 8)),
    (decide_True (P := ICMP_ECHOREPLY = _)), (decide_False (P := _ < 16)) by (done || lia).
  destruct (decide (u16 pid = pid')) as [Hpid|Hpid].
  - rewrite (decide_False (P := u16 pid ≠ pid')) by (by intros []). unfold ping_line.
    done.
  - by rewrite (decide_True (P := u16 pid ≠ pid')).
Qed.
End reply.

(** C26: [send_v4] and [proc_v4] agree.  [send_v4], called when the clock says
    [tv], sends one datagram, whose checksum verifies; and the echo reply of a host to
    that datagram (its type, code and checksum changed, the rest sent back), in
    an IP datagram with or without options, is reported by the process that sent
    it with the number of the request and the time since [tv], whatever the
    checksum of the reply and the old contents of the two buffers, and by no
    other process. *)
Theorem ping_round_trip (K : kernel) fmt_3f datalen pid verbose sockfd sasend st tv w :
  16 <= datalen <= PING_BUFSIZE - 8 → Z.of_nat (length (sendbuf st)) = PING_BUFSIZE →
  tv_ok tv → K (w_calls w) Cgettimeofday = ROk tv →
  let w' := (send_v4 datalen pid sockfd sasend st K w).2 in
  ∃ d, sent_data (w_calls w') = sent_data (w_calls w) ++ [d] ∧ in_cksum d = 0 ∧
    Z.of_nat (length d) = 8 + datalen ∧
    ∀ pid' h code x0 x1 mem msg sa now,
      ip_header h → byte_at h 9 = IPPROTO_ICMP →
      let ip := h ++ echo_reply ICMP_ECHOREPLY code x0 x1 d in
      proc_v4 fmt_3f pid' verbose (overwrite mem ip) (Z.of_nat (length ip)) msg sa now =
        if decide (u16 pid = pid') then
          (host ← Sock_ntop_host sa (sa_len sa);
           printf (ping_line fmt_3f (8 + datalen) host (u16 (nsent st))
                     (str ", ttl=" ++ fmt_d (byte_at h 8)) tv now))
        else mret tt.
Proof.
  intros Hd Hb Htv HK.
  pose proof (wp_send_v4_at K datalen pid Hd sockfd sasend st tv w Hb HK) as H.
  unfold wp in H. destruct (send_v4 datalen pid sockfd sasend st K w) as [o w'].
  destruct H as (c0 & c1 & Hw & Hs). eexists. split; [exact Hw|]. split; [exact Hs|].
  split; [apply length_request; lia|]. intros pid' h code x0 x1 mem msg sa now Hh Hp.
  by apply proc_v4_reply; [..|lia|].
Qed.

(** A reply of 16 to 23 bytes passes the test of its length, and the time is
    read in part from what the buffer held before. *)
Lemma proc_v4_short_reply :
  let h := 69 :: repeat 0 8 ++ [1] ++ repeat 0 10 in
  let ip := h ++ [ICMP_ECHOREPLY; 0; 0; 0] ++ le_bytes 2 7 ++ le_bytes 2 1 ++ le_bytes 8 5 in
  ∃ mem1 mem2, ¬ Z.of_nat (length ip) - 20 < 16 ∧
    timeval_at (overwrite mem1 ip) 28 = (5, 0) ∧ timeval_at (overwrite mem2 ip) 28 = (5, 1).
Proof.
  intros h ip. exists (repeat 0 1500), (repeat 0 36 ++ [1] ++ repeat 0 1463).
  split; [intros Hlt; vm_compute in Hlt; discriminate|]. split; vm_compute; reflexivity.
Qed.

(** * Instances *)

Definition ping_kernel0 : kernel := λ cs c,
  match c return ans c with
  | Cgettimeofday => ROk (1000, 500)
  | Csendto _ d _ => ROk (Z.of_nat (length d))
  | c => default_ans c
  end.

(** The request that process 4711 sends as its number 65537. *)
Definition ping_sent : world :=
  (send_v4 56 4711 3 (SaIn 0 [10; 0; 0; 9]) (Ping 65537 (repeat 0 1500) [] (SaOther 0))
     ping_kernel0 (World [] 0 false)).2.

Lemma ping_round_trip_witness :
  let h := [69; 0; 0; 84; 0; 0; 0; 0; 64; 1; 0; 0; 10; 0; 0; 9; 10; 0; 0; 1] in
  tv_sub (1001, 400) (1000, 500) = (0, 999900) ∧
  ∃ d, sent_data (w_calls ping_sent) = [d] ∧
    let ip := h ++ echo_reply ICMP_ECHOREPLY 0 1 2 d in
    proc_v4 (λ _, []) 4711 0 (overwrite (repeat 255 1500) ip) (Z.of_nat (length ip)) [] (SaIn 0 [10; 0; 0; 9]) (1001, 400) =
      (host ← Sock_ntop_host (SaIn 0 [10; 0; 0; 9]) (sa_len (SaIn 0 [10; 0; 0; 9]));
       printf (ping_line (λ _, []) 64 host 1 (str ", ttl=" ++ fmt_d 64) (1000, 500) (1001, 400))).
Proof.
  intros h. split; [reflexivity|].
  destruct (ping_round_trip ping_kernel0 (λ _, []) 56 4711 0 3 (SaIn 0 [10; 0; 0; 9])
    (Ping 65537 (repeat 0 1500) [] (SaOther 0)) (1000, 500) (World [] 0 false))
    as (d & Hd & _ & _ & Hr);
    [by_decide|reflexivity|split; simpl; lia|reflexivity|].
  exists d. split; [exact Hd|].
  exact (Hr 4711 h 0 1 2 (repeat 255 1500) [] (SaIn 0 [10; 0; 0; 9]) (1001, 400)
    ltac:(split; vm_compute; congruence) eq_refl).
Defined.

(** A kernel whose alarm comes once. *)
Definition ping_kernel : kernel := λ cs c,
  match c return ans c with
  | Cdeliver _ => if decide (length (sent_data cs) < 2)%nat then 1%nat else 0%nat
  | Crecvmsg_ctl _ _ => ROk ([69; 0; 0], SaIn 0 [10; 0; 0; 1], [])
  | Csocket _ _ _ => ROk 3
  | Csendto _ d _ => ROk (Z.of_nat (length d))
  | Csetsockopt _ _ _ _ => ROk tt
  | Cgettimeofday => ROk (1, 0)
  | c => default_ans c
  end.

Local Abbreviation ping_run :=
  (readloop 4 (ping_proto (λ _, []) 16 513 0 false) (SaIn 0 [10; 0; 0; 9]) [] ping_kernel (World [] 0 false)).

Lemma readloop_requests_witness :
  map (take 16) (sent_data (w_calls ping_run.2)) =
    [[8; 0; 245; 253; 1; 2; 0; 0; 1; 0; 0; 0; 0; 0; 0; 0]; [8; 0; 244; 253; 1; 2; 1; 0; 1; 0; 0; 0; 0; 0; 0; 0]] ∧
  let w' := ping_run.2 in
  ∃ l, sent_data (w_calls w') = sent_data [] ++ l ∧
    ∀ i d, l !! i = Some d → good_request 16 513 false (Z.of_nat i) d.
Proof.
  split; [vm_compute; reflexivity|].
  exact (readloop_requests ping_kernel (λ _, []) 16 513 0 4 false (SaIn 0 [10; 0; 0; 9]) [] (World [] 0 false)
    ltac:(unfold PING_BUFSIZE; lia)).
Defined.
