(* ===== verification/Trace.v ===== *)
(** [traceroute/]: UDP probes with growing TTL, and the ICMP messages that answer
    them.

    The alarm's handler sets [gotalarm]; it runs at the points [Cdeliver SIGALRM],
    before and after the test of the flag ([recvfrom] is interrupted by a signal
    inside it, and fails with [EINTR]). *)

From S2P Require Import Prelude Net Sys Error Wrap SockAddr Io Connect TcpServ Mcast Rtt Packet Ping.

(** * trace.h *)

Definition TRACE_BUFSIZE : Z := 1500.

(** [struct rec]: the sequence number, the TTL and the time, 24 bytes with the
    padding of the static buffer. *)
Definition sizeof_rec : Z := 24.
Definition rec_mem (seq ttl : Z) (tv : Z * Z) : list Z :=
  le_bytes 2 seq ++ le_bytes 2 ttl ++ repeat 0 4 ++ timeval_mem tv.

(** The variables that receiving changes: [gotalarm], [recvbuf], [*pr->sarecv]. *)
Record tracer := Tracer { gotalarm : bool; recvbuf : list Z; sarecv : sockaddr }.
Definition set_alarm (b : bool) (st : tracer) : tracer := Tracer b (recvbuf st) (sarecv st).

(** * sig_alrm.c *)

(** The handler, if the signal arrives here. *)
Definition trace_deliver (st : tracer) : M tracer :=
  n ← sys (Cdeliver SIGALRM);
  mret (if decide (n = 0%nat) then st else set_alarm true st).

Section recv.
Context (sport dport verbose recvfd : Z).

(** * recv_v4.c *)

(** The quoted header at [hip] is of the datagram sent with [seq]; an integer on
    the left is promoted from [u_short]. *)
Definition ours (buf : list Z) (proto udp seq : Z) : bool :=
  bool_decide (proto = IPPROTO_UDP ∧ uh_sport buf udp = htons sport ∧ uh_dport buf udp = htons (dport + seq)).

(** What the loop does with a packet: goes to [continue], reports another ICMP
    message, or leaves the loop with [ret]. *)
Inductive verdict := Ignore | Other (type code : Z) | Answer (ret : Z).

Definition judge_v4 (seq : Z) (buf : list Z) (n : Z) : verdict :=
  let hlen1 := ip_hlen buf 0 in
  let icmplen := n - hlen1 in
  if decide (icmplen < 8) then Ignore
  else
    let type := icmp_type buf hlen1 in
    let code := icmp_code buf hlen1 in
    let hip := hlen1 + 8 in
    let hlen2 := ip_hlen buf hip in
    if decide (type = ICMP_TIMXCEED ∧ code = ICMP_TIMXCEED_INTRANS) then
      if decide (icmplen < 8 + 20) then Ignore
      else if decide (icmplen < 8 + hlen2 + 4) then Ignore
      else if ours buf (ip_p buf hip) (hip + hlen2) seq then Answer (-2)
      else Other type code
    else if decide (type = ICMP_UNREACH) then
      if decide (icmplen < 8 + 20) then Ignore
      else if decide (icmplen < 8 + hlen2 + 4) then Ignore
      else if ours buf (ip_p buf hip) (hip + hlen2) seq then
        Answer (if decide (code = ICMP_UNREACH_PORT) then -1 else code)
      else Other type code
    else Other type code.

(** * recv_v6.c *)

(** The [break] of the first case is not in the [if]: [ret0] is what [ret] holds
    before it is assigned.  The report is the last [else] of the chain. *)
Definition judge_v6 (ret0 seq : Z) (buf : list Z) (n : Z) : verdict :=
  if decide (n < 8) then Ignore
  else
    let type := icmp_type buf 0 in
    let code := icmp_code buf 0 in
    let udp := 8 + sizeof_ip6_hdr in
    if decide (type = ICMP6_TIME_EXCEEDED ∧ code = ICMP6_TIME_EXCEED_TRANSIT) then
      if decide (n < 8 + sizeof_ip6_hdr + 4) then Ignore
      else if ours buf (ip6_nxt buf 8) udp seq then Answer (-2)
      else Answer ret0
    else if decide (type = ICMP6_DST_UNREACH) then
      if decide (n < 8 + sizeof_ip6_hdr + 4) then Ignore
      else if ours buf (ip6_nxt buf 8) udp seq then
        Answer (if decide (code = ICMP6_DST_UNREACH_NOPORT) then -1 else code)
      else Ignore
    else Other type code.

(** The loop of both, with the test of a packet as a parameter; the result is
    [inl] at [return(-3)]. *)
Definition recv_round (judge : list Z → Z → verdict) (st : tracer)
    : M (tracer + tracer * option Z) :=
  st ← trace_deliver st;
  if gotalarm st then mret (inr (st, None))
  else
    st ← trace_deliver st;
    r ← checked (sys (Crecvfrom recvfd TRACE_BUFSIZE));
    match r with
    | RErr _ =>
        errno ← get_errno;
        if decide (errno = EINTR) then mret (inl st) else err_sys (str "recvfrom error")
    | ROk (data, from) =>
        let st := Tracer (gotalarm st) (overwrite (recvbuf st) data) from in
        match judge (recvbuf st) (Z.of_nat (length data)) with
        | Ignore => mret (inl st)
        | Answer ret => mret (inr (st, Some ret))
        | Other type code =>
            (if decide (verbose ≠ 0) then
               h ← Sock_ntop_host (sarecv st) (sa_len (sarecv st));
               printf (str " (from " ++ h ++ str ": type = " ++ fmt_d type ++ str ", code = "
                         ++ fmt_d code ++ str ")" ++ [ch_nl])
             else mret tt);;
            mret (inl st)
        end
    end.

(** The result and [*tv], which [return(-3)] does not store. *)
Definition recv_loop (fuel : nat) (judge : list Z → Z → verdict) (st : tracer)
    : M (tracer * Z * option (Z * Z)) :=
  sys (Calarm 3);;
  '(st, ret) ← iter fuel (recv_round judge) (set_alarm false st);
  match ret with
  | None => mret (st, -3, None)
  | Some ret =>
      sys (Calarm 0);;
      tv ← Gettimeofday;
      mret (st, ret, Some tv)
  end.

Definition recv_v4 (fuel : nat) (seq : Z) (st : tracer) : M (tracer * Z * option (Z * Z)) :=
  recv_loop fuel (judge_v4 seq) st.
Definition recv_v6 (fuel : nat) (ret0 seq : Z) (st : tracer) : M (tracer * Z * option (Z * Z)) :=
  recv_loop fuel (judge_v6 ret0 seq) st.
End recv.

(** * icmpcode_v4.c and icmpcode_v6.c *)

Definition unknown_code (code : Z) : list Z := str "[unknown code " ++ fmt_d code ++ str "]".

Definition icmpcode_v4 (code : Z) : list Z :=
  let texts := map str
    ["network unreachable"; "host unreachable"; "protocol unreachable"; "port unreachable";
     "fragmentation required but DF bit set"; "source route failed"; "destination network unknown";
     "destination host unknown"; "source host isolated (obsolete)";
     "destination network administratively prohibited"; "destination host administratively prohibited";
     "network unreachable for TOS"; "host unreachable for TOS";
     "communication administratively prohibited by filtering"; "host recedence violation";
     "precedence cutoff in effect"]%string in
  if decide (0 <= code) then default (unknown_code code) (texts !! Z.to_nat code) else unknown_code code.

Definition icmpcode_v6 (code : Z) : list Z :=
  let texts := map str
    ["no route to host"; "administratively prohibited"; "not a neighbor"; "address unreachable";
     "port unreachable"]%string in
  if decide (0 <= code) then default (unknown_code code) (texts !! Z.to_nat code) else unknown_code code.

(** * traceloop.c *)

(** [struct proto]; the receiving function is applied to the ports. *)
Record tproto := TProto {
  icmpcode : Z → list Z;
  recv : Z → Z → Z → Z → nat → Z → tracer → M (tracer * Z * option (Z * Z));
  ticmpproto : Z;
  ttllevel : Z;
  ttloptname : Z
}.
Definition tproto_v4 : tproto := TProto icmpcode_v4 recv_v4 IPPROTO_ICMP IPPROTO_IP 2.
Definition tproto_v6 (ret0 : Z) : tproto :=
  TProto icmpcode_v6 (λ sport dport verbose fd fuel, recv_v6 sport dport verbose fd fuel ret0)
    IPPROTO_ICMPV6 IPPROTO_IPV6 IPV6_UNICAST_HOPS.

Section traceloop.
Context (fmt_3f : SpecFloat.spec_float → list Z) (fuel : nat).
Context (pr : tproto) (sasend : sockaddr) (datalen nprobes dport verbose : Z).

(** The variables of the loops: [seq], [done], [*pr->salast], and those of the
    receiving function. *)
Record tloop := TLoop { t_seq : Z; t_done : Z; salast : sockaddr; t_st : tracer }.

(** [printf("%2d ", ttl)] *)
Definition fmt_2d (n : Z) : list Z := let t := fmt_d n in repeat 32 (2 - length t) ++ t.

(** The name of the host that answered, when it is not the last one. *)
Definition print_host (last now : sockaddr) : M unit :=
  if decide (sock_cmp_addr now last ≠ 0) then
    r ← sys (Cgetnameinfo now 1025 0 0);
    match r with
    | Some (name, _) =>
        h ← Sock_ntop_host now (sa_len now);
        printf (str " " ++ name ++ str " (" ++ h ++ str ")")
    | None =>
        h ← Sock_ntop_host now (sa_len now);
        printf (str " " ++ h)
    end
  else mret tt.

Definition probe (sendfd recvfd sport ttl : Z) (s : tloop) : M tloop :=
  let seq := t_seq s + 1 in
  tv ← Gettimeofday;
  Sendto sendfd (take (Z.to_nat datalen) (rec_mem seq ttl tv)) (sock_set_port sasend (htons (dport + seq)));;
  '(st, code, tvrecv) ← recv pr sport dport verbose recvfd fuel seq (t_st s);
  s ← (if decide (code = -3) then printf (str " *");; mret (TLoop seq (t_done s) (salast s) st)
       else
         let tvrecv := default (0, 0) tvrecv in        (* stored, since [code] is not -3 *)
         print_host (salast s) (sarecv st);;
         printf (str "  " ++ fmt_3f (ms_of (tv_sub tvrecv tv)) ++ str " ms");;
         (if decide (code ≠ -1 ∧ code >= 0) then printf (str " (ICMP " ++ icmpcode pr code ++ str ")")
          else mret tt);;
         mret (TLoop seq (if decide (code = -1) then t_done s + 1 else t_done s)
           (if decide (sock_cmp_addr (sarecv st) (salast s) ≠ 0) then sarecv st else salast s) st));
  sys (Cfflush stdout);;
  mret s.

(** One TTL: the option, the zeroed [salast], the probes. *)
Definition one_ttl (sendfd recvfd sport ttl : Z) (s : tloop) : M tloop :=
  Setsockopt sendfd (ttllevel pr) (ttloptname pr) (le_bytes 4 ttl);;
  printf (fmt_2d ttl ++ str " ");;
  sys (Cfflush stdout);;
  s ← for_each (seqZ 0 nprobes) (λ _, probe sendfd recvfd sport ttl)
        (TLoop (t_seq s) (t_done s) (SaOther 0) (t_st s));
  printf [ch_nl];;
  mret s.

(** [for (ttl = 1; ttl <= max_ttl && done == 0; ttl++)] *)
Definition ttl_loop (sendfd recvfd sport max_ttl : Z) (s : tloop) : M tloop :=
  for_each (seqZ 1 max_ttl) (λ ttl s,
    if decide (t_done s = 0) then one_ttl sendfd recvfd sport ttl s else mret s) s.

Definition traceloop (max_ttl : Z) : M unit :=
  recvfd ← Socket (sa_family sasend) SOCK_RAW (ticmpproto pr);
  uid ← sys Cgetuid;
  checked (sys (Csetuid uid));;
  (if decide (sa_family sasend = AF_INET6 ∧ verbose = 0) then
     void (checked (sys (Csetsockopt recvfd IPPROTO_IPV6 ICMP6_FILTER
       (icmp6_filter [ICMP6_TIME_EXCEEDED; ICMP6_DST_UNREACH]))))
   else mret tt);;
  sendfd ← Socket (sa_family sasend) SOCK_DGRAM 0;
  pid ← sys Cgetpid;
  let sport := Z.lor (Z.land pid 65535) 32768 in
  let sabind := match sasend with
                | SaIn _ _ => SaIn (htons sport) INADDR_ANY
                | SaIn6 _ _ => SaIn6 (htons sport) in6addr_any
                | _ => SaOther (sa_family sasend)
                end in
  Bind sendfd sabind;;
  void (ttl_loop sendfd recvfd sport max_ttl
    (TLoop 0 0 (SaOther 0) (Tracer true (repeat 0 (Z.to_nat TRACE_BUFSIZE)) (SaOther 0)))).
End traceloop.

(** * main.c *)

(** [verbose] and [max_ttl] after an option. *)
Definition trace_option (c : Z * list Z) (o : Z * Z) : M (Z * Z) :=
  if decide (fst c = 109) then
    let max_ttl := atoi (snd c) in
    if decide (max_ttl <= 1) then err_quit (str "invalid -m value") else mret (fst o, max_ttl)
  else if decide (fst c = 118) then mret (fst o + 1, snd o)
  else if decide (fst c = ch_question) then err_quit (str "unrecognized option: ?")
  else mret o.

(** [ret0] is what the variable [ret] of [recv_v6] holds at entry. *)
Definition trace_main (fuel : nat) (fmt_3f : SpecFloat.spec_float → list Z) (ret0 : Z)
    (getopt : list (list Z) → list (Z * list Z) * list (list Z)) (argv : list (list Z)) : M unit :=
  let '(opts, args) := getopt argv in
  '(verbose, max_ttl) ← for_each opts trace_option (0, 30);
  match args with
  | [host] =>
      sys Cgetpid;;
      Signal SIGALRM (Handler "sig_alrm");;
      '(ai, _) ← Host_serv (Some host) None 0 0;
      h ← Sock_ntop_host (ai_addr ai) (ai_addrlen ai);
      printf (str "traceroute to " ++ default h (ai_canonname ai) ++ str " (" ++ h ++ str "): "
                ++ fmt_d max_ttl ++ str " hops max, " ++ fmt_d sizeof_rec ++ str " data bytes" ++ [ch_nl]);;
      pr ← (if decide (ai_family ai = AF_INET) then mret tproto_v4
            else if decide (ai_family ai = AF_INET6) then
              if v4mapped (ai_addr ai) then
                err_quit (str "cannot traceroute IPv4-mapped IPv6 address")
              else mret (tproto_v6 ret0)
            else err_quit (str "unknown address family " ++ fmt_d (ai_family ai)));
      Calloc 1 (ai_addrlen ai);;
      Calloc 1 (ai_addrlen ai);;
      Calloc 1 (ai_addrlen ai);;
      traceloop fmt_3f fuel pr (ai_addr ai) sizeof_rec 3 (32768 + 666) verbose max_ttl;;
      exit 0
  | _ => err_quit (str "usage: traceroute [ -m <maxttl> -v ] <hostname>")
  end.
