(* ===== verification/TraceSpec.v ===== *)
(** Properties of [Trace]: what is taken as an answer to a probe, which probes are
    sent, and that the program ends. *)

From S2P Require Import Prelude Net Sys Error Wrap SockAddr Io Connect TcpServ Ends Mcast Rtt Packet Ping Trace.

(** * Packets in a reused buffer *)

Lemma byte_overwrite mem data i :
  i < Z.of_nat (length data) → (0 < length data)%nat → byte_at (overwrite mem data) i = byte_at data i.
Proof. intros Hi Hd. unfold byte_at, overwrite. apply app_nth1. lia. Qed.

Lemma u16_overwrite mem data i :
  i + 1 < Z.of_nat (length data) → (0 < length data)%nat → u16_at (overwrite mem data) i = u16_at data i.
Proof. intros Hi Hd. unfold u16_at. by rewrite !byte_overwrite by lia. Qed.

Lemma ip_hlen_overwrite mem data i :
  i < Z.of_nat (length data) → (0 < length data)%nat → ip_hlen (overwrite mem data) i = ip_hlen data i.
Proof. intros Hi Hd. unfold ip_hlen. by rewrite byte_overwrite. Qed.

Section judge.
Context (sport dport : Z).

Lemma ours_overwrite mem data proto udp seq :
  udp + 4 <= Z.of_nat (length data) → (0 < length data)%nat →
  ours sport dport (overwrite mem data) proto udp seq = ours sport dport data proto udp seq.
Proof.
  intros Hu Hd. unfold ours, uh_sport, uh_dport. by rewrite !u16_overwrite by lia.
Qed.

(** [recv_v4] and [recv_v6] look only at the bytes they have received: what
    the buffer held before a packet arrived makes no difference to their verdict,
    whatever header lengths the packet claims. *)
Theorem recv_no_stale mem data seq ret0 :
  let n := Z.of_nat (length data) in
  judge_v4 sport dport seq (overwrite mem data) n = judge_v4 sport dport seq data n ∧
  judge_v6 sport dport ret0 seq (overwrite mem data) n = judge_v6 sport dport ret0 seq data n.
Proof.
  intros n. destruct (decide (data = [])) as [->|Hne].
  { split; [|reflexivity]. unfold judge_v4. cbn [length Z.of_nat] in *. subst n.
    pose proof (ip_hlen_range (overwrite mem []) 0). pose proof (ip_hlen_range [] 0).
    by rewrite !decide_True by (simpl; lia). }
  assert (Hd : (0 < length data)%nat) by (destruct data; simpl; [done|lia]).
  split.
  - unfold judge_v4. rewrite (ip_hlen_overwrite mem data 0) by lia.
    pose proof (ip_hlen_range data 0) as H1. set (h := ip_hlen data 0) in *.
    case_decide as Hs; [done|]. unfold icmp_type, icmp_code. rewrite !byte_overwrite by lia.
    set (type := byte_at data h). set (code := byte_at data (h + 1)).
    assert (Hq : ∀ X Y : verdict,
      (if decide (n - h < 8 + 20) then Ignore
       else if decide (n - h < 8 + ip_hlen (overwrite mem data) (h + 8) + 4) then Ignore
       else if ours sport dport (overwrite mem data) (ip_p (overwrite mem data) (h + 8))
                 (h + 8 + ip_hlen (overwrite mem data) (h + 8)) seq then X else Y) =
      (if decide (n - h < 8 + 20) then Ignore
       else if decide (n - h < 8 + ip_hlen data (h + 8) + 4) then Ignore
       else if ours sport dport data (ip_p data (h + 8)) (h + 8 + ip_hlen data (h + 8)) seq then X else Y)).
    { intros X Y. case_decide as H28; [done|]. rewrite ip_hlen_overwrite by lia.
      case_decide as Hl; [done|]. unfold ip_p. rewrite byte_overwrite by lia.
      by rewrite ours_overwrite by lia. }
    by rewrite !Hq.
  - unfold judge_v6, sizeof_ip6_hdr. case_decide as Hs; [done|].
    unfold icmp_type, icmp_code, ip6_nxt. rewrite !byte_overwrite by lia.
    case_decide as Ht; [|case_decide; [|done]]; (case_decide as Hl; [done|]);
      rewrite byte_overwrite by lia; by rewrite ours_overwrite by lia.
Qed.

(** The code that answers a probe. *)
Definition answer_of (type code : Z) : option Z :=
  if decide (type = ICMP_TIMXCEED ∧ code = ICMP_TIMXCEED_INTRANS) then Some (-2)
  else if decide (type = ICMP_UNREACH) then Some (if decide (code = ICMP_UNREACH_PORT) then -1 else code)
  else None.

(** C27: an ICMP error that quotes a UDP datagram with our ports is the answer to
    the probe [seq] with the code of its type (-2 for time exceeded, -1 for port
    unreachable, else the code of the destination unreachable), whatever options
    the two IP headers have and whatever the buffer held; one that quotes another
    protocol or other ports is not. *)
Theorem judge_v4_answers mem h1 type code x6 h2 sp dp rest seq :
  ip_header h1 → ip_header h2 → length x6 = 6%nat → is_u16 sp → is_u16 dp →
  let data := icmp_error h1 type code x6 h2 (be16 sp ++ be16 dp) rest in
  judge_v4 sport dport seq (overwrite mem data) (Z.of_nat (length data)) =
    match answer_of type code with
    | Some r =>
        if decide (byte_at h2 9 = IPPROTO_UDP ∧ sp = u16 sport ∧ dp = u16 (dport + seq)) then Answer r
        else Other type code
    | None => Other type code
    end.
Proof.
  intros H1 H2 Hx Hsp Hdp data. destruct (recv_no_stale mem data seq 0) as [-> _].
  destruct (icmp_error_head h1 type code x6 h2 (be16 sp ++ be16 dp) rest H1 Hx) as (Hh & Htype & Hcode).
  destruct (icmp_error_ip h1 type code x6 h2 (be16 sp ++ be16 dp) rest H2 Hx) as (Hhl & Hp).
  destruct (icmp_error_ports h1 type code x6 h2 (be16 sp ++ be16 dp) rest Hx sp dp eq_refl) as (Hsport & Hdport).
  pose proof (length_icmp_error h1 type code x6 h2 (be16 sp ++ be16 dp) rest Hx) as Hlen.
  fold data in Hh, Htype, Hcode, Hhl, Hp, Hsport, Hdport, Hlen.
  destruct H1 as [Hl1 _]. destruct H2 as [Hl2 _].
  unfold judge_v4. rewrite Hh, Hlen. cbn [length be16 app] in Hlen |- *.
  rewrite (decide_False (P := _ < 8)) by lia.
  rewrite Htype, Hcode, Hhl, Hp. set (h := Z.of_nat (length h1)) in *.
  assert (Ho : ours sport dport data (byte_at h2 9) (h + 8 + Z.of_nat (length h2)) seq =
    bool_decide (byte_at h2 9 = IPPROTO_UDP ∧ sp = u16 sport ∧ dp = u16 (dport + seq))).
  { unfold ours. rewrite Hsport, Hdport. apply bool_decide_ext. unfold htons.
    assert (Hsw : ∀ x y, is_u16 x → swap16 x = swap16 (u16 y) ↔ x = u16 y).
    { intros x y Hx16. split; [|by intros ->]. intros Hxy. rewrite <-(swap16_involutive x) by done.
      rewrite Hxy. apply swap16_involutive. unfold is_u16, u16. apply Z.mod_pos_bound. lia. }
    by rewrite !Hsw. }
  rewrite Ho. unfold answer_of.
  assert (Hdec : ∀ (P : Prop) `{!Decision P} (X Y : verdict),
    (if bool_decide P then X else Y) = (if decide P then X else Y)).
  { intros P ? X Y. by destruct (decide P); [rewrite bool_decide_eq_true_2|rewrite bool_decide_eq_false_2]. }
  rewrite !Hdec. rewrite !(decide_False (P := _ < _)) by lia.
  destruct (decide (type = ICMP_TIMXCEED ∧ code = ICMP_TIMXCEED_INTRANS)); [done|].
  destruct (decide (type = ICMP_UNREACH)); done.
Qed.
End judge.

(** The quoted header of a time exceeded message for a UDP datagram from another
    port: [recv_v6] leaves the loop all the same, with whatever [ret] held. *)
Definition foreign_v6 : list Z :=
  [3; 0; 0; 0; 0; 0; 0; 0] ++ repeat 0 6 ++ [17] ++ repeat 0 33 ++ be16 7 ++ be16 9.

Lemma recv_v6_foreign ret0 :
  judge_v6 40000 33434 ret0 1 foreign_v6 (Z.of_nat (length foreign_v6)) = Answer ret0.
Proof. vm_compute. reflexivity. Qed.

(** * The receiving loop *)

(** Packets awaited since the alarm was set. *)
Fixpoint waits (cs : list call) : nat :=
  match cs with
  | [] => 0
  | Calarm _ :: _ => 0
  | Crecvfrom _ _ :: cs' => S (waits cs')
  | _ :: cs' => waits cs'
  end.

(** The alarm that is running after a history, with the packets awaited since it
    was set: [alarm] with a time starts one and [alarm(0)] stops it, and its
    signal is delivered once. *)
Fixpoint armed (K : kernel) (cs : list call) : option nat :=
  match cs with
  | [] => None
  | Calarm sec :: _ => if decide (0 < sec) then Some 0%nat else None
  | Cdeliver s :: cs' =>
      if decide (s = SIGALRM ∧ K cs' (Cdeliver s) ≠ 0%nat) then None else armed K cs'
  | Crecvfrom _ _ :: cs' => S <$> armed K cs'
  | _ :: cs' => armed K cs'
  end.

(** An alarm that is running arrives while at most [n] packets have come since it
    was set; nothing is said of a time when none is. *)
Definition timely (K : kernel) (n : nat) : Prop :=
  ∀ cs k, armed K cs = Some k → (n <= k)%nat → K cs (Cdeliver SIGALRM) ≠ 0%nat.

Lemma armed_waits K cs k : armed K cs = Some k → waits cs = k.
Proof.
  revert k. induction cs as [|c cs IH]; intros k; [done|].
  destruct c; cbn [armed waits];
    first [apply IH
          |intros (j & Hj & ->)%fmap_Some; by rewrite (IH j)
          |case_decide; first [by intros [= <-]|done|apply IH]].
Qed.

(** Calls that neither wait nor send nor set the TTL, nor let the signal in. *)
Definition idle_call (c : call) : Prop :=
  match c with
  | Crecvfrom _ _ | Csendto _ _ _ | Csetsockopt _ _ _ _ | Calarm _ | Cdeliver _ => False
  | _ => True
  end.

Lemma report_idle c : report_call c → idle_call c.
Proof. by destruct c. Qed.

Lemma armed_idle K cs cs' : Forall idle_call cs → armed K (cs ++ cs') = armed K cs'.
Proof. induction 1 as [|c cs Hc _ IH]; [done|]. by destruct c. Qed.

#[export] Hint Resolve report_idle : unp.

Lemma emits_trace_printf (P : call → Prop) text : P (Cfputs stdout text) → emits P (printf text).
Proof. intros HP. unfold printf, void. emits_tac. done. Qed.

Lemma emits_Sock_ntop_host sa salen : emits idle_call (Sock_ntop_host sa salen).
Proof. apply emits_or_err_sys; [apply report_idle|apply emits_ret]. Qed.

(** A program that emits idle calls and ends, as a step of another. *)
Lemma wp_quiet {A} (K : kernel) (m : M A) w (Q : outcome A → world → Prop) :
  emits idle_call m → ends K m →
  (∀ o cs w', Forall idle_call cs → w_calls w' = cs ++ w_calls w → o ≠ Diverge → Q o w') →
  wp K m w Q.
Proof.
  intros Hm He HQ. destruct (Hm K w) as (cs & Hw & Hcs). unfold wp. by apply (HQ _ cs).
Qed.

Section recv_loop.
Context (K : kernel) (verbose recvfd : Z) (judge : list Z → Z → verdict).

(** After the point of delivery: either the flag is set, or the alarm that was
    running is still running. *)
Lemma wp_trace_deliver st w (Q : outcome tracer → world → Prop) :
  (∀ st' w', w_calls w' = Cdeliver SIGALRM :: w_calls w →
     (gotalarm st = true → gotalarm st' = true) →
     (gotalarm st' = false → K (w_calls w) (Cdeliver SIGALRM) = 0%nat ∧
        armed K (w_calls w') = armed K (w_calls w)) →
     Q (Val st') w') →
  wp K (trace_deliver st) w Q.
Proof.
  intros HQ. unfold trace_deliver. wp_step. wp_step. wp_step. apply HQ; [done|..]; case_decide as Hd; try done.
  intros _. split; [done|]. cbn [w_calls armed]. rewrite decide_False; [done|]. by intros [_ ?].
Qed.

(** A round with at most [k] packets awaited before, that can be followed by
    another: the flag is set, or the alarm is running. *)
Definition awaiting (k : nat) (st : tracer) (w : world) : Prop :=
  gotalarm st = true ∨ armed K (w_calls w) = Some k.

(** One round: once the alarm is due it ends. *)
Lemma wp_recv_round n k st w (Q : outcome (tracer + tracer * option Z) → world → Prop) :
  timely K n → awaiting k st w →
  (∀ o w', (∀ st', o = Val (inl st') → (k < n)%nat ∧ awaiting (S k) st' w') → o ≠ Diverge → Q o w') →
  wp K (recv_round verbose recvfd judge st) w Q.
Proof.
  intros Ht Hst HQ. unfold recv_round. wp_step. apply wp_trace_deliver. intros st1 w1 _ Hf1 Hd1. cbn [bind_post].
  destruct (gotalarm st1) eqn:Hg; [wp_step; by apply HQ|].
  destruct (Hd1 eq_refl) as [HK0 Ha1]. destruct Hst as [Hst|Hst]; [by specialize (Hf1 Hst)|].
  assert (Hk : (k < n)%nat).
  { destruct (decide (k < n)%nat) as [|Hk]; [done|]. by destruct (Ht (w_calls w) k Hst ltac:(lia)). }
  rewrite Hst in Ha1. clear Hd1 Hf1 HK0 Hst Hg.
  wp_step. apply wp_trace_deliver. intros st2 w2 _ _ Hd2. cbn [bind_post]. repeat wp_step.
  set (c := Crecvfrom recvfd TRACE_BUFSIZE).
  assert (Hnext : ∀ b mem sa cs w', Forall idle_call cs → w_calls w' = cs ++ c :: w_calls w2 →
    b = gotalarm st2 → awaiting (S k) (Tracer b mem sa) w').
  { intros b mem sa cs w' Hcs Hw ->. unfold awaiting. cbn [gotalarm].
    destruct (gotalarm st2) eqn:Hg; [by left|right].
    destruct (Hd2 eq_refl) as [_ Ha2]. rewrite Hw, armed_idle by done. unfold c. cbn [armed].
    by rewrite Ha2, Ha1. }
  assert (Hend : ∀ st' cs w', Forall idle_call cs → w_calls w' = cs ++ c :: w_calls w2 →
    gotalarm st' = gotalarm st2 → Q (Val (inl st')) w').
  { intros [b mem sa] cs w' Hcs Hw Hb. apply HQ; [|done]. intros st3 [= <-]. split; [done|].
    by apply (Hnext _ _ _ cs). }
  match goal with |- context [K ?cs c] => destruct (K cs c) as [[data from]|e] end; cbn [bind_post].
  - destruct (judge _ _) as [|type code|ret].
    + wp_step. by apply (Hend _ []).
    + wp_step. apply wp_quiet.
      * emits_tac; [apply emits_Sock_ntop_host|by apply emits_trace_printf].
      * auto with unp.
      * intros o cs w' Hcs Hw Ho. destruct o as [[]|x| |]; cbn [bind_post]; [wp_step|by apply HQ..|done].
        by apply (Hend _ cs).
    + wp_step. by apply HQ.
  - repeat wp_step. wp_if; [wp_step; by apply (Hend _ [])|]. apply wp_err_sys. intros cs Hcs. by apply HQ.
Qed.

(** The loop sets an alarm, and ends when it does not fail to come. *)
Lemma recv_loop_ends n fuel st : timely K n → (n < fuel)%nat → ends K (recv_loop verbose recvfd fuel judge st).
Proof.
  intros Ht Hf w. change (wp K (recv_loop verbose recvfd fuel judge st) w (λ o _, o ≠ Diverge)).
  unfold recv_loop. wp_step. wp_step. wp_step.
  apply (wp_iter_count K (λ k st1 w', awaiting k st1 w' ∧ (k <= n)%nat)); [split; [by right|lia]| |].
  - intros k st1 w1 [Hst Hn]. apply (wp_recv_round n k); [done|done|].
    intros o w' Ho Hnd. destruct o as [[st'|[st' [r|]]]|c| |]; cbn [bind_post]; try done.
    + destruct (Ho st' eq_refl). split; [done|lia].
    + apply ends_bind; [done|]. intros _. apply ends_bind; [|done]. by apply ends_or_err_sys.
  - intros st1 w1 [_ Hn]. lia.
Qed.
End recv_loop.

(** * The probes *)

(** The TTL in force after a history, and the probes sent: with which TTL, the
    sequence number and TTL written in the datagram, and its destination. *)
Section probes.
Context (level opt : Z).

Fixpoint ttl_now (cs : list call) : list Z :=
  match cs with
  | [] => []
  | Csetsockopt _ l o v :: cs' => if decide (l = level ∧ o = opt) then v else ttl_now cs'
  | _ :: cs' => ttl_now cs'
  end.

Fixpoint probes (cs : list call) : list (list Z * list Z * sockaddr) :=
  match cs with
  | [] => []
  | Csendto _ d sa :: cs' => probes cs' ++ [(ttl_now cs', take 4 d, sa)]
  | _ :: cs' => probes cs'
  end.
End probes.

Definition noprobe_call (c : call) : Prop :=
  match c with Csendto _ _ _ | Csetsockopt _ _ _ _ => False | _ => True end.

Lemma report_noprobe c : report_call c → noprobe_call c.
Proof. by destruct c. Qed.

Lemma probes_quiet level opt cs cs' :
  Forall noprobe_call cs →
  probes level opt (cs ++ cs') = probes level opt cs' ∧ ttl_now level opt (cs ++ cs') = ttl_now level opt cs'.
Proof. induction 1 as [|c cs Hc _ [IH1 IH2]]; [done|]. by destruct c. Qed.


Section trace.
Context (K : kernel) (fmt_3f : SpecFloat.spec_float → list Z) (fuel : nat).
Context (pr : tproto) (sasend : sockaddr) (nprobes dport verbose : Z).

(** What is asked of the receiving function. *)
Definition recv_quiet : Prop := ∀ sport fd seq st,
  emits noprobe_call (recv pr sport dport verbose fd fuel seq st).

Local Abbreviation sent_probes w := (probes (ttllevel pr) (ttloptname pr) (w_calls w)).
Local Abbreviation ttl_set w := (ttl_now (ttllevel pr) (ttloptname pr) (w_calls w)).

(** The probe of number [k]. *)
Definition expected (ttl k : Z) : list Z * list Z * sockaddr :=
  (le_bytes 4 ttl, le_bytes 2 k ++ le_bytes 2 ttl, sock_set_port sasend (htons (dport + k))).

Lemma emits_print_host last now : emits noprobe_call (print_host last now).
Proof.
  unfold print_host.
  emits_tac; try (by apply emits_trace_printf); try done;
    (apply emits_or_err_sys; [apply report_noprobe|apply emits_ret]).
Qed.

(** What follows the sending of a probe. *)
Lemma wp_noprobe {A} (m : M A) w (Q : outcome A → world → Prop) :
  emits noprobe_call m →
  (∀ o w', sent_probes w' = sent_probes w → ttl_set w' = ttl_set w → Q o w') → wp K m w Q.
Proof.
  intros Hm HQ. apply (wp_emits K noprobe_call); [done|]. intros o cs w' Hcs Hw.
  destruct (probes_quiet (ttllevel pr) (ttloptname pr) cs (w_calls w) Hcs) as [H1 H2].
  apply HQ; by rewrite Hw.
Qed.

Lemma wp_probe sendfd recvfd sport ttl s w (Q : outcome tloop → world → Prop) :
  recv_quiet → ttl_set w = le_bytes 4 ttl →
  (∀ o w', (sent_probes w' = sent_probes w ∨ sent_probes w' = sent_probes w ++ [expected ttl (t_seq s + 1)]) →
     (∀ s', o ≠ Val s') → Q o w') →
  (∀ s' w', sent_probes w' = sent_probes w ++ [expected ttl (t_seq s + 1)] → ttl_set w' = ttl_set w →
     t_seq s' = t_seq s + 1 → t_done s' >= t_done s → Q (Val s') w') →
  wp K (probe fmt_3f fuel pr sasend sizeof_rec dport verbose sendfd recvfd sport ttl s) w Q.
Proof.
  intros Hrecv Httl Hex Hval. unfold probe. wp_step. apply wp_noprobe.
  { unfold Gettimeofday. apply emits_or_err_sys; [apply report_noprobe|by apply emits_sys]. }
  intros o1 w1 Hp1 Ht1. destruct o1 as [tv|c| |]; cbn [bind_post]; try (apply Hex; [by left|done]).
  wp_step. unfold Sendto, all_or_err_sys. repeat wp_step.
  set (d := take _ _). set (sa := sock_set_port _ _).
  assert (Hexp : (ttl_set w1, take 4 d, sa) = expected ttl (t_seq s + 1)) by (unfold expected; by rewrite Ht1, Httl).
  assert (Hsend : ∀ e dm, sent_probes (World (Csendto sendfd d sa :: w_calls w1) e dm) =
      sent_probes w ++ [expected ttl (t_seq s + 1)]).
  { intros e dm. cbn [probes w_calls]. by rewrite Hp1, Hexp. }
  assert (Herr : ∀ w2 (Q2 : outcome unit → world → Prop), sent_probes w2 = sent_probes w ++ [expected ttl (t_seq s + 1)] →
    (∀ w', sent_probes w' = sent_probes w ++ [expected ttl (t_seq s + 1)] → Q2 (Exit 1) w') →
    wp K (err_sys (str "sendto error")) w2 Q2).
  { intros w2 Q2 H2 HQ2. apply wp_err_sys. intros cs Hcs. apply HQ2.
    destruct (probes_quiet (ttllevel pr) (ttloptname pr) cs (w_calls w2)) as [E _]; [|by rewrite <-H2].
    eapply Forall_impl; [exact Hcs|apply report_noprobe]. }
  assert (Hrest : ∀ w2, sent_probes w2 = sent_probes w ++ [expected ttl (t_seq s + 1)] → ttl_set w2 = ttl_set w →
    wp K ('(st, code, tvrecv) ← recv pr sport dport verbose recvfd fuel (t_seq s + 1) (t_st s);
      s0 ← (if decide (code = -3) then printf (str " *");; mret (TLoop (t_seq s + 1) (t_done s) (salast s) st)
       else
         let tvrecv := default (0, 0) tvrecv in
         print_host (salast s) (sarecv st);;
         printf (str "  " ++ fmt_3f (ms_of (tv_sub tvrecv tv)) ++ str " ms");;
         (if decide (code ≠ -1 ∧ code >= 0) then printf (str " (ICMP " ++ icmpcode pr code ++ str ")")
          else mret tt);;
         mret (TLoop (t_seq s + 1) (if decide (code = -1) then t_done s + 1 else t_done s)
           (if decide (sock_cmp_addr (sarecv st) (salast s) ≠ 0) then sarecv st else salast s) st));
      sys (Cfflush stdout);; mret s0) w2 Q).
  { intros w2 H2 Ht2. wp_step. apply wp_noprobe; [apply Hrecv|]. intros o w3 H3 Ht3.
    destruct o as [[[st code] tvrecv]|c| |]; cbn [bind_post]; try (apply Hex; [right; by rewrite H3|done]).
    wp_step. apply (wp_mono _ _ _ (λ o w', sent_probes w' = sent_probes w3 ∧ ttl_set w' = ttl_set w3 ∧
      ∀ s', o = Val s' → t_seq s' = t_seq s + 1 ∧ t_done s' >= t_done s)).
    { wp_if.
      - wp_step. apply wp_noprobe; [by apply emits_trace_printf|]. intros o w4 H4 Ht4.
        destruct o as [[]|c| |]; cbn [bind_post]; [|done..]. wp_step. split; [done|]. split; [done|].
        intros s' [= <-]. simpl. lia.
      - cbn zeta. wp_step. apply wp_noprobe; [apply emits_print_host|]. intros o w4 H4 Ht4.
        destruct o as [[]|c1| |]; cbn [bind_post]; [|by rewrite H4, Ht4..].
        wp_step. apply wp_noprobe; [by apply emits_trace_printf|]. intros o w5 H5 Ht5.
        destruct o as [[]|c1| |]; cbn [bind_post]; [|by rewrite H5, Ht5, H4, Ht4..].
        wp_step. apply wp_noprobe; [emits_tac; by apply emits_trace_printf|]. intros o w6 H6 Ht6.
        destruct o as [[]|c1| |]; cbn [bind_post]; [|by rewrite H6, Ht6, H5, Ht5, H4, Ht4..].
        wp_step. rewrite H6, Ht6, H5, Ht5, H4, Ht4. split; [done|]. split; [done|].
        intros s' [= <-]. simpl. case_decide; lia. }
    intros o w4 (H4 & Ht4 & Hs). destruct o as [s'|c| |]; cbn [bind_post];
      try (apply Hex; [right; by rewrite H4, H3|done]).
    destruct (Hs s' eq_refl) as [Hseq Hdone]. repeat wp_step. apply Hval; [| |done..].
    - simpl. by rewrite H4, H3.
    - simpl. by rewrite Ht4, Ht3, Ht2. }
  destruct (K (w_calls w1) (Csendto sendfd d sa)) as [n|e]; cbn [bind_post].
  - repeat wp_step. wp_if.
    + apply Herr; [apply Hsend|]. intros w' Hw'. cbn [bind_post]. apply Hex; [by right|done].
    + wp_step. apply Hrest; [apply Hsend|]. exact Ht1.
  - repeat wp_step. apply Herr; [apply Hsend|]. intros w' Hw'. cbn [bind_post]. apply Hex; [by right|done].
Qed.

(** The probes of one TTL, the first of which is number [k0 + 1]. *)
Definition expected_ttl (ttl k0 : Z) : list (list Z * list Z * sockaddr) :=
  map (λ p, expected ttl (k0 + p + 1)) (seqZ 0 nprobes).

(** All the probes of the TTLs up to [T]. *)
Definition expected_all (T : Z) : list (list Z * list Z * sockaddr) :=
  flat_map (λ ttl, expected_ttl ttl ((ttl - 1) * nprobes)) (seqZ 1 T).

Lemma wp_one_ttl sendfd recvfd sport ttl s w (Q : outcome tloop → world → Prop) :
  recv_quiet → 0 <= nprobes →
  (∀ o w' l, l `prefix_of` expected_ttl ttl (t_seq s) → sent_probes w' = sent_probes w ++ l →
     (∀ s', o ≠ Val s') → Q o w') →
  (∀ s' w', sent_probes w' = sent_probes w ++ expected_ttl ttl (t_seq s) →
     t_seq s' = t_seq s + nprobes → t_done s' >= t_done s → Q (Val s') w') →
  wp K (one_ttl fmt_3f fuel pr sasend sizeof_rec nprobes dport verbose sendfd recvfd sport ttl s) w Q.
Proof.
  intros Hrecv Hn Hex Hval. unfold one_ttl, Setsockopt. wp_step. apply wp_or_err_sys. wp_step.
  set (w1 := World _ _ _).
  assert (Hp1 : sent_probes w1 = sent_probes w) by done.
  assert (Ht1 : ttl_set w1 = le_bytes 4 ttl) by (unfold w1; simpl; by rewrite decide_True).
  assert (Hnil : [] `prefix_of` expected_ttl ttl (t_seq s)) by apply prefix_nil.
  destruct (K (w_calls w) _) as [[]|e]; cbn [bind_post].
  2:{ intros cs Hcs. apply (Hex _ _ []); [done| |done].
      destruct (probes_quiet (ttllevel pr) (ttloptname pr) cs (w_calls w1)) as [E _].
      { eapply Forall_impl; [exact Hcs|apply report_noprobe]. }
      rewrite app_nil_r. exact (eq_trans E Hp1). }
  wp_step. apply wp_noprobe; [by apply emits_trace_printf|]. intros o w2 Hp2 Ht2.
  destruct o as [[]|c| |]; cbn [bind_post];
    try (apply (Hex _ _ []); [done|by rewrite Hp2, Hp1, app_nil_r|done]).
  wp_step. wp_step. wp_step.
  apply (wp_for_each K (λ rest s' w', ∃ done_, seqZ 0 nprobes = done_ ++ rest ∧
    sent_probes w' = sent_probes w ++ map (λ p, expected ttl (t_seq s + p + 1)) done_ ∧
    ttl_set w' = le_bytes 4 ttl ∧ t_seq s' = t_seq s + Z.of_nat (length done_) ∧ t_done s' >= t_done s)).
  - exists []. simpl. rewrite Hp2, Hp1, Ht2, Ht1, app_nil_r. repeat split; lia.
  - intros p rest s' w' (dn & Hd & Hp & Ht & Hseq & Hdone).
    assert (Hpl : p = Z.of_nat (length dn)).
    { assert (Hl : seqZ 0 nprobes !! length dn = Some p) by (rewrite Hd; by apply list_lookup_middle).
      apply lookup_seqZ in Hl as [-> _]. lia. }
    assert (Hpre : ∀ l, l = [] ∨ l = [p] → map (λ p, expected ttl (t_seq s + p + 1)) (dn ++ l) `prefix_of`
      expected_ttl ttl (t_seq s)).
    { intros l Hl. unfold expected_ttl. rewrite Hd, !map_app. destruct Hl as [-> | ->].
      - rewrite app_nil_r. by apply prefix_app_r.
      - apply prefix_app. simpl. by apply prefix_cons, prefix_nil. }
    assert (Hnext : expected ttl (t_seq s' + 1) = expected ttl (t_seq s + p + 1)) by (f_equal; lia).
    apply wp_probe; [done..| |].
    + intros o w3 Hp3 Ho. destruct o as [s3|c| |]; cbn [bind_post]; [by destruct (Ho s3)|..];
        (destruct Hp3 as [Hp3|Hp3];
         [apply (Hex _ _ (map (λ p, expected ttl (t_seq s + p + 1)) (dn ++ [])));
            [apply Hpre; by left|by rewrite Hp3, Hp, app_nil_r|done]
         |apply (Hex _ _ (map (λ p, expected ttl (t_seq s + p + 1)) (dn ++ [p])));
            [apply Hpre; by right|by rewrite Hp3, Hp, map_app, Hnext, <-app_assoc|done]]).
    + intros s3 w3 Hp3 Ht3 Hs3 Hd3. exists (dn ++ [p]).
      split; [by rewrite <-app_assoc|]. split; [by rewrite Hp3, Hp, map_app, Hnext, <-app_assoc|].
      split; [by rewrite Ht3|]. rewrite length_app. simpl. lia.
  - intros s' w' (dn & Hd & Hp & Ht & Hseq & Hdone). rewrite app_nil_r in Hd. subst dn. cbn [bind_post].
    rewrite length_seqZ in Hseq.
    wp_step. apply wp_noprobe; [by apply emits_trace_printf|]. intros o w3 Hp3 Ht3.
    destruct o as [[]|c| |]; cbn [bind_post];
      try (apply (Hex _ _ (expected_ttl ttl (t_seq s))); [done|by rewrite Hp3, Hp|done]).
    wp_step. apply Hval; [by rewrite Hp3, Hp|lia|done].
Qed.

Lemma expected_all_S n :
  0 <= n → expected_all (n + 1) = expected_all n ++ expected_ttl (n + 1) (n * nprobes).
Proof.
  intros Hn. unfold expected_all. rewrite seqZ_app, flat_map_app by lia. f_equal. simpl.
  rewrite app_nil_r. f_equal; [lia|]. f_equal. lia.
Qed.

Lemma expected_all_prefix T T' : 0 <= T <= T' → expected_all T `prefix_of` expected_all T'.
Proof.
  intros [HT HT']. unfold expected_all. replace T' with (T + (T' - T)) by lia.
  rewrite seqZ_app, flat_map_app by lia. by apply prefix_app_r.
Qed.

Lemma wp_ttl_loop sendfd recvfd sport max_ttl s w (Q : outcome tloop → world → Prop) :
  recv_quiet → 0 <= nprobes → t_seq s = 0 → t_done s = 0 → 0 <= max_ttl →
  (∀ o w' l, l `prefix_of` expected_all max_ttl → sent_probes w' = sent_probes w ++ l →
     (∀ s', o = Val s' → ∃ T, 0 <= T <= max_ttl ∧ l = expected_all T ∧ (T < max_ttl → t_done s' > 0)) →
     Q o w') →
  wp K (ttl_loop fmt_3f fuel pr sasend sizeof_rec nprobes dport verbose sendfd recvfd sport max_ttl s) w Q.
Proof.
  intros Hrecv Hn Hs0 Hd0 Hmax HQ. unfold ttl_loop.
  apply (wp_for_each K (λ rest s' w', ∃ T, 0 <= T ∧ T + Z.of_nat (length rest) <= max_ttl ∧
    sent_probes w' = sent_probes w ++ expected_all T ∧ t_done s' >= 0 ∧
    (t_done s' = 0 → t_seq s' = T * nprobes ∧ rest = seqZ (T + 1) (max_ttl - T)))).
  - exists 0. rewrite length_seqZ. unfold expected_all. rewrite app_nil_r.
    repeat split; try lia. f_equal; lia.
  - intros ttl rest s1 w1 (T & HT & Hl & Hp & Hd & Hz). cbn [length] in Hl.
    destruct (decide (t_done s1 = 0)) as [H0|H0].
    + destruct (Hz H0) as [Hseq Hrest]. rewrite seqZ_cons in Hrest by lia.
      injection Hrest as -> Hrest.
      assert (Hall : expected_all T ++ expected_ttl (T + 1) (t_seq s1) = expected_all (T + 1)).
      { by rewrite Hseq, expected_all_S. }
      apply wp_one_ttl; [done..| |].
      * intros o w2 l Hpre Hp2 Ho.
        destruct o as [s2|c| |]; [by destruct (Ho s2)|..]; cbn [bind_post];
          (apply (HQ _ w2 (expected_all T ++ l));
            [|by rewrite Hp2, Hp, app_assoc|done]; trans (expected_all (T + 1));
            [rewrite <-Hall; by apply prefix_app|apply expected_all_prefix; lia]).
      * intros s2 w2 Hp2 Hseq2 Hd2. exists (T + 1). rewrite Hp2, Hp, <-app_assoc, Hall.
        repeat split; [lia..| |]; [lia|]. rewrite Hrest. f_equal; lia.
    + wp_step. exists T. repeat split; try done; try lia.
  - intros s1 w1 (T & HT & Hl & Hp & Hd & Hz). cbn [length] in Hl.
    apply (HQ _ _ (expected_all T)); [apply expected_all_prefix; lia|done|].
    intros s' [= <-]. exists T. split; [lia|]. split; [done|]. intros HTm.
    destruct (decide (t_done s1 = 0)) as [H0|]; [|lia].
    destruct (Hz H0) as [_ Hr]. apply (f_equal length) in Hr. rewrite length_seqZ in Hr. simpl in Hr. lia.
Qed.
End trace.

Lemma emits_recv_loop verbose fd fuel judge st : emits noprobe_call (recv_loop verbose fd fuel judge st).
Proof.
  unfold recv_loop, recv_round, trace_deliver, Gettimeofday.
  emits_tac; try done; try (apply emits_or_err_sys; [apply report_noprobe|]); try (by apply emits_trace_printf);
    try (by apply emits_err_sys; apply report_noprobe); emits_tac; done.
Qed.

(** The two variants of [pr]. *)
Definition trace_proto (pr : tproto) : Prop := pr = tproto_v4 ∨ ∃ ret0, pr = tproto_v6 ret0.

Lemma trace_proto_quiet fuel pr dport verbose : trace_proto pr → recv_quiet fuel pr dport verbose.
Proof. intros [->|[r ->]] sport fd seq st; apply emits_recv_loop. Qed.

Definition nosend_call (c : call) : Prop := match c with Csendto _ _ _ => False | _ => True end.

Lemma report_nosend c : report_call c → nosend_call c.
Proof. by destruct c. Qed.

(** What sends nothing, before the probes. *)
Lemma wp_nosend {A} (K : kernel) level opt (m : M A) w (Q : outcome A → world → Prop) :
  emits nosend_call m →
  (∀ o w', probes level opt (w_calls w') = probes level opt (w_calls w) → Q o w') → wp K m w Q.
Proof.
  intros Hm HQ. apply (wp_emits K nosend_call); [done|]. intros o cs w' Hcs Hw. apply HQ. rewrite Hw.
  clear -Hcs. induction Hcs as [|c cs Hc _ IH]; [done|]. by destruct c.
Qed.

Section traceloop.
Context (K : kernel) (fmt_3f : SpecFloat.spec_float → list Z) (fuel : nat).
Context (pr : tproto) (sasend : sockaddr) (nprobes dport verbose max_ttl : Z).

(** What a run from the probes [B] leaves. *)
Definition sent_post (B : list (list Z * list Z * sockaddr)) (o : outcome unit) (w' : world) : Prop :=
  ∃ l, probes (ttllevel pr) (ttloptname pr) (w_calls w') = B ++ l ∧
    l `prefix_of` expected_all sasend nprobes dport max_ttl ∧
    (o = Val tt → ∃ T, 0 <= T <= max_ttl ∧ l = expected_all sasend nprobes dport T).

Lemma wp_prep {A} (m : M A) (f : A → M unit) w B :
  emits nosend_call m → probes (ttllevel pr) (ttloptname pr) (w_calls w) = B →
  (∀ a w', probes (ttllevel pr) (ttloptname pr) (w_calls w') = B → wp K (f a) w' (sent_post B)) →
  wp K (m ≫= f) w (sent_post B).
Proof.
  intros Hm HB Hf. wp_step. apply (wp_nosend K (ttllevel pr) (ttloptname pr)); [done|].
  intros o w' Hw. rewrite HB in Hw.
  destruct o as [a|c| |]; cbn [bind_post]; [by apply Hf|..];
    (exists []; rewrite app_nil_r; split; [done|]; split; [apply prefix_nil|done]).
Qed.

Lemma wp_traceloop w :
  trace_proto pr → 0 <= nprobes → 0 <= max_ttl →
  wp K (traceloop fmt_3f fuel pr sasend sizeof_rec nprobes dport verbose max_ttl) w
    (sent_post (probes (ttllevel pr) (ttloptname pr) (w_calls w))).
Proof.
  intros Hpr Hn Hmax. unfold traceloop, Socket, Bind, void.
  do 3 (apply wp_prep; [emits_tac; try (apply emits_or_err_sys; [apply report_nosend|]); by emits_tac|done|];
    intros ? ? ?).
  do 4 (apply wp_prep; [emits_tac; try (apply emits_or_err_sys; [apply report_nosend|]); by emits_tac|done|];
    intros ? ? ?).
  cbn zeta. wp_step. rename select (_ = probes _ _ _) into HB.
  apply wp_ttl_loop; [by apply trace_proto_quiet|done..|].
  intros o w2 l Hl Hp Ho. rewrite HB in Hp.
  destruct o as [s|c| |]; cbn [bind_post]; [wp_step|..]; exists l; (split; [done|]; split; [done|]); [|done..].
  intros _. destruct (Ho s eq_refl) as (T & HT & -> & _). by exists T.
Qed.
End traceloop.

(** C28: the probes of [traceloop] go out in order, each with the TTL it is for in
    force on its socket, with its sequence number and TTL in its data and its
    port: a run that is cut short has sent a first part of them, and one that
    returns all the probes of the TTLs up to some [T]. *)
Theorem traceloop_probes K fmt_3f fuel pr sasend nprobes dport verbose max_ttl w :
  trace_proto pr → 0 <= nprobes → 0 <= max_ttl →
  let '(o, w') := traceloop fmt_3f fuel pr sasend sizeof_rec nprobes dport verbose max_ttl K w in
  let sent := probes (ttllevel pr) (ttloptname pr) in
  ∃ l, sent (w_calls w') = sent (w_calls w) ++ l ∧
    l `prefix_of` expected_all sasend nprobes dport max_ttl ∧
    (o = Val tt → ∃ T, 0 <= T <= max_ttl ∧ l = expected_all sasend nprobes dport T).
Proof.
  intros Hpr Hn Hmax.
  pose proof (wp_traceloop K fmt_3f fuel pr sasend nprobes dport verbose max_ttl w Hpr Hn Hmax) as H.
  unfold wp in H. by destruct (traceloop _ _ _ _ _ _ _ _ _ K w) as [o w'].
Qed.


(** * Instances *)

Lemma judge_v4_answers_witness :
  let h1 := 69 :: repeat 0 19 in
  let h2 := 70 :: repeat 0 8 ++ [17] ++ repeat 0 14 in
  answer_of 11 0 = Some (-2) ∧
  judge_v4 40000 33434 1 (overwrite (repeat 255 1500)
      (icmp_error h1 11 0 (repeat 0 6) h2 (be16 40000 ++ be16 33435) []))
    (Z.of_nat (length (icmp_error h1 11 0 (repeat 0 6) h2 (be16 40000 ++ be16 33435) []))) = Answer (-2).
Proof.
  intros h1 h2. split; [reflexivity|].
  exact (judge_v4_answers 40000 33434 (repeat 255 1500) h1 11 0 (repeat 0 6) h2 40000 33435 [] 1
    ltac:(split; vm_compute; congruence) ltac:(split; vm_compute; congruence) eq_refl ltac:(split; vm_compute; congruence) ltac:(split; vm_compute; congruence)).
Defined.

(** A kernel whose alarm arrives after two packets. *)
Definition late_alarm : kernel := λ cs c,
  match c return ans c with
  | Cdeliver _ => if decide (2 <= waits cs)%nat then 1%nat else 0%nat
  | Crecvfrom _ _ => ROk ([69; 0; 0], SaIn 0 [10; 0; 0; 1])
  | Csocket _ _ _ => ROk 3
  | Csendto _ d _ => ROk (Z.of_nat (length d))
  | Csetsockopt _ _ _ _ | Cbind _ _ => ROk tt
  | Cgettimeofday => ROk (1, 0)
  | c => default_ans c
  end.

Local Abbreviation two_ttls :=
  (traceloop (λ _, []) 4 tproto_v4 (SaIn 0 [10; 0; 0; 9]) sizeof_rec 2 33434 0 2 late_alarm (World [] 0 false)).

Lemma traceloop_probes_witness :
  two_ttls.1 = Val tt ∧
  probes IPPROTO_IP 2 (w_calls two_ttls.2) =
    [(le_bytes 4 1, [1; 0; 1; 0], SaIn (htons 33435) [10; 0; 0; 9]);
     (le_bytes 4 1, [2; 0; 1; 0], SaIn (htons 33436) [10; 0; 0; 9]);
     (le_bytes 4 2, [3; 0; 2; 0], SaIn (htons 33437) [10; 0; 0; 9]);
     (le_bytes 4 2, [4; 0; 2; 0], SaIn (htons 33438) [10; 0; 0; 9])] ∧
  let '(o, w') := two_ttls in
  let sent := probes (ttllevel tproto_v4) (ttloptname tproto_v4) in
  ∃ l, sent (w_calls w') = sent [] ++ l ∧
    l `prefix_of` expected_all (SaIn 0 [10; 0; 0; 9]) 2 33434 2 ∧
    (o = Val tt → ∃ T, 0 <= T <= 2 ∧ l = expected_all (SaIn 0 [10; 0; 0; 9]) 2 33434 T).
Proof.
  split; [vm_compute; reflexivity|]. split; [vm_compute; reflexivity|].
  exact (traceloop_probes late_alarm (λ _, []) 4 tproto_v4 (SaIn 0 [10; 0; 0; 9]) 2 33434 0 2 (World [] 0 false)
    (or_introl eq_refl) ltac:(lia) ltac:(lia)).
Defined.

Lemma late_alarm_timely : timely late_alarm 2.
Proof. intros cs k Hk Hn. simpl. apply armed_waits in Hk. by rewrite decide_True by lia. Qed.

