(* ===== verification/Ifi.v ===== *)
(** [lib/get_ifi_info.c] and [ioctl/prifinfo.c]: the interfaces of the host, from
    [ioctl] on an x86_64 host without [sockaddr_dl].

    The list of [ifi_info] structures is the list of its nodes; a node keeps the
    addresses of the blocks it owns.  The buffer is the bytes that [SIOCGIFCONF]
    stored followed by what [malloc] left there. *)

From S2P Require Import Prelude Net Sys Error Wrap SockAddr Io Connect TcpServ Mcast Packet.

Definition SIOCGIFCONF : Z := 35090.
Definition SIOCGIFFLAGS : Z := 35091.
Definition SIOCGIFDSTADDR : Z := 35095.
Definition SIOCGIFBRDADDR : Z := 35097.
Definition SIOCGIFMTU : Z := 35105.
Definition IFF_UP : Z := 1.
Definition IFF_BROADCAST : Z := 2.
Definition IFF_LOOPBACK : Z := 8.
Definition IFF_POINTOPOINT : Z := 16.
Definition IFF_MULTICAST : Z := 4096.
Definition IFNAMSIZ : Z := 16.
Definition IFI_NAME : Z := 16.
Definition IFI_ALIAS : Z := 1.
Definition sizeof_ifreq : Z := 40.
Definition sizeof_ifi_info : Z := 72.

Definition s16 (x : Z) : Z := (x + 2 ^ 15) mod 2 ^ 16 - 2 ^ 15.

(** [struct ifi_info] without [ifi_next] and the hardware address, which stays
    empty; [ifi_ptr] is its own address, and the three pointers are with the bytes
    they point to. *)
Record ifi_info := IfiInfo {
  ifi_ptr : Z;
  ifi_name : list Z;
  ifi_index : Z;
  ifi_mtu : Z;
  ifi_hlen : Z;
  ifi_flags : Z;
  ifi_myflags : Z;
  ifi_addr : option (Z * list Z);
  ifi_brdaddr : option (Z * list Z);
  ifi_dstaddr : option (Z * list Z)
}.

(** [Ioctl] on a [struct ifreq]. *)
Definition Ioctl_ifr (fd request : Z) (ifr : list Z) : M (list Z) :=
  or_err_sys (str "ioctl error") (sys (Cioctl_mem fd request ifr sizeof_ifreq)).

Definition bit (flags f : Z) : bool := bool_decide (Z.land flags f ≠ 0).

(** * The buffer of [SIOCGIFCONF] *)

(** One round: the buffer and the bytes stored, when the length is that of the
    round before. *)
Definition ifconf_round (sockfd : Z) (s : Z * Z) : M (Z * Z + Z * Z * list Z) :=
  let '(lastlen, len) := s in
  buf ← Malloc len;
  r ← checked (sys (Cioctl_mem sockfd SIOCGIFCONF [] len));
  let again (lastlen : Z) : M (Z * Z + Z * Z * list Z) :=
    let len := len + 10 * sizeof_ifreq in
    sys (Cfree buf);;
    mret (inl (lastlen, len)) in
  match r with
  | RErr _ =>
      errno ← get_errno;
      if decide (errno ≠ EINVAL ∨ lastlen ≠ 0) then err_sys (str "ioctl error") else again lastlen
  | ROk data =>
      let ifc_len := Z.of_nat (length data) in
      if decide (ifc_len = lastlen) then mret (inr (buf, len, data)) else again ifc_len
  end.

Definition ifconf (fuel : nat) (sockfd : Z) : M (Z * Z * list Z) :=
  iter fuel (ifconf_round sockfd) (0, 100 * sizeof_ifreq).

(** * The walk over the records *)

Section walk.
(** [beyond] is what the four bytes behind a [struct ifreq] on the stack hold. *)
Context (beyond : list Z).
Context (sockfd family doaliases : Z).

(** The name at the start of a record, as the string functions see it. *)
Definition ifr_name (mem : list Z) (o : Z) : list Z := until_nul (bytes_at mem o IFNAMSIZ).

(** [strchr(ifr->ifr_name, ':')], and the NUL stored there. *)
Definition cut_colon (mem : list Z) (o : Z) : list Z :=
  match list_find (λ c, c = 58) (until_nul (drop (Z.to_nat o) mem)) with
  | Some (k, _) => store_at mem (Z.to_nat o + k) [0]
  | None => mem
  end.

Definition record_len (mem : list Z) (o : Z) : Z :=
  if decide (u16_at mem (o + 16) = AF_INET6) then 28 else 16.

(** A pointer to [n] fresh bytes and their contents. *)
Definition copied (n : Z) (bytes : list Z) : M (option (Z * list Z)) :=
  p ← Calloc 1 n;
  mret (Some (p, bytes)).

(** The addresses of a structure: the primary one, the broadcast one, the
    destination. *)
Definition ifi_addrs (mem : list Z) (o flags : Z) (ifrcopy : list Z)
    : M (option (Z * list Z) * option (Z * list Z) * option (Z * list Z)) :=
  let af := u16_at mem (o + 16) in
  if decide (af = AF_INET) then
    addr ← copied 16 (bytes_at mem (o + 16) 16);
    '(ifrcopy, brd) ←
      (if bit flags IFF_BROADCAST then
         ifrcopy ← Ioctl_ifr sockfd SIOCGIFBRDADDR ifrcopy;
         b ← copied 16 (bytes_at ifrcopy 16 16);
         mret (ifrcopy, b)
       else mret (ifrcopy, None));
    dst ←
      (if bit flags IFF_POINTOPOINT then
         ifrcopy ← Ioctl_ifr sockfd SIOCGIFDSTADDR ifrcopy;
         copied 16 (bytes_at ifrcopy 16 16)
       else mret None);
    mret (addr, brd, dst)
  else if decide (af = AF_INET6) then
    addr ← copied 28 (bytes_at mem (o + 16) 28);
    dst ←
      (if bit flags IFF_POINTOPOINT then
         ifrcopy ← Ioctl_ifr sockfd SIOCGIFDSTADDR ifrcopy;
         copied 28 (bytes_at (ifrcopy ++ beyond) 16 28)
       else mret None);
    mret (addr, None, dst)
  else mret (None, None, None).

(** The variables of the walk: the offset of [ptr], the buffer, [lastname], and
    the list so far. *)
Definition walk : Type := Z * list Z * list Z * list ifi_info.

Definition ifi_record (ifc_len : Z) (s : walk) : M (walk + list ifi_info) :=
  let '(o, mem, lastname, l) := s in
  if decide (o < ifc_len) then
    let ptr := o + IFNAMSIZ + record_len mem o in
    if decide (u16_at mem (o + 16) ≠ family) then mret (inl (ptr, mem, lastname, l))
    else
      let mem := cut_colon mem o in
      let same := bool_decide (lastname = ifr_name mem o) in
      if decide (same = true ∧ doaliases = 0) then mret (inl (ptr, mem, lastname, l))
      else
        let myflags := if same then IFI_ALIAS else 0 in
        let lastname := ifr_name mem o in
        ifrcopy ← Ioctl_ifr sockfd SIOCGIFFLAGS (bytes_at mem o sizeof_ifreq);
        let flags := s16 (u16_at ifrcopy 16) in
        if bit flags IFF_UP then
          ifi ← Calloc 1 sizeof_ifi_info;
          ifrcopy ← Ioctl_ifr sockfd SIOCGIFMTU ifrcopy;
          let mtu := s16 (s32 (of_le_bytes (bytes_at ifrcopy 16 4))) in
          let name := take 15 (bytes_at mem o IFI_NAME) ++ [0] in
          '(addr, brd, dst) ← ifi_addrs mem o flags ifrcopy;
          mret (inl (ptr, mem, lastname, l ++ [IfiInfo ifi name 0 mtu 0 flags myflags addr brd dst]))
        else mret (inl (ptr, mem, lastname, l))
  else mret (inr l).

End walk.

(** [junk n] is what the last [n] bytes of the buffer hold.  The records are at
    least 32 bytes apart, so that one round a byte is enough. *)
Definition get_ifi_info (fuel : nat) (junk : Z → list Z) (beyond : list Z) (family doaliases : Z)
    : M (list ifi_info) :=
  sockfd ← Socket AF_INET SOCK_DGRAM 0;
  '(buf, len, data) ← ifconf fuel sockfd;
  let ifc_len := Z.of_nat (length data) in
  l ← iter (S (length data)) (ifi_record beyond sockfd family doaliases ifc_len)
        (0, data ++ junk (len - ifc_len), [], []);
  sys (Cfree buf);;
  mret l.

Definition free_ptr (p : option (Z * list Z)) : M unit :=
  match p with None => mret tt | Some (q, _) => sys (Cfree q) end.

Fixpoint free_ifi_info (ifihead : list ifi_info) : M unit :=
  match ifihead with
  | [] => mret tt
  | ifi :: ifinext =>
      free_ptr (ifi_addr ifi);;
      free_ptr (ifi_brdaddr ifi);;
      free_ptr (ifi_dstaddr ifi);;
      sys (Cfree (ifi_ptr ifi));;
      free_ifi_info ifinext
  end.

Definition Get_ifi_info (fuel : nat) (junk : Z → list Z) (beyond : list Z) (family doaliases : Z)
    : M (list ifi_info) :=
  ifi ← get_ifi_info fuel junk beyond family doaliases;
  match ifi with [] => err_quit (str "get_ifi_info error") | _ => mret ifi end.

(** * ioctl/prifinfo.c, without the hardware address, which is empty *)

Definition print_addr (what : string) (sa : option (Z * list Z)) : M unit :=
  match sa with
  | None => mret tt
  | Some (_, b) =>
      h ← Sock_ntop_host (sockaddr_of_mem b) 16;
      printf (str what ++ h ++ [ch_nl])
  end.

Definition print_ifi (ifi : ifi_info) : M unit :=
  let flag f text := if bit (ifi_flags ifi) f then printf (str text) else mret tt in
  printf (until_nul (ifi_name ifi) ++ str ": ");;
  (if decide (ifi_index ifi ≠ 0) then printf (str "(" ++ fmt_d (ifi_index ifi) ++ str ") ") else mret tt);;
  printf (str "<");;
  flag IFF_UP "UP ";;
  flag IFF_BROADCAST "BCAST ";;
  flag IFF_MULTICAST "MCAST ";;
  flag IFF_LOOPBACK "LOOP ";;
  flag IFF_POINTOPOINT "P2P ";;
  printf (str ">" ++ [ch_nl]);;
  (if decide (ifi_mtu ifi ≠ 0) then printf (str "  MTU: " ++ fmt_d (ifi_mtu ifi) ++ [ch_nl]) else mret tt);;
  print_addr "  IP addr: " (ifi_addr ifi);;
  print_addr "  broadcast addr: " (ifi_brdaddr ifi);;
  print_addr "  destination addr: " (ifi_dstaddr ifi).

Definition prifinfo_main (fuel : nat) (junk : Z → list Z) (beyond : list Z) (argv : list (list Z)) : M unit :=
  if decide (length argv ≠ 3%nat) then err_quit (str "usage: prifinfo <inet4|inet6> <doaliases>")
  else
    family ← (if decide (nth 1 argv [] = str "inet4") then mret AF_INET
              else if decide (nth 1 argv [] = str "inet6") then mret AF_INET6
              else err_quit (str "invalid <address-family>"));
    let doaliases := atoi (nth 2 argv []) in
    l ← Get_ifi_info fuel junk beyond family doaliases;
    for_each l (λ ifi _, print_ifi ifi) tt;;
    free_ifi_info l;;
    exit 0.
