(* ===== verification/IfiSpec.v ===== *)
(** Properties of [Ifi]: the buffer is complete, and the memory of the list is
    what is allocated and what is given back. *)

From stdpp Require Import gmultiset.
From S2P Require Import Prelude Net Sys Error Wrap SockAddr Io Connect TcpServ Mcast Packet Gai GaiSpec Ifi.

(** * The buffer *)

(** What [SIOCGIFCONF] does for interfaces that do not change: with enough room it
    stores all the records, with less the whole records that fit, or it refuses. *)
Class KernelIfconf (K : kernel) (fd : Z) (full : list Z) : Prop := {
  ic_enough cs len :
    Z.of_nat (length full) <= len → K cs (Cioctl_mem fd SIOCGIFCONF [] len) = ROk full;
  ic_short cs len data :
    len < Z.of_nat (length full) → K cs (Cioctl_mem fd SIOCGIFCONF [] len) = ROk data →
    len - sizeof_ifreq < Z.of_nat (length data) <= len
}.

Section ifconf.
Context (K : kernel) (sockfd : Z) (full : list Z) `{!KernelIfconf K sockfd full}.

(** Between the rounds: [lastlen] is a length that a smaller buffer gave. *)
Definition ifconf_inv (k : nat) (s : Z * Z) : Prop :=
  let n := Z.of_nat (length full) in
  s.2 = 4000 + 400 * Z.of_nat k ∧ (s.1 = 0 ∨ s.1 = n ∨ s.1 <= s.2 - 400) ∧
  ((1 <= k)%nat → n <= s.2 - 400 → s.1 = n) ∧ ((2 <= k)%nat → s.2 - 800 < n).

Lemma wp_ifconf fuel w (Q : outcome (Z * Z * list Z) → world → Prop) :
  (2 <= fuel)%nat → Z.of_nat (length full) <= 4000 + 400 * (Z.of_nat fuel - 2) →
  (∀ o w', (∀ buf len data, o = Val (buf, len, data) → data = full ∧ Z.of_nat (length full) <= len) →
     o ≠ Diverge → Q o w') →
  wp K (ifconf fuel sockfd) w Q.
Proof using Type*.
  intros H2 Hfuel HQ. unfold ifconf.
  apply (wp_iter_count K (λ k s _, ifconf_inv k s)).
  - split; [done|]. split; [by left|]. split; lia.
  - intros k [lastlen len] w1 (Hlen & Hlast & Hdone & Hk). cbn [fst snd] in *. unfold ifconf_round.
    set (n := Z.of_nat (length full)) in *. unfold sizeof_ifreq in *.
    wp_step. unfold Malloc. apply wp_or_err_sys. wp_step.
    destruct (K _ (Cmalloc len)) as [buf|e]; cbn [bind_post]; [|intros; by apply HQ].
    repeat wp_step. cbn [w_calls]. set (cs := _ :: _).
    destruct (K cs (Cioctl_mem sockfd SIOCGIFCONF [] len)) as [data|e] eqn:HK; cbn [bind_post].
    + assert (Hdata : n <= len ∧ data = full ∨ len < n ∧ len - 40 < Z.of_nat (length data) <= len).
      { destruct (decide (n <= len)) as [Hn|Hn].
        - left. rewrite ic_enough in HK by done. by injection HK as <-.
        - right. split; [lia|]. apply (ic_short cs); [lia|done]. }
      destruct (decide (Z.of_nat (length data) = lastlen)) as [Heq|Heq].
      * wp_step. apply HQ; [|done]. intros ? ? ? [= <- <- <-]. destruct Hdata as [[? ->]|]; [done|]. lia.
      * repeat wp_step. cbn [bind_post]. repeat wp_step. unfold ifconf_inv. cbn [fst snd]. fold n.
        destruct Hdata as [[Hn ->]|]; fold n in Heq |- *; repeat split; try lia.
    + repeat wp_step. wp_if.
      * apply wp_err_sys. intros. by apply HQ.
      * assert (len < n).
        { destruct (decide (n <= len)) as [Hn|]; [|lia]. by rewrite ic_enough in HK. }
        assert (lastlen = 0) as -> by (destruct (decide (lastlen = 0)); [done|tauto]).
        repeat wp_step. unfold ifconf_inv. cbn [fst snd]. fold n. repeat split; try lia.
  - intros s w1 (Hlen & _ & _ & Hk). specialize (Hk H2). lia.
Qed.
End ifconf.

(** * Memory *)

Definition owned_ifi (ifi : ifi_info) : gmultiset Z :=
  {[+ ifi_ptr ifi +]} ⊎ owned_opt (ifi_addr ifi) ⊎ owned_opt (ifi_brdaddr ifi) ⊎ owned_opt (ifi_dstaddr ifi).
Definition owned_ifis (l : list ifi_info) : gmultiset Z := foldr (λ ifi b, owned_ifi ifi ⊎ b) ∅ l.

Lemma owned_ifis_snoc l ifi : owned_ifis (l ++ [ifi]) = owned_ifi ifi ⊎ owned_ifis l.
Proof. induction l as [|ifi' l IH]; simpl; [done|rewrite IH]; msolve. Qed.

Section memory.
Context (K : kernel).
Local Abbreviation live w := (heap K (w_calls w)).

Lemma wp_Calloc n size w (Q : outcome Z → world → Prop) :
  (∀ p w', live w' = {[+ p +]} ⊎ live w → Q (Val p) w') → (∀ w', Q (Exit 1) w') → wp K (Calloc n size) w Q.
Proof.
  intros HQ Hex. unfold Calloc. apply wp_or_err_sys. wp_step.
  destruct (K _ (Ccalloc n size)) as [p|e] eqn:HK; [|intros; apply Hex].
  apply HQ. simpl. unfold heap_step. by rewrite HK.
Qed.

Lemma wp_Malloc size w (Q : outcome Z → world → Prop) :
  (∀ p w', live w' = {[+ p +]} ⊎ live w → Q (Val p) w') → (∀ w', Q (Exit 1) w') → wp K (Malloc size) w Q.
Proof.
  intros HQ Hex. unfold Malloc. apply wp_or_err_sys. wp_step.
  destruct (K _ (Cmalloc size)) as [p|e] eqn:HK; [|intros; apply Hex].
  apply HQ. simpl. unfold heap_step. by rewrite HK.
Qed.

Lemma wp_Ioctl_ifr fd request ifr w (Q : outcome (list Z) → world → Prop) :
  (∀ b w', live w' = live w → Q (Val b) w') → (∀ w', Q (Exit 1) w') → wp K (Ioctl_ifr fd request ifr) w Q.
Proof.
  intros HQ Hex. unfold Ioctl_ifr. apply wp_or_err_sys. wp_step.
  destruct (K _ (Cioctl_mem _ _ _ _)) as [b|e]; [by apply HQ|intros; apply Hex].
Qed.

(** The buffer is the only block that the growing leaves. *)
Lemma wp_ifconf_heap fuel sockfd w (Q : outcome (Z * Z * list Z) → world → Prop) :
  (∀ buf len data w', live w' = {[+ buf +]} ⊎ live w → Q (Val (buf, len, data)) w') →
  (∀ o w', (∀ x, o ≠ Val x) → Q o w') → wp K (ifconf fuel sockfd) w Q.
Proof.
  intros HQ Hex. unfold ifconf. apply (wp_iter K (λ _ w', live w' = live w)); [done| |].
  - intros [lastlen len] w1 H1. unfold ifconf_round. wp_step.
    apply wp_Malloc; [|intros; by apply Hex]. intros buf w2 Hw2. cbn [bind_post]. rewrite H1 in Hw2.
    assert (Hfree : ∀ (s : Z * Z) w3, live w3 = live w2 →
      wp K (sys (Cfree buf);; mret (inl s) : M (Z * Z + Z * Z * list Z)) w3 (bind_post
        (λ r w', match r with inl _ => live w' = live w | inr x => Q (Val x) w' end) Q)).
    { intros s w3 H3. wp_step. apply wp_free. intros w4 H4. cbn [bind_post]. wp_step. cbn [bind_post].
      rewrite H4, H3, Hw2. msolve. }
    wp_step. wp_step. wp_step.
    set (c := Cioctl_mem _ _ _ _). set (w3 := World (c :: _) _ _).
    assert (H3 : live w3 = live w2) by done.
    destruct (K (w_calls w2) c) as [data|e]; cbn [bind_post].
    + wp_if; [|by apply Hfree]. wp_step. cbn [bind_post]. apply HQ. by rewrite H3.
    + repeat wp_step. wp_if; [|by apply Hfree]. apply wp_err_sys. intros. by apply Hex.
  - intros s w1 _. by apply Hex.
Qed.

Lemma wp_copied n b w (Q : outcome (option (Z * list Z)) → world → Prop) :
  (∀ p w', live w' = owned_opt (Some (p, b)) ⊎ live w → Q (Val (Some (p, b))) w') → (∀ w', Q (Exit 1) w') →
  wp K (copied n b) w Q.
Proof.
  intros HQ Hex. unfold copied. wp_step. apply wp_Calloc; [|intros; by apply Hex].
  intros p w' Hw. cbn [bind_post]. wp_step. by apply HQ.
Qed.

Lemma wp_ifi_addrs beyond sockfd mem o flags ifrcopy w
    (Q : outcome (option (Z * list Z) * option (Z * list Z) * option (Z * list Z)) → world → Prop) :
  (∀ a b d w', live w' = owned_opt a ⊎ owned_opt b ⊎ owned_opt d ⊎ live w → Q (Val (a, b, d)) w') →
  (∀ w', Q (Exit 1) w') → wp K (ifi_addrs beyond sockfd mem o flags ifrcopy) w Q.
Proof.
  intros HQ Hex. unfold ifi_addrs. wp_if; [|wp_if].
  - wp_step. apply wp_copied; [|intros; by apply Hex]. intros pa w1 H1. cbn [bind_post]. wp_step.
    apply (wp_mono _ _ _ (λ r w', match r with
      | Val (_, b) => live w' = owned_opt b ⊎ live w1 | Exit c => c = 1 | _ => False end)).
    { destruct (bit flags IFF_BROADCAST); [|wp_step; simpl; msolve].
      wp_step. apply wp_Ioctl_ifr; [|done]. intros b w2 H2. cbn [bind_post]. wp_step.
      apply wp_copied; [|done]. intros p w3 H3. cbn [bind_post]. wp_step. by rewrite H3, H2. }
    intros [[ifr b]|c| |] w2; cbn [bind_post]; try done; [|intros ->; by apply Hex]. intros H2. wp_step.
    destruct (bit flags IFF_POINTOPOINT).
    + wp_step. apply wp_Ioctl_ifr; [|intros; by apply Hex]. intros ifr' w3 H3. cbn [bind_post].
      apply wp_copied; [|intros; by apply Hex]. intros pd w4 H4. cbn [bind_post]. wp_step. apply HQ.
      rewrite H4, H3, H2, H1. msolve.
    + wp_step. cbn [bind_post]. wp_step. apply HQ. rewrite H2, H1. simpl. msolve.
  - wp_step. apply wp_copied; [|intros; by apply Hex]. intros pa w1 H1. cbn [bind_post]. wp_step.
    destruct (bit flags IFF_POINTOPOINT).
    + wp_step. apply wp_Ioctl_ifr; [|intros; by apply Hex]. intros ifr' w3 H3. cbn [bind_post].
      apply wp_copied; [|intros; by apply Hex]. intros pd w4 H4. cbn [bind_post]. wp_step. apply HQ.
      rewrite H4, H3, H1. simpl. msolve.
    + wp_step. cbn [bind_post]. wp_step. apply HQ. rewrite H1. simpl. msolve.
  - wp_step. apply HQ. simpl. msolve.
Qed.

(** One record: at most one structure more, further on in the buffer. *)
Lemma wp_ifi_record beyond sockfd family doaliases ifc_len o mem lastname l w
    (Q : outcome (walk + list ifi_info) → world → Prop) :
  (∀ o' mem' lastname' l' w', o < ifc_len → o + 32 <= o' → (∃ l2, l' = l ++ l2) →
     (∀ R, live w = owned_ifis l ⊎ R → live w' = owned_ifis l' ⊎ R) →
     Q (Val (inl (o', mem', lastname', l'))) w') →
  Q (Val (inr l)) w → (∀ w', Q (Exit 1) w') →
  wp K (ifi_record beyond sockfd family doaliases ifc_len (o, mem, lastname, l)) w Q.
Proof.
  intros HQ Hend Hex. unfold ifi_record. wp_if; [|by wp_step].
  assert (Hptr : o + 32 <= o + IFNAMSIZ + record_len mem o).
  { unfold IFNAMSIZ, record_len. case_decide; lia. }
  set (ptr := o + IFNAMSIZ + record_len mem o) in *. clearbody ptr.
  assert (Hskip : ∀ mem' ln w', live w' = live w →
    wp K (mret (inl (ptr, mem', ln, l)) : M (walk + list ifi_info)) w' Q).
  { intros mem' ln w' Hw'. wp_step. apply HQ; [done..|by exists []; rewrite app_nil_r|].
    intros R HR. by rewrite Hw'. }
  wp_if; [by apply Hskip|]. cbn zeta.
  set (mem2 := cut_colon mem o). set (same := bool_decide _).
  wp_if; [by apply Hskip|]. wp_step. apply wp_Ioctl_ifr; [|intros; by apply Hex].
  intros b w1 H1. cbn [bind_post]. cbn zeta.
  destruct (bit _ IFF_UP); [|by apply Hskip].
  wp_step. apply wp_Calloc; [|intros; by apply Hex]. intros p w2 H2. cbn [bind_post].
  wp_step. apply wp_Ioctl_ifr; [|intros; by apply Hex]. intros b2 w3 H3. cbn [bind_post].
  wp_step. apply wp_ifi_addrs; [|intros; by apply Hex]. intros pa pb pd w4 H4. cbn [bind_post]. wp_step.
  apply HQ; [done..|by eexists|]. intros R HR. rewrite H4, H3, H2, H1, HR, owned_ifis_snoc.
  unfold owned_ifi. simpl. msolve.
Qed.

Lemma wp_get_ifi_info fuel junk beyond family doaliases w (Q : outcome (list ifi_info) → world → Prop) :
  (∀ l w', live w' = owned_ifis l ⊎ live w → Q (Val l) w') →
  (∀ o w', (∀ l, o ≠ Val l) → Q o w') →
  wp K (get_ifi_info fuel junk beyond family doaliases) w Q.
Proof.
  intros HQ Hex. unfold get_ifi_info. wp_step. unfold Socket. apply wp_or_err_sys. wp_step.
  destruct (K _ (Csocket _ _ _)) as [fd|e]; [|intros; by apply Hex]. cbn [bind_post].
  set (w1 := World _ _ _). assert (H1 : live w1 = live w) by done. clearbody w1. rewrite <-H1 in HQ.
  wp_step. apply wp_ifconf_heap; [|intros o w2 Ho; destruct o as [x|c| |]; [by destruct (Ho x)|by apply Hex..]].
  intros buf len data w2 H2. cbn [bind_post]. cbn zeta. wp_step.
  apply (wp_iter K (λ '(o, _, _, l) w', live w' = owned_ifis l ⊎ live w2)); [simpl; msolve| |].
  - intros [[[o mem] ln] l] w3 H3. apply wp_ifi_record; [| |intros; by apply Hex].
    + intros o' mem' ln' l' w4 _ _ _ H4. cbn [bind_post]. by apply H4.
    + cbn [bind_post]. wp_step. apply wp_free. intros w4 H4. cbn [bind_post]. wp_step. apply HQ.
      rewrite H4, H3, H2. msolve.
  - intros [[[o mem] ln] l] w3 _. by apply Hex.
Qed.

Lemma wp_free_ifi_info l R w (Q : outcome unit → world → Prop) :
  live w = owned_ifis l ⊎ R → (∀ w', live w' = R → Q (Val tt) w') → wp K (free_ifi_info l) w Q.
Proof.
  revert w. induction l as [|ifi l IH]; intros w Hh HQ; simpl in *.
  - apply wp_ret, HQ. rewrite Hh. msolve.
  - assert (Hp : ∀ p R w (Q : outcome unit → world → Prop), live w = owned_opt p ⊎ R →
      (∀ w', live w' = R → Q (Val tt) w') → wp K (free_ptr p) w Q).
    { intros p R' w1 Q1 H1 HQ1. by apply (wp_free_opt K p R'). }
    wp_step. apply (Hp _ (owned_opt (ifi_brdaddr ifi) ⊎ (owned_opt (ifi_dstaddr ifi) ⊎
      ({[+ ifi_ptr ifi +]} ⊎ (owned_ifis l ⊎ R))))); [rewrite Hh; unfold owned_ifi; msolve|].
    intros w1 H1. cbn [bind_post]. wp_step. apply (Hp _ _ _ _ H1). intros w2 H2. cbn [bind_post].
    wp_step. apply (Hp _ _ _ _ H2). intros w3 H3. cbn [bind_post]. wp_step.
    apply wp_free. intros w4 H4. cbn [bind_post]. apply IH; [|done]. rewrite H4, H3. msolve.
Qed.
End memory.

(** The walk ends within its rounds: the buffer is passed in steps of 32 bytes. *)
Lemma wp_get_ifi_info_ends (K : kernel) fuel junk beyond family doaliases w full :
  (∀ fd, KernelIfconf K fd full) → (2 <= fuel)%nat →
  Z.of_nat (length full) <= 4000 + 400 * (Z.of_nat fuel - 2) →
  wp K (get_ifi_info fuel junk beyond family doaliases) w (λ o _, o ≠ Diverge).
Proof.
  intros HK H2 Hfuel. unfold get_ifi_info. wp_step. unfold Socket. apply wp_or_err_sys. wp_step.
  destruct (K _ (Csocket _ _ _)) as [fd|e]; [|done]. cbn [bind_post]. wp_step.
  apply (wp_ifconf K fd full); [done..|]. intros o w1 Ho Hd.
  destruct o as [[[buf len] data]|c| |]; [|done..]. cbn [bind_post]. cbn zeta. wp_step.
  apply (wp_iter_total K (λ '(o, _, _, _) _, 0 <= o)
    (λ '(o, _, _, _), Z.to_nat (Z.of_nat (length data) - o))); [done|simpl; lia|].
  intros [[[o mem] ln] l] w2 Ho2. apply wp_ifi_record; [| |done].
  - intros o' mem' ln' l' w3 H3 H4 _ _. cbn [bind_post]. lia.
  - cbn [bind_post]. wp_step. wp_step. cbn [bind_post]. by wp_step.
Qed.

(** * Properties *)

(** C30: what [get_ifi_info] has allocated and not freed when it returns is exactly
    the blocks of its list, whatever the kernel answers, and [free_ifi_info] gives
    back exactly these. *)
Theorem ifi_memory (K : kernel) fuel junk beyond family doaliases w :
  match get_ifi_info fuel junk beyond family doaliases K w with
  | (Val l, w1) =>
      heap K (w_calls w1) = owned_ifis l ⊎ heap K (w_calls w) ∧
      match free_ifi_info l K w1 with
      | (Val tt, w2) => heap K (w_calls w2) = heap K (w_calls w)
      | _ => False
      end
  | _ => True
  end.
Proof.
  assert (H : wp K (get_ifi_info fuel junk beyond family doaliases) w (λ o w1,
    ∀ l, o = Val l → heap K (w_calls w1) = owned_ifis l ⊎ heap K (w_calls w))).
  { apply wp_get_ifi_info; [by intros l w1 H1 l' [= <-]|].
    intros o w1 Ho l Hl. by destruct (Ho l). }
  unfold wp in H. destruct (get_ifi_info fuel junk beyond family doaliases K w) as [[l|c| |] w1]; try done.
  specialize (H l eq_refl). split; [exact H|].
  assert (Hf : wp K (free_ifi_info l) w1 (λ o w2, o = Val tt ∧ heap K (w_calls w2) = heap K (w_calls w))).
  { by apply (wp_free_ifi_info K l (heap K (w_calls w))). }
  unfold wp in Hf. destruct (free_ifi_info l K w1) as [o w2]. simpl in Hf. by destruct Hf as [-> Hf].
Qed.

(** The buffer that [get_ifi_info] walks over holds all the records of the
    kernel, none cut off, however many there are, and the function returns: the
    buffer grows until its contents have the same length twice. *)
Theorem ifconf_complete (K : kernel) fuel junk beyond family doaliases full sockfd w :
  (∀ fd, KernelIfconf K fd full) → (2 <= fuel)%nat →
  Z.of_nat (length full) <= 4000 + 400 * (Z.of_nat fuel - 2) →
  (get_ifi_info fuel junk beyond family doaliases K w).1 ≠ Diverge ∧
  match (ifconf fuel sockfd K w).1 with
  | Val (buf, len, data) => data = full ∧ Z.of_nat (length full) <= len
  | Diverge => False
  | _ => True
  end.
Proof.
  intros HK H2 Hf. split.
  - exact (wp_get_ifi_info_ends K fuel junk beyond family doaliases w full HK H2 Hf).
  - apply (wp_ifconf K sockfd full fuel w (λ o _, match o with
      | Val (buf, len, data) => data = full ∧ Z.of_nat (length full) <= len
      | Diverge => False | _ => True end)); [done..|].
    intros [[[buf len] data]|c| |] w' Ho Hd; try done. by apply (Ho buf len data).
Qed.

(** * Instances *)

(** The records of an x86_64 Linux: 40 bytes each. *)
Definition ifreq_rec (name addr : list Z) : list Z :=
  take 16 (name ++ repeat 0 16) ++ le_bytes 2 AF_INET ++ [0; 0] ++ addr ++ repeat 0 16.
Definition two_interfaces : list Z :=
  ifreq_rec (str "lo") [127; 0; 0; 1] ++ ifreq_rec (str "eth0") [10; 0; 0; 5].

Definition linux_kernel : kernel := λ cs c,
  match c return ans c with
  | Csocket _ _ _ => ROk 3
  | Cmalloc _ | Ccalloc _ _ => ROk (4096 + 16 * Z.of_nat (length cs))
  | Cioctl_mem _ r ifr len =>
      if decide (r = SIOCGIFCONF) then (if decide (80 <= len) then ROk two_interfaces else RErr EINVAL)
      else ROk (take 16 ifr ++ [1; 0] ++ repeat 0 22)
  | c => default_ans c
  end.

#[global] Instance linux_kernel_ifconf fd : KernelIfconf linux_kernel fd two_interfaces.
Proof.
  split; intros cs len; cbn [linux_kernel]; rewrite (decide_True (P := SIOCGIFCONF = _)) by done.
  - intros Hl. change (80 <= len) in Hl. by rewrite decide_True.
  - intros data Hl. change (len < 80) in Hl. by rewrite decide_False by lia.
Qed.

Lemma ifconf_complete_witness :
  (get_ifi_info 3 (λ n, repeat 0 (Z.to_nat n)) [] AF_INET 1 linux_kernel (World [] 0 false)).1 ≠ Diverge ∧
  match (ifconf 3 3 linux_kernel (World [] 0 false)).1 with
  | Val (buf, len, data) => data = two_interfaces ∧ Z.of_nat (length two_interfaces) <= len
  | Diverge => False
  | _ => True
  end.
Proof.
  exact (ifconf_complete linux_kernel 3 (λ n, repeat 0 (Z.to_nat n)) [] AF_INET 1 two_interfaces 3
    (World [] 0 false) (λ fd, linux_kernel_ifconf fd) ltac:(lia) ltac:(vm_compute; congruence)).
Defined.

(** The walk takes steps of 32 bytes, but the records have 40: of two interfaces
    that are up, the second is not found. *)
Lemma get_ifi_info_misaligned :
  match (get_ifi_info 3 (λ n, repeat 0 (Z.to_nat n)) [] AF_INET 1 linux_kernel (World [] 0 false)).1 with
  | Val l => map (λ ifi, until_nul (ifi_name ifi)) l = [str "lo"]
  | _ => False
  end.
Proof. vm_compute. reflexivity. Qed.
