(* ===== verification/Bcast.v ===== *)
(** [bcast/] and [mcast/]: clients that send a line to many hosts and print the
    replies of the next seconds, in the versions that differ in how [SIGALRM] ends
    the wait, and the multicast programs.

    A handler runs at the points [Cdeliver SIGALRM]; a blocking call that the
    signal interrupts fails with [EINTR].  A signal that is blocked has no point.
    In the versions with [siglongjmp] the point between [alarm] and the first
    [sigsetjmp] of the process is left out: the jump has no target there. *)

From S2P Require Import Prelude Net Sys Error Wrap SockAddr Io Connect Mcast TcpServ.

Definition SO_BROADCAST : Z := 6.
Definition SIG_BLOCK : Z := 0.
Definition SIG_UNBLOCK : Z := 1.

(** The addresses of the signal sets. *)
Definition sigset_alrm : Z := 1.
Definition sigset_empty : Z := 2.

(** What all print for a datagram. *)
Definition print_reply (recvline : list Z) (from : sockaddr) : M unit :=
  h ← Sock_ntop_host from (sa_len from);
  printf (str "from " ++ h ++ str ": " ++ c_str (recvline ++ [0])).

Section bcast.
Context (fuel : nat) (sockfd : Z).

(** * dgclibcast1.c and dgclibcast2.c *)

(** What follows a [recvfrom] that the alarm ends; [nap] comes before the text. *)
Definition replied (nap : M unit) (r : res (list Z * sockaddr)) : M (unit + unit) :=
  match r with
  | RErr _ =>
      errno ← get_errno;
      if decide (errno = EINTR) then mret (inr tt) else err_sys (str "recvfrom error")
  | ROk (recvline, from) => nap;; print_reply recvline from;; mret (inl tt)
  end.

Definition bcast1_round (nap : M unit) : M (unit + unit) :=
  sys (Cdeliver SIGALRM);;
  r ← checked (sys (Crecvfrom sockfd MAXLINE));
  replied nap r.

Definition bcast1_replies (sec : Z) (nap : M unit) : M unit :=
  sys (Calarm sec);;
  iter fuel (λ _, bcast1_round nap) tt.

(** * dgclibcast3.c *)

Definition bcast3_round : M (unit + unit) :=
  Sigprocmask SIG_UNBLOCK sigset_alrm 0;;
  sys (Cdeliver SIGALRM);;
  r ← checked (sys (Crecvfrom sockfd MAXLINE));
  sys (Cdeliver SIGALRM);;
  errno ← get_errno;
  Sigprocmask SIG_BLOCK sigset_alrm 0;;
  set_errno errno;;
  replied (mret tt) r.

Definition bcast3_replies : M unit :=
  sys (Calarm 5);;
  iter fuel (λ _, bcast3_round) tt.

(** * dgclibcast4.c *)

(** From the [Sigprocmask] that blocks [SIGALRM] on, the handler can run only inside
    [pselect], which lifts the mask: the program has no other point, and the
    [EINTR] of [pselect] is the signal. *)

Definition bcast4_round : M (unit + unit) :=
  r ← checked (sys (Cpselect (sockfd + 1) {[sockfd]} ∅ None sigset_empty));
  match r with
  | RErr _ =>
      errno ← get_errno;
      if decide (errno = EINTR) then mret (inr tt) else err_sys (str "pselect error")
  | ROk (n, _, _) =>
      if decide (n ≠ 1) then err_sys (str "pselect error: returned " ++ fmt_d n)
      else
        '(recvline, from) ← Recvfrom sockfd MAXLINE;
        print_reply recvline from;;
        mret (inl tt)
  end.

Definition bcast4_replies : M unit :=
  Sigprocmask SIG_BLOCK sigset_alrm 0;;
  sys (Calarm 5);;
  iter fuel (λ _, bcast4_round) tt.

(** * dgclibcast5.c, and dgclimcast5.c and dgclimcast6.c *)

(** Whether the handler runs here and jumps. *)
Definition jumped : M bool :=
  n ← sys (Cdeliver SIGALRM);
  mret (bool_decide (n ≠ 0%nat)).

Definition bcast5_round : M (unit + unit) :=
  j ← jumped;
  if (j : bool) then mret (inr tt)
  else
    '(recvline, from) ← Recvfrom sockfd MAXLINE;
    j ← jumped;
    if (j : bool) then mret (inr tt)
    else
      print_reply recvline from;;
      mret (inl tt).

Definition bcast5_replies : M unit :=
  sys (Calarm 5);;
  iter fuel (λ _, bcast5_round) tt.

(** * dgclibcast6.c *)

(** The handler, as often as it runs here. *)
Definition pipe_alarm (pipefd1 : Z) : M unit :=
  n ← sys (Cdeliver SIGALRM);
  for_each (repeat tt n) (λ _ _, Write pipefd1 [0]) tt.

Definition bcast6_round (pipefd0 pipefd1 : Z) : M (unit + unit) :=
  pipe_alarm pipefd1;;
  r ← checked (sys (Cselect (Z.max sockfd pipefd0 + 1) {[sockfd; pipefd0]} ∅ None));
  errno ← get_errno;
  pipe_alarm pipefd1;;
  match r with
  | RErr _ => if decide (errno = EINTR) then mret (inl tt) else err_sys (str "select error")
  | ROk (_, rset, _) =>
      (if decide (sockfd ∈ rset) then
         '(recvline, from) ← Recvfrom sockfd MAXLINE;
         print_reply recvline from
       else mret tt);;
      if decide (pipefd0 ∈ rset) then
        Read pipefd0 1;;
        mret (inr tt)
      else mret (inl tt)
  end.

Definition bcast6_replies (pipefd0 pipefd1 : Z) : M unit :=
  sys (Calarm 5);;
  iter fuel (λ _, bcast6_round pipefd0 pipefd1) tt.

(** * dg_cli *)

(** [while (Fgets(...) != NULL)]: the line is sent, the replies are awaited. *)
Definition each_line (servaddr : sockaddr) (replies : M unit) : M unit :=
  iter fuel (λ _ : unit,
    sendline ← Fgets MAXLINE;
    match sendline with
    | None => mret (inr tt)
    | Some sendline =>
        Sendto sockfd (c_str sendline) servaddr;;
        replies;;
        mret (inl tt)
    end) tt.

Definition set_broadcast : M unit := Setsockopt sockfd SOL_SOCKET SO_BROADCAST [1; 0; 0; 0].

(** [between] is what stands between [Setsockopt] and [Signal], or what it makes. *)
Definition bcast_cli {A} (servaddr : sockaddr) (between : M A) (replies : A → M unit) : M unit :=
  preply_addr ← Malloc (sa_len servaddr);
  set_broadcast;;
  a ← between;
  Signal SIGALRM (Handler "recvfrom_alarm");;
  each_line servaddr (replies a);;
  sys (Cfree preply_addr).

Definition bcast_dg_cli1 (servaddr : sockaddr) : M unit :=
  bcast_cli servaddr (mret tt) (λ _, bcast1_replies 5 (mret tt)).
Definition bcast_dg_cli2 (servaddr : sockaddr) : M unit :=
  bcast_cli servaddr (mret tt) (λ _, bcast1_replies 1 (sys (Csleep 1);; sys (Cdeliver SIGALRM);; mret tt)).
Definition bcast_dg_cli3 (servaddr : sockaddr) : M unit :=
  bcast_cli servaddr (Sigemptyset sigset_alrm;; Sigaddset sigset_alrm SIGALRM) (λ _, bcast3_replies).
Definition bcast_dg_cli4 (servaddr : sockaddr) : M unit :=
  bcast_cli servaddr (Sigemptyset sigset_empty;; Sigemptyset sigset_alrm;; Sigaddset sigset_alrm SIGALRM)
    (λ _, bcast4_replies).
Definition bcast_dg_cli5 (servaddr : sockaddr) : M unit :=
  bcast_cli servaddr (mret tt) (λ _, bcast5_replies).
Definition bcast_dg_cli6 (servaddr : sockaddr) : M unit :=
  bcast_cli servaddr Pipe (λ '(pipefd0, pipefd1), bcast6_replies pipefd0 pipefd1).
End bcast.

(** * udpcli01.c to udpcli06.c *)

Definition bcast_main (usage : string) (port : Z) (dg_cli : Z → sockaddr → M unit) (argv : list (list Z)) : M unit :=
  if decide (length argv ≠ 2%nat) then err_quit (str usage)
  else
    addr ← Inet_pton AF_INET (nth 1 argv []);
    sockfd ← Socket AF_INET SOCK_DGRAM 0;
    dg_cli sockfd (SaIn (htons port) addr);;
    exit 0.

Definition bcast_udpcli01 (fuel : nat) := bcast_main "usage: udpcli01 <IPaddress>" 13 (bcast_dg_cli1 fuel).
Definition bcast_udpcli02 (fuel : nat) := bcast_main "usage: udpcli02 <IPaddress>" 13 (bcast_dg_cli2 fuel).
Definition bcast_udpcli03 (fuel : nat) := bcast_main "usage: udpcli03 <IPaddress>" 13 (bcast_dg_cli3 fuel).
Definition bcast_udpcli04 (fuel : nat) := bcast_main "usage: udpcli04 <IPaddress>" 13 (bcast_dg_cli4 fuel).
Definition bcast_udpcli05 (fuel : nat) := bcast_main "usage: udpcli05 <IPaddress>" 13 (bcast_dg_cli5 fuel).
Definition bcast_udpcli06 (fuel : nat) := bcast_main "usage: udpcli02 <IPaddress>" 13 (bcast_dg_cli6 fuel).

(** * mcast/ *)

(** The versions there neither ask for broadcasting nor free the address; they pass
    [servlen] to [Sock_ntop_host], which only a family it does not know tells from
    the length received. *)
Definition mcast_cli (fuel : nat) (sockfd : Z) (servaddr : sockaddr) (replies : M unit) : M unit :=
  Malloc (sa_len servaddr);;
  Signal SIGALRM (Handler "recvfrom_alarm");;
  each_line fuel sockfd servaddr replies.

Definition mcast_dg_cli1 (fuel : nat) (sockfd : Z) (servaddr : sockaddr) : M unit :=
  mcast_cli fuel sockfd servaddr (bcast1_replies fuel sockfd 5 (mret tt)).
Definition mcast_dg_cli5 (fuel : nat) (sockfd : Z) (servaddr : sockaddr) : M unit :=
  mcast_cli fuel sockfd servaddr (bcast5_replies fuel sockfd).
Definition mcast_dg_cli6 (fuel : nat) (sockfd : Z) (servaddr : sockaddr) : M unit :=
  mcast_cli fuel sockfd servaddr (bcast5_replies fuel sockfd).

Definition mcast_udpcli01 (fuel : nat) := bcast_main "usage: udpcli01 <IPaddress>" SERV_PORT (mcast_dg_cli1 fuel).
Definition mcast_udpcli05 (fuel : nat) := bcast_main "usage: udpcli05 <IPaddress>" 13 (mcast_dg_cli5 fuel).

Definition mcast_udpcli06 (fuel : nat) (argv : list (list Z)) : M unit :=
  if decide (length argv ≠ 2%nat) then err_quit (str "usage: udpcli06 <IPaddress>")
  else
    '(sockfd, serv, salen) ← Udp_client (Some (nth 1 argv [])) (Some (str "daytime"));
    Malloc salen;;
    let cli := sock_set_port serv 0 in
    Bind sockfd cli;;
    mcast_dg_cli6 fuel sockfd serv;;
    exit 0.

Definition mcast_udpserv01 (fuel : nat) : M unit :=
  sockfd ← Socket AF_INET SOCK_DGRAM 0;
  Bind sockfd (SaIn (htons SERV_PORT) INADDR_ANY);;
  mcast_join sockfd (SaIn 0 [224; 0; 0; 1]) 16 None 0;;
  dg_echo fuel sockfd.

Definition recv_all (fuel : nat) (recvfd salen : Z) : M unit :=
  Malloc salen;;
  iter fuel (λ _ : unit,
    '(line, safrom) ← Recvfrom recvfd MAXLINE;
    h ← Sock_ntop safrom (sa_len safrom);
    printf (str "from " ++ h ++ str ": " ++ c_str (line ++ [0]));;
    mret (inl tt : unit + unit)) tt.

(** [snprintf] cuts the line to the buffer. *)
Definition send_all (fuel : nat) (sendfd : Z) (sadest : sockaddr) : M unit :=
  r ← checked (sys Cuname);
  match r with
  | RErr _ => err_sys (str "uname error")
  | ROk nodename =>
      pid ← sys Cgetpid;
      let line := snprintf_trunc MAXLINE (nodename ++ str ", " ++ fmt_d pid ++ [ch_nl]) in
      iter fuel (λ _ : unit,
        Sendto sendfd line sadest;;
        sys (Csleep 5);;
        mret (inl tt : unit + unit)) tt
  end.

Definition sendrecv_main (fuel : nat) (argv : list (list Z)) : M unit :=
  if decide (length argv ≠ 3%nat) then err_quit (str "usage: sendrecv <IP-multicast-address> <port#>")
  else
    '(sendfd, sasend, salen) ← Udp_client (Some (nth 1 argv [])) (Some (nth 2 argv []));
    recvfd ← Socket (sa_family sasend) SOCK_DGRAM 0;
    Setsockopt recvfd SOL_SOCKET SO_REUSEADDR [1; 0; 0; 0];;
    Malloc salen;;
    Bind recvfd sasend;;
    Mcast_join recvfd sasend salen None 0;;
    Mcast_set_loop sendfd 0;;
    pid ← Fork;
    (if decide (pid = 0) then recv_all fuel recvfd salen else mret tt);;
    send_all fuel sendfd sasend.
