(* ===== verification/BcastSpec.v ===== *)
(** Properties of [Bcast]: which versions end when the alarm comes, wherever it
    comes, and which do not. *)

From S2P Require Import Prelude Net Sys Error Wrap SockAddr Io Connect Mcast TcpServ Ends Bcast.

(** * The alarm in a history *)

(** Whether a call shows that the alarm has come: the handler has run, or a call
    that it interrupts has failed. *)
Definition shows (K : kernel) (cs : list call) (c : call) : bool :=
  match c as c return ans c → bool with
  | Cdeliver _ => λ n, bool_decide (n ≠ 0%nat)
  | Crecvfrom _ _ => λ a, match a with RErr e => bool_decide (e = EINTR) | _ => false end
  | Cpselect _ _ _ _ _ => λ a, match a with RErr e => bool_decide (e = EINTR) | _ => false end
  | _ => λ _, false
  end (K cs c).

(** The alarm has come since it was set. *)
Fixpoint arrived (K : kernel) (cs : list call) : bool :=
  match cs with
  | [] => false
  | Calarm _ :: _ => false
  | c :: cs' => shows K cs' c || arrived K cs'
  end.

(** The calls of a kind since the alarm was set. *)
Fixpoint count_since (p : call → bool) (cs : list call) : nat :=
  match cs with
  | [] => 0
  | Calarm _ :: _ => 0
  | c :: cs' => (if p c then 1 else 0) + count_since p cs'
  end.

(** A byte written into the pipe and not yet read. *)
Fixpoint unread (K : kernel) (pipefd0 pipefd1 : Z) (cs : list call) : bool :=
  match cs with
  | [] => false
  | Cread fd _ :: cs' => bool_decide (fd ≠ pipefd0) && unread K pipefd0 pipefd1 cs'
  | (Cwrite fd data as c) :: cs' =>
      (bool_decide (fd = pipefd1) &&
       match K cs' (Cwrite fd data) with ROk n => bool_decide (0 < n) | RErr _ => false end)
      || unread K pipefd0 pipefd1 cs'
  | _ :: cs' => unread K pipefd0 pipefd1 cs'
  end.

(** What [select] promises for the pipe: it reports the byte, and a signal does
    not interrupt it then. *)
Class KernelPipe (K : kernel) (pipefd0 pipefd1 : Z) := kernel_pipe cs nfds rset :
  unread K pipefd0 pipefd1 cs = true → pipefd0 ∈ rset →
  match K cs (Cselect nfds rset ∅ None) with
  | ROk (_, rset', _) => pipefd0 ∈ rset'
  | RErr e => e ≠ EINTR
  end.

(** The alarm shows at the point [c] at the latest when [n] calls of the kind [p]
    have been made since it was set. *)
Definition alarm_due (K : kernel) (p : call → bool) (n : nat) (c : call) : Prop :=
  ∀ cs, (n <= count_since p cs)%nat → arrived K cs = false → shows K cs c = true.

Definition is_recvfrom (c : call) : bool := match c with Crecvfrom _ _ => true | _ => false end.
Definition is_select (c : call) : bool := match c with Cselect _ _ _ _ => true | _ => false end.
Definition is_pselect (c : call) : bool := match c with Cpselect _ _ _ _ _ => true | _ => false end.

(** Calls that concern neither the alarm nor the waiting nor a pipe. *)
Definition calm_call (c : call) : Prop :=
  match c with
  | Calarm _ | Cdeliver _ | Crecvfrom _ _ | Cselect _ _ _ _ | Cpselect _ _ _ _ _
  | Cread _ _ | Cwrite _ _ => False
  | _ => True
  end.

Lemma report_calm c : report_call c → calm_call c.
Proof. by destruct c. Qed.

Lemma calm_history K cs cs' :
  Forall calm_call cs →
  arrived K (cs ++ cs') = arrived K cs' ∧
  (∀ p, (∀ c, calm_call c → p c = false) → count_since p (cs ++ cs') = count_since p cs') ∧
  (∀ p0 p1, unread K p0 p1 (cs ++ cs') = unread K p0 p1 cs').
Proof.
  induction 1 as [|c cs Hc _ (IH1 & IH2 & IH3)]; [done|]. split; [|split].
  - simpl. destruct c; try done; by rewrite IH1.
  - intros p Hp. specialize (IH2 p Hp). pose proof (Hp c Hc) as Hpc. simpl. rewrite Hpc.
    by destruct c.
  - intros p0 p1. simpl. destruct c; try done; by rewrite IH3.
Qed.

Lemma emits_print_reply l sa : emits calm_call (print_reply l sa).
Proof.
  unfold print_reply, printf, void. emits_tac; [|done].
  apply emits_or_err_sys; [apply report_calm|apply emits_ret].
Qed.

Section ends.
Context (K : kernel).

(** A calm program that ends, as a step. *)
Lemma wp_calm {A} (m : M A) w (Q : outcome A → world → Prop) :
  emits calm_call m → ends K m →
  (∀ o w', o ≠ Diverge → arrived K (w_calls w') = arrived K (w_calls w) →
     (∀ p, (∀ c, calm_call c → p c = false) → count_since p (w_calls w') = count_since p (w_calls w)) →
     (∀ p0 p1, unread K p0 p1 (w_calls w') = unread K p0 p1 (w_calls w)) → Q o w') →
  wp K m w Q.
Proof.
  intros Hm He HQ. destruct (Hm K w) as (cs & Hw & Hcs). destruct (calm_history K cs (w_calls w) Hcs) as (H1 & H2 & H3).
  unfold wp. apply HQ; [apply He|by rewrite Hw| |]; intros; rewrite Hw; [by apply H2|apply H3].
Qed.

Lemma ends_print_reply l sa : ends K (print_reply l sa).
Proof. unfold print_reply. by ends_tac. Qed.

Lemma wp_err_sys_ends {A} msg w (Q : outcome A → world → Prop) :
  (∀ c w', Q (Exit c) w') → wp K (err_sys msg) w Q.
Proof. intros HQ. apply wp_err_sys. intros. apply HQ. Qed.

Lemma wp_Sigprocmask how set oset w (Q : outcome unit → world → Prop) :
  Q (Val tt) (World (Csigset (So_procmask how set oset) :: w_calls w) (w_errno w) (w_daemon w)) →
  (∀ c w', Q (Exit c) w') → wp K (Sigprocmask how set oset) w Q.
Proof.
  intros HQ Hex. unfold Sigprocmask, void. wp_step. apply wp_or_err_sys. wp_step.
  destruct (K _ (Csigset _)); [by wp_step|intros; apply Hex].
Qed.

(** Kinds of calls that are counted. *)
Definition kind (p : call → bool) : Prop := ∀ c, calm_call c → p c = false.

Lemma wp_recv sockfd w (Q : outcome (list Z * sockaddr) → world → Prop) :
  (∀ l sa w', arrived K (w_calls w') = arrived K (w_calls w) →
     (∀ p, count_since p (w_calls w') =
        ((if p (Crecvfrom sockfd MAXLINE) then 1 else 0) + count_since p (w_calls w))%nat) →
     (∀ p0 p1, unread K p0 p1 (w_calls w') = unread K p0 p1 (w_calls w)) →
     Q (Val (l, sa)) w') →
  (∀ c w', Q (Exit c) w') → wp K (Recvfrom sockfd MAXLINE) w Q.
Proof.
  intros HQ Hex. unfold Recvfrom. apply wp_or_err_sys. wp_step.
  destruct (K (w_calls w) (Crecvfrom sockfd MAXLINE)) as [[l sa]|e] eqn:E; [|intros; apply Hex].
  apply HQ; [|done..]. cbn [w_calls arrived shows]. by rewrite E.
Qed.

Lemma wp_print l sa w (Q : outcome unit → world → Prop) :
  (∀ w', arrived K (w_calls w') = arrived K (w_calls w) →
     (∀ p, kind p → count_since p (w_calls w') = count_since p (w_calls w)) →
     (∀ p0 p1, unread K p0 p1 (w_calls w') = unread K p0 p1 (w_calls w)) → Q (Val tt) w') →
  (∀ o w', o ≠ Diverge → (∀ x, o ≠ Val x) → Q o w') → wp K (print_reply l sa) w Q.
Proof.
  intros HQ Hex. apply wp_calm; [apply emits_print_reply|apply ends_print_reply|]. intros o w3 Ho Ha Hc Hu.
  destruct o as [[]|x| |]; [|by apply Hex..]. by apply HQ.
Qed.

(** A reply is received and printed: one more [recvfrom], nothing else counted. *)
Lemma wp_reply {A} sockfd (f : list Z → sockaddr → M A) w (Q : outcome A → world → Prop) :
  (∀ c w', Q (Exit c) w') →
  (∀ l sa w', arrived K (w_calls w') = arrived K (w_calls w) →
     (∀ p, count_since p (w_calls w') =
        ((if p (Crecvfrom sockfd MAXLINE) then 1 else 0) + count_since p (w_calls w))%nat) →
     (∀ p0 p1, unread K p0 p1 (w_calls w') = unread K p0 p1 (w_calls w)) →
     wp K (f l sa) w' Q) →
  wp K ('(l, sa) ← Recvfrom sockfd MAXLINE; f l sa) w Q.
Proof.
  intros Hex Hf. wp_step. apply wp_recv; [|done]. intros l sa w' Ha Hc Hu. cbn [bind_post]. by apply Hf.
Qed.

Lemma wp_printed {A} l sa (m : M A) w (Q : outcome A → world → Prop) :
  (∀ c w', Q (Exit c) w') → (∀ w', Q Aborted w') →
  (∀ w', arrived K (w_calls w') = arrived K (w_calls w) →
     (∀ p, kind p → count_since p (w_calls w') = count_since p (w_calls w)) →
     (∀ p0 p1, unread K p0 p1 (w_calls w') = unread K p0 p1 (w_calls w)) → wp K m w' Q) →
  wp K (print_reply l sa;; m) w Q.
Proof.
  intros Hex Hab Hm. wp_step. apply wp_print; [done|].
  intros [[]|c| |] w' H1 H2; [by destruct (H2 tt)|by apply Hex|by apply Hab|done].
Qed.

(** * The versions with [pselect] and with [siglongjmp] *)

(** What holds at the end of a wait: it ends, and it returns only when the alarm
    has come. *)
Definition awaited (o : outcome unit) (w : world) : Prop :=
  o ≠ Diverge ∧ (o = Val tt → arrived K (w_calls w) = true).

Definition until_alarm (m : M unit) : Prop := ∀ w, wp K m w awaited.

Lemma awaited_exit c w : awaited (Exit c) w.
Proof. done. Qed.
Lemma awaited_aborted w : awaited Aborted w.
Proof. done. Qed.
Lemma awaited_val w : arrived K (w_calls w) = true → awaited (Val tt) w.
Proof. done. Qed.
Hint Resolve awaited_exit awaited_aborted awaited_val : core.

(** The rounds of a wait: each makes one call of the kind [p], and the alarm has
    not come yet. *)
Definition waiting (p : call → bool) (n k : nat) (w : world) : Prop :=
  count_since p (w_calls w) = k ∧ arrived K (w_calls w) = false ∧ (k <= n)%nat.

Lemma wp_waiting p n fuel (body : M (unit + unit)) w :
  (n < fuel)%nat → waiting p n 0 w →
  (∀ k w, waiting p n k w →
     wp K body w (bind_post (λ r w', match r with
       | inl _ => waiting p n (S k) w' | inr x => awaited (Val x) w' end) awaited)) →
  wp K (iter fuel (λ _ : unit, body) tt) w awaited.
Proof.
  intros Hf HI Hbody.
  apply (wp_iter_count K (λ k _ w', waiting p n k w')); [done| |].
  - intros k [] w1 Hw1. by apply Hbody.
  - intros [] w1 (_ & _ & Hn). lia.
Qed.

Lemma due_next p n k c w :
  alarm_due K p n c → waiting p n k w → shows K (w_calls w) c = false →
  (k < n)%nat ∧ arrived K (c :: w_calls w) = false.
Proof.
  intros Hdue (Hk & Ha & Hn) Hs. split.
  - destruct (decide (k < n)%nat) as [|Hkn]; [done|]. rewrite (Hdue (w_calls w)) in Hs; [done|lia|done].
  - cbn [arrived]. rewrite Hs, Ha. by destruct c.
Qed.

Lemma bcast4_until fuel sockfd n :
  alarm_due K is_pselect n (Cpselect (sockfd + 1) {[sockfd]} ∅ None sigset_empty) → (n < fuel)%nat →
  until_alarm (bcast4_replies fuel sockfd).
Proof.
  intros Hdue Hf w.
  unfold bcast4_replies. wp_step. apply wp_Sigprocmask; [|done]. cbn [bind_post].
  wp_step. wp_step. cbn [bind_post].
  apply (wp_waiting is_pselect n); [done|split; [done|split; [done|lia]]|].
  intros k w1 Hw. unfold bcast4_round. wp_step. wp_step. wp_step.
  pose proof (due_next _ _ _ _ _ Hdue Hw) as Hnext. destruct Hw as (Hk & Ha & Hn).
  destruct (K (w_calls w1) (Cpselect _ _ _ _ _)) as [[[m rset] wset]|e] eqn:E; cbn [bind_post].
  - destruct Hnext as [Hlt Ha2]; [by cbn [shows]; rewrite E|].
    wp_if; [by apply wp_err_sys_ends|].
    apply wp_reply; [done|]. intros l sa w3 Ha3 Hc3 _.
    apply wp_printed; [done..|]. intros w4 Ha4 Hc4 _. wp_step.
    unfold waiting. rewrite Ha4, Ha3, Hc4, Hc3 by by intros []. split; [|done]. simpl. by rewrite Hk.
  - repeat wp_step. wp_if; [|by apply wp_err_sys_ends]. wp_step. apply awaited_val.
    cbn [w_calls arrived shows]. rewrite E. by rewrite bool_decide_eq_true_2.
Qed.

Lemma wp_jumped {A} (m1 m2 : M A) w (Q : outcome A → world → Prop) :
  (∀ w', w_calls w' = Cdeliver SIGALRM :: w_calls w → shows K (w_calls w) (Cdeliver SIGALRM) = true →
     wp K m1 w' Q) →
  (∀ w', w_calls w' = Cdeliver SIGALRM :: w_calls w → shows K (w_calls w) (Cdeliver SIGALRM) = false →
     wp K m2 w' Q) →
  wp K (j ← jumped; if (j : bool) then m1 else m2) w Q.
Proof.
  intros H1 H2. wp_step. unfold jumped. wp_step. wp_step. wp_step.
  unfold shows in H1, H2. destruct (bool_decide _); [by apply H1|by apply H2].
Qed.

Lemma bcast5_until fuel sockfd n :
  alarm_due K is_recvfrom n (Cdeliver SIGALRM) → (n < fuel)%nat →
  until_alarm (bcast5_replies fuel sockfd).
Proof.
  intros Hdue Hf w. unfold bcast5_replies. wp_step. wp_step. cbn [bind_post].
  apply (wp_waiting is_recvfrom n); [done|split; [done|split; [done|lia]]|].
  intros k w1 Hw. unfold bcast5_round.
  apply wp_jumped; intros w2 Hw2 Hs; [wp_step; apply awaited_val; rewrite Hw2; cbn [arrived]; by rewrite Hs|].
  destruct (due_next _ _ _ _ _ Hdue Hw Hs) as [Hlt Ha2]. destruct Hw as (Hk & Ha & Hn). rewrite <- Hw2 in Ha2.
  apply wp_reply; [done|]. intros l sa w3 Ha3 Hc3 _. rewrite Ha2 in Ha3.
  apply wp_jumped; intros w4 Hw4 Hs4; [wp_step; apply awaited_val; rewrite Hw4; cbn [arrived]; by rewrite Hs4|].
  apply wp_printed; [done..|]. intros w5 Ha5 Hc5 _. wp_step.
  unfold waiting. rewrite Ha5, Hc5 by by intros []. rewrite Hw4. cbn [arrived count_since is_recvfrom].
  rewrite Hs4, Ha3, Hc3, Hw2. simpl. split; [by rewrite Hk|]. split; [done|lia].
Qed.

(** * The version with a pipe *)

(** A world that keeps the byte in the pipe and has made no [select] since. *)
Definition keeps (p0 p1 : Z) (w w' : world) : Prop :=
  count_since is_select (w_calls w') = count_since is_select (w_calls w) ∧
  (unread K p0 p1 (w_calls w) = true → unread K p0 p1 (w_calls w') = true).

Lemma wp_pipe_alarm p0 p1 w (Q : outcome unit → world → Prop) :
  (∀ c w', Q (Exit c) w') →
  (∀ w', keeps p0 p1 w w' →
     (if shows K (w_calls w) (Cdeliver SIGALRM) then unread K p0 p1 (w_calls w') = true
      else w_calls w' = Cdeliver SIGALRM :: w_calls w) → Q (Val tt) w') →
  wp K (pipe_alarm p1) w Q.
Proof.
  intros Hex HQ. unfold pipe_alarm. wp_step. wp_step. cbn [shows] in HQ.
  set (n := K (w_calls w) (Cdeliver SIGALRM)) in *. set (w1 := World _ _ _).
  apply (wp_for_each K (λ l _ w', (keeps p0 p1 w w' ∧ (length l <= n)%nat) ∧ if decide (length l = n) then w_calls w' = w_calls w1
    else unread K p0 p1 (w_calls w') = true)).
  - split; [split; [done|by rewrite repeat_length]|]. by rewrite decide_True by apply repeat_length.
  - intros [] l [] w2 [[[Hc Hu] Hl] _]. simpl in Hl. unfold Write, all_or_err_sys. wp_step. wp_step. wp_step.
    destruct (K (w_calls w2) (Cwrite p1 [0])) as [m|e] eqn:E; cbn [bind_post];
      [|repeat wp_step; by apply wp_err_sys_ends].
    wp_if; [by apply wp_err_sys_ends|]. wp_step.
    assert (Hu2 : unread K p0 p1 (Cwrite p1 [0] :: w_calls w2) = true).
    { cbn [unread]. rewrite E. rewrite !bool_decide_eq_true_2; [done|simpl in *; lia|done]. }
    split; [split; [by split|lia]|]. by rewrite decide_False by lia.
  - intros [] w2 [[Hk _] Hn]. apply HQ; [done|]. case_decide as Hl; simpl in Hl.
    + rewrite bool_decide_eq_false_2 by lia. done.
    + rewrite bool_decide_eq_true_2 by lia. done.
Qed.

(** The rounds: the alarm has not come, or the byte is in the pipe and one more
    [select] finds it. *)
Definition piping (p0 p1 : Z) (n k : nat) (w : world) : Prop :=
  waiting is_select n k w ∨
  (count_since is_select (w_calls w) = k ∧ (k <= S n)%nat ∧ unread K p0 p1 (w_calls w) = true).

Lemma wp_replies p0 p1 sockfd P `{!Decision P} w (Q : outcome unit → world → Prop) :
  (∀ c w', Q (Exit c) w') → (∀ w', Q Aborted w') →
  (∀ w', keeps p0 p1 w w' → arrived K (w_calls w') = arrived K (w_calls w) → Q (Val tt) w') →
  wp K (if decide P then '(l, sa) ← Recvfrom sockfd MAXLINE; print_reply l sa else mret tt) w Q.
Proof.
  intros Hex Hab HQ. destruct (decide P); [|wp_step; by apply HQ].
  apply wp_reply; [done|]. intros l sa w1 Ha1 Hc1 Hu1. cbn [is_select] in Hc1.
  apply wp_print.
  - intros w2 Ha2 Hc2 Hu2. apply HQ; [|by rewrite Ha2].
    split; [rewrite Hc2, Hc1 by by intros []|rewrite Hu2, Hu1]; done.
  - intros [[]|c| |] w2 H1 H2; [by destruct (H2 tt)|by apply Hex|by apply Hab|done].
Qed.

Lemma piping_keeps p0 p1 n k w w' :
  keeps p0 p1 w w' → arrived K (w_calls w') = arrived K (w_calls w) →
  piping p0 p1 n k w → piping p0 p1 n k w'.
Proof.
  intros [Hc Hu] Ha [(H1 & H2 & H3)|(H1 & H2 & H3)]; [left|right]; unfold waiting.
  - by rewrite Hc, Ha.
  - rewrite Hc. auto.
Qed.

(** The handler runs, or does not, before the [select]. *)
Lemma piping_alarm p0 p1 n k w w' :
  alarm_due K is_select n (Cdeliver SIGALRM) → piping p0 p1 n k w → keeps p0 p1 w w' →
  (if shows K (w_calls w) (Cdeliver SIGALRM) then unread K p0 p1 (w_calls w') = true
   else w_calls w' = Cdeliver SIGALRM :: w_calls w) →
  count_since is_select (w_calls w') = k ∧
  (unread K p0 p1 (w_calls w') = true ∨ arrived K (w_calls w') = false ∧ (k < n)%nat).
Proof.
  intros Hdue [Hw|(H1 & H2 & H3)] [Hc Hu] Hs.
  - destruct (shows K (w_calls w) (Cdeliver SIGALRM)) eqn:E.
    + destruct Hw as (Hk & _). rewrite Hc. auto.
    + destruct (due_next _ _ _ _ _ Hdue Hw E) as [Hlt Ha]. destruct Hw as (Hk & _).
      rewrite Hc. split; [done|]. right. by rewrite Hs.
  - rewrite Hc. auto.
Qed.

(** The handler runs, or does not, after the [select]. *)
Lemma piping_next p0 p1 n k w w' :
  count_since is_select (w_calls w) = S k → arrived K (w_calls w) = false → (k < n)%nat →
  keeps p0 p1 w w' →
  (if shows K (w_calls w) (Cdeliver SIGALRM) then unread K p0 p1 (w_calls w') = true
   else w_calls w' = Cdeliver SIGALRM :: w_calls w) →
  piping p0 p1 n (S k) w'.
Proof.
  intros Hk Ha Hn [Hc Hu] Hs. destruct (shows K (w_calls w) (Cdeliver SIGALRM)) eqn:E.
  - right. rewrite Hc. split; [done|]. split; [lia|done].
  - left. split; [by rewrite Hc|]. split; [|lia]. rewrite Hs. cbn [arrived]. by rewrite E.
Qed.

Lemma bcast6_ends `{!KernelPipe K p0 p1} fuel sockfd n :
  alarm_due K is_select n (Cdeliver SIGALRM) → (S n < fuel)%nat →
  ends K (bcast6_replies fuel sockfd p0 p1).
Proof.
  intros Hdue Hf w. change (wp K (bcast6_replies fuel sockfd p0 p1) w (λ o _, o ≠ Diverge)).
  unfold bcast6_replies. wp_step. wp_step. cbn [bind_post].
  apply (wp_iter_count K (λ k _ w', piping p0 p1 n k w')); [left; split; [done|split; [done|lia]]| |].
  2:{ intros [] w1 [(_ & _ & Hn)|(_ & Hn & _)]; lia. }
  intros k [] w1 Hw1. unfold bcast6_round. wp_step. apply wp_pipe_alarm with (p0 := p0); [done|].
  intros w2 Hk2 Hs2. cbn [bind_post]. wp_step. wp_step. wp_step.
  destruct (piping_alarm _ _ _ _ _ _ Hdue Hw1 Hk2 Hs2) as [Hc2 Hst].
  set (rs := {[sockfd; p0]} : gset Z) in *. set (nfds := Z.max sockfd p0 + 1) in *.
  assert (Hp0 : p0 ∈ rs) by set_solver.
  pose proof (λ H, kernel_pipe (w_calls w2) nfds rs H Hp0) as Hpipe.
  set (cs3 := Cselect nfds rs ∅ None :: w_calls w2).
  assert (Hnext : ∀ e d w', keeps p0 p1 (World cs3 e d) w' →
    (if shows K cs3 (Cdeliver SIGALRM) then unread K p0 p1 (w_calls w') = true
     else w_calls w' = Cdeliver SIGALRM :: cs3) →
    unread K p0 p1 (w_calls w2) = true ∨ piping p0 p1 n (S k) w').
  { intros e d w' Hk' Hs'. destruct Hst as [Hu|[Ha Hlt]]; [by left|right].
    eapply (piping_next _ _ _ _ (World cs3 e d)); [by rewrite <- Hc2|done..]. }
  destruct (K (w_calls w2) (Cselect nfds rs ∅ None)) as [[[m rset] wset]|e] eqn:E; cbn [bind_post].
  - repeat wp_step. cbn [bind_post].
    apply wp_pipe_alarm with (p0 := p0); [done|]. intros w4 Hk4 Hs4.
    apply Hnext in Hk4; [|done..]. cbn [bind_post].
    wp_step. apply wp_replies with (p0 := p0) (p1 := p1); [done..|]. intros w5 Hk5 Ha5. cbn [bind_post].
    wp_if; [|wp_step; destruct Hk4 as [Hu|Hn]; [exfalso; by auto|by eapply piping_keeps]].
    wp_step. unfold Read. apply wp_or_err_sys. wp_step.
    destruct (K _ (Cread p0 1)); [by wp_step|by intros].
  - repeat wp_step. cbn [bind_post].
    apply wp_pipe_alarm with (p0 := p0); [done|]. intros w4 Hk4 Hs4.
    apply Hnext in Hk4; [|done..]. cbn [bind_post].
    wp_if; [|by apply wp_err_sys_ends]. wp_step. destruct Hk4 as [Hu|Hn]; [by destruct (Hpipe Hu)|done].
Qed.
End ends.


(** * A concrete kernel *)

(** The datagrams keep coming, and the alarm comes once, after the first. *)
Fixpoint fired (cs : list call) : bool :=
  match cs with
  | [] => false
  | Calarm _ :: _ => false
  | Cdeliver _ :: cs' => fired cs' ||
      bool_decide (1 <= count_since is_recvfrom cs' + count_since is_select cs')%nat
  | _ :: cs' => fired cs'
  end.

Definition one_alarm : kernel := λ cs c,
  match c with
  | Cdeliver _ =>
      if bool_decide (1 <= count_since is_recvfrom cs + count_since is_select cs)%nat && negb (fired cs)
      then 1%nat else 0%nat
  | Crecvfrom _ _ => ROk ([104], SaIn 13 [127; 0; 0; 1])
  | Cpselect _ rset _ _ _ =>
      if decide (1 <= count_since is_pselect cs)%nat then RErr EINTR else ROk (1, rset, ∅)
  | Cselect _ rset _ _ => ROk (2, rset, ∅)
  | Cwrite _ data => ROk (Z.of_nat (length data))
  | Cread _ _ => ROk [0]
  | Cfputs _ _ => true
  | Csigset _ => ROk 0
  | c => default_ans c
  end.

Lemma fired_arrived cs : arrived one_alarm cs = false → fired cs = false.
Proof.
  induction cs as [|c cs IH]; [done|]. intros Ha. cbn [arrived] in Ha.
  destruct c; cbn [fired]; try done;
    apply orb_false_elim in Ha as [Hs Ha]; try by apply IH.
  cbn [shows one_alarm] in Hs. rewrite (IH Ha) in Hs |- *. cbn [negb] in Hs. rewrite andb_true_r in Hs.
  by destruct (bool_decide (1 <= _)%nat).
Qed.

Lemma one_alarm_due p n c :
  (∀ cs, (n <= count_since p cs)%nat →
     (1 <= count_since is_recvfrom cs + count_since is_select cs)%nat) → c = Cdeliver SIGALRM →
  alarm_due one_alarm p n c.
Proof.
  intros Hp -> cs Hn Ha. cbn [shows one_alarm]. rewrite (fired_arrived _ Ha).
  rewrite (bool_decide_eq_true_2 (1 <= _)%nat) by by apply Hp. done.
Qed.

Lemma one_alarm_pipe p0 p1 : KernelPipe one_alarm p0 p1.
Proof. by intros cs nfds rset _ Hp. Qed.

Lemma one_alarm_pselect nfds rset wset t mask : alarm_due one_alarm is_pselect 1 (Cpselect nfds rset wset t mask).
Proof. intros cs Hn _. cbn [shows one_alarm]. by rewrite decide_True by done. Qed.

Lemma print_one_alarm w : print_reply [104] (SaIn 13 [127; 0; 0; 1]) one_alarm w =
  (Val tt, World (Cfputs 1 (str "from 127.0.0.1: h") :: w_calls w) (w_errno w) (w_daemon w)).
Proof. reflexivity. Qed.


(** * An alarm that is lost *)

(** A kernel under which the signal is handled only between the calls: no
    [recvfrom] is interrupted, since there is always a datagram to receive. *)
Class KernelBetween (K : kernel) (sockfd : Z) : Prop := {
  kb_recv cs n : ∃ l port a,
    K cs (Crecvfrom sockfd n) = ROk (l, SaIn port a) ∧ bytes a ∧ length a = 4%nat;
  kb_mask cs op : ∃ v, K cs (Csigset op) = ROk v
}.

Section lost.
Context (K : kernel) (sockfd : Z) `{!KernelBetween K sockfd}.
Context (n : nat) (Hdue : alarm_due K is_recvfrom n (Cdeliver SIGALRM)).

(** A round that goes round again, and that handles the alarm when it is due. *)
Definition goes_round (w : world) (o : outcome (unit + unit)) (w' : world) : Prop :=
  o = Val (inl tt) ∧
  count_since is_recvfrom (w_calls w') = S (count_since is_recvfrom (w_calls w)) ∧
  (arrived K (w_calls w) = true → arrived K (w_calls w') = true) ∧
  ((n <= count_since is_recvfrom (w_calls w))%nat → arrived K (w_calls w') = true).

(** The wait does not end, though the alarm has come. *)
Definition lost (fuel : nat) (o : outcome unit) (w' : world) : Prop :=
  o = Diverge ∧ ((n < fuel)%nat → arrived K (w_calls w') = true).

Lemma lost_iter fuel (body : M (unit + unit)) w :
  count_since is_recvfrom (w_calls w) = 0%nat → (∀ w1, wp K body w1 (goes_round w1)) →
  wp K (iter fuel (λ _, body) tt) w (lost fuel).
Proof using Type.
  intros H0 Hbody.
  apply (wp_iter_count K (λ k _ w', count_since is_recvfrom (w_calls w') = k ∧
    ((n < k)%nat → arrived K (w_calls w') = true))); [split; [done|lia]| |].
  - intros k [] w1 [Hk Ha]. eapply wp_mono; [apply Hbody|]. intros o w2 (-> & Hc & H1 & H2). cbn [bind_post].
    split; [by rewrite Hc, Hk|]. intros Hnk. apply H2. lia.
  - intros [] w1 [Hk Ha]. by split.
Qed.

Lemma arrived_cons c cs :
  (∀ sec, c ≠ Calarm sec) → arrived K cs = true → arrived K (c :: cs) = true.
Proof using Type.
  intros Hc Ha. destruct c; cbn [arrived]; try (by rewrite Ha, orb_true_r). by destruct (Hc sec).
Qed.

Lemma arrived_deliver cs :
  (n <= count_since is_recvfrom cs)%nat → arrived K (Cdeliver SIGALRM :: cs) = true.
Proof using Hdue.
  intros Hn. cbn [arrived]. destruct (arrived K cs) eqn:Ha; [by rewrite orb_true_r|].
  by rewrite (Hdue cs Hn Ha).
Qed.

(** The round, when its calls are known. *)
Lemma goes_round_calls w w' l :
  w_calls w' = l ++ w_calls w → count_since is_recvfrom (l ++ w_calls w) = S (count_since is_recvfrom (w_calls w)) →
  (∀ sec, Calarm sec ∉ l) →
  (∃ l1 l2, l = l1 ++ Cdeliver SIGALRM :: l2 ∧
     count_since is_recvfrom (l2 ++ w_calls w) = count_since is_recvfrom (w_calls w)) →
  goes_round w (Val (inl tt)) w'.
Proof using Hdue.
  intros Hw Hc Hna (l1 & l2 & -> & Hc2). unfold goes_round. rewrite Hw. clear Hw.
  assert (Happ : ∀ l0 cs, (∀ sec, Calarm sec ∉ l0) → arrived K cs = true → arrived K (l0 ++ cs) = true).
  { intros l0 cs. induction l0 as [|c l0 IH]; intros H Ha; [done|]. cbn [app]. apply arrived_cons.
    - intros sec ->. apply (H sec). by left.
    - apply IH; [|done]. intros sec Hin. apply (H sec). by right. }
  split; [done|]. split; [done|]. split; [by apply Happ|].
  intros Hn. rewrite <-app_assoc. apply Happ.
  - intros sec Hin. apply (Hna sec). apply elem_of_app. by left.
  - cbn [app]. apply arrived_deliver. by rewrite Hc2.
Qed.

Lemma wp_print_reply l port a w Q :
  bytes a → length a = 4%nat →
  (∀ t w', w_calls w' = Cfputs stdout t :: w_calls w → Q (Val tt) w') →
  wp K (print_reply l (SaIn port a)) w Q.
Proof using Type.
  intros Hb Hl Hf. destruct (sock_ntop4 a Hb Hl) as (t & Ht & _). unfold print_reply. wp_step.
  unfold Sock_ntop_host, sock_ntop_host. rewrite Ht. apply wp_or_err_sys. wp_step. cbn [bind_post].
  unfold printf, void. repeat wp_step. by eapply Hf.
Qed.

(** [Sigprocmask] succeeds. *)
Lemma wp_mask how set oset w Q :
  (∀ w', w_calls w' = Csigset (So_procmask how set oset) :: w_calls w → Q (Val tt) w') →
  wp K (Sigprocmask how set oset) w Q.
Proof using KernelBetween0.
  intros Hf. unfold Sigprocmask, void. wp_step. apply wp_or_err_sys. wp_step.
  destruct (kb_mask (w_calls w) (So_procmask how set oset)) as [v ->]. cbn [bind_post]. wp_step. by apply Hf.
Qed.

#[local] Ltac same_calls l :=
  apply (goes_round_calls _ _ l);
    [cbn [w_calls app] in *; congruence|reflexivity|intros sec; set_solver|].

Lemma bcast1_goes_round w : wp K (bcast1_round sockfd (mret tt)) w (goes_round w).
Proof using Type*.
  unfold bcast1_round, replied. repeat wp_step.
  match goal with |- context [K ?cs (Crecvfrom _ ?m)] =>
    destruct (kb_recv cs m) as (l & port & a & -> & Hb & Hl) end. cbn [bind_post].
  repeat wp_step. apply wp_print_reply; [done..|]. intros t w' Hw'. cbn [bind_post]. wp_step.
  same_calls [Cfputs stdout t; Crecvfrom sockfd MAXLINE; Cdeliver SIGALRM].
  by exists [Cfputs stdout t; Crecvfrom sockfd MAXLINE], [].
Qed.

Lemma bcast2_goes_round w :
  wp K (bcast1_round sockfd (sys (Csleep 1);; sys (Cdeliver SIGALRM);; mret tt)) w (goes_round w).
Proof using Type*.
  unfold bcast1_round, replied. repeat wp_step.
  match goal with |- context [K ?cs (Crecvfrom _ ?m)] =>
    destruct (kb_recv cs m) as (l & port & a & -> & Hb & Hl) end. cbn [bind_post].
  repeat wp_step. apply wp_print_reply; [done..|]. intros t w' Hw'. cbn [bind_post]. wp_step.
  same_calls [Cfputs stdout t; Cdeliver SIGALRM; Csleep 1; Crecvfrom sockfd MAXLINE; Cdeliver SIGALRM].
  by exists [Cfputs stdout t; Cdeliver SIGALRM; Csleep 1; Crecvfrom sockfd MAXLINE], [].
Qed.

Lemma bcast3_goes_round w : wp K (bcast3_round sockfd) w (goes_round w).
Proof using Type*.
  unfold bcast3_round, replied. wp_step. apply wp_mask. intros w1 Hw1. cbn [bind_post]. repeat wp_step.
  match goal with |- context [K ?cs (Crecvfrom _ ?m)] =>
    destruct (kb_recv cs m) as (l & port & a & -> & Hb & Hl) end. cbn [bind_post].
  repeat wp_step. apply wp_mask. intros w2 Hw2. cbn [w_calls bind_post] in *. repeat wp_step.
  apply wp_print_reply; [done..|]. intros t w' Hw'. cbn [bind_post]. wp_step.
  same_calls [Cfputs stdout t; Csigset (So_procmask SIG_BLOCK sigset_alrm 0); Cdeliver SIGALRM;
    Crecvfrom sockfd MAXLINE; Cdeliver SIGALRM; Csigset (So_procmask SIG_UNBLOCK sigset_alrm 0)].
  by exists [Cfputs stdout t; Csigset (So_procmask SIG_BLOCK sigset_alrm 0); Cdeliver SIGALRM;
    Crecvfrom sockfd MAXLINE], [Csigset (So_procmask SIG_UNBLOCK sigset_alrm 0)].
Qed.
End lost.

(** C32: The version of the broadcast client in the book and the two that the Makefile
    calls incorrect can lose the alarm.  Under every kernel that handles [SIGALRM]
    only between the calls of [recvfrom], because there is always a datagram to
    receive, the three wait on without end, although the alarm comes, at the
    latest after [n] datagrams, its handler runs and returns; the version with
    [siglongjmp] ends its wait under the same kernels. *)
Theorem bcast_alarm_lost K n fuel sockfd w `{!KernelBetween K sockfd} :
  alarm_due K is_recvfrom n (Cdeliver SIGALRM) → (n < fuel)%nat →
  let nap := sys (Csleep 1);; sys (Cdeliver SIGALRM);; mret tt in
  (∀ replies, replies ∈ [bcast1_replies fuel sockfd 5 (mret tt); bcast1_replies fuel sockfd 1 nap;
                         bcast3_replies fuel sockfd] →
     let '(o, w') := replies K w in o = Diverge ∧ arrived K (w_calls w') = true) ∧
  until_alarm K (bcast5_replies fuel sockfd).
Proof.
  intros Hdue Hf nap. split; [|by apply bcast5_until with n].
  assert (Hlost : ∀ sec body, (∀ w1, wp K body w1 (goes_round K n w1)) →
    let '(o, w') := (sys (Calarm sec);; iter fuel (λ _ : unit, body) tt) K w in
    o = Diverge ∧ arrived K (w_calls w') = true).
  { intros sec body Hbody.
    cut (wp K (sys (Calarm sec);; iter fuel (λ _ : unit, body) tt) w (lost K n fuel)).
    { unfold wp, lost. destruct ((sys (Calarm sec);; iter fuel (λ _ : unit, body) tt) K w) as [o w'].
      simpl. intros [-> Ha]. split; [done|by apply Ha]. }
    wp_step. wp_step. by apply lost_iter. }
  intros replies. rewrite !elem_of_cons, elem_of_nil. intros [->|[->|[->|[]]]]; apply Hlost.
  - by apply bcast1_goes_round.
  - by apply bcast2_goes_round.
  - by apply bcast3_goes_round.
Qed.

#[global] Instance one_alarm_between sockfd : KernelBetween one_alarm sockfd.
Proof.
  split; [|by eexists]. intros cs n. exists [104], 13, [127; 0; 0; 1]. split; [reflexivity|]. split; [|reflexivity].
  by_decide.
Qed.

Lemma bcast_alarm_lost_witness :
  let '(o, w') := bcast1_replies 9 5 5 (mret tt) one_alarm (World [] 0 false) in
  o = Diverge ∧ arrived one_alarm (w_calls w') = true.
Proof.
  apply (bcast_alarm_lost one_alarm 1 9 5 (World [] 0 false)); [apply one_alarm_due; [lia|done]|lia|].
  by left.
Defined.
