(* ===== verification/Oob.v ===== *)
(** [oob/]: out-of-band data: the heartbeat functions and the client and server that
    use them, and the programs that send and receive urgent data.

    [SIGURG] and [SIGALRM] arrive at the points [Cdeliver]; their handlers change
    the counter of the heartbeat, so that the points stand around the calls that
    wait.  At a point of the client the urgent data is handled before the alarms;
    the server, which waits in [Readline], takes any sequence of both
    ([hb_wait]). *)

From S2P Require Import Prelude Net Sys Error Wrap SockAddr Io Connect Mcast TcpServ.

Definition SIGURG : Z := 23.
Definition MSG_OOB : Z := 1.
Definition F_SETOWN : Z := 8.
Definition SO_OOBINLINE : Z := 10.
Definition SO_SNDBUF : Z := 7.
Definition SO_RCVBUF : Z := 8.
Definition POLLRDBAND : Z := 128.

(** * heartbeatcli.c and heartbeatserv.c *)

(** The static variables; [hb_max] is [maxnprobes] of the client and [maxnalarms]
    of the server. *)
Record heartbeat := Heartbeat {
  servfd : Z;
  nsec : Z;
  hb_max : Z;
  nprobes : Z
}.
Definition set_nprobes (n : Z) (h : heartbeat) : heartbeat := Heartbeat (servfd h) (nsec h) (hb_max h) n.

(** What [heartbeat_cli] and [heartbeat_serv] share; [start] is [nprobes]
    afterwards: the client resets it, the server leaves its static variable. *)
Definition heartbeat_init (start servfd_arg nsec_arg max_arg : Z) : M heartbeat :=
  let nsec := if decide (nsec_arg < 1) then 1 else nsec_arg in
  let max := if decide (max_arg < nsec) then nsec else max_arg in
  Signal SIGURG (Handler "sig_urg");;
  pid ← sys Cgetpid;
  Fcntl servfd_arg F_SETOWN pid;;
  Signal SIGALRM (Handler "sig_alrm");;
  sys (Calarm nsec);;
  mret (Heartbeat servfd_arg nsec max start).
Definition heartbeat_cli := heartbeat_init 0.
Definition heartbeat_serv (static_nprobes : Z) := heartbeat_init static_nprobes.

(** The byte of out-of-band data, if there was one. *)
Definition recv_oob (h : heartbeat) : M (list Z) :=
  r ← checked (sys (Crecv (servfd h) 1 MSG_OOB));
  match r with
  | ROk c => mret c
  | RErr _ =>
      errno ← get_errno;
      if decide (errno ≠ EWOULDBLOCK) then err_sys (str "recv error") else mret []
  end.

Module Cli.
Definition sig_urg (h : heartbeat) : M heartbeat :=
  recv_oob h;;
  mret (set_nprobes 0 h).

Definition sig_alrm (h : heartbeat) : M heartbeat :=
  let h := set_nprobes (nprobes h + 1) h in
  if decide (nprobes h > hb_max h) then
    sys (Cfputs stderr (str "server is unreachable" ++ [ch_nl]));;
    exit 0
  else
    Send (servfd h) (str "1") MSG_OOB;;
    sys (Calarm (nsec h));;
    mret h.
End Cli.

Module Serv.
(** [junk] is what the variable [c] holds when nothing was received. *)
Definition sig_urg (junk : Z) (h : heartbeat) : M heartbeat :=
  c ← recv_oob h;
  Send (servfd h) [hd junk c] MSG_OOB;;
  mret (set_nprobes 0 h).

Definition sig_alrm (h : heartbeat) : M heartbeat :=
  let h := set_nprobes (nprobes h + 1) h in
  if decide (nprobes h > hb_max h) then
    printf (str "no probes from client" ++ [ch_nl]);;
    exit 0
  else
    sys (Calarm (nsec h));;
    mret h.
End Serv.

(** A point where the two signals arrive. *)
Definition hb_point (sig_urg sig_alrm : heartbeat → M heartbeat) (h : heartbeat) : M heartbeat :=
  n ← sys (Cdeliver SIGURG);
  h ← for_each (repeat tt n) (λ _ h, sig_urg h) h;
  m ← sys (Cdeliver SIGALRM);
  for_each (repeat tt m) (λ _ h, sig_alrm h) h.

Definition cli_point := hb_point Cli.sig_urg Cli.sig_alrm.

(** A wait during which the two signals arrive in any order and any number of times:
    urgent data, alarms, urgent data again and so on, until neither comes. *)
Definition hb_wait (sig_urg sig_alrm : heartbeat → M heartbeat) (fuel : nat) (h : heartbeat)
    : M heartbeat :=
  iter fuel (λ h,
    n ← sys (Cdeliver SIGURG);
    h ← for_each (repeat tt n) (λ _ h, sig_urg h) h;
    m ← sys (Cdeliver SIGALRM);
    h ← for_each (repeat tt m) (λ _ h, sig_alrm h) h;
    mret (if decide (n = 0 ∧ m = 0)%nat then inr h else inl h)) h.
Definition serv_wait (fuel : nat) (junk : Z) := hb_wait (Serv.sig_urg junk) Serv.sig_alrm fuel.

(** * strcliselect02.c and tcpcli02.c *)

(** The variables of the loop: the buffer of [readline], [rset], [stdineof] and
    those of the heartbeat. *)
Definition oob_cli_state : Type := rline * gset Z * bool * heartbeat.

(** The socket is readable; [true] when the client is done. *)
Definition oob_readable (fuel : nat) (sockfd : Z) (stdineof : bool) (st : rline) : M (rline * bool) :=
  '(st, n, recvline) ← Readline fuel st sockfd MAXLINE;
  if decide (n = 0) then
    if stdineof then mret (st, true)
    else err_quit (str "str_cli: server terminated prematurely")
  else
    Writen fuel STDOUT_FILENO (c_str recvline);;
    mret (st, false).

Definition oob_cli_round (fuel : nat) (sockfd : Z) (s : oob_cli_state) : M (oob_cli_state + unit) :=
  let '(st, rset, stdineof, h) := s in
  h ← cli_point h;
  let rset := if stdineof then rset else {[STDIN_FILENO]} ∪ rset in
  let rset := {[sockfd]} ∪ rset in
  r ← checked (sys (Cselect (Z.max STDIN_FILENO sockfd + 1) rset ∅ None));
  errno ← get_errno;
  h ← cli_point h;
  match r with
  | RErr _ =>
      if decide (errno = EINTR) then mret (inl (st, rset, stdineof, h))
      else err_sys (str "select error")
  | ROk (_, rset, _) =>
      '(st, done) ← (if decide (sockfd ∈ rset) then oob_readable fuel sockfd stdineof st
                     else mret (st, false));
      if (done : bool) then mret (inr tt)
      else if decide (STDIN_FILENO ∈ rset) then
        sendline ← Fgets MAXLINE;
        match sendline with
        | None =>
            sys (Calarm 0);;
            Shutdown sockfd SHUT_WR;;
            mret (inl (st, rset ∖ {[STDIN_FILENO]}, true, h))
        | Some sendline =>
            Writen fuel sockfd (c_str sendline);;
            mret (inl (st, rset, stdineof, h))
        end
      else mret (inl (st, rset, stdineof, h))
  end.

Definition oob_str_cli (fuel : nat) (st : rline) (sockfd : Z) : M unit :=
  h ← heartbeat_cli sockfd 1 5;
  iter fuel (oob_cli_round fuel sockfd) (st, ∅, false, h).

Definition oob_tcpcli02 (fuel : nat) (argv : list (list Z)) : M unit :=
  if decide (length argv ≠ 2%nat) then err_quit (str "usage: tcpcli <IPaddress>")
  else
    sockfd ← Socket AF_INET SOCK_STREAM 0;
    addr ← Inet_pton AF_INET (nth 1 argv []);
    Connect sockfd (SaIn (htons SERV_PORT) addr);;
    oob_str_cli fuel (Rline 0 []) sockfd;;
    exit 0.

(** * strecho02.c and tcpserv02.c *)

(** The signals that come while [Readline] waits end only its [read], which it makes
    again: those before the line is complete are handled before it here, those
    after behind it. *)
Definition oob_echo_round (fuel : nat) (junk sockfd : Z) (s : rline * heartbeat)
    : M (rline * heartbeat + unit) :=
  let '(st, h) := s in
  h ← serv_wait fuel junk h;
  '(st, n, line) ← Readline fuel st sockfd MAXLINE;
  h ← serv_wait fuel junk h;
  if decide (n = 0) then mret (inr tt)
  else
    Writen fuel sockfd (take (Z.to_nat n) line);;
    mret (inl (st, h)).

(** The static [nprobes] is zero: the function is called once in a process. *)
Definition oob_str_echo (fuel : nat) (junk sockfd : Z) : M unit :=
  h ← heartbeat_serv 0 sockfd 1 5;
  iter fuel (oob_echo_round fuel junk sockfd) (Rline 0 [], h).

Definition oob_tcpserv02 (fuel : nat) (junk : Z) : M unit :=
  listenfd ← ipv4_listen SERV_PORT;
  Signal SIGCHLD (Handler "sig_chld");;
  accept_loop fuel (oob_str_echo fuel junk) listenfd.

(** * tcprecv01.c to tcprecv06.c *)

Definition oob_listen (name : string) (argv : list (list Z)) : M Z :=
  let listen host serv := '(listenfd, _) ← Tcp_listen host serv; mret listenfd in
  if decide (length argv = 2%nat) then listen None (Some (nth 1 argv []))
  else if decide (length argv = 3%nat) then listen (Some (nth 1 argv [])) (Some (nth 2 argv []))
  else err_quit (str "usage: " ++ str name ++ str " [ <host> ] <port#>").

(** The out-of-band byte is read into [size] bytes and printed. *)
Definition print_oob (connfd : Z) : M unit :=
  buff ← Recv connfd 99 MSG_OOB;
  printf (str "read " ++ fmt_d (Z.of_nat (length buff)) ++ str " OOB byte: " ++ c_str (buff ++ [0]) ++ [ch_nl]).

(** Normal data, or the end of the program. *)
Definition print_data (connfd : Z) : M unit :=
  buff ← Read connfd 99;
  if decide (length buff = 0%nat) then
    printf (str "received EOF" ++ [ch_nl]);;
    exit 0
  else printf (str "read " ++ fmt_d (Z.of_nat (length buff)) ++ str " bytes: " ++ c_str (buff ++ [0]) ++ [ch_nl]).

Definition on_urgent (handle : M unit) : M unit :=
  n ← sys (Cdeliver SIGURG);
  for_each (repeat tt n) (λ _ _, handle) tt.

(** The handler before [connfd] is set has nothing to read; the points stand in
    the loop. *)
Definition oob_owner (connfd : Z) : M unit :=
  Signal SIGURG (Handler "sig_urg");;
  pid ← sys Cgetpid;
  void (Fcntl connfd F_SETOWN pid).

Definition tcprecv01 (fuel : nat) (argv : list (list Z)) : M unit :=
  listenfd ← oob_listen "tcprecv01" argv;
  '(connfd, _) ← Accept fuel listenfd;
  oob_owner connfd;;
  iter fuel (λ _ : unit,
    on_urgent (printf (str "SIGURG received" ++ [ch_nl]);; print_oob connfd);;
    print_data connfd;;
    mret (inl tt : unit + unit)) tt.

Definition Select_x (nfds : Z) (rset xset : gset Z) : M (gset Z * gset Z) :=
  '(_, rset, xset) ← or_err_sys (str "select error") (sys (Cselect_x nfds rset xset));
  mret (rset, xset).

Definition tcprecv02_round (connfd : Z) (s : gset Z * gset Z) : M (gset Z * gset Z + unit) :=
  let '(rset, xset) := s in
  '(rset, xset) ← Select_x (connfd + 1) ({[connfd]} ∪ rset) ({[connfd]} ∪ xset);
  (if decide (connfd ∈ xset) then print_oob connfd else mret tt);;
  (if decide (connfd ∈ rset) then print_data connfd else mret tt);;
  mret (inl (rset, xset)).

Definition tcprecv02 (fuel : nat) (argv : list (list Z)) : M unit :=
  listenfd ← oob_listen "tcprecv02" argv;
  '(connfd, _) ← Accept fuel listenfd;
  iter fuel (tcprecv02_round connfd) (∅, ∅).

Definition tcprecv03_round (connfd : Z) (s : gset Z * gset Z * bool) : M (gset Z * gset Z * bool + unit) :=
  let '(rset, xset, justreadoob) := s in
  let xset := if (justreadoob : bool) then xset else {[connfd]} ∪ xset in
  '(rset, xset) ← Select_x (connfd + 1) ({[connfd]} ∪ rset) xset;
  '(xset, justreadoob) ←
    (if decide (connfd ∈ xset) then print_oob connfd;; mret (xset ∖ {[connfd]}, true)
     else mret (xset, justreadoob));
  justreadoob ← (if decide (connfd ∈ rset) then print_data connfd;; mret false else mret justreadoob);
  mret (inl (rset, xset, justreadoob)).

Definition tcprecv03 (fuel : nat) (argv : list (list Z)) : M unit :=
  listenfd ← oob_listen "tcprecv03" argv;
  '(connfd, _) ← Accept fuel listenfd;
  iter fuel (tcprecv03_round connfd) (∅, ∅, false).

(** The variables are [events] and [justreadoob]. *)
Definition tcprecv03p_round (connfd : Z) (s : Z * bool) : M (Z * bool + unit) :=
  let '(events, justreadoob) := s in
  let events := if (justreadoob : bool) then events else Z.lor events POLLRDBAND in
  '(_, revents) ← Poll [(connfd, events)] (-1);
  let revents := nth 0 revents 0 in
  '(events, justreadoob) ←
    (if decide (Z.land revents POLLRDBAND ≠ 0) then
       print_oob connfd;; mret (Z.land events (Z.lnot POLLRDBAND), true)
     else mret (events, justreadoob));
  justreadoob ← (if decide (Z.land revents POLLRDNORM ≠ 0) then print_data connfd;; mret false
                 else mret justreadoob);
  mret (inl (events, justreadoob)).

Definition tcprecv03p (fuel : nat) (argv : list (list Z)) : M unit :=
  listenfd ← oob_listen "tcprecv03p" argv;
  '(connfd, _) ← Accept fuel listenfd;
  iter fuel (tcprecv03p_round connfd) (POLLRDNORM, false).

Definition oob_inline (name : string) (fuel : nat) (argv : list (list Z)) : M unit :=
  listenfd ← oob_listen name argv;
  Setsockopt listenfd SOL_SOCKET SO_OOBINLINE [1; 0; 0; 0];;
  '(connfd, _) ← Accept fuel listenfd;
  sys (Csleep 5);;
  iter fuel (λ _ : unit,
    mark ← Sockatmark connfd;
    (if decide (mark ≠ 0) then printf (str "at OOB mark" ++ [ch_nl]) else mret tt);;
    print_data connfd;;
    mret (inl tt : unit + unit)) tt.
Definition tcprecv04 := oob_inline "tcprecv04".
Definition tcprecv06 := oob_inline "tcprecv06".

Definition tcprecv05 (fuel : nat) (argv : list (list Z)) : M unit :=
  listenfd ← oob_listen "tcprecv05" argv;
  Setsockopt listenfd SOL_SOCKET SO_RCVBUF [0; 16; 0; 0];;
  '(connfd, _) ← Accept fuel listenfd;
  oob_owner connfd;;
  iter fuel (λ _ : unit,
    on_urgent (
      printf (str "SIGURG received" ++ [ch_nl]);;
      buff ← Recv connfd 2047 MSG_OOB;
      printf (str "read " ++ fmt_d (Z.of_nat (length buff)) ++ str " OOB byte" ++ [ch_nl]));;
    sys Cpause;;
    mret (inl tt : unit + unit)) tt.

(** * tcpsend01.c to tcpsend06.c *)

Definition oob_connect (name : string) (argv : list (list Z)) : M Z :=
  if decide (length argv ≠ 3%nat) then err_quit (str "usage: " ++ str name ++ str " <host> <port#>")
  else Tcp_connect (Some (nth 1 argv [])) (Some (nth 2 argv [])).

Definition send_normal (sockfd : Z) (data : list Z) (text : string) : M unit :=
  Write sockfd data;;
  printf (str text ++ [ch_nl]).
Definition send_urgent (sockfd : Z) (data : list Z) : M unit :=
  Send sockfd data MSG_OOB;;
  printf (str "wrote 1 byte of OOB data" ++ [ch_nl]).
Definition sleep1 : M unit := void (sys (Csleep 1)).

Definition oob_send3 (name : string) (argv : list (list Z)) : M unit :=
  sockfd ← oob_connect name argv;
  send_normal sockfd (str "123") "wrote 3 bytes of normal data";;
  sleep1;;
  send_urgent sockfd (str "4");;
  sleep1;;
  send_normal sockfd (str "56") "wrote 2 bytes of normal data";;
  sleep1;;
  send_urgent sockfd (str "7");;
  sleep1;;
  send_normal sockfd (str "89") "wrote 2 bytes of normal data";;
  sleep1;;
  exit 0.
Definition tcpsend01 := oob_send3 "tcpsend01".
Definition tcpsend02 := oob_send3 "tcpsend02".
Definition tcpsend03 := oob_send3 "tcpsend03".

Definition tcpsend04 (argv : list (list Z)) : M unit :=
  sockfd ← oob_connect "tcpsend04" argv;
  send_normal sockfd (str "123") "wrote 3 bytes of normal data";;
  send_urgent sockfd (str "4");;
  send_normal sockfd (str "5") "wrote 1 byte of normal data";;
  exit 0.

(** [buff] is an array of the stack that nothing initialises. *)
Definition tcpsend05 (buff : list Z) (argv : list (list Z)) : M unit :=
  sockfd ← oob_connect "tcpsend05" argv;
  Setsockopt sockfd SOL_SOCKET SO_SNDBUF [0; 128; 0; 0];;
  send_normal sockfd buff "wrote 16384 bytes of normal data";;
  void (sys (Csleep 5));;
  send_urgent sockfd (str "a");;
  send_normal sockfd (take 1024 buff) "wrote 1024 bytes of normal data";;
  exit 0.

Definition tcpsend06 (argv : list (list Z)) : M unit :=
  sockfd ← oob_connect "tcpsend06" argv;
  send_normal sockfd (str "123") "wrote 3 bytes of normal data";;
  send_urgent sockfd (str "4");;
  send_normal sockfd (str "5") "wrote 1 byte of normal data";;
  send_urgent sockfd (str "6");;
  send_normal sockfd (str "7") "wrote 1 byte of normal data";;
  exit 0.
