(* ===== verification/OobSpec.v ===== *)
(** Properties of [Oob]: the heartbeat counts the alarms of a silent peer and ends
    the program in time; the programs that clear the exception set receive no urgent
    byte twice. *)

From S2P Require Import Prelude Net Sys Error Wrap SockAddr Io IoSpec Connect ConnectSpec Mcast TcpServ Ends Oob.

(** * The heartbeat in a history *)

Section history.
Context (K : kernel).

(** The alarms handled since the last urgent data, or since the handler was
    installed. *)
Fixpoint silent (cs : list call) : nat :=
  match cs with
  | [] => 0
  | Cdeliver s :: cs' =>
      if decide (s = SIGALRM) then K cs' (Cdeliver s) + silent cs'
      else if decide (K cs' (Cdeliver s) = 0%nat) then silent cs' else 0
  | Csigaction s _ _ :: cs' => if decide (s = SIGALRM) then 0 else silent cs'
  | _ :: cs' => silent cs'
  end.

(** How often the handler of a signal ran since the heartbeat was started, and the
    bytes of urgent data sent since then. *)
Fixpoint handled (signo : Z) (cs : list call) : nat :=
  match cs with
  | [] => 0
  | Cdeliver s :: cs' => (if decide (s = signo) then K cs' (Cdeliver s) else 0) + handled signo cs'
  | Csigaction s _ _ :: cs' => if decide (s = SIGALRM) then 0 else handled signo cs'
  | _ :: cs' => handled signo cs'
  end.
Fixpoint urgent_sent (cs : list call) : nat :=
  match cs with
  | [] => 0
  | Csend _ _ f :: cs' => (if decide (f = MSG_OOB) then 1 else 0) + urgent_sent cs'
  | Csigaction s _ _ :: cs' => if decide (s = SIGALRM) then 0 else urgent_sent cs'
  | _ :: cs' => urgent_sent cs'
  end.

(** Calls outside the heartbeat. *)
Definition other_call (c : call) : Prop :=
  match c with
  | Cdeliver _ | Csigaction _ _ _ => False
  | Csend _ _ f => f ≠ MSG_OOB
  | _ => True
  end.

(** Two histories that agree on the heartbeat. *)
Definition same_beat (cs cs' : list call) : Prop :=
  silent cs' = silent cs ∧ (∀ s, handled s cs' = handled s cs) ∧ urgent_sent cs' = urgent_sent cs.

Lemma same_beat_refl cs : same_beat cs cs.
Proof. done. Qed.

Lemma same_beat_cons c cs cs' : other_call c → same_beat cs cs' → same_beat cs (c :: cs').
Proof.
  intros Hc (H1 & H2 & H3). unfold same_beat in *.
  destruct c; simpl in *; try done. by rewrite (decide_False (P := flags = _)) by done.
Qed.

Lemma same_beat_app cs cs' : Forall other_call cs' → same_beat cs (cs' ++ cs).
Proof. induction 1; [apply same_beat_refl|by apply same_beat_cons]. Qed.

Lemma wp_other {A} (m : M A) w (Q : outcome A → world → Prop) :
  emits other_call m → exits1 m →
  (∀ o w', same_beat (w_calls w) (w_calls w') → (∀ c, o = Exit c → c = 1) → Q o w') →
  wp K m w Q.
Proof.
  intros Hm Hx HQ. destruct (Hm K w) as (cs & Hw & Hcs). unfold wp. apply HQ.
  - rewrite Hw. by apply same_beat_app.
  - apply Hx.
Qed.

(** * The handlers and the points *)

(** The handlers of the client and of the server. *)
Definition urg (cli : bool) (junk : Z) (h : heartbeat) : M heartbeat :=
  if cli then Cli.sig_urg h else Serv.sig_urg junk h.
Definition alrm (cli : bool) (h : heartbeat) : M heartbeat :=
  if cli then Cli.sig_alrm h else Serv.sig_alrm h.

(** The heartbeat of a history after [k] more bytes of urgent data. *)
Definition sent_beat (k : nat) (cs cs' : list call) : Prop :=
  silent cs' = silent cs ∧ (∀ s, handled s cs' = handled s cs) ∧
  urgent_sent cs' = (k + urgent_sent cs)%nat.

Lemma wp_Send_oob fd b w (Q : outcome unit → world → Prop) :
  (∀ w', Q (Exit 1) w') →
  (∀ w', sent_beat 1 (w_calls w) (w_calls w') → Q (Val tt) w') →
  wp K (Send fd [b] MSG_OOB) w Q.
Proof.
  intros Hex HQ. unfold Send, all_or_err_sys. wp_step. wp_step. wp_step.
  destruct (K _ (Csend fd [b] MSG_OOB)) as [m|e]; cbn [bind_post].
  - wp_if; [apply wp_err_sys; intros; apply Hex|]. wp_step. by apply HQ.
  - repeat wp_step. apply wp_err_sys. intros. apply Hex.
Qed.

Lemma wp_recv_oob h w (Q : outcome (list Z) → world → Prop) :
  (∀ w', Q (Exit 1) w') →
  (∀ c w', sent_beat 0 (w_calls w) (w_calls w') → Q (Val c) w') →
  wp K (recv_oob h) w Q.
Proof.
  intros Hex HQ. unfold recv_oob. wp_step. wp_step. wp_step.
  destruct (K _ (Crecv _ _ _)) as [c|e]; cbn [bind_post]; [wp_step; by apply HQ|].
  repeat wp_step. wp_if; [apply wp_err_sys; intros; apply Hex|]. wp_step. by apply HQ.
Qed.

Lemma wp_urg (cli : bool) junk h w (Q : outcome heartbeat → world → Prop) :
  (∀ w', Q (Exit 1) w') →
  (∀ w', sent_beat (if cli then 0 else 1)%nat (w_calls w) (w_calls w') → Q (Val (set_nprobes 0 h)) w') →
  wp K (urg cli junk h) w Q.
Proof.
  intros Hex HQ. destruct cli; simpl; unfold Cli.sig_urg, Serv.sig_urg; wp_step;
    (apply wp_recv_oob; [done|]); intros c w1 (H1 & H2 & H3); cbn [bind_post].
  - wp_step. by apply HQ.
  - wp_step. apply wp_Send_oob; [done|]. intros w2 (H4 & H5 & H6). cbn [bind_post]. wp_step. apply HQ.
    split; [by rewrite H4|]. split; [intros s; by rewrite H5|]. by rewrite H6, H3.
Qed.

Lemma wp_alrm (cli : bool) h w (Q : outcome heartbeat → world → Prop) :
  (∀ w', Q (Exit 1) w') →
  (hb_max h < nprobes h + 1 → ∀ w', silent (w_calls w') = silent (w_calls w) → Q (Exit 0) w') →
  (nprobes h + 1 <= hb_max h → ∀ w', sent_beat (if cli then 1 else 0)%nat (w_calls w) (w_calls w') →
     Q (Val (set_nprobes (nprobes h + 1) h)) w') →
  wp K (alrm cli h) w Q.
Proof.
  intros Hex H0 HQ. destruct cli; simpl; unfold Cli.sig_alrm, Serv.sig_alrm, printf, void; cbn [nprobes hb_max set_nprobes];
    wp_if; [wp_step; wp_step; wp_step; apply H0; [lia|done]| |wp_step; wp_step; wp_step; wp_step; wp_step; apply H0; [lia|done]|].
  - wp_step. apply wp_Send_oob; [done|]. intros w2 (H4 & H5 & H6). cbn [bind_post]. repeat wp_step.
    apply HQ; [lia|]. by split.
  - repeat wp_step. apply HQ; [lia|done].
Qed.

(** The state of the heartbeat describes the history; [cli] tells the client, which
    sends an urgent byte for each alarm, from the server, which echoes each. *)
Definition beat (cli : bool) (max : Z) (h : heartbeat) (w : world) : Prop :=
  hb_max h = max ∧ nprobes h <= max ∧ nprobes h = Z.of_nat (silent (w_calls w)) ∧
  urgent_sent (w_calls w) = handled (if cli then SIGALRM else SIGURG) (w_calls w).

(** How the program may end otherwise: with an error, or because the peer was
    silent for more than [max] alarms. *)
Definition beat_exit (max c : Z) (w : world) : Prop :=
  c = 1 ∨ c = 0 ∧ max < Z.of_nat (silent (w_calls w)).

Lemma wp_urgs (cli : bool) junk max (n : nat) h w (Q : outcome heartbeat → world → Prop) :
  beat cli max h w → n = K (w_calls w) (Cdeliver SIGURG) →
  (∀ c w', beat_exit max c w' → Q (Exit c) w') →
  (∀ h' w', beat cli max h' w' → Q (Val h') w') →
  wp K (for_each (repeat tt n) (λ _ h, urg cli junk h) h)
    (World (Cdeliver SIGURG :: w_calls w) (w_errno w) (w_daemon w)) Q.
Proof.
  intros (Hm & Hle & Hn & Hs) En Hex HQ.
  apply (wp_for_each K (λ l h' w', (length l <= n)%nat ∧ hb_max h' = max ∧ nprobes h' <= max ∧
    (if decide (length l = n) then h' = h else nprobes h' = 0) ∧
    silent (w_calls w') = (if decide (n = 0) then silent (w_calls w) else 0)%nat ∧
    (urgent_sent (w_calls w') + (if cli then 0 else length l) =
      handled (if cli then SIGALRM else SIGURG) (w_calls w'))%nat)).
  - rewrite repeat_length. cbn [w_calls silent handled urgent_sent].
    rewrite decide_True by done. rewrite (decide_False (P := SIGURG = SIGALRM)) by done. rewrite <- En.
    split; [lia|]. do 3 (split; [done|]). split; [by repeat case_decide|].
    destruct cli; [rewrite decide_False by done|rewrite decide_True by done]; rewrite Hs; lia.
  - intros [] l h' w1 (Hl & Hm1 & Hle1 & _ & Hs1 & Hu1). apply wp_urg; [intros; apply Hex; by left|].
    intros w2 (H1 & H2 & H3). simpl in Hl. cbn [bind_post hb_max nprobes set_nprobes].
    split; [lia|]. split; [done|]. split; [lia|]. split; [by rewrite decide_False by lia|].
    split; [by rewrite H1|]. rewrite H2, H3. destruct cli; simpl in *; lia.
  - intros h' w1 (_ & Hm1 & Hle1 & Hh & Hs1 & Hu1). apply HQ. split; [done|]. split; [done|].
    split; [|destruct cli; simpl in Hu1; lia]. rewrite Hs1. simpl in Hh.
    repeat case_decide; try lia. by subst.
Qed.

Lemma wp_alrms (cli : bool) max (n : nat) h w (Q : outcome heartbeat → world → Prop) :
  beat cli max h w → n = K (w_calls w) (Cdeliver SIGALRM) →
  (∀ c w', beat_exit max c w' → Q (Exit c) w') →
  (∀ h' w', beat cli max h' w' → Q (Val h') w') →
  wp K (for_each (repeat tt n) (λ _ h, alrm cli h) h)
    (World (Cdeliver SIGALRM :: w_calls w) (w_errno w) (w_daemon w)) Q.
Proof.
  intros (Hm & Hle & Hn & Hs) En Hex HQ.
  apply (wp_for_each K (λ l h' w', hb_max h' = max ∧ nprobes h' <= max ∧
    nprobes h' + Z.of_nat (length l) = Z.of_nat (silent (w_calls w')) ∧
    (urgent_sent (w_calls w') + (if cli then length l else 0) =
      handled (if cli then SIGALRM else SIGURG) (w_calls w'))%nat)).
  - rewrite repeat_length. cbn [w_calls silent handled urgent_sent].
    rewrite decide_True by done. rewrite <- En.
    split; [done|]. split; [done|]. split; [lia|].
    destruct cli; [rewrite decide_True by done|rewrite decide_False by done]; rewrite Hs; lia.
  - intros [] l h' w1 (Hm1 & Hle1 & Hs1 & Hu1). simpl in Hs1. apply wp_alrm.
    + intros. apply Hex. by left.
    + intros Hgt w2 Hs2. apply Hex. right. split; [done|]. rewrite Hs2. lia.
    + intros Hle2 w2 (H1 & H2 & H3). cbn [bind_post hb_max nprobes set_nprobes].
      split; [done|]. split; [lia|]. split; [rewrite H1; lia|]. rewrite H2, H3. destruct cli; simpl in *; lia.
  - intros h' w1 (Hm1 & Hle1 & Hs1 & Hu1). apply HQ. split; [done|]. split; [done|].
    split; [simpl in Hs1; lia|]. destruct cli; simpl in Hu1; lia.
Qed.

Lemma wp_point {A} cli junk max h (f : heartbeat → M A) w (Q : outcome A → world → Prop) :
  beat cli max h w →
  (∀ c w', beat_exit max c w' → Q (Exit c) w') →
  (∀ h' w', beat cli max h' w' → wp K (f h') w' Q) →
  wp K (h ← hb_point (urg cli junk) (alrm cli) h; f h) w Q.
Proof.
  intros Hb Hex HQ. wp_step. unfold hb_point. wp_step. wp_step. wp_step.
  eapply wp_urgs; [done..|]. intros h1 w1 Hb1. cbn [bind_post]. wp_step. wp_step.
  by eapply wp_alrms.
Qed.

Lemma wp_hb_wait {A} cli junk max fuel h (f : heartbeat → M A) w (Q : outcome A → world → Prop) :
  beat cli max h w →
  (∀ c w', beat_exit max c w' → Q (Exit c) w') →
  (∀ h' w', beat cli max h' w' → Q Diverge w') →
  (∀ h' w', beat cli max h' w' → wp K (f h') w' Q) →
  wp K (h ← hb_wait (urg cli junk) (alrm cli) fuel h; f h) w Q.
Proof.
  intros Hb Hex Hdiv HQ. wp_step. unfold hb_wait. apply (wp_iter K (beat cli max)); [done| |by apply Hdiv].
  intros h1 w1 Hb1. wp_step. wp_step. wp_step.
  eapply wp_urgs; [done..|]. intros h2 w2 Hb2. cbn [bind_post]. wp_step. wp_step. wp_step.
  eapply wp_alrms; [done..|]. intros h3 w3 Hb3. cbn [bind_post]. wp_step. case_decide; [by apply HQ|done].
Qed.

Lemma beat_same cli max h w w' :
  same_beat (w_calls w) (w_calls w') → beat cli max h w → beat cli max h w'.
Proof. intros (H1 & H2 & H3) (H4 & H5 & H6 & H7). unfold beat. by rewrite H1, H2, H3. Qed.

(** * The client and the server *)

Lemma wp_heartbeat_init servfd n max w (Q : outcome heartbeat → world → Prop) :
  1 <= n <= max → (∀ w', Q (Exit 1) w') →
  (∀ h w', (∀ cli, beat cli max h w') → Q (Val h) w') →
  wp K (heartbeat_init 0 servfd n max) w Q.
Proof.
  intros Hn Hex HQ. unfold heartbeat_init. rewrite !decide_False by lia.
  wp_step. apply wp_Signal; [|intros; apply Hex]. intros h1 _. cbn [bind_post]. wp_step. wp_step. wp_step.
  unfold Fcntl. apply wp_or_err_sys. wp_step. destruct (K _ (Cfcntl _ _ _)) as [r|e]; [|intros; apply Hex].
  wp_step. apply wp_Signal; [|intros; apply Hex]. intros h2 _. cbn [bind_post]. repeat wp_step.
  apply HQ. intros cli. split; [done|]. cbn [hb_max nprobes w_calls silent handled urgent_sent].
  rewrite !decide_True by done. split; [lia|done].
Qed.

(** What holds of a program with a heartbeat, also while it runs. *)
Definition beat_post {A} (cli : bool) (max : Z) (o : outcome A) (w : world) : Prop :=
  match o with
  | Exit c => beat_exit max c w
  | _ => Z.of_nat (silent (w_calls w)) <= max ∧
         urgent_sent (w_calls w) = handled (if cli then SIGALRM else SIGURG) (w_calls w)
  end.

Lemma beat_running {A} cli max h (o : outcome A) w :
  (∀ c, o = Exit c → c = 1) → beat cli max h w → beat_post cli max o w.
Proof.
  intros Ho (H1 & H2 & H3 & H4). destruct o as [a|c| |]; simpl; try (split; [lia|done]).
  left. by apply Ho.
Qed.

(** A program outside the heartbeat, as a step. *)
Lemma wp_beat_other {A B} cli max h (m : M A) (f : A → M B) w Q :
  beat cli max h w → emits other_call m → exits1 m →
  (∀ o w', (∀ a, o ≠ Val a) → beat_post cli max o w' → Q o w') →
  (∀ a w', beat cli max h w' → wp K (f a) w' Q) →
  wp K (m ≫= f) w Q.
Proof.
  intros Hb Hm Hx HQ Hf. wp_step. apply wp_other; [done..|]. intros o w' Hs Ho.
  pose proof (beat_same _ _ _ _ _ Hs Hb) as Hb'.
  destruct o as [a|c| |]; cbn [bind_post]; [by apply Hf|..]; (apply HQ; [done|]);
    (apply beat_running with h; [|done]); intros c' [= <-]. by apply Ho.
Qed.

Lemma emits_oob_readable fuel sockfd b st : emits other_call (oob_readable fuel sockfd b st).
Proof.
  unfold oob_readable. apply emits_bind; [apply emits_Readline; [by intros []|done]|]. intros [[st' n] l].
  apply emits_decide; [destruct b; [apply emits_ret|apply emits_err_quit; by intros []]|].
  apply emits_bind; [apply emits_Writen; [by intros []|done]|]. intros []. apply emits_ret.
Qed.

Lemma exits1_oob_readable fuel sockfd b st : exits1 (oob_readable fuel sockfd b st).
Proof.
  unfold oob_readable. apply exits1_bind; [apply exits1_Readline|]. intros [[st' n] l].
  apply exits1_decide; [destruct b; [done|apply exits1_err_quit]|].
  apply exits1_bind; [apply exits1_Writen|]. done.
Qed.

Lemma wp_oob_cli_round fuel sockfd max st rset b h w
    (Q : outcome (oob_cli_state + unit) → world → Prop) :
  beat true max h w →
  (∀ o w', (∀ a, o ≠ Val a) → beat_post true max o w' → Q o w') →
  (∀ st' rset' b' h' w', beat true max h' w' → Q (Val (inl (st', rset', b', h'))) w') →
  (∀ w', beat_post true max (Val tt) w' → Q (Val (inr tt)) w') →
  wp K (oob_cli_round fuel sockfd (st, rset, b, h)) w Q.
Proof.
  intros Hb Hend Hgo Hdone. unfold oob_cli_round, cli_point.
  assert (Hex : ∀ c w', beat_exit max c w' → Q (Exit c) w') by (intros c w' Hc; by apply Hend).
  apply (wp_point true 0 max); [done..|]. intros h1 w1 Hb1.
  set (rs := {[sockfd]} ∪ _).
  eapply (wp_beat_other true max h1); [done|by emits_tac|by exits1_tac|done|]. intros r w2 Hb2.
  wp_step. wp_step. apply (wp_point true 0 max); [done..|]. intros h3 w3 Hb3.
  destruct r as [[[m rset'] wset]|e].
  2:{ wp_if; [wp_step; by apply Hgo|]. apply wp_err_sys. intros cs Hcs. apply Hex. by left. }
  eapply (wp_beat_other true max h3); [done|by emits_tac; apply emits_oob_readable| |done|].
  { apply exits1_decide; [apply exits1_oob_readable|done]. }
  intros [st4 done4] w4 Hb4. destruct done4.
  { wp_step. apply Hdone. destruct Hb4 as (H1 & H2 & H3 & H4). split; [lia|done]. }
  wp_if; [|wp_step; by apply Hgo].
  eapply (wp_beat_other true max h3); [done|by apply emits_or_err_sys; [intros []|apply emits_sys]
    |by apply exits1_or_err_sys|done|].
  intros [line|] w5 Hb5.
  - eapply (wp_beat_other true max h3); [done|apply emits_Writen; [by intros []|done]|apply exits1_Writen|done|].
    intros [] w6 Hb6. wp_step. by apply Hgo.
  - eapply (wp_beat_other true max h3); [done|by apply emits_sys|by exits1_tac|done|]. intros ? w6 Hb6.
    eapply (wp_beat_other true max h3); [done| | |done|].
    + unfold Shutdown, void. emits_tac. apply emits_or_err_sys; [by intros []|by apply emits_sys].
    + unfold Shutdown. by exits1_tac.
    + intros [] w7 Hb7. wp_step. by apply Hgo.
Qed.

Lemma wp_oob_echo_round fuel junk sockfd max st h w
    (Q : outcome (rline * heartbeat + unit) → world → Prop) :
  beat false max h w →
  (∀ o w', (∀ a, o ≠ Val a) → beat_post false max o w' → Q o w') →
  (∀ st' h' w', beat false max h' w' → Q (Val (inl (st', h'))) w') →
  (∀ w', beat_post false max (Val tt) w' → Q (Val (inr tt)) w') →
  wp K (oob_echo_round fuel junk sockfd (st, h)) w Q.
Proof.
  intros Hb Hend Hgo Hdone. unfold oob_echo_round, serv_wait.
  assert (Hex : ∀ c w', beat_exit max c w' → Q (Exit c) w') by (intros c w' Hc; by apply Hend).
  assert (Hdiv : ∀ h' w', beat false max h' w' → Q Diverge w').
  { intros h' w' Hb'. apply Hend; [done|]. by apply beat_running with h'. }
  apply (wp_hb_wait false junk max fuel h); [done..|]. intros h1 w1 Hb1.
  eapply (wp_beat_other false max h1); [done|apply emits_Readline; [by intros []|done]|apply exits1_Readline|done|].
  intros [[st2 n] line] w2 Hb2.
  apply (wp_hb_wait false junk max fuel h1); [done..|]. intros h3 w3 Hb3.
  wp_if.
  { wp_step. apply Hdone. destruct Hb3 as (H1 & H2 & H3 & H4). split; [lia|done]. }
  eapply (wp_beat_other false max h3); [done|apply emits_Writen; [by intros []|done]|apply exits1_Writen|done|].
  intros [] w4 Hb4. wp_step. by apply Hgo.
Qed.

(** The programs: the rounds from the start of the heartbeat on. *)
Lemma wp_heartbeat_loop {S} cli fuel servfd (body : S → M (S + unit)) (s : heartbeat → S) w
    (st : S → heartbeat) :
  (∀ h, st (s h) = h) →
  (∀ s w, beat cli 5 (st s) w → wp K (body s) w (bind_post (λ r w',
     match r with inl s' => beat cli 5 (st s') w' | inr x => beat_post cli 5 (Val x) w' end)
     (beat_post (A := unit) cli 5))) →
  wp K (h ← heartbeat_init 0 servfd 1 5; iter fuel body (s h)) w (beat_post cli 5).
Proof.
  intros Hs Hbody. wp_step. apply wp_heartbeat_init; [lia|by left|]. intros h w1 Hb. cbn [bind_post].
  apply (wp_iter K (λ s w, beat cli 5 (st s) w)); [by rewrite Hs|done|].
  intros s' w' Hb'. by eapply beat_running.
Qed.

Lemma wp_oob_str_cli fuel st sockfd w : wp K (oob_str_cli fuel st sockfd) w (beat_post true 5).
Proof.
  unfold oob_str_cli, heartbeat_cli.
  apply (wp_heartbeat_loop true fuel sockfd _ (λ h, (st, ∅, false, h)) w (λ s, s.2)); [done|].
  intros [[[st1 rset] b] h] w1 Hb. eapply wp_oob_cli_round; [exact Hb|..].
  - intros o w2 Ho Hp. by destruct o as [a|c| |]; [destruct (Ho a)|..].
  - done.
  - done.
Qed.

Lemma wp_oob_str_echo fuel junk sockfd w : wp K (oob_str_echo fuel junk sockfd) w (beat_post false 5).
Proof.
  unfold oob_str_echo, heartbeat_serv.
  apply (wp_heartbeat_loop false fuel sockfd _ (λ h, (Rline 0 [], h)) w (λ s, s.2)); [done|].
  intros [st1 h] w1 Hb. eapply wp_oob_echo_round; [exact Hb|..].
  - intros o w2 Ho Hp. by destruct o as [a|c| |]; [destruct (Ho a)|..].
  - done.
  - done.
Qed.
End history.

(** C33: The heartbeat detects a silent peer, in the client and in the server: as
    long as the program runs, at most five alarms have come since the last urgent
    byte of the peer, so that the sixth ends it; it exits with status 0 for no other
    reason; and every alarm of the client has sent one probe, every probe the server
    noticed one answer. *)
Theorem heartbeat_detects (K : kernel) fuel st junk sockfd w :
  (let '(o, w') := oob_str_cli fuel st sockfd K w in
   match o with
   | Exit c => c = 1 ∨ c = 0 ∧ 5 < Z.of_nat (silent K (w_calls w'))
   | _ => Z.of_nat (silent K (w_calls w')) <= 5 ∧ urgent_sent (w_calls w') = handled K SIGALRM (w_calls w')
   end) ∧
  (let '(o, w') := oob_str_echo fuel junk sockfd K w in
   match o with
   | Exit c => c = 1 ∨ c = 0 ∧ 5 < Z.of_nat (silent K (w_calls w'))
   | _ => Z.of_nat (silent K (w_calls w')) <= 5 ∧ urgent_sent (w_calls w') = handled K SIGURG (w_calls w')
   end).
Proof.
  pose proof (wp_oob_str_cli K fuel st sockfd w) as H1. unfold wp in H1.
  pose proof (wp_oob_str_echo K fuel junk sockfd w) as H2. unfold wp in H2.
  by destruct (oob_str_cli fuel st sockfd K w), (oob_str_echo fuel junk sockfd K w).
Qed.

(** * Reading an urgent byte twice *)

(** No urgent byte was asked for again before normal data was read. *)
Fixpoint oob_fresh (cs : list call) : bool :=
  match cs with
  | [] => true
  | Crecv _ _ f :: cs' => bool_decide (f ≠ MSG_OOB) && oob_fresh cs'
  | Cread _ _ :: _ => true
  | _ :: cs' => oob_fresh cs'
  end.
Fixpoint oob_once (cs : list call) : Prop :=
  match cs with
  | [] => True
  | Crecv _ _ f :: cs' => (f = MSG_OOB → oob_fresh cs' = true) ∧ oob_once cs'
  | _ :: cs' => oob_once cs'
  end.

(** The kernel reports only what it was asked for. *)
Class KernelReports (K : kernel) : Prop := {
  kr_select_x cs nfds rset xset n rset' xset' :
    K cs (Cselect_x nfds rset xset) = ROk (n, rset', xset') → xset' ⊆ xset;
  kr_poll cs fd events timeout n revents :
    K cs (Cpoll [(fd, events)] timeout) = ROk (n, revents) →
    Z.land (nth 0 revents 0) POLLRDBAND ≠ 0 → Z.land events POLLRDBAND ≠ 0
}.

Section once.
Context (K : kernel).

Definition fresh_if (b : bool) (w : world) : Prop :=
  oob_once (w_calls w) ∧ (b = true → oob_fresh (w_calls w) = true).

(** What holds of the histories at the end of a program, however it ends. *)
Definition keeps_once {A} (Q : outcome A → world → Prop) : Prop :=
  ∀ o w, (∀ a, o ≠ Val a) → oob_once (w_calls w) → Q o w.

Lemma report_once cs cs' : Forall report_call cs → oob_once cs' → oob_once (cs ++ cs').
Proof. induction 1 as [|c cs Hc _ IH]; [done|]. intros H. by destruct c; try apply IH. Qed.

Lemma wp_print_oob {A} connfd (m : M A) w (Q : outcome A → world → Prop) :
  fresh_if true w → keeps_once Q → (∀ w', fresh_if false w' → wp K m w' Q) →
  wp K (print_oob connfd;; m) w Q.
Proof.
  intros [Ho Hf] HQ Hm. unfold print_oob. do 2 wp_step. apply wp_or_err_sys. wp_step.
  assert (Ho2 : ∀ n, oob_once (Crecv connfd n MSG_OOB :: w_calls w)) by (intros n; split; auto).
  destruct (K _ (Crecv _ _ _)) as [buff|e]; cbn [bind_post].
  - unfold printf, void. repeat wp_step. apply Hm. split; [apply (Ho2 99)|done].
  - intros cs Hcs. apply HQ; [done|]. cbn [w_calls]. apply report_once; [done|apply (Ho2 99)].
Qed.

Lemma wp_print_data {A} connfd (m : M A) w (Q : outcome A → world → Prop) :
  oob_once (w_calls w) → keeps_once Q → (∀ w', fresh_if true w' → wp K m w' Q) →
  wp K (print_data connfd;; m) w Q.
Proof.
  intros Ho HQ Hm. unfold print_data. do 2 wp_step. apply wp_or_err_sys. wp_step.
  destruct (K _ (Cread _ _)) as [buff|e]; cbn [bind_post].
  - wp_if; unfold printf, void; repeat wp_step; [by apply HQ|]. by apply Hm.
  - intros cs Hcs. apply HQ; [done|]. cbn [w_calls]. by apply report_once.
Qed.

(** The flag says whether an urgent byte may be asked for; while it must not, the
    program does not wait for one. *)
Definition once_state (asks just : bool) (w : world) : Prop :=
  oob_once (w_calls w) ∧ (just = false → oob_fresh (w_calls w) = true) ∧ (just = true → asks = false).

Context `{!KernelReports K}.

Lemma wp_tcprecv03_round connfd rset xset just w Q :
  once_state (bool_decide (connfd ∈ xset)) just w → keeps_once Q →
  (∀ rset' xset' just' w', once_state (bool_decide (connfd ∈ xset')) just' w' →
     Q (Val (inl (rset', xset', just'))) w') →
  wp K (tcprecv03_round connfd (rset, xset, just)) w Q.
Proof.
  intros (Ho & Hf & Ha) HQ Hgo. unfold tcprecv03_round.
  set (xs := if just then xset else {[connfd]} ∪ xset). wp_step. unfold Select_x. wp_step.
  apply wp_or_err_sys. wp_step. destruct (K _ (Cselect_x _ _ _)) as [[[n rs2] xs2]|e] eqn:E; cbn [bind_post].
  2:{ intros cs Hcs. apply HQ; [done|]. cbn [w_calls]. by apply report_once. }
  apply kr_select_x in E. wp_step.
  assert (Hjust : connfd ∈ xs2 → just = false).
  { intros Hin. destruct just; [|done]. specialize (Ha eq_refl). apply bool_decide_eq_false in Ha.
    unfold xs in E. set_solver. }
  set (w2 := World _ _ _). assert (Ho2 : oob_once (w_calls w2)) by done.
  assert (Hlast : ∀ xs3 just3 w3, once_state (bool_decide (connfd ∈ xs3)) just3 w3 →
    wp K (justreadoob ← (if decide (connfd ∈ rs2) then print_data connfd;; mret false else mret just3);
          mret (inl (rs2, xs3, justreadoob))) w3 Q).
  { intros xs3 just3 w3 Hs3. wp_step. wp_if.
    - apply wp_print_data; [apply Hs3|by intros [a|?| |] ? Ho3 ?; try (by destruct (Ho3 a)); apply HQ|].
      intros w4 [Ho4 Hf4]. repeat wp_step. apply Hgo. split; [done|]. by split; [auto|].
    - repeat wp_step. by apply Hgo. }
  wp_step. wp_if.
  - apply wp_print_oob; [|by intros [a|?| |] ? Ho3 ?; try (by destruct (Ho3 a)); apply HQ|].
    + split; [done|]. intros _. apply Hf. by apply Hjust.
    + intros w3 [Ho3 _]. wp_step. apply Hlast. split; [done|]. split; [done|]. intros _.
      apply bool_decide_eq_false_2. set_solver.
  - wp_step. apply Hlast. split; [done|]. split; [by apply Hf|]. intros _. by apply bool_decide_eq_false_2.
Qed.

Lemma land_rdband events : Z.land (Z.land events (Z.lnot POLLRDBAND)) POLLRDBAND = 0.
Proof. rewrite <- Z.land_assoc, (Z.land_comm (Z.lnot _)), Z.land_lnot_diag. apply Z.land_0_r. Qed.

Lemma wp_tcprecv03p_round connfd events just w Q :
  once_state (bool_decide (Z.land events POLLRDBAND ≠ 0)) just w → keeps_once Q →
  (∀ events' just' w', once_state (bool_decide (Z.land events' POLLRDBAND ≠ 0)) just' w' →
     Q (Val (inl (events', just'))) w') →
  wp K (tcprecv03p_round connfd (events, just)) w Q.
Proof.
  intros (Ho & Hf & Ha) HQ Hgo. unfold tcprecv03p_round.
  set (ev := if just then events else Z.lor events POLLRDBAND). wp_step. unfold Poll.
  apply wp_or_err_sys. wp_step. destruct (K _ (Cpoll _ _)) as [[n revents]|e] eqn:E; cbn [bind_post].
  2:{ intros cs Hcs. apply HQ; [done|]. cbn [w_calls]. by apply report_once. }
  pose proof (kr_poll _ _ _ _ _ _ E) as Hk.
  assert (Hjust : Z.land (nth 0 revents 0) POLLRDBAND ≠ 0 → just = false).
  { intros Hr. destruct just; [|done]. specialize (Ha eq_refl). apply bool_decide_eq_false in Ha. by destruct (Ha (Hk Hr)). }
  set (w2 := World _ _ _). assert (Ho2 : oob_once (w_calls w2)) by done.
  assert (Hlast : ∀ ev3 just3 w3, once_state (bool_decide (Z.land ev3 POLLRDBAND ≠ 0)) just3 w3 →
    wp K (justreadoob ← (if decide (Z.land (nth 0 revents 0) POLLRDNORM ≠ 0) then print_data connfd;; mret false
                         else mret just3);
          mret (inl (ev3, justreadoob))) w3 Q).
  { intros ev3 just3 w3 Hs3. wp_step. wp_if.
    - apply wp_print_data; [apply Hs3|by intros [a|?| |] ? Ho3 ?; try (by destruct (Ho3 a)); apply HQ|].
      intros w4 [Ho4 Hf4]. repeat wp_step. apply Hgo. split; [done|]. by split; [auto|].
    - repeat wp_step. by apply Hgo. }
  wp_step. wp_if.
  - apply wp_print_oob; [|by intros [a|?| |] ? Ho3 ?; try (by destruct (Ho3 a)); apply HQ|].
    + split; [done|]. intros _. apply Hf. by apply Hjust.
    + intros w3 [Ho3 _]. wp_step. apply Hlast. split; [done|]. split; [done|]. intros _.
      apply bool_decide_eq_false_2. rewrite land_rdband. lia.
  - wp_step. apply Hlast. split; [done|]. split; [by apply Hf|]. intros Hj.
    unfold ev. rewrite Hj. by apply Ha.
Qed.

(** The calls before the loop. *)
Definition no_data_call (c : call) : Prop := match c with Crecv _ _ _ | Cread _ _ => False | _ => True end.

Lemma no_data_once cs cs' :
  Forall no_data_call cs → oob_once cs' → oob_fresh cs' = true →
  oob_once (cs ++ cs') ∧ oob_fresh (cs ++ cs') = true.
Proof.
  intros Hcs Ho Hf. induction Hcs as [|c cs Hc _ [IH1 IH2]]; [done|]. by destruct c.
Qed.

Lemma emits_ai_loop P try res rest :
  (∀ res, emits P (try res)) → emits P (ai_loop try res rest).
Proof.
  intros Ht. revert res. induction rest as [|r rest IH]; intros res; simpl; emits_tac; auto.
Qed.

Lemma emits_tcp_listen host serv : emits no_data_call (Tcp_listen host serv).
Proof.
  assert (H : ∀ c, report_call c → no_data_call c) by by intros [].
  unfold Tcp_listen, tcp_listen, gai_err_quit. emits_tac; try done; auto with unp.
  - apply emits_ai_loop. intros res. unfold listen_try, Setsockopt, Close, void. emits_tac; try done;
      (apply emits_or_err_sys; [done|by apply emits_sys]).
  - unfold Listen. emits_tac; [done|]. apply emits_or_err_sys; [done|by apply emits_sys].
Qed.

Lemma wp_setup fuel name argv w (f : Z → M unit) (Q : outcome unit → world → Prop) :
  fresh_if true w → keeps_once Q →
  (∀ connfd w', fresh_if true w' → wp K (f connfd) w' Q) →
  wp K (listenfd ← oob_listen name argv; '(connfd, _) ← Accept fuel listenfd; f connfd) w Q.
Proof.
  assert (H : ∀ c, report_call c → no_data_call c) by by intros [].
  intros Hw HQ Hf.
  assert (Hstep : ∀ {A} (m : M A) (g : A → M unit) w, emits no_data_call m → fresh_if true w →
    (∀ a w', fresh_if true w' → wp K (g a) w' Q) → wp K (m ≫= g) w Q).
  { intros A m g w1 Hm [Ho1 Hf1] Hg. wp_step. eapply wp_emits; [exact Hm|]. intros o cs w2 Hcs Hw2.
    destruct (no_data_once cs (w_calls w1) Hcs Ho1) as [Ho2 Hf2]; [by apply Hf1|]. rewrite <- Hw2 in Ho2, Hf2.
    destruct o as [a|c| |]; cbn [bind_post]; [apply Hg; by split|..]; by apply HQ. }
  apply Hstep; [|done|].
  - unfold oob_listen. emits_tac; auto using emits_tcp_listen with unp.
  - intros listenfd w1 Hw1. apply Hstep; [|done|].
    + unfold Accept. emits_tac; try done; auto with unp.
    + intros [connfd sa] w2 Hw2. by apply Hf.
Qed.
End once.

(** C34: The programs that clear the exception set after urgent data never ask for
    an urgent byte again before normal data was read, which the protocol would
    refuse: neither with [select] nor with [poll], at any time, whatever arrives. *)
Theorem oob_read_once (K : kernel) `{!KernelReports K} fuel argv :
  oob_once (w_calls (tcprecv03 fuel argv K (World [] 0 false)).2) ∧
  oob_once (w_calls (tcprecv03p fuel argv K (World [] 0 false)).2).
Proof.
  assert (Hk : keeps_once (λ (_ : outcome unit) w, oob_once (w_calls w))) by by intros o w.
  split.
  - change (wp K (tcprecv03 fuel argv) (World [] 0 false) (λ _ w, oob_once (w_calls w))).
    unfold tcprecv03. apply wp_setup; [done|done|]. intros connfd w [Ho Hf].
    apply (wp_iter K (λ '(_, xset, just) w, once_state (bool_decide (connfd ∈ xset)) just w)).
    + split; [done|]. split; [by intros _; apply Hf|done].
    + intros [[rset xset] just] w1 Hw1. apply wp_tcprecv03_round; [done|done|by intros [a|?| |] ? Ho3 ?; try (by destruct (Ho3 a))|done].
    + intros [[rset xset] just] w1 Hw1. apply Hw1.
  - change (wp K (tcprecv03p fuel argv) (World [] 0 false) (λ _ w, oob_once (w_calls w))).
    unfold tcprecv03p. apply wp_setup; [done|done|]. intros connfd w [Ho Hf].
    apply (wp_iter K (λ '(events, just) w, once_state (bool_decide (Z.land events POLLRDBAND ≠ 0)) just w)).
    + split; [done|]. split; [by intros _; apply Hf|done].
    + intros [events just] w1 Hw1. apply wp_tcprecv03p_round; [done|done|by intros [a|?| |] ? Ho3 ?; try (by destruct (Ho3 a))|done].
    + intros [events just] w1 Hw1. apply Hw1.
Qed.

(** A peer that sends one urgent byte and waits: [tcprecv02.c], which leaves the
    descriptor in the exception set, asks for the byte twice, and ends with an error
    when the second attempt is refused. *)
Definition urgent_kernel : kernel := λ cs c,
  match c with
  | Cgetaddrinfo _ _ _ => inr (Addrinfo 0 AF_INET SOCK_STREAM 0 (SaIn 9 [127; 0; 0; 1]) None, [])
  | Csocket _ _ _ => ROk 3
  | Csetsockopt _ _ _ _ | Cbind _ _ | Clisten _ _ => ROk tt
  | Caccept _ => ROk (4, SaIn 10 [127; 0; 0; 1])
  | Cselect_x _ rset xset => ROk (1, ∅, xset)
  | Cpoll fds _ => ROk (1, map (λ '(_, ev), Z.land ev POLLRDBAND) fds)
  | Crecv _ _ f => if oob_fresh cs then ROk [52] else RErr EINVAL
  | Cfputs _ _ => true
  | c => default_ans c
  end.

#[global] Instance urgent_kernel_reports : KernelReports urgent_kernel.
Proof.
  split.
  - by intros cs nfds rset xset n rset' xset' [= <- <- <-].
  - intros cs fd events t n revents [= <- <-]. cbn [nth]. rewrite <- Z.land_assoc. by rewrite Z.land_diag.
Qed.

Lemma oob_read_once_witness :
  oob_once (w_calls (tcprecv03 5 [[]; str "9"] urgent_kernel (World [] 0 false)).2) ∧
  oob_once (w_calls (tcprecv03p 5 [[]; str "9"] urgent_kernel (World [] 0 false)).2).
Proof. apply (oob_read_once urgent_kernel 5 [[]; str "9"]). Defined.

Lemma tcprecv02_reads_twice :
  let '(o, w') := tcprecv02 5 [[]; str "9"] urgent_kernel (World [] 0 false) in
  o = Exit 1 ∧ ¬ oob_once (w_calls w').
Proof. vm_compute. split; [done|]. intros [H _]. by specialize (H eq_refl). Qed.

(** A server that never answers: the sixth alarm ends the client. *)
Definition mute_kernel : kernel := λ cs c,
  match c with
  | Csigaction _ _ _ => ROk SIG_DFL
  | Cfcntl _ _ _ => ROk 0
  | Cdeliver s => if decide (s = SIGALRM) then 1%nat else 0%nat
  | Cselect _ _ _ _ => RErr EINTR
  | Csend _ d _ => ROk (Z.of_nat (length d))
  | c => default_ans c
  end.

Lemma mute_server :
  let '(o, w') := oob_str_cli 9 (Rline 0 []) 3 mute_kernel (World [] 0 false) in
  o = Exit 0 ∧ silent mute_kernel (w_calls w') = 6%nat ∧ urgent_sent (w_calls w') = 5%nat.
Proof. vm_compute. done. Qed.
