(* ===== verification/Udp.v ===== *)
(** [udpcliserv/] and the UDP programs of [advio/]: clients that differ in what they
    do with a reply or without one, servers that echo, count, or answer on every
    address of the host.

    [SIGINT] and [SIGALRM] arrive at the points [Cdeliver].  Not here: the clients
    of [advio/] for [/dev/poll] and [kqueue], which the configuration does not have,
    and the server over [stdio] streams on a socket. *)

From S2P Require Import Prelude Net Sys Error Wrap SockAddr Io Connect Mcast TcpServ Packet Ifi.

Definition SIGINT : Z := 2.
Definition SO_SNDBUF : Z := 7.
Definition SO_RCVBUF : Z := 8.
Definition SO_RCVTIMEO : Z := 20.
Definition MSG_PEEK : Z := 2.
Definition MSG_CTRUNC : Z := 8.
Definition MSG_TRUNC : Z := 32.
Definition FIONREAD : Z := 21531.
Definition EADDRINUSE : Z := 98.

(** The reply as a string, on the standard output. *)
Definition put_reply (recvline : list Z) : M unit := Fputs (c_str (recvline ++ [0])) stdout.

(** * The clients *)

Section clients.
Context (fuel : nat) (sockfd : Z) (servaddr : sockaddr).

(** [while (Fgets(...) != NULL)]: send the line, then [reply]. *)
Definition dg_lines (reply : M unit) : M unit :=
  iter fuel (λ _ : unit,
    sendline ← Fgets MAXLINE;
    match sendline with
    | None => mret (inr tt)
    | Some sendline =>
        Sendto sockfd (c_str sendline) servaddr;;
        reply;;
        mret (inl tt)
    end) tt.

(** dgcliaddr.c; two addresses of the same length are compared byte by byte. *)
Definition reply_addr : M unit :=
  '(recvline, preply_addr) ← Recvfrom sockfd MAXLINE;
  if decide (sa_len preply_addr ≠ sa_len servaddr ∨ preply_addr ≠ servaddr) then
    h ← Sock_ntop preply_addr (sa_len preply_addr);
    printf (str "reply from " ++ h ++ str " (ignored)" ++ [ch_nl])
  else put_reply recvline.
Definition dgcliaddr : M unit :=
  Malloc (sa_len servaddr);;
  dg_lines reply_addr.

(** dgcliinetaddr.c: the address is read as a [struct sockaddr_in]. *)
Definition inet_ntoa (addr : list Z) : list Z :=
  match addr with
  | [a; b; c; d] => fmt_d a ++ str "." ++ fmt_d b ++ str "." ++ fmt_d c ++ str "." ++ fmt_d d
  | _ => []
  end.
Definition reply_inetaddr : M unit :=
  '(recvline, replyaddr) ← Recvfrom sockfd MAXLINE;
  match replyaddr with
  | SaIn sin_port sin_addr =>
      printf (str "received reply from " ++ inet_ntoa sin_addr ++ str ", port " ++
              fmt_d (htons sin_port) ++ [ch_nl]);;
      put_reply recvline
  | _ => abort
  end.
Definition dgcliinetaddr : M unit :=
  Malloc (sa_len servaddr);;
  dg_lines reply_inetaddr.

(** dgcliconnect.c *)
Definition dgcliconnect : M unit :=
  Connect sockfd servaddr;;
  iter fuel (λ _ : unit,
    sendline ← Fgets MAXLINE;
    match sendline with
    | None => mret (inr tt)
    | Some sendline =>
        Write sockfd (c_str sendline);;
        recvline ← Read sockfd MAXLINE;
        put_reply recvline;;
        mret (inl tt)
    end) tt.

(** dgcliloop1.c, dgcliloop3.c and dgclibig.c send an array that nothing
    initialises. *)
Definition dgcliloop1 (sendline : list Z) : M unit :=
  for_each (seqZ 0 2000) (λ _ _, Sendto sockfd sendline servaddr) tt.
Definition dgcliloop3 (sendline : list Z) : M unit :=
  Setsockopt sockfd SOL_SOCKET SO_SNDBUF (le_bytes 4 (100 * 1024));;
  for_each (seqZ 0 2000) (λ _ _, Sendto sockfd sendline servaddr) tt.
Definition dgclibig (sendline : list Z) : M unit :=
  Setsockopt sockfd SOL_SOCKET SO_SNDBUF (le_bytes 4 70000);;
  Setsockopt sockfd SOL_SOCKET SO_RCVBUF (le_bytes 4 70000);;
  Sendto sockfd sendline servaddr;;
  '(recvline, _) ← Recvfrom sockfd 65507;
  printf (str "received " ++ fmt_d (Z.of_nat (length recvline)) ++ str " bytes" ++ [ch_nl]).

(** dgclitimeo1.c, and dgclitimeo.c, which does the same with [continue]. *)
Definition reply_timeo1 : M unit :=
  n ← Readable_timeo sockfd 5;
  if decide (n = 0) then void (sys (Cfputs stderr (str "socket timeout" ++ [ch_nl])))
  else
    '(recvline, _) ← Recvfrom sockfd MAXLINE;
    put_reply recvline.
Definition dgclitimeo1 : M unit := dg_lines reply_timeo1.

(** dgclitimeo2.c *)
Definition reply_timeo2 : M unit :=
  r ← checked (sys (Crecvfrom sockfd MAXLINE));
  match r with
  | RErr _ =>
      errno ← get_errno;
      if decide (errno = EWOULDBLOCK) then void (sys (Cfputs stderr (str "socket timeout" ++ [ch_nl])))
      else err_sys (str "recvfrom error")
  | ROk (recvline, _) => put_reply recvline
  end.
Definition dgclitimeo2 : M unit :=
  Setsockopt sockfd SOL_SOCKET SO_RCVTIMEO (le_bytes 8 5 ++ le_bytes 8 0);;
  dg_lines reply_timeo2.

(** dgclitimeo3.c; the handler returns at once. *)
Definition reply_timeo3 : M unit :=
  sys (Calarm 5);;
  sys (Cdeliver SIGALRM);;
  r ← checked (sys (Crecvfrom sockfd MAXLINE));
  match r with
  | RErr _ =>
      errno ← get_errno;
      if decide (errno = EINTR) then void (sys (Cfputs stderr (str "socket timeout" ++ [ch_nl])))
      else err_sys (str "recvfrom error")
  | ROk (recvline, _) =>
      sys (Calarm 0);;
      put_reply recvline
  end.
Definition dgclitimeo3 : M unit :=
  Signal SIGALRM (Handler "sig_alrm");;
  dg_lines reply_timeo3.
End clients.

(** udpcli01.c to udpcli08.c, and those of [advio/]: they differ in the port. *)
Definition udp_main (port : Z) (dg_cli : Z → sockaddr → M unit) (argv : list (list Z)) : M unit :=
  if decide (length argv ≠ 2%nat) then err_quit (str "usage: udpcli <IPaddress>")
  else
    addr ← Inet_pton AF_INET (nth 1 argv []);
    sockfd ← Socket AF_INET SOCK_DGRAM 0;
    dg_cli sockfd (SaIn (htons port) addr);;
    exit 0.

Definition udp_udpcli01 (fuel : nat) := udp_main SERV_PORT (dg_cli fuel).
Definition udp_udpcli02 (fuel : nat) := udp_main 7 (dgcliaddr fuel).
Definition udp_udpcli03 (fuel : nat) := udp_main 7 (dgcliinetaddr fuel).
Definition udp_udpcli04 (fuel : nat) := udp_main SERV_PORT (dgcliconnect fuel).
Definition udp_udpcli06 (sendline : list Z) :=
  udp_main SERV_PORT (λ sockfd servaddr, dgcliloop1 sockfd servaddr sendline).
Definition udp_udpcli08 (sendline : list Z) :=
  udp_main 9 (λ sockfd servaddr, dgcliloop3 sockfd servaddr sendline).
Definition advio_udpcli01 (fuel : nat) := udp_main 7 (dgclitimeo1 fuel).
Definition advio_udpcli02 (fuel : nat) := udp_main 7 (dgclitimeo2 fuel).
Definition advio_udpcli03 (fuel : nat) := udp_main 7 (dgclitimeo3 fuel).

Definition udp_udpcli09 (argv : list (list Z)) : M unit :=
  if decide (length argv ≠ 2%nat) then err_quit (str "usage: udpcli <IPaddress>")
  else
    sockfd ← Socket AF_INET SOCK_DGRAM 0;
    addr ← Inet_pton AF_INET (nth 1 argv []);
    Connect sockfd (SaIn (htons SERV_PORT) addr);;
    cliaddr ← Getsockname sockfd;
    h ← Sock_ntop cliaddr (sa_len cliaddr);
    printf (str "local address " ++ h ++ [ch_nl]);;
    exit 0.

Definition udp_udpcli10 (sendline : list Z) (argv : list (list Z)) : M unit :=
  if decide (length argv ≠ 3%nat) then err_quit (str "usage: udpcli02 <hostname> <service>")
  else
    '(sockfd, sa, _) ← Udp_client (Some (nth 1 argv [])) (Some (nth 2 argv []));
    dgclibig sockfd sa sendline;;
    exit 0.

(** * The servers *)

(** dgecholoop1.c and dgecholoop2.c: [count] is an [int]. *)
Definition int_point (count : Z) : M unit :=
  n ← sys (Cdeliver SIGINT);
  if decide (n = 0%nat) then mret tt
  else
    printf ([ch_nl] ++ str "received " ++ fmt_d count ++ str " datagrams" ++ [ch_nl]);;
    exit 0.

Definition dgecholoop (fuel : nat) (rcvbuf : option Z) (sockfd : Z) : M unit :=
  Signal SIGINT (Handler "recvfrom_int");;
  int_point 0;;
  match rcvbuf with
  | None => mret tt
  | Some n => Setsockopt sockfd SOL_SOCKET SO_RCVBUF (le_bytes 4 n)
  end;;
  iter fuel (λ count,
    int_point count;;
    Recvfrom sockfd MAXLINE;;
    int_point count;;
    mret (inl (s32 (count + 1)))) 0.

Definition udp_serv (dg_echo : Z → M unit) : M unit :=
  sockfd ← Socket AF_INET SOCK_DGRAM 0;
  Bind sockfd (SaIn (htons SERV_PORT) INADDR_ANY);;
  dg_echo sockfd.
Definition udp_udpserv01 (fuel : nat) : M unit := udp_serv (dg_echo fuel).
Definition udp_udpserv06 (fuel : nat) : M unit := udp_serv (dgecholoop fuel None).
Definition udp_udpserv07 (fuel : nat) : M unit := udp_serv (dgecholoop fuel (Some (220 * 1024))).

(** udpservselect01.c: TCP and UDP together; the loop keeps [rset]. *)
Definition udpselect_round (fuel : nat) (listenfd udpfd : Z) (rset : gset Z) : M (gset Z + unit) :=
  let rset := {[udpfd]} ∪ ({[listenfd]} ∪ rset) in
  r ← checked (sys (Cselect (Z.max listenfd udpfd + 1) rset ∅ None));
  match r with
  | RErr _ =>
      errno ← get_errno;
      if decide (errno = EINTR) then mret (inl rset) else err_sys (str "select error")
  | ROk (_, rset, _) =>
      (if decide (listenfd ∈ rset) then
         '(connfd, _) ← Accept fuel listenfd;
         fork_child (str_echo fuel) listenfd connfd
       else mret tt);;
      (if decide (udpfd ∈ rset) then
         '(mesg, cliaddr) ← Recvfrom udpfd MAXLINE;
         Sendto udpfd mesg cliaddr
       else mret tt);;
      mret (inl rset)
  end.

Definition udpservselect01 (fuel : nat) : M unit :=
  listenfd ← Socket AF_INET SOCK_STREAM 0;
  Setsockopt listenfd SOL_SOCKET SO_REUSEADDR [1; 0; 0; 0];;
  Bind listenfd (SaIn (htons SERV_PORT) INADDR_ANY);;
  Listen listenfd LISTENQ;;
  udpfd ← Socket AF_INET SOCK_DGRAM 0;
  Bind udpfd (SaIn (htons SERV_PORT) INADDR_ANY);;
  Signal SIGCHLD (Handler "sig_chld");;
  iter fuel (udpselect_round fuel listenfd udpfd) ∅.

(** * advio/recvfromflags.c and dgechoaddr.c *)

(** [struct unp_in_pktinfo].  The system has neither [IP_RECVDSTADDR] nor
    [IP_RECVIF], so that the structure stays zero and every ancillary object is
    unknown. *)
Record unp_in_pktinfo := Pktinfo { ipi_addr : list Z; ipi_ifindex : Z }.

Definition recvfrom_flags (fd nbytes flags : Z) : M (res (list Z * Z * sockaddr * unp_in_pktinfo)) :=
  r ← checked (sys (Crecvmsg_flags fd nbytes flags));
  match r with
  | RErr e => mret (RErr e)
  | ROk (data, sa, msg_flags, ctl) =>
      let result := ROk (data, msg_flags, sa, Pktinfo [0; 0; 0; 0] 0) in
      match ctl with
      | [] => mret result
      | (len, level, type) :: _ =>
          if decide (Z.land msg_flags MSG_CTRUNC ≠ 0) then mret result
          else err_quit (str "unknown ancillary data, len = " ++ fmt_d len ++ str ", level = " ++
                         fmt_d level ++ str ", type = " ++ fmt_d type)
      end
  end.

Definition Recvfrom_flags (fd nbytes flags : Z) : M (list Z * Z * sockaddr * unp_in_pktinfo) :=
  r ← recvfrom_flags fd nbytes flags;
  match r with RErr _ => err_quit (str "recvfrom_flags error") | ROk a => mret a end.

Definition If_indextoname (index : Z) : M (list Z) :=
  ptr ← sys (Cif_indextoname index);
  match ptr with
  | None => err_quit (str "if_indextoname error for " ++ fmt_d index)
  | Some name => mret name
  end.

(** [MAXLINE] is 20 there, to see datagrams cut off. *)
Definition dgechoaddr (fuel : nat) (sockfd : Z) : M unit :=
  iter fuel (λ _ : unit,
    '(mesg, flags, cliaddr, pktinfo) ← Recvfrom_flags sockfd 20 0;
    h ← Sock_ntop cliaddr (sa_len cliaddr);
    printf (fmt_d (Z.of_nat (length mesg)) ++ str "-byte datagram from " ++ h);;
    (if decide (ipi_addr pktinfo ≠ [0; 0; 0; 0]) then
       a ← Inet_ntop AF_INET (ipi_addr pktinfo) (Some tt) 46;
       printf (str ", to " ++ a)
     else mret tt);;
    (if decide (ipi_ifindex pktinfo > 0) then
       i ← If_indextoname (ipi_ifindex pktinfo);
       printf (str ", recv i/f = " ++ i)
     else mret tt);;
    (if decide (Z.land flags MSG_TRUNC ≠ 0) then printf (str " (datagram truncated)") else mret tt);;
    (if decide (Z.land flags MSG_CTRUNC ≠ 0) then printf (str " (control info truncated)") else mret tt);;
    printf [ch_nl];;
    Sendto sockfd mesg cliaddr;;
    mret (inl tt : unit + unit)) tt.
Definition advio_udpserv01 (fuel : nat) : M unit := udp_serv (dgechoaddr fuel).

(** * advio/udpserv03.c and udpserv04.c *)

Definition mydg_echo (fuel : nat) (sockfd : Z) (myaddr : sockaddr) : M unit :=
  iter fuel (λ _ : unit,
    '(mesg, cliaddr) ← Recvfrom sockfd MAXLINE;
    pid ← sys Cgetpid;
    h ← Sock_ntop cliaddr (sa_len cliaddr);
    printf (str "child " ++ fmt_d pid ++ str ", datagram from " ++ h);;
    m ← Sock_ntop myaddr (sa_len myaddr);
    printf (str ", to " ++ m ++ [ch_nl]);;
    Sendto sockfd mesg cliaddr;;
    mret (inl tt : unit + unit)) tt.

Section every_address.
(** [serve] is [mydg_echo]; [family] is that of the sockets. *)
Context (family : Z) (serve : Z → sockaddr → M unit).

Definition reuse_socket : M Z :=
  sockfd ← Socket family SOCK_DGRAM 0;
  Setsockopt sockfd SOL_SOCKET SO_REUSEADDR [1; 0; 0; 0];;
  mret sockfd.

Definition print_bound (what : string) (sa : sockaddr) : M unit :=
  h ← Sock_ntop sa (sa_len sa);
  printf (str what ++ h ++ [ch_nl]).

Definition child_serves (sockfd : Z) (sa : sockaddr) : M unit :=
  pid ← Fork;
  if decide (pid = 0) then serve sockfd sa;; exit 0 else mret tt.

(** The broadcast address, which may be taken. *)
Definition bind_broadcast (sa : sockaddr) : M unit :=
  sockfd ← reuse_socket;
  r ← checked (sys (Cbind sockfd sa));
  match r with
  | RErr _ =>
      errno ← get_errno;
      if decide (errno = EADDRINUSE) then
        print_bound "EADDRINUSE: " sa;;
        Close sockfd
      else
        h ← Sock_ntop sa (sa_len sa);
        err_sys (str "bind error for " ++ h)
  | ROk _ =>
      print_bound "bound " sa;;
      child_serves sockfd sa
  end.

(** One interface: the last address bound, the value of [sa].  [set] stores the port
    in an address of the structure; a null pointer is dereferenced. *)
Definition bind_interface (set : list Z → sockaddr) (ifi : ifi_info) : M sockaddr :=
  match ifi_addr ifi with
  | None => abort
  | Some (_, addr) =>
      let sa := set addr in
      sockfd ← reuse_socket;
      Bind sockfd sa;;
      print_bound "bound " sa;;
      child_serves sockfd sa;;
      if bit (ifi_flags ifi) IFF_BROADCAST then
        match ifi_brdaddr ifi with
        | None => abort
        | Some (_, brdaddr) => bind_broadcast (set brdaddr);; mret (set brdaddr)
        end
      else mret sa
  end.
End every_address.

Definition set_in (port : Z) (addr : list Z) : sockaddr := SaIn (htons port) (bytes_at addr 4 4).

Definition advio_udpserv03 (fuel : nat) (junk : Z → list Z) (beyond : list Z) : M unit :=
  l ← Get_ifi_info fuel junk beyond AF_INET 1;
  sa ← for_each l (λ ifi _, bind_interface AF_INET (mydg_echo fuel) (set_in SERV_PORT) ifi) (SaOther 0);
  sockfd ← reuse_socket AF_INET;
  let wildaddr := SaIn (htons SERV_PORT) INADDR_ANY in
  Bind sockfd wildaddr;;
  print_bound "bound " wildaddr;;
  child_serves (mydg_echo fuel) sockfd sa;;
  exit 0.

Definition advio_udpserv04 (fuel : nat) (junk : Z → list Z) (beyond : list Z) (argv : list (list Z)) : M unit :=
  '(sockfd, sa, salen) ←
    (if decide (length argv = 2%nat) then Udp_client None (Some (nth 1 argv []))
     else if decide (length argv = 3%nat) then Udp_client (Some (nth 1 argv [])) (Some (nth 2 argv []))
     else err_quit (str "usage: udpserv04 [ <host> ] <service or port>"));
  let family := sa_family sa in
  let port := sock_get_port sa in
  Close sockfd;;
  let serve sockfd sa := Malloc salen;; mydg_echo fuel sockfd sa in
  l ← Get_ifi_info fuel junk beyond family 1;
  for_each l (λ ifi _, bind_interface family serve (λ addr, sock_set_port (sockaddr_of_mem addr) port) ifi)
    (SaOther 0);;
  sockfd ← reuse_socket family;
  Malloc salen;;
  let wild := sock_set_wild sa in
  Bind sockfd wild;;
  print_bound "bound " wild;;
  child_serves serve sockfd wild;;
  exit 0.

(** * The daytime clients of advio/ *)

(** A [recvfrom] without an address is [recv]. *)
Definition recv_text (msg : string) (fd flags : Z) : M (list Z) :=
  or_err_sys (str msg) (sys (Crecv fd MAXLINE flags)).

Definition print_pending (n npend : Z) : M unit :=
  printf (fmt_d n ++ str " bytes from PEEK, " ++ fmt_d npend ++ str " bytes pending" ++ [ch_nl]).

Definition daytime_usage {A} : M A := err_quit (str "usage: a.out <hostname or IPaddress> <service or port#>").

Definition advio_daytimetcpcli (fuel : nat) (argv : list (list Z)) : M unit :=
  if decide (length argv ≠ 3%nat) then daytime_usage
  else
    sockfd ← Tcp_connect (Some (nth 1 argv [])) (Some (nth 2 argv []));
    ss ← Getpeername sockfd;
    h ← Sock_ntop_host ss (sa_len ss);
    printf (str "connected to " ++ h ++ [ch_nl]);;
    iter fuel (λ _ : unit,
      peek ← Recv sockfd MAXLINE MSG_PEEK;
      if decide (length peek = 0%nat) then mret (inr tt)
      else
        npend ← Ioctl sockfd FIONREAD 0;
        print_pending (Z.of_nat (length peek)) npend;;
        recvline ← Read sockfd MAXLINE;
        put_reply recvline;;
        mret (inl tt)) tt;;
    exit 0.

Definition advio_daytimeudpcli3 (argv : list (list Z)) : M unit :=
  if decide (length argv ≠ 3%nat) then daytime_usage
  else
    '(sockfd, sa, salen) ← Udp_client (Some (nth 1 argv [])) (Some (nth 2 argv []));
    h ← Sock_ntop_host sa salen;
    printf (str "sending to " ++ h ++ [ch_nl]);;
    Sendto sockfd [0] sa;;
    peek ← recv_text "recvfrom error" sockfd MSG_PEEK;
    nq ← Ioctl sockfd FIONREAD 0;
    print_pending (Z.of_nat (length peek)) nq;;
    recvline ← recv_text "recvfrom error" sockfd 0;
    put_reply recvline;;
    exit 0.

(** The [Write] there takes two bytes of an array of one; [next] is what the second
    is. *)
Definition advio_daytimeudpcli4 (next : Z) (argv : list (list Z)) : M unit :=
  if decide (length argv ≠ 3%nat) then daytime_usage
  else
    sockfd ← Udp_connect (Some (nth 1 argv [])) (Some (nth 2 argv []));
    ss ← Getpeername sockfd;
    h ← Sock_ntop_host ss (sa_len ss);
    printf (str "connected to " ++ h ++ [ch_nl]);;
    Write sockfd [0; next];;
    peek ← Recv sockfd MAXLINE MSG_PEEK;
    nq ← Ioctl sockfd FIONREAD 0;
    print_pending (Z.of_nat (length peek)) nq;;
    recvline ← Read sockfd MAXLINE;
    put_reply recvline;;
    exit 0.

(** advio/str_cli_select02.c *)
Definition str_cli_select02 (fuel : nat) (st : rline) (sockfd : Z) : M unit :=
  iter fuel (λ '(st, rset, stdineof),
    let rset := if (stdineof : bool) then rset else {[STDIN_FILENO]} ∪ rset in
    '(_, rset, _) ← Select (Z.max STDIN_FILENO sockfd + 1) ({[sockfd]} ∪ rset) ∅ None;
    '(st, done) ←
      (if decide (sockfd ∈ rset) then
         '(st, n, recvline) ← Readline fuel st sockfd MAXLINE;
         if decide (n = 0) then
           if stdineof then mret (st, true)
           else err_quit (str "str_cli: server terminated prematurely")
         else
           Fputs (c_str recvline) stdout;;
           mret (st, false)
       else mret (st, false));
    if (done : bool) then mret (inr tt)
    else if decide (STDIN_FILENO ∈ rset) then
      sendline ← Fgets MAXLINE;
      match sendline with
      | None =>
          Shutdown sockfd SHUT_WR;;
          mret (inl (st, rset ∖ {[STDIN_FILENO]}, true))
      | Some sendline =>
          Writen fuel sockfd (c_str sendline);;
          mret (inl (st, rset, stdineof))
      end
    else mret (inl (st, rset, stdineof))) (st, (∅ : gset Z), false).

Definition advio_tcpcli01 (fuel : nat) (argv : list (list Z)) : M unit :=
  if decide (length argv ≠ 2%nat) then err_quit (str "usage: tcpcli <IPaddress>")
  else
    sockfd ← Socket AF_INET SOCK_STREAM 0;
    addr ← Inet_pton AF_INET (nth 1 argv []);
    Connect_timeo sockfd (SaIn (htons 7) addr) 10;;
    str_cli fuel (Rline 0 []) sockfd;;
    exit 0.

Definition advio_tcpcli02 (fuel : nat) (argv : list (list Z)) : M unit :=
  sockfd ← ipv4_connect argv SERV_PORT;
  str_cli_select02 fuel (Rline 0 []) sockfd;;
  exit 0.
