(* ===== verification/UdpSpec.v ===== *)
(** Properties of [Udp]: the client that checks the address of a reply prints no other
    host's; the server of every address binds each of them. *)

From S2P Require Import Prelude Net Sys Error Wrap SockAddr Io Connect ConnectSpec Mcast TcpServ Ends Packet Ifi IfiSpec Udp.

(** * The client that checks the address *)

Section filter.
Context (K : kernel) (servaddr : sockaddr).

(** Every text of the standard output follows the receipt of a datagram: it is the
    datagram when the server sent it, and names the sender otherwise. *)
Definition output_of (cs : list call) (text : list Z) : Prop :=
  match cs with
  | Crecvfrom fd n :: cs' =>
      match K cs' (Crecvfrom fd n) with
      | ROk (data, from) =>
          if decide (from = servaddr) then text = c_str (data ++ [0])
          else ∃ h, sock_ntop from (sa_len from) = ROk h ∧
            text = str "reply from " ++ h ++ str " (ignored)" ++ [ch_nl]
      | RErr _ => False
      end
  | _ => False
  end.
Fixpoint filtered (cs : list call) : Prop :=
  match cs with
  | [] => True
  | Cfputs fd text :: cs' => (fd = stdout → output_of cs' text) ∧ filtered cs'
  | _ :: cs' => filtered cs'
  end.

Lemma report_filtered cs cs' : Forall report_call cs → filtered cs' → filtered (cs ++ cs').
Proof.
  induction 1 as [|c cs Hc _ IH]; [done|]. intros H. specialize (IH H).
  destruct c; try done. simpl in Hc |- *. subst fd. by split.
Qed.

Lemma wp_filtered_err {A} msg w (Q : outcome A → world → Prop) :
  filtered (w_calls w) → (∀ c w', filtered (w_calls w') → Q (Exit c) w') → wp K (err_sys msg) w Q.
Proof. intros Hw HQ. apply wp_err_sys. intros cs Hcs. apply HQ. by apply report_filtered. Qed.

Lemma wp_reply_addr sockfd w (Q : outcome unit → world → Prop) :
  filtered (w_calls w) → (∀ o w', filtered (w_calls w') → Q o w') →
  wp K (reply_addr sockfd servaddr) w Q.
Proof.
  intros Hw HQ. unfold reply_addr. wp_step. apply wp_or_err_sys. wp_step.
  destruct (K (w_calls w) (Crecvfrom sockfd MAXLINE)) as [[data from]|e] eqn:E; cbn [bind_post].
  2:{ intros cs Hcs. apply HQ. by apply report_filtered. }
  wp_if.
  - wp_step. unfold Sock_ntop. apply wp_or_err_sys. wp_step.
    destruct (sock_ntop from (sa_len from)) as [h|e] eqn:Eh; cbn [bind_post].
    2:{ intros cs Hcs. apply HQ. by apply report_filtered. }
    unfold printf, void. repeat wp_step. apply HQ. split; [|done]. intros _. cbn [output_of]. rewrite E.
    rewrite decide_False by (intros ->; naive_solver). by exists h.
  - unfold put_reply, Fputs. wp_step. wp_step. set (w2 := World _ _ _).
    assert (Hw2 : filtered (w_calls w2)).
    { split; [|done]. intros _. cbn [output_of]. rewrite E. rewrite decide_True; [done|].
      destruct (decide (from = servaddr)); naive_solver. }
    destruct (K _ (Cfputs _ _)); [by wp_step; apply HQ|apply wp_filtered_err; [done|intros; by apply HQ]].
Qed.

Lemma wp_dgcliaddr fuel sockfd w :
  filtered (w_calls w) → wp K (dgcliaddr fuel sockfd servaddr) w (λ _ w', filtered (w_calls w')).
Proof.
  intros Hw. unfold dgcliaddr, Malloc. wp_step. apply wp_or_err_sys. wp_step.
  destruct (K _ (Cmalloc _)) as [p|e]; cbn [bind_post]; [|intros cs Hcs; by apply report_filtered].
  unfold dg_lines. apply (wp_iter K (λ _ w, filtered (w_calls w))); [done| |done].
  intros [] w1 Hw1. wp_step. unfold Fgets. apply wp_or_err_sys. wp_step.
  destruct (K _ (Cfgets _)) as [[line|]|e]; cbn [bind_post];
    [|by wp_step|intros cs Hcs; by apply report_filtered].
  wp_step. unfold Sendto, all_or_err_sys. wp_step. wp_step. wp_step.
  destruct (K _ (Csendto _ _ _)) as [m|e]; cbn [bind_post].
  - wp_if; [by apply wp_filtered_err|]. wp_step. wp_step. apply wp_reply_addr; [done|].
    intros [[]|c| |] w2 Hw2; cbn [bind_post]; [by wp_step|done..].
  - repeat wp_step. by apply wp_filtered_err.
Qed.
End filter.

(** The client that checks the address of a reply shows what the server sent, and
    of every other datagram only where it came from: each text it prints follows the
    receipt of the datagram it stands for, at any time. *)
Theorem dgcliaddr_filters (K : kernel) fuel sockfd servaddr w (Hw : filtered K servaddr (w_calls w)) :
  filtered K servaddr (w_calls (dgcliaddr fuel sockfd servaddr K w).2).
Proof. by apply (wp_dgcliaddr K servaddr fuel sockfd w). Qed.

Lemma dgcliaddr_filters_witness :
  let K : kernel := λ cs c,
    match c with
    | Cmalloc _ => ROk 64
    | Cfgets _ => if decide (length cs < 9)%nat then ROk (Some (str "hi")) else ROk None
    | Csendto _ d _ => ROk (Z.of_nat (length d))
    | Crecvfrom _ _ => ROk (str "ho", if decide (length cs < 5)%nat then SaIn 7 [9; 9; 9; 9] else SaIn 7 [1; 2; 3; 4])
    | Cfputs _ _ => true
    | c => default_ans c
    end in
  (dgcliaddr 9 3 (SaIn 7 [1; 2; 3; 4]) K (World [] 0 false)).1 = Val tt ∧
  filtered K (SaIn 7 [1; 2; 3; 4]) (w_calls (dgcliaddr 9 3 (SaIn 7 [1; 2; 3; 4]) K (World [] 0 false)).2).
Proof. intros K. split; [reflexivity|]. by apply (dgcliaddr_filters K 9 3 (SaIn 7 [1; 2; 3; 4]) (World [] 0 false)). Defined.

(** * The server of every address *)

(** The addresses that were bound, or tried, the first one first. *)
Definition binds (cs : list call) : list sockaddr :=
  flat_map (λ c, match c with Cbind _ sa => [sa] | _ => [] end) (rev cs).

Lemma binds_cons c cs : binds (c :: cs) = binds cs ++ binds [c].
Proof. unfold binds. cbn [rev app flat_map]. by rewrite flat_map_app. Qed.

Definition no_bind (c : call) : Prop := match c with Cbind _ _ => False | _ => True end.

Lemma binds_app cs cs' : Forall no_bind cs → binds (cs ++ cs') = binds cs'.
Proof.
  induction 1 as [|c cs Hc _ IH]; [done|]. cbn [app]. rewrite binds_cons, IH.
  destruct c; try done; by rewrite app_nil_r.
Qed.

Lemma report_no_bind c : report_call c → no_bind c.
Proof. by destruct c. Qed.

(** The addresses of an interface. *)
Definition interface_binds (set : list Z → sockaddr) (ifi : ifi_info) : list sockaddr :=
  match ifi_addr ifi with Some (_, addr) => [set addr] | None => [] end ++
  (if bit (ifi_flags ifi) IFF_BROADCAST then
     match ifi_brdaddr ifi with Some (_, brd) => [set brd] | None => [] end
   else []).

Section every_address.
(** The process is the parent at every [fork]. *)
Context (K : kernel) (Hfork : ∀ cs pid, K cs Cfork = ROk pid → pid ≠ 0).

(** A program that binds nothing and ends with the status of an error if it ends the
    process, as a step. *)
Lemma wp_no_bind {A} (m : M A) w (Q : outcome A → world → Prop) :
  emits no_bind m → exits1 m →
  (∀ o w', binds (w_calls w') = binds (w_calls w) → o ≠ Exit 0 → Q o w') → wp K m w Q.
Proof.
  intros Hm Hx HQ. destruct (Hm K w) as (cs & Hw & Hcs). unfold wp. apply HQ.
  - rewrite Hw. by apply binds_app.
  - intros E. by apply Hx in E.
Qed.

(** What the parent ends with: status 0 only with all of [l] bound. *)
Definition all_bound {A} (l : list sockaddr) (o : outcome A) (w : world) : Prop :=
  o = Exit 0 → binds (w_calls w) = l.

Lemma wp_no_bind_then {A B} (m : M A) (f : A → M B) w l :
  emits no_bind m → exits1 m →
  (∀ a w', binds (w_calls w') = binds (w_calls w) → wp K (f a) w' (all_bound l)) →
  wp K (m ≫= f) w (all_bound l).
Proof.
  intros Hm Hx Hf. wp_step. apply wp_no_bind; [done..|]. intros [a|c| |] w' Hb Ho; cbn [bind_post];
    [by apply Hf|by intros [= ->]|done..].
Qed.

Lemma quiet_reuse_socket family : emits no_bind (reuse_socket family) ∧ exits1 (reuse_socket family).
Proof.
  unfold reuse_socket, Socket, Setsockopt. split; [|by exits1_tac].
  emits_tac; (apply emits_or_err_sys; [apply report_no_bind|by apply emits_sys]).
Qed.
Lemma quiet_print_bound what sa : emits no_bind (print_bound what sa) ∧ exits1 (print_bound what sa).
Proof.
  unfold print_bound, Sock_ntop, printf, void. split; [|by exits1_tac].
  emits_tac; [|done]. apply emits_or_err_sys; [apply report_no_bind|apply emits_ret].
Qed.

Lemma wp_Bind_bound {B} fd sa (f : unit → M B) w l :
  (∀ w', binds (w_calls w') = binds (w_calls w) ++ [sa] → wp K (f tt) w' (all_bound l)) →
  wp K (Bind fd sa ≫= f) w (all_bound l).
Proof.
  intros Hf. wp_step. unfold Bind. apply wp_or_err_sys. wp_step.
  destruct (K _ (Cbind _ _)) as [[]|e]; cbn [bind_post]; [|by intros]. apply Hf. cbn [w_calls]. apply binds_cons.
Qed.

Lemma wp_parent {B} serve fd sa (f : unit → M B) w l :
  (∀ w', binds (w_calls w') = binds (w_calls w) → wp K (f tt) w' (all_bound l)) →
  wp K (child_serves serve fd sa ≫= f) w (all_bound l).
Proof.
  intros Hf. wp_step. unfold child_serves, Fork. wp_step. apply wp_or_err_sys. wp_step.
  destruct (K _ Cfork) as [pid|e] eqn:E; cbn [bind_post]; [|by intros].
  apply Hfork in E. rewrite decide_False by done. wp_step. apply Hf. cbn [w_calls]. rewrite binds_cons. apply app_nil_r.
Qed.

Lemma wp_bind_broadcast {B} family serve sa (f : unit → M B) w l :
  (∀ w', binds (w_calls w') = binds (w_calls w) ++ [sa] → wp K (f tt) w' (all_bound l)) →
  wp K (bind_broadcast family serve sa ≫= f) w (all_bound l).
Proof.
  intros Hf. unfold bind_broadcast. apply wp_assoc.
  apply wp_no_bind_then; [apply quiet_reuse_socket..|]. intros sockfd w1 Hb1. apply wp_assoc. wp_step. wp_step. wp_step.
  assert (Hb : binds (Cbind sockfd sa :: w_calls w1) = binds (w_calls w) ++ [sa]) by (rewrite binds_cons; by rewrite Hb1).
  destruct (K _ (Cbind _ _)) as [[]|e]; cbn [bind_post].
  - apply wp_assoc. apply wp_no_bind_then; [apply quiet_print_bound..|]. intros [] w2 Hb2.
    apply wp_parent. intros w3 Hb3. apply Hf. by rewrite Hb3, Hb2.
  - apply wp_assoc. wp_step. wp_step. case_decide.
    + apply wp_assoc. apply wp_no_bind_then; [apply quiet_print_bound..|]. intros [] w2 Hb2.
      apply wp_no_bind_then; [unfold Close; by apply emits_or_err_sys; [apply report_no_bind|apply emits_sys]
        |unfold Close; by exits1_tac|].
      intros [] w3 Hb3. apply Hf. by rewrite Hb3, Hb2.
    + apply wp_assoc. apply wp_no_bind_then; [apply emits_or_err_sys; [apply report_no_bind|apply emits_ret]|unfold Sock_ntop; by exits1_tac|].
      intros h w2 Hb2. wp_step. apply wp_err_sys. by intros.
Qed.

Lemma wp_bind_interface {B} family serve set ifi (f : sockaddr → M B) w l :
  (∀ sa w', binds (w_calls w') = binds (w_calls w) ++ interface_binds set ifi → wp K (f sa) w' (all_bound l)) →
  wp K (bind_interface family serve set ifi ≫= f) w (all_bound l).
Proof.
  intros Hf. unfold bind_interface, interface_binds in *. destruct (ifi_addr ifi) as [[p addr]|]; [|by wp_step; wp_step].
  apply wp_assoc, wp_no_bind_then; [apply quiet_reuse_socket..|]. intros sockfd w1 Hb1.
  apply wp_assoc, wp_Bind_bound. intros w2 Hb2.
  apply wp_assoc, wp_no_bind_then; [apply quiet_print_bound..|]. intros [] w3 Hb3.
  apply wp_assoc, wp_parent. intros w4 Hb4.
  assert (Hb : binds (w_calls w4) = binds (w_calls w) ++ [set addr]) by (by rewrite Hb4, Hb3, Hb2, Hb1).
  destruct (bit (ifi_flags ifi) IFF_BROADCAST); [|wp_step; wp_step; by apply Hf].
  destruct (ifi_brdaddr ifi) as [[p' brd]|]; [|by wp_step; wp_step].
  apply wp_assoc, wp_bind_broadcast. intros w5 Hb5. wp_step. wp_step. apply Hf. by rewrite Hb5, Hb, <- app_assoc.
Qed.

Lemma wp_interfaces {B} family serve set ifis sa (f : sockaddr → M B) w l :
  (∀ sa' w', binds (w_calls w') = binds (w_calls w) ++ flat_map (interface_binds set) ifis →
     wp K (f sa') w' (all_bound l)) →
  wp K (for_each ifis (λ ifi _, bind_interface family serve set ifi) sa ≫= f) w (all_bound l).
Proof.
  revert sa w. induction ifis as [|ifi ifis IH]; intros sa w Hf; cbn [for_each flat_map] in *.
  - wp_step. wp_step. apply Hf. by rewrite app_nil_r.
  - apply wp_assoc, wp_bind_interface. intros sa1 w1 Hb1. apply IH. intros sa2 w2 Hb2. apply Hf.
    by rewrite Hb2, Hb1, app_assoc.
Qed.
End every_address.

Ltac no_bind_tac :=
  emits_tac; try done; try (by apply emits_err_sys, report_no_bind); try (by apply emits_err_quit, report_no_bind);
  try (apply emits_or_err_sys; [apply report_no_bind|by apply emits_sys]).

Lemma emits_ifi_addrs beyond sockfd mem o flags ifr : emits no_bind (ifi_addrs beyond sockfd mem o flags ifr).
Proof. unfold ifi_addrs, copied, Calloc, Ioctl_ifr. by no_bind_tac. Qed.

Lemma emits_ifi_record beyond sockfd family doaliases len s :
  emits no_bind (ifi_record beyond sockfd family doaliases len s).
Proof.
  destruct s as [[[o mem] lastname] l]. unfold ifi_record, Calloc, Ioctl_ifr. no_bind_tac.
  all: apply emits_ifi_addrs.
Qed.

Lemma emits_Get_ifi_info fuel junk beyond family doaliases :
  emits no_bind (Get_ifi_info fuel junk beyond family doaliases).
Proof.
  unfold Get_ifi_info, get_ifi_info, ifconf, ifconf_round, Socket, Malloc. no_bind_tac. apply emits_ifi_record.
Qed.

Lemma exits1_Get_ifi_info fuel junk beyond family doaliases : exits1 (Get_ifi_info fuel junk beyond family doaliases).
Proof.
  unfold Get_ifi_info, get_ifi_info, ifconf, ifconf_round, Socket, Malloc, ifi_record, ifi_addrs, copied, Calloc,
    Ioctl_ifr. exits1_tac.
Qed.

(** When [udpserv03.c] ends as it should, it has bound a socket to the unicast
    address of every interface that [get_ifi_info] found, in order, each followed by
    its broadcast address if it has one (which may be taken already), and last one to
    the wildcard address, all with the port of the service. *)
Theorem udpserv03_binds (K : kernel) fuel junk beyond w
    (Hfork : ∀ cs pid, K cs Cfork = ROk pid → pid ≠ 0) :
  let '(o, w') := advio_udpserv03 fuel junk beyond K w in
  o = Exit 0 →
  ∃ l w1, Get_ifi_info fuel junk beyond AF_INET 1 K w = (Val l, w1) ∧
    binds (w_calls w') = binds (w_calls w) ++ flat_map (interface_binds (set_in SERV_PORT)) l ++
      [SaIn (htons SERV_PORT) INADDR_ANY].
Proof.
  destruct (Get_ifi_info fuel junk beyond AF_INET 1 K w) as [o1 w1] eqn:E1.
  assert (Hb1 : binds (w_calls w1) = binds (w_calls w)).
  { destruct (emits_Get_ifi_info fuel junk beyond AF_INET 1 K w) as (cs & Hw & Hcs).
    rewrite E1 in Hw. simpl in Hw. rewrite Hw. by apply binds_app. }
  pose proof (exits1_Get_ifi_info fuel junk beyond AF_INET 1 K w) as Hx. rewrite E1 in Hx. simpl in Hx.
  enough (H : wp K (advio_udpserv03 fuel junk beyond) w (λ o w', o = Exit 0 →
    ∃ l w1', (o1, w1) = (Val l, w1') ∧ binds (w_calls w') = binds (w_calls w) ++
      flat_map (interface_binds (set_in SERV_PORT)) l ++ [SaIn (htons SERV_PORT) INADDR_ANY])).
  { unfold wp in H. by destruct (advio_udpserv03 fuel junk beyond K w). }
  unfold advio_udpserv03. wp_step. unfold wp at 1. rewrite E1. cbn [fst snd].
  destruct o1 as [l|c| |]; cbn [bind_post]; [|by intros [= ->]; specialize (Hx 0 eq_refl)|done..].
  set (total := binds (w_calls w) ++ flat_map (interface_binds (set_in SERV_PORT)) l ++ [SaIn (htons SERV_PORT) INADDR_ANY]).
  eapply (wp_mono K _ _ (all_bound total)); [|intros o w' Ho E; exists l, w1; split; [done|by apply Ho]].
  apply wp_interfaces; [done|]. intros sa w2 Hb2.
  apply wp_no_bind_then; [apply quiet_reuse_socket..|]. intros sockfd w3 Hb3.
  apply wp_Bind_bound. intros w4 Hb4.
  apply wp_no_bind_then; [apply quiet_print_bound..|]. intros [] w5 Hb5.
  apply wp_parent; [done|]. intros w6 Hb6. wp_step. intros _.
  rewrite Hb6, Hb5, Hb4, Hb3, Hb2, Hb1. unfold total. by rewrite app_assoc.
Qed.

(** A host with one interface, which can broadcast. *)
Definition one_interface : kernel := λ cs c,
  match c return ans c with
  | Csocket _ _ _ => ROk 3
  | Cmalloc _ | Ccalloc _ _ => ROk (4096 + 16 * Z.of_nat (length cs))
  | Cioctl_mem _ r ifr len =>
      ROk (if decide (r = SIOCGIFCONF) then ifreq_rec (str "eth0") [10; 0; 0; 5]
           else if decide (r = SIOCGIFBRDADDR) then take 16 ifr ++ [2; 0; 0; 0; 10; 0; 0; 255] ++ repeat 0 16
           else take 16 ifr ++ [3; 0] ++ repeat 0 22)
  | Csetsockopt _ _ _ _ | Cbind _ _ => ROk tt
  | Cfork => ROk 77
  | c => default_ans c
  end.

Lemma udpserv03_binds_witness :
  (advio_udpserv03 9 (λ n, repeat 0 (Z.to_nat n)) [] one_interface (World [] 0 false)).1 = Exit 0 ∧
  ∃ l w1, Get_ifi_info 9 (λ n, repeat 0 (Z.to_nat n)) [] AF_INET 1 one_interface (World [] 0 false) = (Val l, w1) ∧
    [SaIn 38182 [10; 0; 0; 5]; SaIn 38182 [10; 0; 0; 255]; SaIn 38182 [0; 0; 0; 0]] =
      flat_map (interface_binds (set_in SERV_PORT)) l ++ [SaIn (htons SERV_PORT) INADDR_ANY].
Proof.
  split; [vm_compute; reflexivity|].
  pose proof (udpserv03_binds one_interface 9 (λ n, repeat 0 (Z.to_nat n)) [] (World [] 0 false)) as H.
  specialize (H ltac:(by intros cs pid [= <-])).
  destruct (advio_udpserv03 9 _ [] one_interface (World [] 0 false)) as [o w'] eqn:E.
  vm_compute in E. injection E as <- <-. destruct (H eq_refl) as (l & w1 & H1 & H2).
  exists l, w1. split; [exact H1|]. exact H2.
Defined.
