(* ===== verification/Sntp.v ===== *)
(** [ssntp/] and [mysdr/]: clients that read multicast packets: the clock of a time
    server against the own, and announcements of sessions. *)

From S2P Require Import Prelude Net Sys Error Wrap SockAddr Io Connect Mcast TcpServ Packet Ifi.

(** * ssntp/ntp.h *)

Definition JAN_1970 : Z := 2208988800.
Definition sizeof_ntpdata : Z := 48.
Definition VERSION_MASK : Z := 56.
Definition MODE_MASK : Z := 7.
Definition MODE_CLIENT : Z := 3.
Definition MODE_BROADCAST : Z := 5.

(** The members of [struct ntpdata] that are read. *)
Definition ntp_status (buf : list Z) : Z := byte_at buf 0.
Definition ntp_stratum (buf : list Z) : Z := byte_at buf 1.
Definition xmt_int_part (buf : list Z) : Z := of_le_bytes (bytes_at buf 40 4).
Definition xmt_fraction (buf : list Z) : Z := of_le_bytes (bytes_at buf 44 4).

(** * ssntp/sntp_proc.c *)

(** The fraction in microseconds.  The quotient by [2^32] and the product with
    [10^6] have at most 52 significant bits, so that the [double]s hold them
    exactly, and the conversion cuts off. *)
Definition usec_of_fraction (useci : Z) : Z := useci * 1000000 / 2 ^ 32.

(** [useci] at the end: the difference in microseconds, as the unsigned integer that
    [%d] prints. *)
Definition clock_difference (buf : list Z) (now : Z * Z) : Z :=
  let nsec := u32 (u64 (ntohl (xmt_int_part buf) - JAN_1970)) in
  let useci := usec_of_fraction (ntohl (xmt_fraction buf)) in
  let tv_sec := now.1 - nsec in
  let tv_usec := now.2 - useci in
  let '(tv_sec, tv_usec) :=
    if decide (tv_usec < 0) then (tv_sec - 1, tv_usec + 1000000) else (tv_sec, tv_usec) in
  u32 (tv_sec * 1000000 + tv_usec).

Definition sntp_proc (buf : list Z) (n : Z) (now : Z * Z) : M unit :=
  if decide (n < sizeof_ntpdata) then
    printf ([ch_nl] ++ str "packet too small: " ++ fmt_d n ++ str " bytes" ++ [ch_nl])
  else
    let version := Z.shiftr (Z.land (ntp_status buf) VERSION_MASK) 3 in
    let mode := Z.land (ntp_status buf) MODE_MASK in
    printf ([ch_nl] ++ str "v" ++ fmt_d version ++ str ", mode " ++ fmt_d mode ++ str ", strat " ++
            fmt_d (ntp_stratum buf) ++ str ", ");;
    if decide (mode = MODE_CLIENT) then printf (str "client" ++ [ch_nl])
    else printf (str "clock difference = " ++ fmt_d (s32 (clock_difference buf now)) ++ str " usec" ++ [ch_nl]).

(** * ssntp/main.c: the buffer keeps what a shorter packet leaves *)

Definition ssntp_join (sockfd : Z) (mcastsa : sockaddr) (salen : Z) (ifi : ifi_info) : M unit :=
  if bit (ifi_flags ifi) IFF_MULTICAST then
    let name := until_nul (ifi_name ifi) in
    Mcast_join sockfd mcastsa salen (Some name) 0;;
    h ← Sock_ntop mcastsa salen;
    printf (str "joined " ++ h ++ str " on " ++ name ++ [ch_nl])
  else mret tt.

Definition ssntp_round (sockfd : Z) (buf : list Z) : M (list Z + unit) :=
  '(data, _) ← Recvfrom sockfd MAXLINE;
  now ← Gettimeofday;
  let buf := store_at buf 0 data in
  sntp_proc buf (Z.of_nat (length data)) now;;
  mret (inl buf).

Definition ssntp_main (fuel : nat) (junk : Z → list Z) (beyond buf : list Z) (argv : list (list Z)) : M unit :=
  if decide (length argv ≠ 2%nat) then err_quit (str "usage: ssntp <IPaddress>")
  else
    '(sockfd, mcastsa, salen) ← Udp_client (Some (nth 1 argv [])) (Some (str "ntp"));
    Malloc salen;;
    let wild := sock_set_wild mcastsa in
    Bind sockfd wild;;
    l ← Get_ifi_info fuel junk beyond (sa_family mcastsa) 1;
    for_each l (λ ifi _, ssntp_join sockfd mcastsa salen ifi) tt;;
    Malloc salen;;
    iter fuel (ssntp_round sockfd) buf.

(** * mysdr/mysdr.h *)

Definition SAP_VERSION_MASK : Z := 3758096384.
Definition SAP_VERSION_SHIFT : Z := 29.
Definition SAP_IPV6 : Z := 268435456.
Definition SAP_DELETE : Z := 67108864.
Definition SAP_ENCRYPTED : Z := 33554432.
Definition SAP_COMPRESSED : Z := 16777216.
Definition SAP_AUTHLEN_MASK : Z := 16711680.
Definition SAP_AUTHLEN_SHIFT : Z := 16.
Definition SAP_HASH_MASK : Z := 65535.

Definition fmt_0x (n : nat) (x : Z) : list Z := let d := fmt_x x in repeat ch_zero (n - length d) ++ d.

(** [sizeof(buf)] and the offset of [sap_data]. *)
Definition sizeof_sap : Z := 8200.
Definition sap_data : Z := 8.

(** * mysdr/loop.c *)

(** What is printed for a packet whose header, in host order, is [sap_header]: [inl]
    for [err_msg], [inr] for the text at [p]. *)
Definition sap_text (sap_header : Z) (buf : list Z) : list Z + list Z :=
  if decide (Z.shiftr (Z.land sap_header SAP_VERSION_MASK) SAP_VERSION_SHIFT > 1) then
    inl (str "... version field not 1 (0x" ++ fmt_0x 8 sap_header ++ str ")")
  else if decide (Z.land sap_header SAP_IPV6 ≠ 0) then inl (str "... IPv6")
  else if decide (Z.land sap_header (Z.lor SAP_DELETE (Z.lor SAP_ENCRYPTED SAP_COMPRESSED)) ≠ 0) then
    inl (str "... can't parse this packet type (0x" ++ fmt_0x 8 sap_header ++ str ")")
  else
    let p := sap_data + Z.shiftr (Z.land sap_header SAP_AUTHLEN_MASK) SAP_AUTHLEN_SHIFT in
    let p := if decide (until_nul (drop (Z.to_nat p) buf) = str "application/sdp") then p + 16 else p in
    inr (until_nul (drop (Z.to_nat p) buf)).

(** [buf] is the object that all rounds share. *)
Definition sdr_round (sockfd : Z) (buf : list Z) : M (list Z + unit) :=
  '(data, sa) ← Recvfrom sockfd (sizeof_sap - 1);
  let buf := store_at (store_at buf 0 data) (length data) [0] in
  let sap_header := ntohl (of_le_bytes (bytes_at buf 0 4)) in
  let buf := store_at buf 0 (le_bytes 4 sap_header) in
  h ← Sock_ntop sa (sa_len sa);
  printf (str "From " ++ h ++ str " hash 0x" ++ fmt_0x 4 (Z.land sap_header SAP_HASH_MASK) ++ [ch_nl]);;
  match sap_text sap_header buf with
  | inl msg => err_msg msg
  | inr text => printf (text ++ [ch_nl])
  end;;
  mret (inl buf).

Definition sdr_loop (fuel : nat) (buf : list Z) (sockfd salen : Z) : M unit :=
  Malloc salen;;
  iter fuel (sdr_round sockfd) buf.

(** * mysdr/main.c *)

Definition sdr_main (fuel : nat) (buf : list Z) (argv : list (list Z)) : M unit :=
  '(sockfd, sa, salen) ←
    (if decide (length argv = 1%nat) then Udp_client (Some (str "sap.mcast.net")) (Some (str "9875"))
     else if decide (length argv = 4%nat) then Udp_client (Some (nth 1 argv [])) (Some (nth 2 argv []))
     else err_quit (str "usage: mysdr <mcast-addr> <port#> <interface-name>"));
  Setsockopt sockfd SOL_SOCKET SO_REUSEADDR [1; 0; 0; 0];;
  Bind sockfd sa;;
  Mcast_join sockfd sa salen (if decide (length argv = 4%nat) then Some (nth 3 argv []) else None) 0;;
  sdr_loop fuel buf sockfd salen;;
  exit 0.
