(* ===== verification/SntpSpec.v ===== *)
(** Properties of [Sntp]: the clock difference that is printed, and what is printed
    of an announcement. *)

From S2P Require Import Prelude Net Sys Error Wrap SockAddr Io Connect Mcast TcpServ Packet Rtt Sntp.

(** * Integers of the network in memory *)

Lemma ntohl_bytes a b c d :
  is_byte a → is_byte b → is_byte c → is_byte d →
  ntohl (of_le_bytes [a; b; c; d]) = a * 2 ^ 24 + b * 2 ^ 16 + c * 2 ^ 8 + d.
Proof.
  unfold is_byte. intros Ha Hb Hc Hd. unfold of_le_bytes, ntohl, swap32, u32. cbn [foldr].
  change (2 ^ 32) with 4294967296. change (2 ^ 24) with 16777216. change (2 ^ 16) with 65536. change (2 ^ 8) with 256.
  rewrite (Z.mod_small (_ + _)) by lia. Z.to_euclidean_division_equations. lia.
Qed.

Lemma be32_value x : of_be (be32 x) = u32 x.
Proof.
  unfold of_be, be32, u32. cbn [foldl].
  change (2 ^ 32) with 4294967296. change (2 ^ 24) with 16777216. change (2 ^ 16) with 65536. change (2 ^ 8) with 256.
  Z.to_euclidean_division_equations. lia.
Qed.

Lemma ntohl_be32 x : ntohl (of_le_bytes (be32 x)) = u32 x.
Proof.
  rewrite <- be32_value. unfold be32. rewrite ntohl_bytes.
  - unfold of_be. cbn [foldl]. lia.
  - apply Z.mod_pos_bound. lia.
  - apply Z.mod_pos_bound. lia.
  - apply Z.mod_pos_bound. lia.
  - apply Z.mod_pos_bound. lia.
Qed.

(** The four bytes of a member behind a prefix of known length. *)
Lemma member_at pre x rest o :
  Z.of_nat (length pre) = o → ntohl (of_le_bytes (bytes_at (pre ++ be32 x ++ rest) o 4)) = u32 x.
Proof.
  intros <-. rewrite <- (Z.add_0_r (Z.of_nat _)), bytes_at_app by lia. apply ntohl_be32.
Qed.

(** * The time server *)

(** A packet whose transmit time is [xsec] seconds since 1900 and [f] parts of
    [2^32]. *)
Definition ntp_packet (status stratum : Z) (mid : list Z) (xsec f : Z) (tail : list Z) : list Z :=
  [status; stratum] ++ mid ++ be32 xsec ++ be32 f ++ tail.

Lemma u32_idemp x : u32 (u64 x) = u32 x.
Proof. unfold u32, u64. apply Z.mod_mod_divide. by exists (2 ^ 32). Qed.

Lemma s32_u32 x : - 2 ^ 31 <= x < 2 ^ 31 → s32 (u32 x) = x.
Proof.
  intros Hx. unfold s32, u32. rewrite Z.add_mod_idemp_l by lia. rewrite Z.mod_small by lia. lia.
Qed.

Lemma xmt_packet status stratum mid xsec f tail :
  length mid = 38%nat →
  ntohl (xmt_int_part (ntp_packet status stratum mid xsec f tail)) = u32 xsec ∧
  ntohl (xmt_fraction (ntp_packet status stratum mid xsec f tail)) = u32 f.
Proof.
  intros Hmid. unfold xmt_int_part, xmt_fraction, ntp_packet. split.
  - rewrite app_assoc. apply member_at. rewrite length_app. simpl. lia.
  - rewrite app_assoc, (app_assoc _ (be32 xsec)). apply member_at. rewrite !length_app. simpl. lia.
Qed.

Lemma clock_difference_packet status stratum mid tail tsec tusec f now :
  length mid = 38%nat → 0 <= tsec < 2 ^ 32 → 0 <= f < 2 ^ 32 →
  tusec * 2 ^ 32 <= f * 1000000 < (tusec + 1) * 2 ^ 32 →
  clock_difference (ntp_packet status stratum mid (tsec + JAN_1970) f tail) now =
    u32 ((now.1 - tsec) * 1000000 + (now.2 - tusec)).
Proof.
  intros Hmid Hs Hf Hu. unfold clock_difference.
  destruct (xmt_packet status stratum mid (tsec + JAN_1970) f tail Hmid) as [-> ->].
  assert (Hsec : u32 (u64 (u32 (tsec + JAN_1970) - JAN_1970)) = tsec).
  { rewrite u32_idemp. unfold u32. rewrite Zminus_mod_idemp_l. replace (_ - _) with tsec by lia. by apply Z.mod_small. }
  rewrite Hsec. assert (Hus : usec_of_fraction (u32 f) = tusec).
  { unfold usec_of_fraction, u32. rewrite (Z.mod_small f) by lia.
    symmetry. apply Z.div_unique with (f * 1000000 - tusec * 2 ^ 32); lia. }
  rewrite Hus. case_decide; f_equal; lia.
Qed.

Lemma sntp_proc_packet K w status stratum mid tail xsec f n now :
  Z.land status MODE_MASK ≠ MODE_CLIENT → sizeof_ntpdata <= n →
  let buf := ntp_packet status stratum mid xsec f tail in
  ∃ head, sntp_proc buf n now K w =
    (Val tt, World (Cfputs stdout (str "clock difference = " ++ fmt_d (s32 (clock_difference buf now)) ++
                                   str " usec" ++ [ch_nl])
                    :: Cfputs stdout head :: w_calls w) (w_errno w) (w_daemon w)).
Proof.
  intros Hmode Hn buf. unfold sntp_proc. rewrite decide_False by lia.
  change (ntp_status buf) with status. rewrite decide_False by done. eexists. reflexivity.
Qed.

(** C35: The difference that [sntp_proc] prints for a packet of a server is exactly the
    own time less the time the server sent, in microseconds, as long as it fits an
    [int]; also when the seconds since 1900 no longer fit 32 bits, from 2036 to 2106. *)
Theorem sntp_difference (K : kernel) w status stratum mid tail tsec tusec f n now
    (Hmode : Z.land status MODE_MASK ≠ MODE_CLIENT) (Hn : sizeof_ntpdata <= n)
    (Hmid : length mid = 38%nat) (Hsec : 0 <= tsec < 2 ^ 32) (Hf : 0 <= f < 2 ^ 32)
    (Hfrac : tusec * 2 ^ 32 <= f * 1000000 < (tusec + 1) * 2 ^ 32)
    (Hfit : - 2 ^ 31 <= (now.1 - tsec) * 1000000 + (now.2 - tusec) < 2 ^ 31) :
  ∃ head, sntp_proc (ntp_packet status stratum mid (tsec + JAN_1970) f tail) n now K w =
    (Val tt, World (Cfputs stdout (str "clock difference = " ++
                      fmt_d ((now.1 - tsec) * 1000000 + (now.2 - tusec)) ++ str " usec" ++ [ch_nl])
                    :: Cfputs stdout head :: w_calls w) (w_errno w) (w_daemon w)).
Proof.
  destruct (sntp_proc_packet K w status stratum mid tail (tsec + JAN_1970) f n now) as [head H]; [done..|].
  exists head. rewrite H. by rewrite (clock_difference_packet _ _ _ _ tsec tusec), s32_u32.
Qed.

(** Half a second past a second of 2040, a quarter of a second ago. *)
Lemma sntp_difference_witness :
  ∃ head, sntp_proc (ntp_packet 36 1 (repeat 0 38) (2208988800 + JAN_1970) 2147483648 []) 48
            (2208988800, 750000) (λ _ c, default_ans c) (World [] 0 false) =
    (Val tt, World [Cfputs stdout (str "clock difference = 250000 usec" ++ [ch_nl]); Cfputs stdout head] 0 false).
Proof.
  apply (sntp_difference (λ _ c, default_ans c) (World [] 0 false) 36 1 (repeat 0 38) [] 2208988800 500000
           2147483648 48 (2208988800, 750000)); first [reflexivity | vm_compute; congruence | vm_compute; split; congruence | done].
Defined.

(** A clock that is an hour fast is reported to be slow. *)
Lemma sntp_wraps :
  s32 (clock_difference (ntp_packet 36 1 (repeat 0 38) (1700000000 + JAN_1970) 0 []) (1700003600, 0)) = -694967296.
Proof. reflexivity. Qed.

(** The [double]s of the conversion give the same, here on some fractions. *)
Lemma usec_double :
  Forall (λ f, int_of_double (dmul (ddiv (double_of_Z f) (double_of_Z (2 ^ 32))) (double_of_Z 1000000)) =
               Some (usec_of_fraction f))
    [0; 1; 4294; 4295; 2147483647; 2147483648; 3131961357; 4294967291; 4294967295].
Proof. repeat constructor; vm_compute; reflexivity. Qed.

(** * Announcements *)

Lemma until_nul_app text rest : Forall (λ c, c ≠ 0) text → until_nul (text ++ 0 :: rest) = text.
Proof.
  intros Hz. unfold until_nul.
  rewrite (list_find_app_r (λ c, c = 0)).
  - simpl. by rewrite take_app_length.
  - apply list_find_None. by eapply Forall_impl.
Qed.

(** What a packet announces: the header in network order, the source, [auth] for the
    authentication data, and the payload, which may start with its type. *)
Definition sap_packet (hdr : Z) (src auth : list Z) (typed : bool) (sdp : list Z) : list Z :=
  be32 hdr ++ src ++ auth ++ (if typed then str "application/sdp" ++ [0] else []) ++ sdp.

(** A header that [loop] accepts, with [n] bytes of authentication data. *)
Definition sap_accepted (hdr : Z) (n : nat) : Prop :=
  Z.shiftr (Z.land hdr SAP_VERSION_MASK) SAP_VERSION_SHIFT <= 1 ∧
  Z.land hdr SAP_IPV6 = 0 ∧
  Z.land hdr (Z.lor SAP_DELETE (Z.lor SAP_ENCRYPTED SAP_COMPRESSED)) = 0 ∧
  Z.shiftr (Z.land hdr SAP_AUTHLEN_MASK) SAP_AUTHLEN_SHIFT = Z.of_nat n.

Lemma sap_text_packet hdr pre auth (typed : bool) sdp rest :
  sap_accepted hdr (length auth) → length pre = 8%nat →
  Forall (λ c, c ≠ 0) sdp → sdp ≠ str "application/sdp" →
  sap_text hdr (pre ++ auth ++ (if typed then str "application/sdp" ++ [0] else []) ++ sdp ++ 0 :: rest) = inr sdp.
Proof.
  intros (Hv & H6 & Hd & Ha) Hpre Hsdp Hne. unfold sap_text.
  rewrite decide_False by lia. rewrite decide_False by (rewrite H6; by intros []).
  rewrite decide_False by (rewrite Hd; by intros []). rewrite Ha.
  set (o := Z.to_nat (sap_data + Z.of_nat (length auth))).
  assert (Hdrop : ∀ l, drop o (pre ++ auth ++ l) = l).
  { intros l. rewrite app_assoc. apply drop_app_length'. rewrite length_app. unfold o, sap_data. lia. }
  rewrite Hdrop. destruct typed.
  - rewrite <- (app_assoc (str "application/sdp")). cbn [app].
    rewrite (until_nul_app (str "application/sdp")) by by_decide. rewrite decide_True by done.
    replace (Z.to_nat (sap_data + Z.of_nat (length auth) + 16)) with (o + 16)%nat by (unfold o, sap_data; lia).
    rewrite <- drop_drop, Hdrop.
    change (drop 16 (str "application/sdp" ++ 0 :: sdp ++ 0 :: rest)) with (sdp ++ 0 :: rest).
    by rewrite until_nul_app.
  - cbn [app]. rewrite until_nul_app by done. by rewrite decide_False, Hdrop, until_nul_app by done.
Qed.

Lemma store_at_head l data rest : length l = length data → store_at (l ++ rest) 0 data = data ++ rest.
Proof. intros Hl. unfold store_at. cbn [take app]. rewrite Nat.add_0_l, <- Hl. by rewrite drop_app_length. Qed.

(** A datagram and the NUL behind it, in a buffer with room for both. *)
Lemma store_datagram buf data :
  (length data < length buf)%nat →
  ∃ rest, store_at (store_at buf 0 data) (length data) [0] = data ++ 0 :: rest ∧
    length (data ++ 0 :: rest) = length buf.
Proof.
  intros Hl. change (store_at buf 0 data) with (data ++ drop (length data) buf).
  exists (drop 1 (drop (length data) buf)). unfold store_at. rewrite take_app_length.
  split; [|rewrite length_app, length_cons, !length_drop; lia].
  cbn [app]. do 2 f_equal. cbn [length]. rewrite <- drop_drop. by rewrite drop_app_length.
Qed.

(** An announcement with a header of version 0 or 1, in the clear, of IPv4, is
    printed as it was sent, without its type, whatever the buffer held before and
    whatever the length of the authentication data, if the header gives that in
    bytes. *)
Theorem sdr_prints (K : kernel) w sockfd buf sa h hdr src auth (typed : bool) sdp
    (Hbuf : Z.of_nat (length buf) = sizeof_sap) (Hhdr : 0 <= hdr < 2 ^ 32)
    (Hok : sap_accepted hdr (length auth)) (Hsrc : length src = 4%nat)
    (Hsdp : Forall (λ c, c ≠ 0) sdp) (Hne : sdp ≠ str "application/sdp")
    (Hlen : Z.of_nat (length (sap_packet hdr src auth typed sdp)) < sizeof_sap)
    (Hrecv : K (w_calls w) (Crecvfrom sockfd (sizeof_sap - 1)) = ROk (sap_packet hdr src auth typed sdp, sa))
    (Hsa : sock_ntop sa (sa_len sa) = ROk h) :
  ∃ buf', Z.of_nat (length buf') = sizeof_sap ∧
    sdr_round sockfd buf K w =
      (Val (inl buf'),
       World (Cfputs stdout (sdp ++ [ch_nl]) ::
              Cfputs stdout (str "From " ++ h ++ str " hash 0x" ++ fmt_0x 4 (Z.land hdr SAP_HASH_MASK) ++ [ch_nl]) ::
              Crecvfrom sockfd (sizeof_sap - 1) :: w_calls w) (w_errno w) (w_daemon w)).
Proof.
  set (data := sap_packet hdr src auth typed sdp) in *.
  destruct (store_datagram buf data) as (rest & Hmem & Hlen'); [lia|].
  assert (Hh : ntohl (of_le_bytes (bytes_at (data ++ 0 :: rest) 0 4)) = hdr).
  { unfold data, sap_packet. rewrite <- app_assoc. etrans; [by eapply (member_at [])|].
    by apply Z.mod_small. }
  set (tail := src ++ auth ++ (if typed then str "application/sdp" ++ [0] else []) ++ sdp ++ 0 :: rest).
  assert (Hstore : store_at (data ++ 0 :: rest) 0 (le_bytes 4 hdr) = le_bytes 4 hdr ++ tail).
  { unfold data, sap_packet. rewrite <- !app_assoc. by rewrite store_at_head. }
  exists (le_bytes 4 hdr ++ tail). split.
  { rewrite <- Hstore. unfold store_at. rewrite length_app, length_app, length_drop, length_take.
    rewrite length_le_bytes. unfold data, sap_packet in *. rewrite !length_app in *. cbn [length be32] in *. lia. }
  assert (Htext : sap_text hdr (le_bytes 4 hdr ++ tail) = inr sdp).
  { unfold tail. rewrite app_assoc. apply sap_text_packet; [done|by rewrite length_app, Hsrc|done|done]. }
  enough (H : wp K (sdr_round sockfd buf) w (λ o w', o = Val (inl (le_bytes 4 hdr ++ tail)) ∧
    w' = World (Cfputs stdout (sdp ++ [ch_nl]) :: Cfputs stdout (str "From " ++ h ++ str " hash 0x" ++
      fmt_0x 4 (Z.land hdr SAP_HASH_MASK) ++ [ch_nl]) :: Crecvfrom sockfd (sizeof_sap - 1) :: w_calls w)
      (w_errno w) (w_daemon w))).
  { unfold wp in H. destruct (sdr_round sockfd buf K w). simpl in H. by destruct H as [-> ->]. }
  unfold sdr_round. wp_step. apply wp_or_err_sys. wp_step. rewrite Hrecv. cbn [bind_post].
  rewrite Hmem, Hh, Hstore. wp_step. unfold Sock_ntop. apply wp_or_err_sys. wp_step. rewrite Hsa. cbn [bind_post].
  unfold printf, void. repeat wp_step. rewrite Htext. repeat wp_step. done.
Qed.

Definition sap_kernel : kernel := λ cs c,
  match c with
  | Crecvfrom _ _ => ROk (sap_packet (2 ^ 29 + 2 ^ 17 + 4660) [10; 0; 0; 1] [0; 0] true (str "v=0"), SaIn 9 [10; 0; 0; 1])
  | c => default_ans c
  end.

Lemma sdr_prints_witness :
  ∃ buf', Z.of_nat (length buf') = sizeof_sap ∧
    sdr_round 3 (repeat 7 (Z.to_nat 8200)) sap_kernel (World [] 0 false) =
      (Val (inl buf'),
       World [Cfputs stdout (str "v=0" ++ [ch_nl]);
              Cfputs stdout (str "From 10.0.0.1:2304 hash 0x1234" ++ [ch_nl]); Crecvfrom 3 8199] 0 false).
Proof.
  apply (sdr_prints sap_kernel (World [] 0 false) 3 (repeat 7 (Z.to_nat 8200)) (SaIn 9 [10; 0; 0; 1]) (str "10.0.0.1:2304")
    (2 ^ 29 + 2 ^ 17 + 4660) [10; 0; 0; 1] [0; 0] true (str "v=0")).
  - vm_compute. reflexivity.
  - lia.
  - repeat split; vm_compute; congruence.
  - reflexivity.
  - by_decide.
  - done.
  - vm_compute. reflexivity.
  - reflexivity.
  - reflexivity.
Defined.

(** RFC 2974 counts the authentication data in words of four bytes; the program takes
    the field for a number of bytes, and prints the data that follows. *)
Lemma sdr_auth_words :
  sap_text (2 ^ 29 + 2 ^ 16) (be32 0 ++ [10; 0; 0; 1] ++ str "AUTH" ++ str "v=0" ++ [0]) = inr (str "UTHv=0").
Proof. reflexivity. Qed.
