(* ===== verification/UnixDom.v ===== *)
(** [unixdomain/]: the Unix-domain echo clients and servers, [unixbind.c], and the
    program that opens a file in another process and passes the descriptor back:
    [myopen.c], [openfile.c], [mycat.c].

    The programs that print credentials ([readcred.c], [strecho.c], [tfcred01.c])
    need [SCM_CREDS], which the configuration does not have. *)

From S2P Require Import Prelude Net Sys Error Wrap Io Connect TcpServ.

Definition UNIXSTR_PATH : list Z := str "/tmp/unix.str".
Definition UNIXDG_PATH : list Z := str "/tmp/unix.dg".

(** * Clients and servers *)

(** A result of [unlink] that is not tested. *)
Definition unlink (path : list Z) : M unit := void (checked (sys (Cunlink path))).

Definition unixstrserv01 (fuel : nat) : M unit :=
  listenfd ← Socket AF_LOCAL SOCK_STREAM 0;
  unlink UNIXSTR_PATH;;
  Bind listenfd (SaUn UNIXSTR_PATH);;
  Listen listenfd LISTENQ;;
  Signal SIGCHLD (Handler "sig_chld");;
  accept_loop fuel (str_echo fuel) listenfd.

Definition unixstrcli01 (fuel : nat) : M unit :=
  sockfd ← Socket AF_LOCAL SOCK_STREAM 0;
  Connect sockfd (SaUn UNIXSTR_PATH);;
  str_cli fuel (Rline 0 []) sockfd;;
  exit 0.

Definition unixdgserv01 (fuel : nat) : M unit :=
  sockfd ← Socket AF_LOCAL SOCK_DGRAM 0;
  unlink UNIXDG_PATH;;
  Bind sockfd (SaUn UNIXDG_PATH);;
  dg_echo fuel sockfd.

(** The client binds a name of its own, for the server to reply to. *)
Definition unixdgcli01 (fuel : nat) : M unit :=
  sockfd ← Socket AF_LOCAL SOCK_DGRAM 0;
  name ← sys Ctmpnam;
  Bind sockfd (SaUn name);;
  dg_cli fuel sockfd (SaUn UNIXDG_PATH);;
  exit 0.

(** [strncpy(sun_path, arg, sizeof(sun_path) - 1)] into zeroed memory.  [unlink]
    is given the whole argument.  [namelen] is the length that [getsockname] stores
    with a name. *)
Definition sun_path_of (arg : list Z) : list Z := take 107 arg.

Definition unixbind (namelen : sockaddr → Z) (argv : list (list Z)) : M unit :=
  if decide (length argv ≠ 2%nat) then err_quit (str "usage: unixbind <pathname>")
  else
    sockfd ← Socket AF_LOCAL SOCK_STREAM 0;
    unlink (nth 1 argv []);;
    Bind sockfd (SaUn (sun_path_of (nth 1 argv [])));;
    addr2 ← Getsockname sockfd;
    printf (str "bound name = " ++ match addr2 with SaUn path => path | _ => [] end
            ++ str ", returned len = " ++ fmt_d (namelen addr2) ++ [ch_nl]);;
    exit 0.

(** * openfile.c *)

(** [exit( (errno > 0) ? errno : 255 )] *)
Definition exit_errno {A} : M A :=
  errno ← get_errno;
  exit (if decide (errno > 0) then errno else 255).

Definition openfile (argv : list (list Z)) : M unit :=
  if decide (length argv ≠ 4%nat) then err_quit (str "openfile <sockfd#> <filename> <mode>")
  else
    r ← checked (sys (Copen (nth 2 argv []) (atoi (nth 3 argv [])) 0));
    match r with
    | RErr _ => exit_errno
    | ROk fd =>
        n ← write_fd (atoi (nth 1 argv [])) [0] fd;
        if decide (n < 0) then exit_errno else exit 0
    end.

(** * myopen.c *)

(** The macros of <sys/wait.h>. *)
Definition WIFEXITED (status : Z) : bool := bool_decide (Z.land status 127 = 0).
Definition WEXITSTATUS (status : Z) : Z := Z.land (Z.shiftr status 8) 255.

(** The arguments of the new program. *)
Definition openfile_argv (sockfd : Z) (pathname : list Z) (mode : Z) : list (list Z) :=
  [str "openfile"; snprintf_trunc 10 (fmt_d sockfd); pathname; snprintf_trunc 10 (fmt_d mode)].

(** A successful [execl] does not return: the process runs [openfile], whose
    static variables are its own.  What follows the branch of the child is not
    reached by it. *)
Definition my_open_child (sockfd0 sockfd1 : Z) (pathname : list Z) (mode : Z) : M unit :=
  Close sockfd0;;
  let argv := openfile_argv sockfd1 pathname mode in
  r ← checked (sys (Cexec (str "./openfile") argv));
  match r with
  | ROk _ => set_errno 0;; set_daemon false;; openfile argv
  | RErr _ => err_sys (str "execl error")
  end.

(** [junk] is what the variable [fd] holds, which [read_fd] does not set at an
    end-of-file. *)
Definition my_open (junk : Z) (pathname : list Z) (mode : Z) : M Z :=
  '(sockfd0, sockfd1) ← Socketpair AF_LOCAL SOCK_STREAM 0;
  childpid ← Fork;
  (if decide (childpid = 0) then my_open_child sockfd0 sockfd1 pathname mode else mret tt);;
  Close sockfd1;;
  '(_, status) ← Waitpid childpid 0;
  if WIFEXITED status then
    let status := WEXITSTATUS status in
    fd ← (if decide (status = 0) then
            '(_, _, fd) ← Read_fd sockfd0 1;
            mret (default junk fd)
          else set_errno status;; mret (-1));
    Close sockfd0;;
    mret fd
  else err_quit (str "child did not terminate").

(** * mycat.c *)

Definition UNP_BUFFSIZE : Z := 8192.

(** The loop that copies a file to the standard output. *)
Definition cat_loop (fuel : nat) (fd : Z) : M unit :=
  iter fuel (λ _ : unit,
    buff ← Read fd UNP_BUFFSIZE;
    if decide (Z.of_nat (length buff) > 0) then
      Write STDOUT_FILENO buff;;
      mret (inl tt)
    else mret (inr tt)) tt.

Definition mycat (fuel : nat) (junk : Z) (argv : list (list Z)) : M unit :=
  if decide (length argv ≠ 2%nat) then err_quit (str "usage: mycat <pathname>")
  else
    fd ← my_open junk (nth 1 argv []) O_RDONLY;
    (if decide (fd < 0) then err_sys (str "cannot open " ++ nth 1 argv [])
     else mret tt);;
    cat_loop fuel fd;;
    exit 0.
