(* ===== verification/UnixDomSpec.v ===== *)
(** Properties of [UnixDom]: what a file opened by another process gives to the
    caller, over the two processes together. *)

From S2P Require Import Prelude Net Sys Error Wrap Io IoSpec Connect Gai GaiSpec TcpServ UnixDom.

(** * The arguments and the status *)

Lemma atoi_arg n : 0 <= n < 10 ^ 9 → atoi (snprintf_trunc 10 (fmt_d n)) = n.
Proof.
  intros Hn. pose proof (fmt_d_length n 9 Hn ltac:(lia)). rewrite snprintf_trunc_id by lia.
  unfold fmt_d. rewrite decide_False by lia. apply atoi_fmt_u. lia.
Qed.

(** The status word of a process that exited, and the two macros. *)
Definition wait_status (c : Z) : Z := Z.shiftl (Z.land c 255) 8.

Lemma wifexited c : WIFEXITED (wait_status c) = true.
Proof.
  unfold WIFEXITED, wait_status. apply bool_decide_eq_true_2. apply Z.bits_inj'. intros i Hi.
  rewrite Z.bits_0, Z.land_spec, Z.shiftl_spec by done. destruct (decide (i < 8)) as [Hl|Hl].
  - by rewrite Z.testbit_neg_r by lia.
  - change 127 with (Z.ones 7). rewrite (Z.ones_spec_high 7) by lia. apply andb_false_r.
Qed.

Lemma wexitstatus c : WEXITSTATUS (wait_status c) = Z.land c 255.
Proof.
  unfold WEXITSTATUS, wait_status. rewrite Z.shiftr_shiftl_l, Z.shiftl_0_r by lia.
  by rewrite <- Z.land_assoc, Z.land_diag.
Qed.

Lemma land_byte e : 0 <= e < 256 → Z.land e 255 = e.
Proof. intros He. change 255 with (Z.ones 8). rewrite Z.land_ones by lia. by apply Z.mod_small. Qed.

(** * The two processes *)

(** The processes after [fork] are two runs of [my_open] from the same state: [Kp]
    answers the parent and [Kc] the child.  What the system promises of them: the
    status that the parent waits for is the one the child exits with, and the
    parent receives what the child has sent, with a descriptor of its own for the
    same file. *)
Section family.
Context (Kp Kc : kernel) (w : world) (junk : Z) (path : list Z) (mode : Z).
Context (pid sv0 sv1 : Z) (same_file : Z → Z → Prop).

Definition pair_call : call := Csocketpair AF_LOCAL SOCK_STREAM 0.
Definition fork_calls : list call := pair_call :: w_calls w.
Definition exec_calls : list call := Cclose sv0 :: Cfork :: fork_calls.
Definition exec_call : call := Cexec (str "./openfile") (openfile_argv sv1 path mode).
Definition open_calls : list call := exec_call :: exec_calls.
Definition open_call : call := Copen path mode 0.
Definition send_call (fd : Z) : call :=
  Csendmsg sv1 [0] None (Some (Cmsg (CMSG_LEN sizeof_int) SOL_SOCKET SCM_RIGHTS fd)).

Record family : Prop := Family {
  f_pair : Kp (w_calls w) pair_call = ROk (sv0, sv1) ∧ Kc (w_calls w) pair_call = ROk (sv0, sv1);
  f_parent : pid ≠ 0 ∧ Kp fork_calls Cfork = ROk pid;
  f_child : Kc fork_calls Cfork = ROk 0;
  f_close : ∀ cs fd, Kp cs (Cclose fd) = ROk tt ∧ Kc cs (Cclose fd) = ROk tt;
  f_wait : ∀ cs c, (my_open junk path mode Kc w).1 = Exit c →
    Kp cs (Cwaitpid pid 0) = ROk (pid, wait_status c);
  f_recv : ∀ cs data cm n cs', cs `suffix_of` w_calls (my_open junk path mode Kc w).2 →
    head cs = Some (Csendmsg sv1 data None (Some cm)) →
    Kc (tail cs) (Csendmsg sv1 data None (Some cm)) = ROk n →
    ∃ fd', Kp cs' (Crecvmsg sv0 1) =
             ROk (take 1 data, Some (Cmsg (cmsg_len cm) (cmsg_level cm) (cmsg_type cm) fd')) ∧
           same_file (cmsg_fd cm) fd';
  f_count : ∀ cs fd n, Kc cs (send_call fd) = ROk n → 0 <= n
}.
Context (F : family).

(** The child ends in its branch. *)
Lemma wp_child (Q : outcome Z → world → Prop) :
  0 <= sv1 < 10 ^ 9 → 0 <= mode < 10 ^ 9 →
  (∀ e cs, Kc exec_calls exec_call = RErr e →
     Q (Exit 1) (World (cs ++ exec_call :: exec_calls) e (w_daemon w))) →
  (∀ e, Kc exec_calls exec_call = ROk tt → Kc open_calls open_call = RErr e →
     Q (Exit (if decide (e > 0) then e else 255)) (World (open_call :: open_calls) e false)) →
  (∀ fd n, Kc exec_calls exec_call = ROk tt → Kc open_calls open_call = ROk fd →
     Kc (open_call :: open_calls) (send_call fd) = ROk n →
     Q (Exit 0) (World (send_call fd :: open_call :: open_calls) 0 false)) →
  (∀ fd e, Kc exec_calls exec_call = ROk tt → Kc open_calls open_call = ROk fd →
     Kc (open_call :: open_calls) (send_call fd) = RErr e →
     Q (Exit (if decide (e > 0) then e else 255)) (World (send_call fd :: open_call :: open_calls) e false)) →
  wp Kc (my_open junk path mode) w Q.
Proof.
  intros Hsv Hmode Hexec Hopen Hsend Hfail. destruct F as [[_ Hp] _ Hc Hcl _ _ Hn].
  unfold my_open. wp_step. unfold Socketpair. apply wp_or_err_sys. wp_step. fold pair_call. rewrite Hp.
  wp_step. unfold Fork. apply wp_or_err_sys. wp_step. fold fork_calls. rewrite Hc. wp_step.
  rewrite decide_True by done. unfold my_open_child. wp_step. unfold Close. apply wp_or_err_sys. wp_step.
  rewrite (proj2 (Hcl _ _)). repeat wp_step. fold exec_calls exec_call.
  destruct (Kc exec_calls exec_call) as [[]|e] eqn:He.
  2:{ apply wp_err_sys. intros cs _. cbn [w_calls w_errno w_daemon]. by apply Hexec. }
  do 4 wp_step. unfold openfile. rewrite decide_False by (intros Hl; by apply Hl).
  cbn [openfile_argv nth]. rewrite !atoi_arg by done. do 3 wp_step. fold open_call open_calls.
  destruct (Kc open_calls open_call) as [fd|e] eqn:Ho; cbn [bind_post].
  2:{ unfold exit_errno. repeat wp_step. by apply Hopen. }
  wp_step. unfold write_fd. do 3 wp_step. fold (send_call fd).
  destruct (Kc (open_call :: open_calls) (send_call fd)) as [n|e] eqn:Hs; cbn [bind_post res_int]; wp_step;
    cbn [bind_post].
  - rewrite decide_False by (apply Hn in Hs; lia). repeat wp_step. by apply (Hsend fd n).
  - rewrite decide_True by done. unfold exit_errno. repeat wp_step. by apply Hfail.
Qed.

(** The parent, once the child has ended. *)
Lemma wp_parent_waits c (Q : outcome Z → world → Prop) :
  (my_open junk path mode Kc w).1 = Exit c →
  (Z.land c 255 ≠ 0 → ∀ cs, Q (Val (-1)) (World cs (Z.land c 255) (w_daemon w))) →
  (Z.land c 255 = 0 → ∀ w1,
     wp Kp ('(_, _, fd) ← Read_fd sv0 1; mret (default junk fd)) w1
       (bind_post (λ fd w2, ∀ cs, Q (Val fd) (World cs (w_errno w2) (w_daemon w2))) Q)) →
  wp Kp (my_open junk path mode) w Q.
Proof.
  intros Hex Herr Hread. destruct F as [[Hp _] [Hpid Hfork] _ Hcl Hwait _ _].
  unfold my_open. wp_step. unfold Socketpair. apply wp_or_err_sys. wp_step. fold pair_call. rewrite Hp.
  wp_step. unfold Fork. apply wp_or_err_sys. wp_step. fold fork_calls. rewrite Hfork. wp_step.
  rewrite decide_False by done. do 2 wp_step. unfold Close at 1. apply wp_or_err_sys. wp_step.
  rewrite (proj1 (Hcl _ _)). wp_step. unfold Waitpid. apply wp_or_err_sys. wp_step.
  rewrite (Hwait _ _ Hex). rewrite wifexited, wexitstatus. wp_step.
  assert (Hcl0 : ∀ fd w2, (∀ cs, Q (Val fd) (World cs (w_errno w2) (w_daemon w2))) →
    wp Kp (Close sv0;; mret fd) w2 Q).
  { intros fd w2 HQ. wp_step. unfold Close. apply wp_or_err_sys. wp_step. rewrite (proj1 (Hcl _ _)).
    wp_step. apply HQ. }
  case_decide as Hz.
  - eapply wp_mono; [by apply Hread|]. intros [fd|?| |] w2; try done. apply Hcl0.
  - do 3 wp_step. apply Hcl0. intros cs. cbn [w_errno w_daemon].
    by apply Herr.
Qed.
(** What the parent reads, when the child has sent [fd]. *)
Lemma wp_parent_reads fd n w1 (Q : outcome Z → world → Prop) :
  w_calls (my_open junk path mode Kc w).2 = send_call fd :: open_call :: open_calls →
  Kc (open_call :: open_calls) (send_call fd) = ROk n →
  (∀ fd' w2, same_file fd fd' → Q (Val fd') w2) →
  wp Kp ('(_, _, fd) ← Read_fd sv0 1; mret (default junk fd)) w1 Q.
Proof.
  intros Hw Hn HQ.
  assert (Hr : ∀ cs', ∃ fd', Kp cs' (Crecvmsg sv0 1) =
      ROk ([0], Some (Cmsg (CMSG_LEN sizeof_int) SOL_SOCKET SCM_RIGHTS fd')) ∧ same_file fd fd').
  { intros cs'. apply (f_recv F (send_call fd :: open_call :: open_calls) [0]
      (Cmsg (CMSG_LEN sizeof_int) SOL_SOCKET SCM_RIGHTS fd) n); [by rewrite Hw|done|done]. }
  wp_step. unfold Read_fd. wp_step. unfold read_fd. do 3 wp_step.
  destruct (Hr (w_calls w1)) as (fd' & -> & Hsame). cbn [bind_post length].
  rewrite decide_False by lia. wp_step. cbn [cmsg_len cmsg_level cmsg_type cmsg_fd].
  rewrite decide_True by done. rewrite !decide_False by (intros H; by apply H). repeat wp_step.
  by apply HQ.
Qed.

(** The ways the child can go. *)
Definition child_exits (c : Z) : Prop := (my_open junk path mode Kc w).1 = Exit c.

Lemma child_cases : 0 <= sv1 < 10 ^ 9 → 0 <= mode < 10 ^ 9 →
  (∃ e, Kc exec_calls exec_call = RErr e ∧ child_exits 1) ∨
  Kc exec_calls exec_call = ROk tt ∧
    ((∃ e, Kc open_calls open_call = RErr e ∧ child_exits (if decide (e > 0) then e else 255)) ∨
     ∃ fd, Kc open_calls open_call = ROk fd ∧
       ((∃ e, Kc (open_call :: open_calls) (send_call fd) = RErr e ∧
              child_exits (if decide (e > 0) then e else 255)) ∨
        ∃ n, Kc (open_call :: open_calls) (send_call fd) = ROk n ∧ child_exits 0 ∧
             w_calls (my_open junk path mode Kc w).2 = send_call fd :: open_call :: open_calls)).
Proof.
  intros Hsv Hmode. unfold child_exits.
  destruct (my_open junk path mode Kc w) as [o w'] eqn:E. cbn [fst snd].
  refine (proj1 (wp_iff Kc _ w (λ o w', _) o w' E) _). apply wp_child; [done|done|..].
  - intros e cs He. left. by exists e.
  - intros e He Ho. right. split; [done|]. left. by exists e.
  - intros fd n He Ho Hs. right. split; [done|]. right. exists fd. split; [done|]. right. by exists n.
  - intros fd e He Ho Hs. right. split; [done|]. right. exists fd. split; [done|]. left. by exists e.
Qed.

(** A failure that the child reports in its status. *)
Lemma parent_fails c : child_exits c → 0 < c < 256 →
  (my_open junk path mode Kp w).1 = Val (-1) ∧ w_errno (my_open junk path mode Kp w).2 = c.
Proof.
  intros Hc Hr. change (wp Kp (my_open junk path mode) w (λ o w', o = Val (-1) ∧ w_errno w' = c)).
  apply (wp_parent_waits c _ Hc); rewrite land_byte by lia; [done|lia].
Qed.

(** C36: Opening a file in another process gives what opening it there gave: when
    the program [openfile], run by the child with the mode as the caller gave it,
    opens the file and sends the descriptor, [my_open] returns a descriptor of the
    caller for the same file; when the open or the sending fails with error [e],
    [my_open] returns -1 with [errno] [e].  The child never goes on into the code of
    its caller.  When the program cannot be executed [my_open] returns -1, but with
    [errno] 1, whatever the error was. *)
Theorem my_open_spec :
  0 <= sv1 < 10 ^ 9 → 0 <= mode < 10 ^ 9 →
  let '(o, w') := my_open junk path mode Kp w in
  (∃ c, (my_open junk path mode Kc w).1 = Exit c) ∧
  (∀ fd n, Kc exec_calls exec_call = ROk tt → Kc open_calls open_call = ROk fd →
     Kc (open_call :: open_calls) (send_call fd) = ROk n → ∃ fd', o = Val fd' ∧ same_file fd fd') ∧
  (∀ e, 0 < e < 256 → Kc exec_calls exec_call = ROk tt →
     Kc open_calls open_call = RErr e ∨
     (∃ fd, Kc open_calls open_call = ROk fd ∧ Kc (open_call :: open_calls) (send_call fd) = RErr e) →
     o = Val (-1) ∧ w_errno w' = e) ∧
  (∀ e, Kc exec_calls exec_call = RErr e → o = Val (-1) ∧ w_errno w' = 1).
Proof.
  intros Hsv Hmode. destruct (my_open junk path mode Kp w) as [o w'] eqn:Hpar.
  assert (Hfail : ∀ c, child_exits c → 0 < c < 256 → o = Val (-1) ∧ w_errno w' = c).
  { intros c Hc Hr. pose proof (parent_fails c Hc Hr) as H. by rewrite Hpar in H. }
  destruct (child_cases Hsv Hmode) as [(e1 & He1 & Hc)|(He1 & [(e1 & Ho & Hc)|(fd1 & Ho & [(e1 & Hs & Hc)|(n1 & Hs & Hc & Hw)])])];
    (split; [by eexists|split; [|split]]).
  all: try (intros; match goal with H : ∃ _, _ |- _ => destruct H end; congruence).
  all: rewrite ?He1, ?Ho.
  all: try (intros; congruence).
  - intros e _. by apply Hfail.
  - intros e Hr _ [[= <-]|(? & [=] & _)]. rewrite decide_True in Hc by lia. by apply Hfail.
  - intros fd n _ [= <-]. rewrite Hs. done.
  - intros e Hr _ [[=]|(fd & [= <-] & Hs')]. rewrite Hs in Hs'. injection Hs' as ->.
    rewrite decide_True in Hc by lia. by apply Hfail.
  - intros fd n _ [= <-] _.
    refine (proj1 (wp_iff Kp _ w (λ o w', ∃ fd', o = Val fd' ∧ same_file fd1 fd') o w' Hpar) _).
    apply (wp_parent_waits 0 _ Hc); [done|]. intros _ w1. apply (wp_parent_reads fd1 n1 _ _ Hw Hs).
    intros fd' w2 Hsame _. by exists fd'.
  - intros e _ _ [[=]|(fd & [= <-] & Hs')]. congruence.
Qed.
End family.

(** * Two concrete processes *)

(** A parent and a child that opens descriptor 7, or fails with [ENOENT] (2); the
    parent has the file as descriptor 9. *)
Definition fork_kernel (pid status : Z) (opened : res Z) : kernel := λ _ c,
  match c with
  | Csocketpair _ _ _ => ROk (3, 4)
  | Cfork => ROk pid
  | Cclose _ => ROk tt
  | Cexec _ _ => ROk tt
  | Copen _ _ _ => opened
  | Csendmsg _ d _ _ => ROk (Z.of_nat (length d))
  | Cwaitpid _ _ => ROk (pid, wait_status status)
  | Crecvmsg _ _ => ROk ([0], Some (Cmsg (CMSG_LEN sizeof_int) SOL_SOCKET SCM_RIGHTS 9))
  | c => default_ans c
  end.

Definition renamed (fd fd' : Z) : Prop := fd = 7 ∧ fd' = 9.

Lemma fork_family opened status :
  (my_open 0 (str "f") 0 (fork_kernel 0 0 opened) world0).1 = Exit status →
  opened = ROk 7 ∨ opened = RErr 2 →
  family (fork_kernel 5 status opened) (fork_kernel 0 0 opened) world0 0 (str "f") 0 5 3 4 renamed.
Proof.
  intros Hs Ho. split; try done.
  - intros cs c. rewrite Hs. by intros [= <-].
  - intros [|x cs] data cm n cs' Hsuf Hhd _; [done|]. exists 9. destruct Ho as [-> | ->];
      (match type of Hsuf with _ `suffix_of` ?l => let l' := eval vm_compute in l in change l with l' in Hsuf end);
      repeat (apply suffix_cons_inv in Hsuf as [?|Hsuf]; [simplify_eq/=; by repeat split|]);
      by apply suffix_cons_nil_inv in Hsuf.
  - intros cs fd n [= <-]. done.
Qed.

Lemma my_open_spec_witness :
  my_open 0 (str "f") 0 (fork_kernel 5 0 (ROk 7)) world0 =
    (Val 9, (my_open 0 (str "f") 0 (fork_kernel 5 0 (ROk 7)) world0).2) ∧
  (∃ fd', (my_open 0 (str "f") 0 (fork_kernel 5 0 (ROk 7)) world0).1 = Val fd' ∧ renamed 7 fd') ∧
  w_errno (my_open 0 (str "f") 0 (fork_kernel 5 2 (RErr 2)) world0).2 = 2.
Proof.
  assert (F1 : family (fork_kernel 5 0 (ROk 7)) (fork_kernel 0 0 (ROk 7)) world0 0 (str "f") 0 5 3 4 renamed).
  { apply fork_family; [vm_compute; done|by left]. }
  assert (F2 : family (fork_kernel 5 2 (RErr 2)) (fork_kernel 0 0 (RErr 2)) world0 0 (str "f") 0 5 3 4 renamed).
  { apply fork_family; [vm_compute; done|by right]. }
  destruct (my_open_spec _ _ _ _ _ _ _ _ _ _ F1 ltac:(lia) ltac:(lia)) as (_ & H1 & _).
  destruct (my_open_spec _ _ _ _ _ _ _ _ _ _ F2 ltac:(lia) ltac:(lia)) as (_ & _ & H2 & _).
  split; [vm_compute; done|]. split; [by apply (H1 7 1)|].
  apply (H2 2); [lia|done|by left].
Defined.

(** A program that is missing is reported as [EPERM] (1). *)
Lemma my_open_exec_error :
  let K : kernel := λ cs c, match c with Cexec _ _ => RErr 2 | c => fork_kernel 0 0 (ROk 7) cs c end in
  (my_open 0 (str "f") 0 K world0).1 = Exit 1 ∧
  w_errno (my_open 0 (str "f") 0 (fork_kernel 5 1 (ROk 7)) world0).2 = 1.
Proof. by vm_compute. Qed.

(** * mycat *)

(** [mycat]'s loop writes to the standard output exactly what it reads: what was
    sent is a prefix of what was received at any time, and all of it when the loop
    ends at the end of the file. *)
Lemma cat_loop_copies (K : kernel) `{!KernelIo K} fuel fd w :
  let '(o, w') := cat_loop fuel fd K w in
  ∃ s r, sent K STDOUT_FILENO (w_calls w') = sent K STDOUT_FILENO (w_calls w) ++ s ∧
         received K fd (w_calls w') = received K fd (w_calls w) ++ r ∧
         s `prefix_of` r ∧
         match o with Val _ => s = r | Exit c => c = 1 | Aborted => False | Diverge => s = r end.
Proof.
  set (P := λ (o : outcome unit) w', ∃ s r,
         sent K STDOUT_FILENO (w_calls w') = sent K STDOUT_FILENO (w_calls w) ++ s ∧
         received K fd (w_calls w') = received K fd (w_calls w) ++ r ∧
         s `prefix_of` r ∧
         match o with Val _ => s = r | Exit c => c = 1 | Aborted => False | Diverge => s = r end).
  enough (H : wp K (cat_loop fuel fd) w P).
  { unfold wp in H. by destruct (cat_loop fuel fd K w). }
  apply (wp_iter _ (λ (_ : unit) w', ∃ s,
         sent K STDOUT_FILENO (w_calls w') = sent K STDOUT_FILENO (w_calls w) ++ s ∧
         received K fd (w_calls w') = received K fd (w_calls w) ++ s)).
  - exists []. by rewrite !app_nil_r.
  - intros [] w1 (s & Hs & Hr). wp_step. unfold Read. apply wp_or_err_sys. wp_step.
    destruct (K (w_calls w1) (Cread fd UNP_BUFFSIZE)) as [l|e] eqn:HK.
    2:{ intros cs Hcs. exists s, s. cbn [w_calls].
        by rewrite sent_report, received_report, sent_read, received_read, HK, app_nil_r. }
    cbn [bind_post]. case_decide as Hz.
    2:{ destruct l; [|simpl in Hz; lia]. wp_step. exists s, s. cbn [w_calls].
        by rewrite sent_read, received_read, HK, app_nil_r. }
    wp_step. unfold Write, all_or_err_sys. do 3 wp_step.
    destruct (K _ (Cwrite STDOUT_FILENO l)) as [n|e] eqn:HW; cbn [bind_post].
    + pose proof (write_count _ _ _ _ HW) as Hn. wp_if.
      * apply wp_err_sys. intros cs Hcs. exists (s ++ take (Z.to_nat n) l), (s ++ l). cbn [w_calls].
        rewrite sent_report, received_report, sent_write, received_write, sent_read, received_read, HK, HW by done.
        rewrite Hs, Hr, !app_assoc. repeat split.
        apply prefix_app. exists (drop (Z.to_nat n) l). by rewrite take_drop.
      * repeat wp_step. exists (s ++ l).
        rewrite sent_write, received_write, sent_read, received_read, HK, HW, Hs, Hr, take_ge by lia.
        by rewrite !app_assoc.
    + repeat wp_step. apply wp_err_sys. intros cs Hcs. exists s, (s ++ l). cbn [w_calls].
      rewrite sent_report, received_report, sent_write, received_write, sent_read, received_read, HK, HW by done.
      rewrite Hs, Hr, app_nil_r, !app_assoc. repeat split. by apply prefix_app_r.
  - intros [] w' (s & Hs & Hr). by exists s, s.
Qed.
