(* ===== verification/Daytime.v ===== *)
(** The daytime clients and servers of [intro/], [names/], [inetd/] and
    [unixdomain/], and the programs of [names/] that print host entries and
    addresses.

    [hostent2.c], [hostent3.c] and [test1.c] of [names/] are not here: they go on
    reading the static storage of a lookup that a later lookup has stored over. *)

From S2P Require Import Prelude Net Sys Error Wrap SockAddr Io Connect Mcast TcpServ Packet InetPton InetNtop Udp.

(** * Clients *)

(** [while ( (n = Read(...)) > 0)], with what is done with the bytes; the result is
    the number of rounds. *)
Definition read_loop (fuel : nat) (sockfd : Z) (put : list Z → M unit) : M Z :=
  iter fuel (λ counter,
    recvline ← Read sockfd MAXLINE;
    if decide (Z.of_nat (length recvline) > 0) then
      put recvline;;
      mret (inl (counter + 1))
    else mret (inr counter)) 0.

(** [main] of the clients of [intro/] up to [connect]; [mk] is the address of the
    family. *)
Definition intro_connect (family port : Z) (mk : Z → list Z → sockaddr) (argv : list (list Z)) : M Z :=
  if decide (length argv ≠ 2%nat) then err_quit (str "usage: a.out <IPaddress>")
  else
    sockfd ← Socket family SOCK_STREAM 0;
    match inet_pton family (nth 1 argv []) with
    | Pton1 addr =>
        Connect sockfd (mk (htons port) addr);;
        mret sockfd
    | _ => err_quit (str "inet_pton error for " ++ nth 1 argv [])
    end.

Definition intro_daytimetcpcli (fuel : nat) (argv : list (list Z)) : M unit :=
  sockfd ← intro_connect AF_INET 13 SaIn argv;
  read_loop fuel sockfd put_reply;;
  exit 0.

Definition intro_daytimetcpcli1 (fuel : nat) (argv : list (list Z)) : M unit :=
  sockfd ← intro_connect AF_INET 13 SaIn argv;
  counter ← read_loop fuel sockfd put_reply;
  printf (str "counter = " ++ fmt_d counter ++ [ch_nl]);;
  exit 0.

Definition intro_daytimetcpcli2 (fuel : nat) (argv : list (list Z)) : M unit :=
  sockfd ← intro_connect AF_INET 9999 SaIn argv;
  counter ← read_loop fuel sockfd put_reply;
  printf (str "counter = " ++ fmt_d counter ++ [ch_nl]);;
  exit 0.

Definition intro_daytimetcpcli3 (fuel : nat) (argv : list (list Z)) : M unit :=
  sockfd ← intro_connect AF_INET 13 SaIn argv;
  cliaddr ← Getsockname sockfd;
  local ← Sock_ntop cliaddr 16;
  printf (str "local addr: " ++ local ++ [ch_nl]);;
  read_loop fuel sockfd put_reply;;
  exit 0.

Definition intro_daytimetcpcliv6 (fuel : nat) (argv : list (list Z)) : M unit :=
  sockfd ← intro_connect AF_INET6 13 SaIn6 argv;
  read_loop fuel sockfd put_reply;;
  exit 0.

(** [names/] and [unixdomain/]: [main] up to the loop. *)
Definition names_connect (argv : list (list Z)) : M Z :=
  if decide (length argv ≠ 3%nat) then
    err_quit (str "usage: daytimetcpcli <hostname/IPaddress> <service/port#>")
  else Tcp_connect (Some (nth 1 argv [])) (Some (nth 2 argv [])).
Definition print_peer (sockfd : Z) : M unit :=
  sa ← Getpeername sockfd;
  h ← Sock_ntop_host sa (sa_len sa);
  printf (str "connected to " ++ h ++ [ch_nl]).

Definition names_daytimetcpcli (fuel : nat) (argv : list (list Z)) : M unit :=
  sockfd ← names_connect argv;
  print_peer sockfd;;
  read_loop fuel sockfd put_reply;;
  exit 0.

Definition sizeof_sockaddr_storage : Z := 128.

Definition unixdomain_daytimetcpcli (fuel : nat) (argv : list (list Z)) : M unit :=
  sockfd ← names_connect argv;
  Malloc sizeof_sockaddr_storage;;
  print_peer sockfd;;
  sys (Csleep 5);;
  read_loop fuel sockfd (λ recvline,
    printf (fmt_d (Z.of_nat (length recvline)) ++ str " bytes: " ++ c_str (recvline ++ [0])));;
  exit 0.

(** [for ( ; *pptr != NULL; pptr++)]: the socket of the first address that accepts
    the connection; [mk] makes the address of the server, after [Socket]. *)
Fixpoint try_addrs (family : Z) (mk : list Z → M sockaddr) (pptr : list (list Z)) : M (option Z) :=
  match pptr with
  | [] => mret None
  | addr :: pptr' =>
      sockfd ← Socket family SOCK_STREAM 0;
      sa ← mk addr;
      h ← Sock_ntop sa (sa_len sa);
      printf (str "trying " ++ h ++ [ch_nl]);;
      r ← checked (sys (Cconnect sockfd sa));
      match r with
      | ROk _ => mret (Some sockfd)
      | RErr _ =>
          err_ret (str "connect error");;
          checked (sys (Cclose sockfd));;
          try_addrs family mk pptr'
      end
  end.

(** The part of the three clients after the lookups. *)
Definition names_client (fuel : nat) (family : Z) (mk : list Z → M sockaddr) (pptr : list (list Z)) : M unit :=
  f ← try_addrs family mk pptr;
  match f with
  | None => err_quit (str "unable to connect")
  | Some sockfd =>
      read_loop fuel sockfd put_reply;;
      exit 0
  end.

Definition hostname_error {A} (host : list Z) (h_errno : Z) : M A :=
  err_quit (str "hostname error for " ++ host ++ str ": " ++ hstrerror h_errno).
Definition tcp_service (serv : list Z) : M Z :=
  sp ← sys (Cgetservbyname serv (str "tcp"));
  match sp with
  | None => err_quit (str "getservbyname error for " ++ serv)
  | Some sp => mret (u16 (s_port sp))
  end.

(** [inet_aton] is that of the C library, which the configuration links: the bytes
    of the address, if there is one. *)
Definition names_daytimetcpcli1 (inet_aton : list Z → option (list Z)) (fuel : nat) (argv : list (list Z)) : M unit :=
  if decide (length argv ≠ 3%nat) then err_quit (str "usage: daytimetcpcli1 <hostname> <service>")
  else
    hp ← sys (Cgethostbyname (nth 1 argv []) AF_INET);
    pptr ← match hp with
           | inl h_errno =>
               match inet_aton (nth 1 argv []) with
               | None => hostname_error (nth 1 argv []) h_errno
               | Some inetaddr => mret [inetaddr]
               end
           | inr hp => mret (h_addr_list hp)
           end;
    port ← tcp_service (nth 2 argv []);
    names_client fuel AF_INET (λ addr, mret (SaIn port (take 4 addr))) pptr.

Definition names_daytimetcpcli2 (fuel : nat) (argv : list (list Z)) : M unit :=
  if decide (length argv ≠ 3%nat) then err_quit (str "usage: daytimetcpcli2 <hostname> <service>")
  else
    pptr ← match inet_pton AF_INET (nth 1 argv []) with
           | Pton1 addr => mret [addr]
           | _ =>
               hp ← sys (Cgethostbyname (nth 1 argv []) AF_INET);
               match hp with
               | inr hp => mret (h_addr_list hp)
               | inl h_errno => hostname_error (nth 1 argv []) h_errno
               end
           end;
    port ← (let n := atoi (nth 2 argv []) in
            if decide (n > 0) then mret (htons n) else tcp_service (nth 2 argv []));
    names_client fuel AF_INET (λ addr, mret (SaIn port (take 4 addr))) pptr.

Definition names_daytimetcpcli3 (fuel : nat) (argv : list (list Z)) : M unit :=
  if decide (length argv ≠ 3%nat) then err_quit (str "usage: daytimetcpcli3 <hostname> <service>")
  else
    hp ← sys (Cgethostbyname (nth 1 argv []) AF_INET);
    match hp with
    | inl h_errno => hostname_error (nth 1 argv []) h_errno
    | inr hp =>
        port ← tcp_service (nth 2 argv []);
        names_client fuel (h_addrtype hp) (λ addr,
          sa ← (if decide (h_addrtype hp = AF_INET) then mret (SaIn 0 INADDR_ANY)
                else if decide (h_addrtype hp = AF_INET6) then mret (SaIn6 0 in6addr_any)
                else err_quit (str "unknown addrtype " ++ fmt_d (h_addrtype hp)));
          mret (sock_set_addr (sock_set_port sa port) addr)) (h_addr_list hp)
    end.

(** * Servers *)

(** [snprintf(buff, sizeof(buff), "%.24s\r\n", ctime(&ticks))] *)
Definition daytime_text : M (list Z) :=
  ticks ← sys Ctime;
  s ← sys (Cctime ticks);
  mret (snprintf_trunc MAXLINE (take 24 s ++ [13; ch_nl])).

(** The loop of the servers: [greet] is what is done before the time is read. *)
Definition daytime_loop (fuel : nat) (listenfd : Z) (greet : Z → sockaddr → M unit)
    (send : Z → list Z → M unit) : M unit :=
  iter fuel (λ _ : unit,
    '(connfd, cliaddr) ← Accept fuel listenfd;
    greet connfd cliaddr;;
    buff ← daytime_text;
    send connfd buff;;
    Close connfd;;
    mret (inl tt)) tt.

Definition no_greeting (connfd : Z) (cliaddr : sockaddr) : M unit := mret tt.

(** The address is read as a [struct sockaddr_in]. *)
Definition greet_ipv4 (connfd : Z) (cliaddr : sockaddr) : M unit :=
  match cliaddr with
  | SaIn sin_port sin_addr =>
      h ← Inet_ntop AF_INET sin_addr (Some tt) MAXLINE;
      printf (str "connection from " ++ c_str h ++ str ", port " ++ fmt_d (ntohs sin_port) ++ [ch_nl])
  | _ => abort
  end.
Definition greet (connfd : Z) (cliaddr : sockaddr) : M unit :=
  h ← Sock_ntop cliaddr (sa_len cliaddr);
  printf (str "connection from " ++ h ++ [ch_nl]).

(** Sending a byte at a time. *)
Definition send_bytes (send1 : Z → M unit) (buff : list Z) : M unit :=
  for_each buff (λ c _, send1 c) tt.

Definition intro_daytimetcpsrv (fuel : nat) : M unit :=
  listenfd ← ipv4_listen 13;
  daytime_loop fuel listenfd no_greeting Write.
Definition intro_daytimetcpsrv1 (fuel : nat) : M unit :=
  listenfd ← ipv4_listen 13;
  daytime_loop fuel listenfd greet_ipv4 Write.
Definition intro_daytimetcpsrv2 (fuel : nat) : M unit :=
  listenfd ← ipv4_listen 9999;
  daytime_loop fuel listenfd no_greeting (λ connfd, send_bytes (λ c, Write connfd [c])).
Definition intro_daytimetcpsrv3 (fuel : nat) : M unit :=
  listenfd ← ipv4_listen 9999;
  daytime_loop fuel listenfd greet_ipv4 Write.
Definition intro_daytimetcpsrvv6 (fuel : nat) : M unit :=
  listenfd ← Socket AF_INET6 SOCK_STREAM 0;
  Bind listenfd (SaIn6 (htons 13) in6addr_any);;
  Listen listenfd LISTENQ;;
  daytime_loop fuel listenfd greet Write.

(** The descriptor and [addrlen], for a service, or a host and a service. *)
Definition host_listen (listen : option (list Z) → option (list Z) → M (Z * Z)) (usage : list Z)
    (argv : list (list Z)) : M (Z * Z) :=
  if decide (length argv = 2%nat) then listen None (Some (nth 1 argv []))
  else if decide (length argv = 3%nat) then listen (Some (nth 1 argv [])) (Some (nth 2 argv []))
  else err_quit usage.

Definition names_daytimetcpsrv1 (fuel : nat) (argv : list (list Z)) : M unit :=
  if decide (length argv ≠ 2%nat) then err_quit (str "usage: daytimetcpsrv1 <service or port#>")
  else
    '(listenfd, _) ← Tcp_listen None (Some (nth 1 argv []));
    daytime_loop fuel listenfd greet Write.

Definition names_daytimetcpsrv2 (fuel : nat) (argv : list (list Z)) : M unit :=
  '(listenfd, _) ← host_listen Tcp_listen (str "usage: daytimetcpsrv2 [ <host> ] <service or port>") argv;
  daytime_loop fuel listenfd greet Write.

(** The connection is reset and not finished: [SO_LINGER] with a time of 0. *)
Definition names_daytimetcpsrv3 (fuel : nat) (argv : list (list Z)) : M unit :=
  '(listenfd, addrlen) ← host_listen Tcp_listen (str "usage: daytimetcpsrv3 [ <host> ] <service or port>") argv;
  Malloc addrlen;;
  daytime_loop fuel listenfd
    (λ connfd cliaddr,
      greet connfd cliaddr;;
      Setsockopt connfd SOL_SOCKET SO_LINGER [1; 0; 0; 0; 0; 0; 0; 0])
    (λ connfd buff, (Write connfd buff);; void (sys (Csleep 2))).

Definition NI_MAXHOST : Z := 1025.
Definition NI_MAXSERV : Z := 32.
Definition NI_NUMERICHOST : Z := 1.
Definition NI_NUMERICSERV : Z := 2.

Definition names_daytimetcpsrv4 (fuel : nat) (argv : list (list Z)) : M unit :=
  '(listenfd, addrlen) ← host_listen Tcp_listen (str "usage: daytimetcpsrv4 [ <host> ] <service or port>") argv;
  Malloc addrlen;;
  daytime_loop fuel listenfd
    (λ connfd cliaddr,
      r ← sys (Cgetnameinfo cliaddr NI_MAXHOST NI_MAXSERV (Z.lor NI_NUMERICHOST NI_NUMERICSERV));
      match r with
      | Some (host, serv) => printf (str "connection from " ++ host ++ str "." ++ serv ++ [ch_nl])
      | None => mret tt
      end)
    Write.

Definition MSG_EOR : Z := 128.

Definition unixdomain_daytimetcpsrv2 (fuel : nat) (argv : list (list Z)) : M unit :=
  '(listenfd, addrlen) ← host_listen Tcp_listen (str "usage: daytimetcpsrv2 [ <host> ] <service or port>") argv;
  Malloc addrlen;;
  daytime_loop fuel listenfd greet (λ connfd, send_bytes (λ c, Send connfd [c] MSG_EOR)).

(** The messages of a daemon go to the system's log. *)
Definition greet_log (connfd : Z) (cliaddr : sockaddr) : M unit :=
  h ← Sock_ntop cliaddr (sa_len cliaddr);
  err_msg (str "connection from " ++ h).

Definition inetd_usage : list Z := str "usage: daytimetcpsrv2 [ <host> ] <service or port>".
Definition inetd_daytimetcpsrv2 (fuel : nat) (argv : list (list Z)) : M unit :=
  if decide (length argv < 2 ∨ 3 < length argv)%nat then err_quit inetd_usage
  else
    daemon_init (nth 0 argv []) 0;;
    '(listenfd, addrlen) ← host_listen Tcp_listen inetd_usage argv;
    Malloc addrlen;;
    daytime_loop fuel listenfd greet_log Write.

(** Started by [inetd] with the connection as descriptor 0. *)
Definition inetd_daytimetcpsrv3 (argv : list (list Z)) : M unit :=
  daemon_inetd (nth 0 argv []) 0;;
  Malloc sizeof_sockaddr_storage;;
  cliaddr ← Getpeername 0;
  greet_log 0 cliaddr;;
  buff ← daytime_text;
  (Write 0 buff);;
  Close 0;;
  exit 0.

(** * Datagrams *)

Definition names_daytimeudpcli1 (argv : list (list Z)) : M unit :=
  if decide (length argv ≠ 3%nat) then
    err_quit (str "usage: daytimeudpcli1 <hostname/IPaddress> <service/port#>")
  else
    '(sockfd, sa, salen) ← Udp_client (Some (nth 1 argv [])) (Some (nth 2 argv []));
    h ← Sock_ntop_host sa salen;
    printf (str "sending to " ++ h ++ [ch_nl]);;
    Sendto sockfd [0] sa;;
    '(recvline, _) ← Recvfrom sockfd MAXLINE;
    put_reply recvline;;
    exit 0.

Definition names_daytimeudpcli2 (argv : list (list Z)) : M unit :=
  if decide (length argv ≠ 3%nat) then
    err_quit (str "usage: daytimeudpcli2 <hostname/IPaddress> <service/port#>")
  else
    sockfd ← Udp_connect (Some (nth 1 argv [])) (Some (nth 2 argv []));
    (Write sockfd [0]);;
    recvline ← Read sockfd MAXLINE;
    put_reply recvline;;
    exit 0.

(** Zeroed memory with a family. *)
Definition zero_sockaddr (sa : sockaddr) : sockaddr :=
  match sa with
  | SaIn _ _ => SaIn 0 INADDR_ANY
  | SaIn6 _ _ => SaIn6 0 in6addr_any
  | SaUn _ => SaUn []
  | SaOther f => SaOther f
  end.

Definition names_test2 (argv : list (list Z)) : M unit :=
  if decide (length argv ≠ 3%nat) then err_quit (str "usage: test2 <hostname/IPaddress> <service/port#>")
  else
    '(sockfd, sa, salen) ← Udp_client (Some (nth 1 argv [])) (Some (nth 2 argv []));
    Malloc salen;;
    let sabind := zero_sockaddr sa in
    Bind sockfd sabind;;
    b ← Sock_ntop sabind salen;
    printf (str "bound " ++ b ++ [ch_nl]);;
    h ← Sock_ntop_host sa salen;
    printf (str "sending to " ++ h ++ [ch_nl]);;
    Sendto sockfd [0] sa;;
    '(recvline, _) ← Recvfrom sockfd MAXLINE;
    put_reply recvline;;
    exit 0.

(** udp_server_reuseaddr.c *)
Definition bind_reuse_try (res : addrinfo) : M (option Z) :=
  r ← checked (sys (Csocket (ai_family res) (ai_socktype res) (ai_protocol res)));
  match r with
  | RErr _ => mret None
  | ROk sockfd =>
      Setsockopt sockfd SOL_SOCKET SO_REUSEADDR [1; 0; 0; 0];;
      r ← checked (sys (Cbind sockfd (ai_addr res)));
      match r with
      | ROk _ => mret (Some sockfd)
      | RErr _ => Close sockfd;; mret None
      end
  end.
Definition udp_server_reuseaddr (host serv : option (list Z)) : M (Z * Z) :=
  r ← sys (Cgetaddrinfo host serv (GaiHints AI_PASSIVE AF_UNSPEC SOCK_DGRAM 0));
  match r with
  | inl n => gai_err_quit (str "udp_server") host serv n
  | inr (res, rest) =>
      f ← ai_loop bind_reuse_try res rest;
      match f with
      | None => err_sys (str "udp_server error for " ++ opt_str host ++ str ", " ++ opt_str serv)
      | Some (sockfd, res) => sys Cfreeaddrinfo;; mret (sockfd, ai_addrlen res)
      end
  end.

(** [daytimeudpsrv2.c] and [daytimeudpsrv3.c]. *)
Definition daytime_udp_loop (fuel : nat) (sockfd : Z) : M unit :=
  iter fuel (λ _ : unit,
    '(_, cliaddr) ← Recvfrom sockfd MAXLINE;
    h ← Sock_ntop cliaddr (sa_len cliaddr);
    printf (str "datagram from " ++ h ++ [ch_nl]);;
    buff ← daytime_text;
    Sendto sockfd buff cliaddr;;
    mret (inl tt)) tt.

Definition udpsrv_usage : list Z := str "usage: daytimeudpsrv [ <host> ] <service or port>".
Definition names_daytimeudpsrv2 (fuel : nat) (argv : list (list Z)) : M unit :=
  '(sockfd, _) ← host_listen Udp_server udpsrv_usage argv;
  daytime_udp_loop fuel sockfd.
Definition names_daytimeudpsrv3 (fuel : nat) (argv : list (list Z)) : M unit :=
  '(sockfd, _) ← host_listen udp_server_reuseaddr udpsrv_usage argv;
  daytime_udp_loop fuel sockfd.

(** * Host entries and byte order *)

(** [%s] of a pointer that may be null is [opt_str]. *)
Definition hostent_one (ptr : list Z) : M unit :=
  r ← sys (Cgethostbyname ptr AF_INET);
  match r with
  | inl h_errno =>
      err_msg (str "gethostbyname error for host: " ++ ptr ++ str ": " ++ hstrerror h_errno)
  | inr hptr =>
      printf (str "official hostname: " ++ opt_str (h_name hptr) ++ [ch_nl]);;
      for_each (h_aliases hptr) (λ alias _, printf (9 :: str "alias: " ++ alias ++ [ch_nl])) tt;;
      if decide (h_addrtype hptr = AF_INET) then
        for_each (h_addr_list hptr) (λ addr _,
          a ← Inet_ntop (h_addrtype hptr) addr (Some tt) INET_ADDRSTRLEN;
          printf (9 :: str "address: " ++ c_str a ++ [ch_nl])) tt
      else err_ret (str "unknown address type")
  end.
Definition names_hostent (argv : list (list Z)) : M unit :=
  for_each (drop 1 argv) (λ ptr _, hostent_one ptr) tt;;
  exit 0.

(** [getnetbyname] answers an entry, or the value of [h_errno]. *)
Record netent := Netent { n_name : list Z; n_aliases : list (list Z); n_addrtype : Z }.

Definition netent_one (getnetbyname : list Z → Z + netent) (ptr : list Z) : M unit :=
  match getnetbyname ptr with
  | inl h_errno =>
      err_msg (str "getnetbyname error for net: " ++ ptr ++ str ": " ++ hstrerror h_errno)
  | inr nptr =>
      printf (str "official netname: " ++ n_name nptr ++ [ch_nl]);;
      for_each (n_aliases nptr) (λ alias _, printf (9 :: str "alias: " ++ alias ++ [ch_nl])) tt;;
      if decide (n_addrtype nptr = AF_INET ∨ n_addrtype nptr = AF_INET6) then mret tt
      else err_ret (str "unknown address type")
  end.
Definition names_netent (getnetbyname : list Z → Z + netent) (argv : list (list Z)) : M unit :=
  for_each (drop 1 argv) (λ ptr _, netent_one getnetbyname ptr) tt;;
  exit 0.

(** [prmyaddrs.c] and [prmyaddrs1.c], which link another [my_addrs]: that of
    [myaddrs1.c] asks for the host's name with [gethostname], which is the
    [nodename] of [uname]. *)
Definition prmyaddrs : M unit :=
  r ← my_addrs;
  match r with
  | None => err_quit (str "my_addrs error")
  | Some (addrtype, pptr) =>
      for_each pptr (λ addr _,
        a ← Inet_ntop addrtype addr (Some tt) INET6_ADDRSTRLEN;
        printf (9 :: str "address: " ++ c_str a ++ [ch_nl])) tt;;
      exit 0
  end.

(** A [short] has two bytes. *)
Definition CPU_VENDOR_OS : list Z := str "x86_64-unknown-linux-gnu".
Definition byteorder : M unit :=
  let c := le_bytes 2 258 in
  printf (CPU_VENDOR_OS ++ str ": ");;
  (if decide (nth 0 c 0 = 1 ∧ nth 1 c 0 = 2) then printf (str "big-endian" ++ [ch_nl])
   else if decide (nth 0 c 0 = 2 ∧ nth 1 c 0 = 1) then printf (str "little-endian" ++ [ch_nl])
   else printf (str "unknown" ++ [ch_nl]));;
  exit 0.
