(* ===== verification/DaytimeSpec.v ===== *)
(** Properties of [Daytime]: what the servers send arrives on the client's standard
    output, whatever the sizes of the pieces. *)

From S2P Require Import Prelude Net Sys Error Wrap SockAddr Io IoSpec Connect TcpServ Udp Daytime.

(** A string without a NUL, as C reads it. *)
Lemma c_str_text l : Forall (λ c, c ≠ 0) l → c_str (l ++ [0]) = l.
Proof.
  intros Hl. unfold c_str.
  assert (Hf : list_find (λ c, c = 0) (l ++ [0]) = Some (length l, 0)).
  { induction Hl as [|c l Hc _ IH]; [done|]. simpl. rewrite decide_False by done. by rewrite IH. }
  by rewrite Hf, take_app_length.
Qed.

(** * The client *)

Section client.
Context (K : kernel) `{!KernelIo K} (sockfd : Z).

(** What was printed on the standard output. *)
Fixpoint printed (cs : list call) : list Z :=
  match cs with
  | [] => []
  | Cfputs fd text :: cs' =>
      printed cs' ++ (if decide (fd = stdout) then if K cs' (Cfputs fd text) then text else [] else [])
  | _ :: cs' => printed cs'
  end.

(** The loop of the clients prints what it receives, if there is no NUL; it runs out
    of fuel only after as many bytes. *)
Lemma read_loop_prints fuel w :
  let '(o, w') := read_loop fuel sockfd put_reply K w in
  ∃ r, received K sockfd (w_calls w') = received K sockfd (w_calls w) ++ r ∧
    match o with
    | Val n => n <= Z.of_nat (length r) ∧
               (Forall (λ c, c ≠ 0) r → printed (w_calls w') = printed (w_calls w) ++ r)
    | Exit c => c = 1
    | Aborted => False
    | Diverge => (fuel <= length r)%nat
    end.
Proof.
  set (P := λ (o : outcome Z) w', ∃ r, received K sockfd (w_calls w') = received K sockfd (w_calls w) ++ r ∧
    match o with
    | Val n => n <= Z.of_nat (length r) ∧
               (Forall (λ c, c ≠ 0) r → printed (w_calls w') = printed (w_calls w) ++ r)
    | Exit c => c = 1
    | Aborted => False
    | Diverge => (fuel <= length r)%nat
    end).
  enough (H : wp K (read_loop fuel sockfd put_reply) w P).
  { unfold wp in H. by destruct (read_loop fuel sockfd put_reply K w). }
  apply (wp_iter_count K (λ k n w', ∃ r, (k <= length r)%nat ∧ n <= Z.of_nat (length r) ∧
    received K sockfd (w_calls w') = received K sockfd (w_calls w) ++ r ∧
    (Forall (λ c, c ≠ 0) r → printed (w_calls w') = printed (w_calls w) ++ r))).
  - exists []. rewrite !app_nil_r. split_and!; simpl; done || lia.
  - intros k n w1 (r & Hk & Hn & Hr & Hp). wp_step. unfold Read. apply wp_or_err_sys. wp_step.
    assert (Hcons : ∀ c cs, received K sockfd (Cfputs stdout c :: cs) = received K sockfd cs)
      by (intros; apply app_nil_r).
    destruct (K (w_calls w1) (Cread sockfd MAXLINE)) as [l|e] eqn:HK.
    2:{ intros cs Hcs. exists r. cbn [w_calls].
        by rewrite received_report, received_read, HK, app_nil_r. }
    cbn [bind_post]. case_decide as Hz.
    2:{ destruct l; [|simpl in Hz; lia]. wp_step. exists r. cbn [w_calls].
        rewrite received_read, HK, app_nil_r. done. }
    wp_step. unfold put_reply, Fputs. wp_step. wp_step.
    destruct (K _ (Cfputs stdout _)) eqn:HF.
    + wp_step. wp_step. exists (r ++ l). cbn [w_calls]. rewrite length_app.
      rewrite Hcons, received_read, HK, Hr, app_assoc. split; [lia|]. split; [lia|]. split; [done|].
      intros [Hr0 Hl0]%Forall_app. cbn [printed]. rewrite decide_True by done. rewrite HF, c_str_text, Hp by done.
      by rewrite app_assoc.
    + apply wp_err_sys. intros cs Hcs. exists (r ++ l). cbn [w_calls].
      rewrite received_report, Hcons, received_read, HK, Hr, app_assoc by done. done.
  - intros n w' (r & Hk & Hn & Hr & Hp). by exists r.
Qed.
End client.

(** * The server *)

Section server.
Context (K : kernel) `{!KernelIo K} (connfd : Z).

(** Either way to send: all the bytes, or the end of the program. *)
Definition sends (send : Z → list Z → M unit) : Prop := ∀ data w,
  let '(o, w') := send connfd data K w in
  match o with
  | Val _ => sent K connfd (w_calls w') = sent K connfd (w_calls w) ++ data
  | Exit c => c = 1
  | _ => False
  end.

Lemma wp_Write_sent d w (Q : outcome unit → world → Prop) :
  (∀ w', sent K connfd (w_calls w') = sent K connfd (w_calls w) ++ d → Q (Val tt) w') →
  (∀ w', Q (Exit 1) w') →
  wp K (Write connfd d) w Q.
Proof.
  intros HQ Hex. unfold Write, all_or_err_sys. do 3 wp_step.
  destruct (K _ (Cwrite connfd d)) as [n|e] eqn:HW; cbn [bind_post];
    [|repeat wp_step; apply wp_err_sys; intros; apply Hex].
  wp_if; [apply wp_err_sys; intros; apply Hex|]. wp_step. apply HQ. cbn [w_calls].
  rewrite sent_write, HW. by rewrite take_ge by lia.
Qed.

Lemma sends_Write : sends Write.
Proof.
  intros data w. set (P := λ (o : outcome unit) w', match o with
    | Val _ => sent K connfd (w_calls w') = sent K connfd (w_calls w) ++ data
    | Exit c => c = 1 | _ => False end).
  enough (H : wp K (Write connfd data) w P) by (unfold wp in H; by destruct (Write connfd data K w)).
  by apply wp_Write_sent.
Qed.

Lemma sends_bytes : sends (λ connfd, send_bytes (λ c, Write connfd [c])).
Proof.
  intros data w. set (P := λ (o : outcome unit) w', match o with
    | Val _ => sent K connfd (w_calls w') = sent K connfd (w_calls w) ++ data
    | Exit c => c = 1 | _ => False end).
  enough (H : wp K (send_bytes (λ c, Write connfd [c]) data) w P)
    by (unfold wp in H; by destruct (send_bytes _ data K w)).
  apply (wp_for_each K (λ l _ w', ∃ d, data = d ++ l ∧
    sent K connfd (w_calls w') = sent K connfd (w_calls w) ++ d)).
  - exists []. by rewrite app_nil_r.
  - intros c l [] w1 (d & -> & Hs). apply wp_Write_sent; [|done]. intros w2 Hs2.
    exists (d ++ [c]). rewrite Hs2, Hs. split; [by rewrite <- app_assoc|by rewrite app_assoc].
  - intros [] w1 (d & Hd & Hs). rewrite app_nil_r in Hd. by subst d.
Qed.
End server.

(** The text of a time. *)
Definition daytime_line (s : list Z) : list Z := take 24 s ++ [13; ch_nl].

(** The time arrives as the server read it: when a server that writes its answer
    at once ([daytimetcpsrv.c]) or byte by byte ([daytimetcpsrv2.c]) has sent it, and
    the client receives what was sent, in pieces of any size, the client prints
    exactly the 24 characters that [ctime] gave and the end of the line; its loop
    ends after at most as many rounds as there are bytes. *)
Theorem daytime_delivered (Ks Kc : kernel) `{!KernelIo Ks, !KernelIo Kc} (connfd sockfd : Z)
    (send : Z → list Z → M unit) fuel ws ws' wc :
  send = Write ∨ send = (λ connfd, send_bytes (λ c, Write connfd [c])) →
  (∀ cs t, Forall (λ c, c ≠ 0) (Ks cs (Cctime t))) →
  (buff ← daytime_text; send connfd buff) Ks ws = (Val tt, ws') →
  let s : list Z := Ks (Ctime :: w_calls ws) (Cctime (Ks (w_calls ws) Ctime)) in
  sent Ks connfd (w_calls ws') = sent Ks connfd (w_calls ws) ++ daytime_line s ∧
  let '(o, wc') := read_loop fuel sockfd put_reply Kc wc in
  ∀ r, received Kc sockfd (w_calls wc') = received Kc sockfd (w_calls wc) ++ r →
    r `prefix_of` daytime_line s →
    match o with
    | Val n => n <= Z.of_nat (length r) ∧ printed Kc (w_calls wc') = printed Kc (w_calls wc) ++ r
    | Exit c => c = 1
    | Aborted => False
    | Diverge => (fuel <= 26)%nat
    end.
Proof.
  intros Hsend Hct Hrun s.
  assert (Hline : (length (daytime_line s) <= 26)%nat).
  { unfold daytime_line. rewrite length_app, length_take. cbn [length]. lia. }
  split.
  - assert (Hs : sends Ks connfd send) by (destruct Hsend as [-> | ->]; [by apply sends_Write|by apply sends_bytes]).
    unfold daytime_text, mbind, M_bind, sys, mret, M_ret in Hrun. cbn [fst snd w_calls w_errno w_daemon] in Hrun.
    fold s in Hrun. change (snprintf_trunc MAXLINE _) with (snprintf_trunc MAXLINE (daytime_line s)) in Hrun.
    rewrite snprintf_trunc_id in Hrun by (unfold MAXLINE; lia).
    pose proof (Hs (daytime_line s) (World (Cctime (Ks (w_calls ws) Ctime) :: Ctime :: w_calls ws) (w_errno ws) (w_daemon ws))) as H.
    rewrite Hrun in H. rewrite H. unfold sent at 1. cbn [w_calls]. by rewrite !app_nil_r.
  - pose proof (read_loop_prints Kc sockfd fuel wc) as H.
    destruct (read_loop fuel sockfd put_reply Kc wc) as [o wc'].
    destruct H as (r1 & Hr1 & Ho). intros r Hr Hpre. rewrite Hr in Hr1. apply app_inv_head in Hr1 as <-.
    destruct o as [n|c| |]; try done.
    + destruct Ho as [Hn Hp]. split; [done|]. apply Hp. destruct Hpre as [r' Hr'].
      assert (Hall : Forall (λ c, c ≠ 0) (daytime_line s)).
      { apply Forall_app. split; [apply Forall_take, Hct|]. by repeat constructor. }
      rewrite Hr' in Hall. by apply Forall_app in Hall as [? _].
    + apply prefix_length in Hpre. lia.
Qed.

(** A clock, and a client that receives the line in two pieces. *)
Definition clock_kernel (text : list Z) (rd : list (res (list Z))) : kernel := λ cs c,
  match c with
  | Cctime _ => text
  | c => script_kernel rd 4096 cs c
  end.

#[global] Instance clock_kernel_io text rd : KernelIo (clock_kernel text rd).
Proof. destruct (script_kernel_io rd 4096) as [H1 H2 H3]. split; [apply H1|apply H2|apply H3]. Qed.

Definition some_time : list Z := str "Mon May 26 20:58:40 2003" ++ [ch_nl].

Lemma daytime_delivered_witness :
  let line := daytime_line some_time in
  let Kc := clock_kernel some_time [ROk (take 10 line); ROk (drop 10 line)] in
  sent (clock_kernel some_time []) 5
    (w_calls ((buff ← daytime_text; Write 5 buff) (clock_kernel some_time []) world0).2) = line ∧
  printed Kc (w_calls (read_loop 27 3 put_reply Kc world0).2) = line.
Proof.
  intros line Kc.
  destruct (daytime_delivered (clock_kernel some_time []) Kc 5 3 Write 27 world0
    ((buff ← daytime_text; Write 5 buff) (clock_kernel some_time []) world0).2 world0) as [H1 H2].
  - by left.
  - intros cs t. change (Forall (λ c, c ≠ 0) some_time). by_decide.
  - vm_compute. reflexivity.
  - split; [exact H1|]. destruct (read_loop 27 3 put_reply Kc world0) as [o wc'] eqn:E.
    assert (Eo : o = Val 2 ∧ received Kc 3 (w_calls wc') = line).
    { revert E. vm_compute. intros [= <- <-]. by split. }
    destruct Eo as [-> Er]. destruct (H2 line Er) as [_ H3]; [by exists []|]. exact H3.
Defined.
