(* ===== verification/Sock.v ===== *)
(** [sock/]: the [sock] tool, a client or server for TCP or UDP that copies its
    standard input and output or sends and receives test data, with an option for
    each socket option.

    The options that [getopt] finds, the C library's [inet_aton], and what memory
    holds before it is stored to are parameters.  The configuration has no
    [IP_RECVDSTADDR] and no [IP_ONESBCAST].  [loop.c], [sourcesink.c], [writen.c] and
    [strerror.c] are not linked into the program: [writen] is that of [lib/]. *)

From S2P Require Import Prelude Net Sys Error Wrap SockAddr Io Connect Mcast TcpServ Packet Oob Udp.

(** * main.c: the global variables *)

(** The variables of integer type. *)
Inductive gvar :=
  | G_bindport | G_broadcast | G_cbreak | G_chunkwrite | G_client | G_connectudp | G_crlf
  | G_debug | G_dofork | G_dontroute | G_foreignport | G_halfclose | G_ignorewerr | G_iptos
  | G_ipttl | G_keepalive | G_linger | G_listenq | G_maxseg | G_mcastttl | G_msgpeek
  | G_nodelay | G_nbuf | G_onesbcast | G_pauseclose | G_pauseinit | G_pauselisten | G_pauserw
  | G_reuseaddr | G_reuseport | G_readlen | G_writelen | G_recvdstaddr | G_rcvbuflen
  | G_sndbuflen | G_rcvtimeo | G_sndtimeo | G_sroute_cnt | G_server | G_sigio | G_sourcesink
  | G_udp | G_urgwrite | G_verbose | G_usewritev.

#[global] Instance gvar_eq_dec : EqDecision gvar.
Proof. solve_decision. Defined.

(** The others: [rbuf] and [wbuf] are null or the address of a buffer; [sroute_opt]
    and [optr] belong to sourceroute.c. *)
Record globals := Globals {
  ints : gvar → Z;
  foreignip : list Z;
  joinip : list Z;
  localip : list Z;
  rbuf : option Z;
  wbuf : option Z;
  cliaddr : sockaddr;
  servaddr : sockaddr;
  sroute_opt : list Z;
  optr : nat
}.

Definition set_int (x : gvar) (n : Z) (g : globals) : globals :=
  Globals (λ y, if decide (y = x) then n else ints g y) (foreignip g) (joinip g) (localip g)
    (rbuf g) (wbuf g) (cliaddr g) (servaddr g) (sroute_opt g) (optr g).
Definition set_foreignip (s : list Z) (g : globals) : globals :=
  Globals (ints g) s (joinip g) (localip g) (rbuf g) (wbuf g) (cliaddr g) (servaddr g) (sroute_opt g) (optr g).
Definition set_joinip (s : list Z) (g : globals) : globals :=
  Globals (ints g) (foreignip g) s (localip g) (rbuf g) (wbuf g) (cliaddr g) (servaddr g) (sroute_opt g) (optr g).
Definition set_localip (s : list Z) (g : globals) : globals :=
  Globals (ints g) (foreignip g) (joinip g) s (rbuf g) (wbuf g) (cliaddr g) (servaddr g) (sroute_opt g) (optr g).
Definition set_bufs (r w : option Z) (g : globals) : globals :=
  Globals (ints g) (foreignip g) (joinip g) (localip g) r w (cliaddr g) (servaddr g) (sroute_opt g) (optr g).
Definition set_cliaddr (sa : sockaddr) (g : globals) : globals :=
  Globals (ints g) (foreignip g) (joinip g) (localip g) (rbuf g) (wbuf g) sa (servaddr g) (sroute_opt g) (optr g).
Definition set_servaddr (sa : sockaddr) (g : globals) : globals :=
  Globals (ints g) (foreignip g) (joinip g) (localip g) (rbuf g) (wbuf g) (cliaddr g) sa (sroute_opt g) (optr g).
Definition set_sroute (opt : list Z) (o : nat) (g : globals) : globals :=
  Globals (ints g) (foreignip g) (joinip g) (localip g) (rbuf g) (wbuf g) (cliaddr g) (servaddr g) opt o.

(** The values that are not zero at the start. *)
Definition init_globals : globals :=
  Globals (λ x, match x with
                | G_client | G_connectudp => 1
                | G_iptos | G_ipttl | G_linger => -1
                | G_listenq => 5
                | G_nbuf | G_readlen | G_writelen => 1024
                | _ => 0
                end) [] [] [] None None (SaIn 0 INADDR_ANY) (SaIn 0 INADDR_ANY) (repeat 0 44) 0.

(** [if (x)] *)
Definition on (g : globals) (x : gvar) : Prop := ints g x ≠ 0.
#[global] Instance on_dec g x : Decision (on g x).
Proof. unfold on. apply _. Defined.

Definition eprintf (text : list Z) : M unit := void (sys (Cfputs stderr text)).
Definition verbosely (g : globals) (text : list Z) : M unit :=
  if decide (on g G_verbose) then eprintf (text ++ [ch_nl]) else mret tt.

(** * sleepus.c *)

Definition sleep_us (fuel : nat) (nusecs : Z) : M unit :=
  iter fuel (λ _ : unit,
    r ← checked (sys (Cselect 0 ∅ ∅ (Some (nusecs / 1000000, nusecs mod 1000000))));
    if decide (select_n r = 0) then mret (inr tt)
    else
      errno ← get_errno;
      if decide (errno = EINTR) then mret (inl tt)
      else err_sys (str "sleep_us: select error")) tt.

(** [if (pause) sleep_us(pause * 1000);] the [int] is converted to [unsigned]. *)
Definition pause (fuel : nat) (g : globals) (x : gvar) : M unit :=
  if decide (on g x) then sleep_us fuel (u32 (ints g x * 1000)) else mret tt.

(** * buffers.c *)

Definition set_buffer_size (g : globals) (sockfd opt len : Z) (var name : list Z) : M unit :=
  if decide (len ≠ 0) then
    or_err_sys (name ++ str " setsockopt error") (sys (Csetsockopt sockfd SOL_SOCKET opt (le_bytes 4 len)));;
    n ← or_err_sys (name ++ str " getsockopt error") (sys (Cgetsockopt sockfd SOL_SOCKET opt));
    (if decide (n ≠ len) then
       err_quit (var ++ str " = " ++ fmt_d len ++ str ", " ++ name ++ str " = " ++ fmt_d n)
     else mret tt);;
    verbosely g (name ++ str " = " ++ fmt_d n)
  else mret tt.

Definition buffers (g : globals) (sockfd : Z) : M globals :=
  r ← (match rbuf g with
       | None => or_err_sys (str "malloc error for read buffer") (sys (Cmalloc (ints g G_readlen)))
       | Some p => mret p
       end);
  w ← (match wbuf g with
       | None => or_err_sys (str "malloc error for write buffer") (sys (Cmalloc (ints g G_writelen)))
       | Some p => mret p
       end);
  set_buffer_size g sockfd SO_RCVBUF (ints g G_rcvbuflen) (str "rcvbuflen") (str "SO_RCVBUF");;
  set_buffer_size g sockfd SO_SNDBUF (ints g G_sndbuflen) (str "sndbuflen") (str "SO_SNDBUF");;
  mret (set_bufs (Some r) (Some w) g).

(** * crlf.c *)

(** [None] stands for the call of [err_quit]; the result is what is stored at
    [dst], whose length is the function's result. *)
Definition ch_cr : Z := 13.

Fixpoint crlf_add_loop (dstsize lenout : Z) (src : list Z) : option (list Z) :=
  match src with
  | [] => Some []
  | c :: src' =>
      if decide (c = ch_nl) then
        if decide (lenout + 1 >= dstsize) then None
        else (λ dst, ch_cr :: c :: dst) <$> crlf_add_loop dstsize (lenout + 1) src'
      else cons c <$> crlf_add_loop dstsize lenout src'
  end.
Definition crlf_add (dstsize : Z) (src : list Z) : option (list Z) :=
  let lenin := Z.of_nat (length src) in
  if decide (lenin > dstsize) then None else crlf_add_loop dstsize lenin src.

Fixpoint crlf_strip_loop (dstsize lenout : Z) (src : list Z) : option (list Z) :=
  match src with
  | [] => Some []
  | c :: src' =>
      if decide (c ≠ ch_cr) then
        if decide (lenout + 1 >= dstsize) then None
        else cons c <$> crlf_strip_loop dstsize (lenout + 1) src'
      else crlf_strip_loop dstsize lenout src'
  end.
Definition crlf_strip (dstsize : Z) (src : list Z) : option (list Z) :=
  crlf_strip_loop dstsize 0 src.

(** * write.c *)

Definition UIO_MAXIOV : nat := 1024.

Definition chunk_size (nbytes : Z) : Z :=
  let chunksize := nbytes / Z.of_nat UIO_MAXIOV in
  if decide (chunksize <= 0) then 1
  else if decide (nbytes mod Z.of_nat UIO_MAXIOV ≠ 0) then chunksize + 1 else chunksize.

(** The array of chunks of the bytes from [ptr] on; [k] entries are left.  [None] is
    the loop that ends with [i == UIO_MAXIOV]. *)
Fixpoint make_iov (k : nat) (chunksize : Z) (ptr : list Z) : option (list (list Z)) :=
  match k with
  | O => None
  | S k' =>
      let nleft := Z.of_nat (length ptr) in
      let n := if decide (nleft >= chunksize) then chunksize else nleft in
      let iov := take (Z.to_nat n) ptr in
      if decide (nleft - n = 0) then Some [iov]
      else cons iov <$> make_iov k' chunksize (drop (Z.to_nat n) ptr)
  end.

(** [%2d] *)
Definition fmt_2d (n : Z) : list Z := let d := fmt_d n in repeat 32 (2 - length d) ++ d.

(** The lines that the loop prints; [%x] prints the low half of a pointer. *)
Definition print_iov (g : globals) (base : Z) (iov : list (list Z)) : M unit :=
  if decide (on g G_verbose) then
    void (for_each iov (λ c '(i, p),
      eprintf (str "iov[" ++ fmt_2d i ++ str "].iov_base = " ++ fmt_x (u32 p) ++ str ", iov[" ++ fmt_2d i
               ++ str "].iov_len = " ++ fmt_d (Z.of_nat (length c)) ++ [ch_nl]);;
      mret (i + 1, p + Z.of_nat (length c))) (0, base))
  else mret tt.

(** [writev] writes the bytes of its buffers; without it every chunk is written by
    itself. *)
Fixpoint write_chunks (fd : Z) (iov : list (list Z)) (ntotal : Z) : M Z :=
  match iov with
  | [] => mret ntotal
  | c :: iov' =>
      r ← checked (sys (Cwrite fd c));
      if decide (res_int r ≠ Z.of_nat (length c)) then mret (-1)
      else write_chunks fd iov' (ntotal + res_int r)
  end.

(** [base] is the address of the bytes. *)
Definition dowrite (g : globals) (fd base : Z) (vptr : list Z) : M Z :=
  if decide (ints g G_chunkwrite = 0 ∧ ints g G_usewritev = 0) then
    r ← checked (sys (Cwrite fd vptr));
    mret (res_int r)
  else
    match make_iov UIO_MAXIOV (chunk_size (Z.of_nat (length vptr))) vptr with
    | None => err_quit (str "i == UIO_MAXIOV")
    | Some iov =>
        print_iov g base iov;;
        if decide (on g G_usewritev) then
          r ← checked (sys (Cwrite fd (concat iov)));
          mret (res_int r)
        else write_chunks fd iov 0
    end.

(** * pattern.c *)

(** [isprint] of the ASCII characters. *)
Definition isprint (c : Z) : bool := bool_decide (32 <= c <= 126).

(** The bytes that are skipped are at most 33 in a row. *)
Fixpoint skip_nonprinting (k : nat) (c : Z) : Z :=
  match k with
  | O => c
  | S k' => if isprint (Z.land c 127) then c else skip_nonprinting k' (u8 (c + 1))
  end.
Fixpoint pattern_from (len : nat) (c : Z) : list Z :=
  match len with
  | O => []
  | S len' =>
      let c := skip_nonprinting 33 c in
      Z.land c 127 :: pattern_from len' (u8 (c + 1))
  end.
Definition pattern (len : Z) : list Z := pattern_from (Z.to_nat len) 0.

(** * sourceroute.c *)

Definition IPOPT_LSRR : Z := 131.
Definition IPOPT_SSRR : Z := 137.
Definition IP_OPTIONS : Z := 4.

(** [memcpy(optr, p, sizeof(u_long)); optr += sizeof(u_long)]: a [u_long] has eight
    bytes.  A store beyond [sroute_opt] is undefined behaviour, shown as
    [Aborted]. *)
Definition sizeof_u_long : nat := 8.
Definition sroute_put (bytes : list Z) (g : globals) : M globals :=
  if decide (44 < optr g + sizeof_u_long)%nat then abort
  else mret (set_sroute (store_at (sroute_opt g) (optr g) bytes) (optr g + sizeof_u_long) g).

Section program.
Context (inet_aton : list Z → option (list Z)).

(** [beyond] is what lies in memory behind the four bytes of an address. *)
Definition sroute_doopt (beyond : list Z) (strict : bool) (argptr : list Z) (g : globals) : M globals :=
  if decide (ints g G_sroute_cnt >= 9) then err_quit (str "too many source routes with: " ++ argptr)
  else
    let g := if decide (ints g G_sroute_cnt = 0) then
               set_sroute (store_at (repeat 0 44) 0 [if strict then IPOPT_SSRR else IPOPT_LSRR; 0; 4]) 3 g
             else g in
    addr ← match inet_aton argptr with
           | Some inaddr => mret inaddr
           | None =>
               hp ← sys (Cgethostbyname argptr AF_INET);
               match hp with
               | inl _ => err_quit (str "unknown host: " ++ argptr ++ [ch_nl])
               | inr hp => match h_addr_list hp with [] => abort | a :: _ => mret (take 4 a) end
               end
           end;
    g ← sroute_put (addr ++ beyond) g;
    verbosely g (str "source route to " ++ inet_ntoa addr);;
    mret (set_int G_sroute_cnt (ints g G_sroute_cnt + 1) g).

(** [servaddr.sin_addr] is followed by the zeros of [sin_zero]. *)
Definition sin_addr_of (sa : sockaddr) : list Z := match sa with SaIn _ a => a | _ => INADDR_ANY end.
Definition round4 (n : nat) : nat := (n + (4 - n mod 4) mod 4)%nat.

Definition sroute_set (g : globals) (sockfd : Z) : M globals :=
  let cnt := ints g G_sroute_cnt + 1 in
  let len := u8 (3 + cnt * 4) in
  let g := set_sroute (store_at (sroute_opt g) 1 [len]) (optr g) g in
  g ← sroute_put (sin_addr_of (servaddr g) ++ [0; 0; 0; 0]) g;
  (if decide (on g G_verbose) then
     eprintf (str "source route to " ++ inet_ntoa (sin_addr_of (servaddr g)) ++ [ch_nl]);;
     eprintf (str "source route size " ++ fmt_d len ++ str " bytes" ++ [ch_nl])
   else mret tt);;
  let g := set_sroute (sroute_opt g) (round4 (optr g)) g in
  or_err_sys (str "setsockopt error for IP_OPTIONS")
    (sys (Csetsockopt sockfd IPPROTO_IP IP_OPTIONS (take (optr g) (sroute_opt g))));;
  mret (set_int G_sroute_cnt 0 g).

(** * sockopts.c *)

Definition SO_DEBUG : Z := 1.
Definition SO_DONTROUTE : Z := 5.
Definition SO_BROADCAST : Z := 6.
Definition SO_KEEPALIVE : Z := 9.
Definition SO_REUSEPORT : Z := 15.
Definition SO_SNDTIMEO : Z := 21.
Definition IP_TOS : Z := 1.
Definition IP_TTL : Z := 2.
Definition IP_MULTICAST_TTL : Z := 33.
Definition IP_ADD_MEMBERSHIP : Z := 35.
Definition IPPROTO_TCP : Z := 6.
Definition TCP_NODELAY : Z := 1.
Definition TCP_MAXSEG : Z := 2.
Definition F_SETOWN : Z := 8.
Definition FIOASYNC : Z := 21586.

Definition so_set (name : list Z) (sockfd level opt : Z) (val : list Z) : M unit :=
  or_err_sys (name ++ str " setsockopt error") (sys (Csetsockopt sockfd level opt val)).
(** The value of the bytes of the option, the least significant first. *)
Definition so_get (name : list Z) (sockfd level opt : Z) : M Z :=
  or_err_sys (name ++ str " getsockopt error") (sys (Cgetsockopt sockfd level opt)).

(** An option that is set and tested. *)
Definition so_flag (g : globals) (name : list Z) (sockfd level opt : Z) : M unit :=
  so_set name sockfd level opt (le_bytes 4 1);;
  option ← so_get name sockfd level opt;
  if decide (option = 0) then err_quit (name ++ str " not set (" ++ fmt_d option ++ str ")")
  else verbosely g (name ++ str " set").
Definition so_value (g : globals) (name : list Z) (sockfd level opt : Z) (val : list Z) (conv : Z → Z)
    (wanted : Z) : M unit :=
  so_set name sockfd level opt val;;
  option ← so_get name sockfd level opt;
  let option := conv option in
  if decide (option ≠ wanted) then err_quit (name ++ str " not set (" ++ fmt_d option ++ str ")")
  else verbosely g (name ++ str " set to " ++ fmt_d option).

Definition print_maxseg (g : globals) (sockfd : Z) : M unit :=
  option ← so_get (str "TCP_MAXSEG") sockfd IPPROTO_TCP TCP_MAXSEG;
  verbosely g (str "TCP_MAXSEG = " ++ fmt_d option).

(** Milliseconds as a [struct timeval]; the divisions are those of C. *)
Definition so_timeo (g : globals) (name : list Z) (sockfd opt msec : Z) : M unit :=
  so_set name sockfd SOL_SOCKET opt (le_bytes 8 (Z.quot msec 1000) ++ le_bytes 8 (Z.rem msec 1000 * 1000));;
  timer ← so_get name sockfd SOL_SOCKET opt;
  verbosely g (name ++ str ": " ++ fmt_d (s64 timer) ++ str "." ++ fmt_06 (s64 (timer / 2 ^ 64))).

Definition so_linger (g : globals) (sockfd : Z) : M unit :=
  let linger := ints g G_linger in
  so_set (str "SO_LINGER") sockfd SOL_SOCKET SO_LINGER (le_bytes 4 1 ++ le_bytes 4 linger);;
  ling ← so_get (str "SO_LINGER") sockfd SOL_SOCKET SO_LINGER;
  let l_onoff := s32 ling in
  let l_linger := s32 (ling / 2 ^ 32) in
  if decide (l_onoff = 0 ∨ l_linger ≠ linger) then
    err_quit (str "SO_LINGER not set (" ++ fmt_d l_onoff ++ str ", " ++ fmt_d l_linger ++ str ")")
  else
    verbosely g (str "linger " ++ (if decide (l_onoff ≠ 0) then str "on" else str "off")
                 ++ str ", time = " ++ fmt_d l_linger).

Definition so_join (g : globals) (sockfd : Z) : M unit :=
  match inet_aton (joinip g) with
  | None => err_quit (str "invalid multicast address: " ++ joinip g)
  | Some imr_multiaddr =>
      so_set (str "IP_ADD_MEMBERSHIP") sockfd IPPROTO_IP IP_ADD_MEMBERSHIP (imr_multiaddr ++ INADDR_ANY);;
      verbosely g (str "IP_ADD_MEMBERSHIP set")
  end.

Definition so_sigio (g : globals) (sockfd : Z) : M unit :=
  signal SIGIO (Handler "sigio_func");;
  pid ← sys Cgetpid;
  or_err_sys (str "fcntl F_SETOWN error") (sys (Cfcntl sockfd F_SETOWN pid));;
  or_err_sys (str "ioctl FIOASYNC error") (sys (Cioctl sockfd FIOASYNC 1));;
  verbosely g (str "FIOASYNC set").

Definition when (P : Prop) `{!Decision P} (m : M unit) : M unit := if decide P then m else mret tt.

(** [doall] is 0 before the connection exists. *)
Definition sockopts (g : globals) (sockfd doall : Z) : M globals :=
  when (on g G_debug) (so_flag g (str "SO_DEBUG") sockfd SOL_SOCKET SO_DEBUG);;
  when (on g G_dontroute) (so_flag g (str "SO_DONTROUTE") sockfd SOL_SOCKET SO_DONTROUTE);;
  when (ints g G_iptos ≠ -1 ∧ doall = 0)
    (so_value g (str "IP_TOS") sockfd IPPROTO_IP IP_TOS (le_bytes 4 (ints g G_iptos)) id (ints g G_iptos));;
  when (ints g G_ipttl ≠ -1 ∧ doall = 0)
    (so_value g (str "IP_TTL") sockfd IPPROTO_IP IP_TTL (le_bytes 4 (ints g G_ipttl)) id (ints g G_ipttl));;
  when (on g G_maxseg ∧ ints g G_udp = 0)
    (so_set (str "TCP_MAXSEG") sockfd IPPROTO_TCP TCP_MAXSEG (le_bytes 4 (ints g G_maxseg));;
     print_maxseg g sockfd);;
  g ← (if decide (ints g G_sroute_cnt > 0) then sroute_set g sockfd else mret g);
  when (on g G_broadcast) (so_flag g (str "SO_BROADCAST") sockfd SOL_SOCKET SO_BROADCAST);;
  when (joinip g ≠ []) (so_join g sockfd);;
  when (on g G_mcastttl)
    (so_value g (str "IP_MULTICAST_TTL") sockfd IPPROTO_IP IP_MULTICAST_TTL [u8 (ints g G_mcastttl)] u8
       (ints g G_mcastttl));;
  when (on g G_keepalive ∧ doall ≠ 0 ∧ ints g G_udp = 0)
    (so_flag g (str "SO_KEEPALIVE") sockfd SOL_SOCKET SO_KEEPALIVE);;
  when (on g G_nodelay ∧ doall ≠ 0 ∧ ints g G_udp = 0)
    (so_flag g (str "TCP_NODELAY") sockfd IPPROTO_TCP TCP_NODELAY);;
  when (doall ≠ 0 ∧ on g G_verbose ∧ ints g G_udp = 0) (print_maxseg g sockfd);;
  when (ints g G_linger >= 0 ∧ doall ≠ 0 ∧ ints g G_udp = 0) (so_linger g sockfd);;
  when (doall ≠ 0 ∧ on g G_rcvtimeo) (so_timeo g (str "SO_RCVTIMEO") sockfd SO_RCVTIMEO (ints g G_rcvtimeo));;
  when (doall ≠ 0 ∧ on g G_sndtimeo) (so_timeo g (str "SO_SNDTIMEO") sockfd SO_SNDTIMEO (ints g G_sndtimeo));;
  when (on g G_recvdstaddr ∧ on g G_udp)
    (eprintf (str "warning: IP_RECVDSTADDR not supported by host" ++ [ch_nl]));;
  when (on g G_sigio) (so_sigio g sockfd);;
  mret g.

(** * multicast.c *)

(** [IN_MULTICAST] is given the address as it is in memory: on a little-endian host
    its last byte is the most significant one. *)
Definition IN_MULTICAST (a : Z) : Prop := Z.land a 4026531840 = 3758096384.
#[global] Instance IN_MULTICAST_dec a : Decision (IN_MULTICAST a).
Proof. unfold IN_MULTICAST. apply _. Defined.

Definition join_mcast (g : globals) (fd : Z) (sin_addr : list Z) : M unit :=
  when (IN_MULTICAST (of_le_bytes sin_addr))
    (or_err_sys (str "IP_ADD_MEMBERSHIP error")
       (sys (Csetsockopt fd IPPROTO_IP IP_ADD_MEMBERSHIP (sin_addr ++ INADDR_ANY)));;
     verbosely g (str "multicast group joined")).

(** * tellwait.c *)

Definition SIGUSR1 : Z := 10.
Definition SIGUSR2 : Z := 12.
Definition SIG_BLOCK : Z := 0.
Definition SIG_SETMASK : Z := 2.

(** The addresses of the signal sets. *)
Definition newmask : Z := 1.
Definition oldmask : Z := 2.
Definition zeromask : Z := 3.

(** [sigflag], and whether the two signals are blocked. *)
Record waiter := Waiter { sigflag : bool; blocked : bool }.

(** A point where the signals can arrive. *)
Definition usr_point (st : waiter) : M waiter :=
  if blocked st then mret st
  else
    n1 ← sys (Cdeliver SIGUSR1);
    n2 ← sys (Cdeliver SIGUSR2);
    mret (Waiter (sigflag st || bool_decide (0 < n1 + n2)%nat) false).

Definition sig_err (r : option handler) (msg : list Z) : M unit :=
  match r with None => err_sys msg | Some _ => mret tt end.

Definition TELL_WAIT : M waiter :=
  r ← signal SIGUSR1 (Handler "sig_usr");
  sig_err r (str "signal(SIGINT) error");;
  r ← signal SIGUSR2 (Handler "sig_usr");
  sig_err r (str "signal(SIGQUIT) error");;
  checked (sys (Csigset (So_empty zeromask)));;
  checked (sys (Csigset (So_empty newmask)));;
  checked (sys (Csigset (So_add newmask SIGUSR1)));;
  checked (sys (Csigset (So_add newmask SIGUSR2)));;
  or_err_sys (str "SIG_BLOCK error") (sys (Csigset (So_procmask SIG_BLOCK newmask oldmask)));;
  mret (Waiter false true).

Definition TELL_PARENT (pid : Z) : M unit := void (checked (sys (Ckill pid SIGUSR2))).
Definition TELL_CHILD (pid : Z) : M unit := void (checked (sys (Ckill pid SIGUSR1))).

(** [WAIT_PARENT] and [WAIT_CHILD] are the same. *)
Definition WAIT_CHILD (fuel : nat) (st : waiter) : M waiter :=
  st ← iter fuel (λ st,
    st ← usr_point st;
    if sigflag st then mret (inr st)
    else
      st ← usr_point st;
      signo ← sys (Csigsuspend zeromask);
      mret (inl (Waiter (sigflag st || bool_decide (signo = SIGUSR1 ∨ signo = SIGUSR2)) (blocked st)))) st;
  or_err_sys (str "SIG_SETMASK error") (sys (Csigset (So_procmask SIG_SETMASK oldmask 0)));;
  mret (Waiter false false).
Definition WAIT_PARENT (fuel : nat) (st : waiter) : M waiter := WAIT_CHILD fuel st.

(** * cliopen.c and servopen.c *)

Definition protocol (g : globals) : list Z := if decide (on g G_udp) then str "udp" else str "tcp".
Definition socktype (g : globals) : Z := if decide (on g G_udp) then SOCK_DGRAM else SOCK_STREAM.

Definition set_reuse (g : globals) (fd : Z) : M unit :=
  when (on g G_reuseaddr)
    (or_err_sys (str "setsockopt of SO_REUSEADDR error")
       (sys (Csetsockopt fd SOL_SOCKET SO_REUSEADDR (le_bytes 4 1))));;
  when (on g G_reuseport)
    (or_err_sys (str "setsockopt of SO_REUSEPORT error")
       (sys (Csetsockopt fd SOL_SOCKET SO_REUSEPORT (le_bytes 4 1)))).

(** [inet_ntoa] and the port of an IPv4 address; the descriptors are of that
    family. *)
Definition print_sin (before : string) (sa : sockaddr) (after : list Z) : M unit :=
  match sa with
  | SaIn p a => eprintf (str before ++ inet_ntoa a ++ str "." ++ fmt_d (ntohs p) ++ after)
  | _ => abort
  end.

Definition EISCONN : Z := 106.
Definition connect_retry (fuel : nat) (fd : Z) (servaddr : sockaddr) : M unit :=
  iter fuel (λ _ : unit,
    r ← checked (sys (Cconnect fd servaddr));
    match r with
    | ROk _ => mret (inr tt)
    | RErr _ =>
        errno ← get_errno;
        if decide (errno = EINTR) then mret (inl tt)
        else if decide (errno = EISCONN) then mret (inr tt)
        else err_sys (str "connect() error")
    end) tt.

Definition cliopen (fuel : nat) (g : globals) (host port : list Z) : M (globals * Z) :=
  sin_port ← (let i := atoi port in
              if decide (i = 0) then
                sp ← sys (Cgetservbyname port (protocol g));
                match sp with
                | None => err_quit (str "getservbyname() error for: " ++ port ++ str "/" ++ protocol g)
                | Some sp => mret (u16 (s_port sp))
                end
              else mret (htons i));
  sin_addr ← match inet_aton host with
             | Some inaddr => mret inaddr
             | None =>
                 hp ← sys (Cgethostbyname host AF_INET);
                 match hp with
                 | inl _ => err_quit (str "invalid hostname: " ++ host)
                 | inr hp => match h_addr_list hp with [] => abort | a :: _ => mret (take 4 a) end
                 end
             end;
  let g := set_servaddr (SaIn sin_port sin_addr) g in
  fd ← or_err_sys (str "socket() error") (sys (Csocket AF_INET (socktype g) 0));
  set_reuse g fd;;
  g ← (if decide (on g G_bindport ∨ localip g ≠ [] ∨ on g G_udp) then
         addr ← match localip g with
                | [] => mret INADDR_ANY
                | _ => match inet_aton (localip g) with
                       | None => err_quit (str "invalid IP address: " ++ localip g)
                       | Some a => mret a
                       end
                end;
         let sa := SaIn (htons (ints g G_bindport)) addr in
         or_err_sys (str "bind() error") (sys (Cbind fd sa));;
         mret (set_cliaddr sa g)
       else mret g);
  g ← buffers g fd;
  g ← sockopts g fd 0;
  when (ints g G_udp = 0 ∨ on g G_connectudp) (connect_retry fuel fd (servaddr g));;
  g ← (if decide (on g G_verbose) then
         cli ← or_err_sys (str "getsockname() error") (sys (Cgetsockname fd));
         print_sin "connected on " cli (str " ");;
         print_sin "to " (servaddr g) [ch_nl];;
         mret (set_cliaddr cli g)
       else mret g);
  g ← sockopts g fd 1;
  mret (g, fd).

(** The connected socket, in the child or in the server that does not fork. *)
Definition serv_accepted (g : globals) (newfd : Z) : M globals :=
  g ← (if decide (on g G_verbose) then
         serv ← or_err_sys (str "getsockname() error") (sys (Cgetsockname newfd));
         print_sin "connection on " serv (str " ");;
         print_sin "from " (cliaddr g) [ch_nl];;
         mret (set_servaddr serv g)
       else mret g);
  g ← buffers g newfd;
  g ← sockopts g newfd 1;
  when (on g G_dofork) (pid ← sys Cgetppid; TELL_PARENT pid);;
  mret g.

Definition serv_round (fuel : nat) (fd : Z) (s : globals * waiter)
    : M (globals * waiter + globals * Z) :=
  let '(g, st) := s in
  '(newfd, cli) ← or_err_sys (str "accept() error") (sys (Caccept fd));
  let g := set_cliaddr cli g in
  pid ← (if decide (on g G_dofork) then or_err_sys (str "fork error") (sys Cfork) else mret 0);
  if decide (pid > 0) then
    checked (sys (Cclose newfd));;
    st ← WAIT_CHILD fuel st;
    mret (inl (g, st))
  else
    when (on g G_dofork) (void (checked (sys (Cclose fd))));;
    g ← serv_accepted g newfd;
    mret (inr (g, newfd)).

(** A service that is not found is reported with [err_ret], and the null pointer is
    used, which is shown as [Aborted]. *)
Definition servopen (fuel : nat) (g : globals) (host : option (list Z)) (port : list Z) : M (globals * Z) :=
  sin_addr ← match host with
             | None => mret INADDR_ANY
             | Some host =>
                 match inet_aton host with
                 | None => err_quit (str "invalid host name for server: " ++ host)
                 | Some inaddr => mret inaddr
                 end
             end;
  sin_port ← (let i := atoi port in
              if decide (i = 0) then
                sp ← sys (Cgetservbyname port (protocol g));
                match sp with
                | None => err_ret (str "getservbyname() error for: " ++ port ++ str "/" ++ protocol g);; abort
                | Some sp => mret (u16 (s_port sp))
                end
              else mret (htons i));
  let g := set_servaddr (SaIn sin_port sin_addr) g in
  fd ← or_err_sys (str "socket() error") (sys (Csocket AF_INET (socktype g) 0));
  set_reuse g fd;;
  or_err_sys (str "can't bind local address") (sys (Cbind fd (servaddr g)));;
  join_mcast g fd sin_addr;;
  if decide (on g G_udp) then
    g ← buffers g fd;
    g ← match foreignip g with
        | [] => mret g
        | _ => match inet_aton (foreignip g) with
               | None => err_quit (str "invalid IP address: " ++ foreignip g)
               | Some a =>
                   let sa := SaIn (htons (ints g G_foreignport)) a in
                   or_err_sys (str "connect() error") (sys (Cconnect fd sa));;
                   mret (set_cliaddr sa g)
               end
        end;
    g ← sockopts g fd 1;
    mret (g, fd)
  else
    g ← buffers g fd;
    g ← sockopts g fd 0;
    checked (sys (Clisten fd (ints g G_listenq)));;
    pause fuel g G_pauselisten;;
    st ← (if decide (on g G_dofork) then TELL_WAIT else mret (Waiter false false));
    iter fuel (serv_round fuel fd) (g, st).
End program.

(** * looptcp.c and loopudp.c *)

(** What the part for the standard input does next: go on to the socket, go back to
    [select], or leave the loop. *)
Inductive stdin_step := Goon | Again (rset : gset Z) | Stop.

(** [put] sends the bytes at an address to the socket. *)
Definition loop_stdin (g : globals) (sockfd : Z) (rset : gset Z) (put : Z → list Z → M unit) : M stdin_step :=
  data ← or_err_sys (str "read error from stdin") (sys (Cread STDIN_FILENO (ints g G_readlen)));
  if decide (length data = 0%nat) then
    if decide (on g G_halfclose) then
      or_err_sys (str "shutdown() error") (sys (Cshutdown sockfd SHUT_WR));;
      mret (Again (rset ∖ {[STDIN_FILENO]}))
    else mret Stop
  else if decide (on g G_crlf) then
    match crlf_add (ints g G_writelen) data with
    | None => err_quit (str "crlf_add: destination not big enough")
    | Some out => put (default 0 (wbuf g)) out;; mret Goon
    end
  else put (default 0 (rbuf g)) data;; mret Goon.

Definition writen_stdout (fuel : nat) (out : list Z) : M unit :=
  n ← writen fuel STDOUT_FILENO out;
  if decide (n ≠ Z.of_nat (length out)) then err_sys (str "writen error to stdout") else mret tt.
Definition loop_stdout (fuel : nat) (g : globals) (data : list Z) : M unit :=
  if decide (on g G_crlf) then
    match crlf_strip (ints g G_writelen) data with
    | None => err_quit (str "crlf_strip: destination not big enough")
    | Some out => writen_stdout fuel out
    end
  else writen_stdout fuel data.

(** From [oncemore:] on; [true] at the end of the stream. *)
Definition recv_once (fuel : nat) (g : globals) (sockfd flags : Z) : M bool :=
  data ← or_err_sys (str "recv error") (sys (Crecv sockfd (ints g G_readlen) flags));
  if decide (length data = 0%nat) then
    verbosely g (str "connection closed by peer");;
    mret true
  else
    loop_stdout fuel g data;;
    mret false.
Definition recv_peek (fuel : nat) (g : globals) (sockfd : Z) : M bool :=
  eof ← recv_once fuel g sockfd (ints g G_msgpeek);
  if eof : bool then mret true
  else if decide (on g G_msgpeek) then recv_once fuel g sockfd 0
  else mret false.

(** The end of the functions. *)
Definition pause_close (fuel : nat) (g : globals) (sockfd : Z) : M unit :=
  when (on g G_pauseclose)
    (verbosely g (str "pausing before close");; pause fuel g G_pauseclose);;
  or_err_sys (str "close error") (sys (Cclose sockfd)).

(** A round of the loops: [rset] is what [select] left of the set. *)
Definition loop_select (sockfd : Z) (rset : gset Z) (stdineof : bool) : M (gset Z) :=
  let rset := if stdineof then rset else {[STDIN_FILENO]} ∪ rset in
  let rset := {[sockfd]} ∪ rset in
  '(_, rset, _) ← or_err_sys (str "select error") (sys (Cselect (sockfd + 1) rset ∅ None));
  mret rset.

Definition put_tcp (g : globals) (sockfd base : Z) (data : list Z) : M unit :=
  n ← dowrite g sockfd base data;
  if decide (n ≠ Z.of_nat (length data)) then err_sys (str "write error") else mret tt.

Definition tcp_round (fuel : nat) (g : globals) (sockfd : Z) (s : gset Z * bool)
    : M (gset Z * bool + unit) :=
  let '(rset, stdineof) := s in
  rset ← loop_select sockfd rset stdineof;
  step ← (if decide (STDIN_FILENO ∈ rset) then loop_stdin g sockfd rset (put_tcp g sockfd) else mret Goon);
  match step with
  | Again rset => mret (inl (rset, true))
  | Stop => mret (inr tt)
  | Goon =>
      if decide (sockfd ∈ rset) then
        eof ← recv_peek fuel g sockfd;
        if eof : bool then mret (inr tt) else mret (inl (rset, stdineof))
      else mret (inl (rset, stdineof))
  end.
Definition loop_tcp (fuel : nat) (g : globals) (sockfd : Z) : M unit :=
  pause fuel g G_pauseinit;;
  iter fuel (tcp_round fuel g sockfd) (∅, false);;
  pause_close fuel g sockfd.

(** The address is the local variable [servaddr] of the function, which hides the
    global one: it is not initialised, and [recvfrom] stores to it. *)
Definition put_udp (g : globals) (sockfd : Z) (servaddr : sockaddr) (base : Z) (data : list Z) : M unit :=
  if decide (on g G_connectudp) then
    all_or_err_sys (str "write error") (Z.of_nat (length data)) (sys (Cwrite sockfd data))
  else all_or_err_sys (str "sendto error") (Z.of_nat (length data)) (sys (Csendto sockfd data servaddr)).

(** [printf] and [fflush] before the data. *)
Definition print_from (g : globals) (sa : sockaddr) : M unit :=
  when (on g G_verbose)
    (match sa with
     | SaIn _ a => printf (str "from " ++ inet_ntoa a);; printf (str ": ");; void (sys (Cfflush stdout))
     | _ => abort
     end).

Definition udp_server_recv (fuel : nat) (g : globals) (sockfd : Z) : M unit :=
  '(data, cli, msg_flags, _) ←
    or_err_sys (str "datagram receive error") (sys (Crecvmsg_flags sockfd (ints g G_readlen) 0));
  print_from g cli;;
  when (Z.land msg_flags MSG_TRUNC ≠ 0) (printf (str "(datagram truncated)" ++ [ch_nl]));;
  loop_stdout fuel g data.

Definition udp_round (fuel : nat) (g : globals) (sockfd : Z) (s : gset Z * bool * sockaddr)
    : M (gset Z * bool * sockaddr + unit) :=
  let '(rset, stdineof, serv) := s in
  rset ← loop_select sockfd rset stdineof;
  step ← (if decide (STDIN_FILENO ∈ rset) then loop_stdin g sockfd rset (put_udp g sockfd serv) else mret Goon);
  match step with
  | Again rset => mret (inl (rset, true, serv))
  | Stop => mret (inr tt)
  | Goon =>
      if decide (sockfd ∈ rset) then
        if decide (on g G_server) then
          udp_server_recv fuel g sockfd;;
          mret (inl (rset, stdineof, serv))
        else if decide (on g G_connectudp) then
          eof ← recv_peek fuel g sockfd;
          if eof : bool then mret (inr tt) else mret (inl (rset, stdineof, serv))
        else
          '(data, serv) ← or_err_sys (str "datagram recvfrom() error")
                            (sys (Crecvfrom sockfd (ints g G_readlen)));
          print_from g serv;;
          loop_stdout fuel g data;;
          mret (inl (rset, stdineof, serv))
      else mret (inl (rset, stdineof, serv))
  end.
(** [junk] is what the local [servaddr] holds at entry. *)
Definition loop_udp (fuel : nat) (junk : sockaddr) (g : globals) (sockfd : Z) : M unit :=
  pause fuel g G_pauseinit;;
  iter fuel (udp_round fuel g sockfd) (∅, false, junk);;
  pause_close fuel g sockfd.

(** * sourcetcp.c, sourceudp.c, sinktcp.c and sinkudp.c *)

(** The error of a write that was not complete. *)
Definition write_failed (g : globals) (sockfd : Z) (what : string) (n : Z) : M unit :=
  let msg := str what ++ str " returned " ++ fmt_d n ++ str ", expected " ++ fmt_d (ints g G_writelen) in
  if decide (on g G_ignorewerr) then
    err_ret msg;;
    void (or_err_sys (str "SO_ERROR getsockopt error") (sys (Cgetsockopt sockfd SOL_SOCKET SO_ERROR)))
  else err_sys msg.

Definition wrote (g : globals) (n : Z) : M unit := verbosely g (str "wrote " ++ fmt_d n ++ str " bytes").

(** A byte of urgent data before write number [urgwrite]; [err_sys] is given the
    length of the normal data. *)
Definition source_urgent (g : globals) (sockfd i : Z) : M unit :=
  when (ints g G_urgwrite = i)
    (r ← checked (sys (Csend sockfd [u8 (ints g G_urgwrite)] MSG_OOB));
     let n := res_int r in
     if decide (n ≠ 1) then
       err_sys (str "send of MSG_OOB returned " ++ fmt_d n ++ str ", expected " ++ fmt_d (ints g G_writelen))
     else verbosely g (str "wrote " ++ fmt_d n ++ str " byte of urgent data")).

Definition source_tcp (fuel : nat) (g : globals) (sockfd : Z) : M unit :=
  let data := pattern (ints g G_writelen) in
  pause fuel g G_pauseinit;;
  for_each (seqZ 1 (ints g G_nbuf)) (λ i _,
    source_urgent g sockfd i;;
    r ← checked (sys (Cwrite sockfd data));
    let n := res_int r in
    (if decide (n ≠ ints g G_writelen) then write_failed g sockfd "write" n else wrote g n);;
    pause fuel g G_pauserw) tt;;
  pause_close fuel g sockfd.

Definition source_udp (fuel : nat) (g : globals) (sockfd : Z) : M unit :=
  let data := pattern (ints g G_writelen) in
  pause fuel g G_pauseinit;;
  for_each (seqZ 1 (ints g G_nbuf)) (λ i _,
    n ← (if decide (on g G_connectudp) then
           r ← checked (sys (Cwrite sockfd data));
           when (res_int r ≠ ints g G_writelen) (write_failed g sockfd "write" (res_int r));;
           mret (res_int r)
         else
           r ← checked (sys (Csendto sockfd data (servaddr g)));
           when (res_int r ≠ ints g G_writelen) (write_failed g sockfd "sendto" (res_int r));;
           mret (res_int r));
    wrote g n;;
    pause fuel g G_pauserw) tt;;
  pause_close fuel g sockfd.

(** What [sink_udp] prints of the receive buffer when it is very verbose.  A store
    behind the buffer, or a string without an end in it, is undefined behaviour, shown
    as [Aborted]. *)
Definition show_buffer (g : globals) (mem : list Z) (n : nat) : M (list Z) :=
  if decide (ints g G_verbose > 1) then
    eprintf (str "printing " ++ fmt_d (Z.of_nat n) ++ str " bytes" ++ [ch_nl]);;
    if decide (length mem <= n ∨ length mem < 40)%nat then abort
    else
      let mem := <[n := 0]> mem in
      eprintf (str "SDAP header: " ++ fmt_x (of_le_bytes (bytes_at mem 0 8)) ++ [ch_nl]);;
      eprintf (str "next long: " ++ fmt_x (of_le_bytes (bytes_at mem 32 8)) ++ [ch_nl]);;
      if decide (0 ∈ drop 8 mem) then eprintf (c_str (drop 8 mem));; mret mem else abort
  else mret mem.

Definition sink_once (show : list Z → nat → M (list Z)) (fuel : nat) (g : globals) (sockfd flags : Z)
    (mem : list Z) : M (list Z * bool) :=
  data ← or_err_sys (str "recv error") (sys (Crecv sockfd (ints g G_readlen) flags));
  let mem := data ++ drop (length data) mem in
  if decide (length data = 0%nat) then
    verbosely g (str "connection closed by peer");;
    mret (mem, true)
  else
    verbosely g (str "received " ++ fmt_d (Z.of_nat (length data)) ++ str " bytes"
                 ++ (if decide (flags = MSG_PEEK) then str " (MSG_PEEK)" else []));;
    mem ← show mem (length data);
    pause fuel g G_pauserw;;
    mret (mem, false).

Definition sink_round (show : list Z → nat → M (list Z)) (fuel : nat) (g : globals) (sockfd : Z)
    (mem : list Z) : M (list Z + unit) :=
  '(mem, eof) ← sink_once show fuel g sockfd (ints g G_msgpeek) mem;
  if eof : bool then mret (inr tt)
  else if decide (on g G_msgpeek) then
    '(mem, eof) ← sink_once show fuel g sockfd 0 mem;
    if eof : bool then mret (inr tt) else mret (inl mem)
  else mret (inl mem).

(** [mem] is what the receive buffer holds at entry. *)
Definition sink_tcp (fuel : nat) (mem : list Z) (g : globals) (sockfd : Z) : M unit :=
  pause fuel g G_pauseinit;;
  iter fuel (sink_round (λ mem _, mret mem) fuel g sockfd) mem;;
  pause_close fuel g sockfd.
Definition sink_udp (fuel : nat) (mem : list Z) (g : globals) (sockfd : Z) : M unit :=
  pause fuel g G_pauseinit;;
  iter fuel (sink_round (show_buffer g) fuel g sockfd) mem;;
  pause_close fuel g sockfd.

(** * main.c *)

Definition ch_quote : list Z := [34].
Definition sock_usage_text : list Z := join [ch_nl] [
  str "usage: sock [ options ] <host> <port>              (for client; default)";
  str "       sock [ options ] -s [ <IPaddr> ] <port>     (for server)";
  str "       sock [ options ] -i <host> <port>           (for " ++ ch_quote ++ str "source" ++ ch_quote ++ str " client)";
  str "       sock [ options ] -i -s [ <IPaddr> ] <port>  (for " ++ ch_quote ++ str "sink" ++ ch_quote ++ str " server)";
  str "options: -b n  bind n as client's local port number";
  str "         -c    convert newline to CR/LF & vice versa";
  str "         -f a.b.c.d.p  foreign IP address = a.b.c.d, foreign port # = p";
  str "         -g a.b.c.d  loose source route";
  str "         -h    issue TCP half close on standard input EOF";
  str "         -i    " ++ ch_quote ++ str "source" ++ ch_quote ++ str " data to socket, " ++ ch_quote ++ str "sink" ++ ch_quote ++ str " data from socket (w/-s)";
  str "         -j a.b.c.d  join multicast group";
  str "         -k    write or writev in chunks";
  str "         -l a.b.c.d.p  client's local IP address = a.b.c.d, local port # = p";
  str "         -n n  # buffers to write for " ++ ch_quote ++ str "source" ++ ch_quote ++ str " client (default 1024)";
  str "         -o    do NOT connect UDP client";
  str "         -p n  # ms to pause before each read or write (source/sink)";
  str "         -q n  size of listen queue for TCP server (default 5)";
  str "         -r n  # bytes per read() for " ++ ch_quote ++ str "sink" ++ ch_quote ++ str " server (default 1024)";
  str "         -s    operate as server instead of client";
  str "         -t n  set multicast ttl";
  str "         -u    use UDP instead of TCP";
  str "         -v    verbose";
  str "         -w n  # bytes per write() for " ++ ch_quote ++ str "source" ++ ch_quote ++ str " client (default 1024)";
  str "         -x n  # ms for SO_RCVTIMEO (receive timeout)";
  str "         -y n  # ms for SO_SNDTIMEO (send timeout)";
  str "         -A    SO_REUSEADDR option";
  str "         -B    SO_BROADCAST option";
  str "         -C    set terminal to cbreak mode";
  str "         -D    SO_DEBUG option";
  str "         -E    IP_RECVDSTADDR option";
  str "         -F    fork after connection accepted (TCP concurrent server)";
  str "         -G a.b.c.d  strict source route";
  str "         -H n  IP_TOS option (16=min del, 8=max thru, 4=max rel, 2=min$)";
  str "         -I    SIGIO signal";
  str "         -J n  IP_TTL option";
  str "         -K    SO_KEEPALIVE option";
  str "         -L n  SO_LINGER option, n = linger time";
  str "         -N    TCP_NODELAY option";
  str "         -O n  # ms to pause after listen, but before first accept";
  str "         -P n  # ms to pause before first read or write (source/sink)";
  str "         -Q n  # ms to pause after receiving FIN, but before close";
  str "         -R n  SO_RCVBUF option";
  str "         -S n  SO_SNDBUF option";
  str "         -T    SO_REUSEPORT option";
  str "         -U n  enter urgent mode before write number n (source only)";
  str "         -V    use writev() instead of write(); enables -k too";
  str "         -W    ignore write errors for sink client";
  str "         -X n  TCP_MAXSEG option (set MSS)";
  str "         -Y    SO_DONTROUTE option";
  str "         -Z    MSG_PEEK";
  []].

Definition usage {A} (msg : list Z) : M A :=
  err_msg sock_usage_text;;
  if decide (msg ≠ []) then err_quit msg else exit 1.

(** The letters that store a constant, and those that store the number of their
    argument. *)
Definition flag_options : list (ascii * list (gvar * Z)) := [
  ("c", [(G_crlf, 1)]); ("h", [(G_halfclose, 1)]); ("i", [(G_sourcesink, 1)]); ("k", [(G_chunkwrite, 1)]);
  ("o", [(G_connectudp, 0)]); ("s", [(G_server, 1); (G_client, 0)]); ("u", [(G_udp, 1)]);
  ("A", [(G_reuseaddr, 1)]); ("B", [(G_broadcast, 1)]); ("C", [(G_cbreak, 1)]); ("D", [(G_debug, 1)]);
  ("E", [(G_recvdstaddr, 1)]); ("F", [(G_dofork, 1)]); ("I", [(G_sigio, 1)]); ("K", [(G_keepalive, 1)]);
  ("N", [(G_nodelay, 1)]); ("T", [(G_reuseport, 1)]); ("V", [(G_usewritev, 1); (G_chunkwrite, 1)]);
  ("W", [(G_ignorewerr, 1)]); ("Y", [(G_dontroute, 1)]); ("Z", [(G_msgpeek, MSG_PEEK)])]%char.
Definition number_options : list (ascii * gvar) := [
  ("b", G_bindport); ("p", G_pauserw); ("q", G_listenq); ("r", G_readlen); ("t", G_mcastttl);
  ("w", G_writelen); ("H", G_iptos); ("J", G_ipttl); ("O", G_pauselisten); ("P", G_pauseinit);
  ("Q", G_pauseclose); ("R", G_rcvbuflen); ("S", G_sndbuflen); ("U", G_urgwrite); ("X", G_maxseg)]%char.
(** [atol] *)
Definition long_options : list (ascii * gvar) := [
  ("n", G_nbuf); ("x", G_rcvtimeo); ("y", G_sndtimeo); ("L", G_linger)]%char.

Definition option_of {A} (c : ascii) (l : list (ascii * A)) : option A :=
  (λ p, p.2.2) <$> list_find (λ p, p.1 = c) l.

(** [strrchr(optarg, '.')]: the text before the last period and behind it. *)
Fixpoint last_period (s : list Z) : option (list Z * list Z) :=
  match s with
  | [] => None
  | c :: s' =>
      match last_period s' with
      | Some (a, b) => Some (c :: a, b)
      | None => if decide (c = ch_dot) then Some ([], s') else None
      end
  end.

(** [strcpy] into an array of 32 bytes; a longer text is stored out of bounds. *)
Definition copy32 (s : list Z) : M (list Z) := if decide (length s < 32)%nat then mret s else abort.

Section main.
Context (inet_aton : list Z → option (list Z)) (beyond : list Z).

(** The [switch] of the loop over the options; ['2'] has no case. *)
Definition sock_option (o : ascii * list Z) (g : globals) : M globals :=
  let '(c, optarg) := o in
  match option_of c flag_options, option_of c number_options, option_of c long_options with
  | Some l, _, _ => mret (foldl (λ g p, set_int p.1 p.2 g) g l)
  | _, Some x, _ => mret (set_int x (atoi optarg) g)
  | _, _, Some x =>
      let n := sat64 (atoi optarg) in
      mret (set_int x (if decide (x = G_nbuf) then s32 n else n) g)
  | None, None, None =>
      if decide (c = "f"%char) then
        match last_period optarg with
        | None => usage (str "invalid -f option")
        | Some (ip, port) => s ← copy32 ip; mret (set_foreignip s (set_int G_foreignport (atoi port) g))
        end
      else if decide (c = "l"%char) then
        match last_period optarg with
        | None => usage (str "invalid -l option")
        | Some (ip, port) => s ← copy32 ip; mret (set_localip s (set_int G_bindport (atoi port) g))
        end
      else if decide (c = "j"%char) then s ← copy32 optarg; mret (set_joinip s g)
      else if decide (c = "g"%char) then sroute_doopt inet_aton beyond false optarg g
      else if decide (c = "G"%char) then sroute_doopt inet_aton beyond true optarg g
      else if decide (c = "v"%char) then mret (set_int G_verbose (ints g G_verbose + 1) g)
      else if decide (c = "?"%char) then usage (str "unrecognized option")
      else mret g
  end.

Definition check_options (g : globals) : M unit :=
  when (on g G_udp ∧ on g G_halfclose) (usage (str "can't specify -h and -u"));;
  when (on g G_udp ∧ on g G_debug) (usage (str "can't specify -D and -u"));;
  when (on g G_udp ∧ ints g G_linger >= 0) (usage (str "can't specify -L and -u"));;
  when (on g G_udp ∧ on g G_nodelay) (usage (str "can't specify -N and -u"));;
  when (ints g G_udp = 0 ∧ foreignip g ≠ []) (usage (str "can't specify -f with TCP")).

(** The host, which a server may leave out, and the port. *)
Definition host_port (g : globals) (args : list (list Z)) : M (option (list Z) * list Z) :=
  if decide (on g G_client) then
    match args with
    | [host; port] => mret (Some host, port)
    | _ => usage (str "missing <hostname> and/or <port>")
    end
  else
    match args with
    | [host; port] => mret (Some host, port)
    | [port] => mret (None, port)
    | _ => usage (str "missing <port>")
    end.

(** [getopt] answers the options in the order it finds them and the arguments that
    are left; [mem] and [junk] are what uninitialised variables hold. *)
Definition sock_main (fuel : nat) (mem : list Z) (junk : sockaddr)
    (getopt : list (list Z) → list (ascii * list Z) * list (list Z)) (argv : list (list Z)) : M unit :=
  if decide (length argv < 2)%nat then usage []
  else
    let '(opts, args) := getopt argv in
    g ← for_each opts sock_option init_globals;
    check_options g;;
    '(host, port) ← host_port g args;
    '(g, fd) ← (if decide (on g G_client) then cliopen inet_aton fuel g (default [] host) port
                else servopen inet_aton fuel g host port);
    (if decide (on g G_sourcesink) then
       if decide (on g G_client) then
         if decide (on g G_udp) then source_udp fuel g fd else source_tcp fuel g fd
       else
         if decide (on g G_udp) then sink_udp fuel mem g fd else sink_tcp fuel mem g fd
     else
       if decide (on g G_udp) then loop_udp fuel junk g fd else loop_tcp fuel g fd);;
    exit 0.
End main.
