(* ===== verification/SockSpec.v ===== *)
(** Properties of [Sock]: the conversion of lines, the writes in chunks, and the loop
    that copies between the standard streams and a TCP connection. *)

From S2P Require Import Prelude Net Sys Error Wrap SockAddr Io IoSpec Connect TcpServ Packet Oob Udp Ends Sock.

(** * Lines *)

(** Each newline with a return before it, and the text without returns. *)
Definition to_crlf (s : list Z) : list Z :=
  concat (map (λ c, if decide (c = ch_nl) then [ch_cr; c] else [c]) s).
Definition no_cr (s : list Z) : list Z := filter (λ c, c ≠ ch_cr) s.
Definition newlines (s : list Z) : Z := count (λ c, c = ch_nl) s.

Lemma to_crlf_app s t : to_crlf (s ++ t) = to_crlf s ++ to_crlf t.
Proof. unfold to_crlf. by rewrite map_app, concat_app. Qed.

Lemma no_cr_app s t : no_cr (s ++ t) = no_cr s ++ no_cr t.
Proof. apply filter_app. Qed.

Lemma to_crlf_cons c s :
  to_crlf (c :: s) = (if decide (c = ch_nl) then [ch_cr; c] else [c]) ++ to_crlf s.
Proof. done. Qed.

Lemma newlines_cons c s : newlines (c :: s) = (if decide (c = ch_nl) then 1 else 0) + newlines s.
Proof. unfold newlines. by rewrite count_cons. Qed.

Lemma newlines_nonneg s : 0 <= newlines s.
Proof. apply count_nonneg. Qed.

Lemma to_crlf_length s : Z.of_nat (length (to_crlf s)) = Z.of_nat (length s) + newlines s.
Proof.
  induction s as [|c s IH]; [done|]. rewrite to_crlf_cons, newlines_cons, length_app.
  case_decide; simpl; lia.
Qed.

Lemma no_cr_to_crlf s : no_cr (to_crlf s) = no_cr s.
Proof.
  induction s as [|c s IH]; [done|]. rewrite to_crlf_cons, no_cr_app, IH.
  change (c :: s) with ([c] ++ s). rewrite (no_cr_app [c] s). f_equal. by case_decide; subst.
Qed.

Lemma no_cr_id s : ch_cr ∉ s → no_cr s = s.
Proof.
  induction s as [|c s IH]; [done|]. intros [Hc Hs]%not_elem_of_cons. unfold no_cr.
  rewrite filter_cons_True by congruence. f_equal. by apply IH.
Qed.

Lemma crlf_add_loop_spec dstsize lenout s :
  crlf_add_loop dstsize lenout s =
    if decide (newlines s = 0 ∨ lenout + newlines s < dstsize) then Some (to_crlf s) else None.
Proof.
  revert lenout. induction s as [|c s IH]; intros lenout; [by rewrite decide_True by by left|].
  cbn [crlf_add_loop]. rewrite to_crlf_cons, newlines_cons, !IH. pose proof (newlines_nonneg s).
  decide_all; done || lia.
Qed.

Lemma crlf_strip_loop_spec dstsize lenout s :
  crlf_strip_loop dstsize lenout s =
    if decide (no_cr s = [] ∨ lenout + Z.of_nat (length (no_cr s)) < dstsize) then Some (no_cr s) else None.
Proof.
  revert lenout. induction s as [|c s IH]; intros lenout; [by rewrite decide_True by by left|].
  cbn [crlf_strip_loop]. unfold no_cr in *. rewrite filter_cons, !IH.
  destruct (decide (c ≠ ch_cr)) as [Hc|Hc]; [|done].
  assert (Hl : ∀ l : list Z, l = [] ∨ (0 < length l)%nat) by (intros [|]; simpl; auto with lia).
  destruct (Hl (filter (λ c, c ≠ ch_cr) s)) as [E|Hpos].
  - rewrite E. cbn [length]. decide_all; done || lia.
  - cbn [length].
    assert (filter (λ c, c ≠ ch_cr) s ≠ []) by (intros E; rewrite E in Hpos; simpl in Hpos; lia).
    repeat case_decide; try done; exfalso; naive_solver lia.
Qed.

(** C38: What [crlf_add] and [crlf_strip] store is the text with a return before each
    newline and the text without returns, within the destination.  [crlf_add] ends
    the program exactly when the text alone is longer than the destination, or
    when it has a newline and the result is as long as the destination or longer:
    a text without newlines may fill the destination, a result with returns may
    not.  [crlf_strip] ends it exactly when something is left and is as long as the
    destination or longer.  A text without returns is the same after both, when
    the second destination is longer than it. *)
Theorem crlf_round_trip dstsize dstsize' s :
  crlf_add dstsize s =
    (if decide (Z.of_nat (length s) <= dstsize ∧
                (newlines s = 0 ∨ Z.of_nat (length (to_crlf s)) < dstsize))
     then Some (to_crlf s) else None) ∧
  crlf_strip dstsize s =
    (if decide (no_cr s = [] ∨ Z.of_nat (length (no_cr s)) < dstsize) then Some (no_cr s) else None) ∧
  (∀ t, crlf_add dstsize s = Some t →
     Z.of_nat (length t) <= dstsize ∧
     (ch_cr ∉ s → Z.of_nat (length s) < dstsize' → crlf_strip dstsize' t = Some s)).
Proof.
  assert (Hadd : crlf_add dstsize s = if decide (Z.of_nat (length s) <= dstsize ∧
      (newlines s = 0 ∨ Z.of_nat (length (to_crlf s)) < dstsize)) then Some (to_crlf s) else None).
  { unfold crlf_add. rewrite crlf_add_loop_spec, to_crlf_length. decide_all; done || lia. }
  split; [done|]. split; [apply crlf_strip_loop_spec|].
  intros t Ht. rewrite Hadd in Ht. case_decide as Hd; [|done]. injection Ht as <-.
  rewrite to_crlf_length in *. split; [pose proof (newlines_nonneg s); lia|].
  intros Hcr Hlen. unfold crlf_strip. rewrite crlf_strip_loop_spec, no_cr_to_crlf, no_cr_id by done.
  rewrite decide_True; [done|]. right. lia.
Qed.

Lemma crlf_round_trip_witness :
  ∃ t, crlf_add 1024 (str "ab" ++ [ch_nl]) = Some t ∧ crlf_strip 1024 t = Some (str "ab" ++ [ch_nl]).
Proof.
  destruct (crlf_round_trip 1024 1024 (str "ab" ++ [ch_nl])) as (_ & _ & H).
  exists (str "ab" ++ [ch_cr; ch_nl]). split; [reflexivity|].
  apply (H (str "ab" ++ [ch_cr; ch_nl])); [reflexivity|by_decide|simpl; lia].
Defined.

(** A full buffer without any return is refused. *)
Lemma crlf_strip_full : crlf_strip 1024 (repeat 65 1024) = None.
Proof. vm_compute. done. Qed.

(** * Chunks *)

Lemma chunk_size_enough n : 0 <= n → 1 <= chunk_size n ∧ n <= Z.of_nat UIO_MAXIOV * chunk_size n.
Proof.
  intros Hn. unfold chunk_size. set (m := Z.of_nat UIO_MAXIOV).
  assert (Hm : 0 < m) by done. pose proof (Z.div_mod n m ltac:(lia)). pose proof (Z.mod_pos_bound n m Hm).
  repeat case_decide; split; nia.
Qed.

Lemma make_iov_spec k chunksize ptr :
  1 <= chunksize → (1 <= k)%nat → Z.of_nat (length ptr) <= Z.of_nat k * chunksize →
  ∃ iov, make_iov k chunksize ptr = Some iov ∧ concat iov = ptr ∧ (length iov <= k)%nat.
Proof.
  intros Hc. revert ptr. induction k as [|k IH]; intros ptr Hk Hlen; [lia|]. cbn [make_iov].
  case_decide as Hge; case_decide as Hz.
  1,2: eexists; split; [done|]; simpl; rewrite app_nil_r; split; [apply take_ge; lia|lia].
  - destruct (IH (drop (Z.to_nat chunksize) ptr)) as (iov & -> & Hcat & Hl); [nia|rewrite length_drop; nia|].
    eexists. split; [done|]. simpl. rewrite Hcat. split; [apply take_drop|lia].
  - lia.
Qed.

Section io.
Context (K : kernel) `{!KernelIo K} (g : globals).

Lemma wp_write_chunks fd iov ntotal w (Q : outcome Z → world → Prop) :
  (∀ w', sent K fd (w_calls w') = sent K fd (w_calls w) ++ concat iov →
     Q (Val (ntotal + Z.of_nat (length (concat iov)))) w') →
  (∀ d w', d `prefix_of` concat iov → sent K fd (w_calls w') = sent K fd (w_calls w) ++ d → Q (Val (-1)) w') →
  wp K (write_chunks fd iov ntotal) w Q.
Proof.
  revert ntotal w. induction iov as [|c iov IH]; intros ntotal w HQ Herr; cbn [write_chunks concat].
  - wp_step. rewrite <- (Z.add_0_r ntotal). apply HQ. by rewrite app_nil_r.
  - do 3 wp_step. destruct (K _ (Cwrite fd c)) as [n|e] eqn:HW; cbn [bind_post res_int].
    + pose proof (write_count _ _ _ _ HW) as Hn. case_decide as Hd.
      * wp_step. apply (Herr (take (Z.to_nat n) c)); cbn [w_calls]; [|by rewrite sent_write, HW].
        exists (drop (Z.to_nat n) c ++ concat iov). by rewrite app_assoc, take_drop.
      * assert (Hs : sent K fd (Cwrite fd c :: w_calls w) = sent K fd (w_calls w) ++ c)
          by (rewrite sent_write, HW, take_ge by lia; done).
        apply IH; cbn [w_calls]; rewrite Hs.
        -- intros w' Hw'. rewrite <- app_assoc in Hw'. specialize (HQ w' Hw'). cbn [concat] in HQ.
           rewrite length_app in HQ. replace (ntotal + n + Z.of_nat (length (concat iov)))
             with (ntotal + Z.of_nat (length c + length (concat iov))) by lia. done.
        -- intros d w' Hd' Hw'. rewrite <- app_assoc in Hw'. apply (Herr (c ++ d)); [by apply prefix_app|done].
    + rewrite decide_True by lia. repeat wp_step. apply (Herr []); [apply prefix_nil|]. cbn [w_calls].
      by rewrite sent_write, HW.
Qed.

(** * The bytes of the four streams *)

(** What was received from a socket, peeking apart. *)
Fixpoint recvd (fd : Z) (cs : list call) : list Z :=
  match cs with
  | [] => []
  | Crecv fd' n flags :: cs' =>
      recvd fd cs' ++ (if decide (fd' = fd ∧ flags = 0) then
                         match K cs' (Crecv fd' n flags) with ROk l => l | RErr _ => [] end
                       else [])
  | _ :: cs' => recvd fd cs'
  end.

(** Calls that transfer no bytes but those written to [fd]. *)
Definition to_fd (fd : Z) (c : call) : Prop :=
  match c with
  | Cread _ _ | Crecv _ _ _ => False
  | Cwrite fd' _ => fd' = fd
  | _ => True
  end.

(** The streams other than what is sent to [fd] are as they were. *)
Definition keeps (fd : Z) (cs cs' : list call) : Prop :=
  (∀ fd', fd' ≠ fd → sent K fd' cs' = sent K fd' cs) ∧
  (∀ fd', received K fd' cs' = received K fd' cs) ∧ (∀ fd', recvd fd' cs' = recvd fd' cs).

Lemma fd_keeps_refl fd cs : keeps fd cs cs.
Proof. done. Qed.

Lemma fd_keeps_cons fd c cs : to_fd fd c → keeps fd cs (c :: cs).
Proof.
  intros Hc. split_and!; intros fd'; [intros Hne|..]; destruct c; simpl in Hc; try done;
    unfold sent, received; fold (sent K fd') (received K fd');
    unfold write_data, read_data; rewrite ?app_nil_r; try done.
  subst. by rewrite decide_False, app_nil_r by done.
Qed.

Lemma fd_keeps_trans fd cs cs1 cs2 : keeps fd cs cs1 → keeps fd cs1 cs2 → keeps fd cs cs2.
Proof.
  intros (H1 & H2 & H3) (H4 & H5 & H6). split_and!; intros fd'; [intros Hne|..].
  - by rewrite H4, H1.
  - by rewrite H5.
  - by rewrite H6.
Qed.

Lemma fd_keeps_app fd cs cs' : Forall (to_fd fd) cs' → keeps fd cs (cs' ++ cs).
Proof.
  induction 1 as [|c cs' Hc _ IH]; [apply fd_keeps_refl|]. eapply fd_keeps_trans; [exact IH|by apply fd_keeps_cons].
Qed.

(** Add to what is known of a program that it keeps the other streams. *)
Lemma wp_fd_keeps {A} fd (m : M A) w (Q0 Q : outcome A → world → Prop) :
  emits (to_fd fd) m → wp K m w Q0 →
  (∀ o w', Q0 o w' → keeps fd (w_calls w) (w_calls w') → Q o w') →
  wp K m w Q.
Proof.
  intros Hm H HQ. unfold wp in *. apply HQ; [done|].
  destruct (Hm K w) as (cs & -> & Hcs). by apply fd_keeps_app.
Qed.

(** A program that transfers no bytes: it writes to no descriptor at all. *)
Definition no_fd (c : call) : Prop :=
  match c with Cread _ _ | Crecv _ _ _ | Cwrite _ _ => False | _ => True end.
Definition same (cs cs' : list call) : Prop := ∀ fd, keeps fd cs cs'.

Lemma same_sent cs cs' fd : same cs cs' → sent K fd cs' = sent K fd cs.
Proof. intros H. apply (proj1 (H (fd + 1))). lia. Qed.

Lemma wp_same {A} (m : M A) w (Q : outcome A → world → Prop) :
  emits no_fd m → (∀ o w', same (w_calls w) (w_calls w') → o = (m K w).1 → Q o w') →
  wp K m w Q.
Proof.
  intros Hm HQ. unfold wp. apply HQ; [|done]. intros fd.
  destruct (Hm K w) as (cs & -> & Hcs). apply fd_keeps_app. eapply Forall_impl; [exact Hcs|].
  by intros [].
Qed.
(** * dowrite *)

Lemma emits_report_fd fd c : report_call c → to_fd fd c.
Proof. by destruct c. Qed.
Lemma emits_verbosely P text : (∀ t, P (Cfputs stderr t)) → emits P (verbosely g text).
Proof. intros HP. unfold verbosely, eprintf, void. emits_tac; done. Qed.

Lemma emits_print_iov P base iov : (∀ t, P (Cfputs stderr t)) → emits P (print_iov g base iov).
Proof.
  intros HP. unfold print_iov, eprintf, void. emits_tac; done.
Qed.

(** What is printed does not end the program. *)
Lemma print_iov_returns base iov w : (print_iov g base iov K w).1 = Val tt.
Proof.
  change (wp K (print_iov g base iov) w (λ o _, o = Val tt)). unfold print_iov. wp_if; [|done].
  unfold void. wp_step. by apply (wp_for_each K (λ _ _ _, True)); [|intros c l [i p] w1 _|intros s w1 _].
Qed.

Lemma emits_write_chunks fd iov n : emits (to_fd fd) (write_chunks fd iov n).
Proof. revert n. induction iov as [|c iov IH]; intros n; simpl; emits_tac; done || apply IH. Qed.

Lemma emits_dowrite fd base data : emits (to_fd fd) (dowrite g fd base data).
Proof.
  unfold dowrite. emits_tac; try done.
  - by apply emits_print_iov.
  - apply emits_write_chunks.
  - apply emits_err_quit. by intros [].
Qed.

(** A write of all the bytes: what its answer says. *)
Lemma wp_write_all fd data w (Q : outcome Z → world → Prop) :
  (∀ d n w', d `prefix_of` data → (n = Z.of_nat (length data) → d = data) →
     sent K fd (w_calls w') = sent K fd (w_calls w) ++ d → Q (Val n) w') →
  wp K (r ← checked (sys (Cwrite fd data)); mret (res_int r)) w Q.
Proof.
  intros HQ. do 3 wp_step. destruct (K _ (Cwrite fd data)) as [n|e] eqn:HW; cbn [bind_post res_int]; wp_step.
  - pose proof (write_count _ _ _ _ HW) as Hn. apply (HQ (take (Z.to_nat n) data)).
    + exists (drop (Z.to_nat n) data). by rewrite take_drop.
    + intros ->. apply take_ge. lia.
    + cbn [w_calls]. by rewrite sent_write, HW.
  - apply (HQ []); [apply prefix_nil|intros; lia|]. cbn [w_calls]. by rewrite sent_write, HW.
Qed.

Lemma wp_dowrite fd base data w (Q : outcome Z → world → Prop) :
  (∀ d n w', d `prefix_of` data → (n = Z.of_nat (length data) → d = data) →
     sent K fd (w_calls w') = sent K fd (w_calls w) ++ d → keeps fd (w_calls w) (w_calls w') → Q (Val n) w') →
  wp K (dowrite g fd base data) w Q.
Proof.
  intros HQ. apply (wp_fd_keeps fd _ _ (λ o w', ∃ d n, o = Val n ∧ d `prefix_of` data ∧
    (n = Z.of_nat (length data) → d = data) ∧ sent K fd (w_calls w') = sent K fd (w_calls w) ++ d)).
  { apply emits_dowrite. }
  2:{ intros o w' (d & n & -> & H1 & H2 & H3) Hk. by apply (HQ d n w'). }
  unfold dowrite. wp_if; [apply wp_write_all; intros d n w' ???; by exists d, n|].
  destruct (chunk_size_enough (Z.of_nat (length data))) as [Hc1 Hc2]; [lia|].
  destruct (make_iov_spec UIO_MAXIOV _ data Hc1 ltac:(unfold UIO_MAXIOV; lia) Hc2) as (iov & -> & Hcat & _).
  wp_step. apply wp_same; [by apply emits_print_iov|].
  intros o w1 Hs Hv. rewrite print_iov_returns in Hv. subst o. cbn [bind_post].
  rewrite <- (same_sent _ _ fd Hs). wp_if.
  - rewrite Hcat. apply wp_write_all; intros d m w' ???; by exists d, m.
  - apply wp_write_chunks; rewrite Hcat.
    + intros w' Hw'. by exists data, (0 + Z.of_nat (length data)).
    + intros d w' Hd Hw'. exists d, (-1). split_and!; try done. intros ?. lia.
Qed.
End io.

(** * loop_tcp *)

Section loop.
Context (K : kernel) `{!KernelIo K} (g : globals) (sockfd : Z) (w0 : world).
Context (Hpeek : ints g G_msgpeek = 0) (Hfd : 2 < sockfd).

(** The text as it goes to the socket, and as it goes to the standard output. *)
Definition to_net (s : list Z) : list Z := if decide (on g G_crlf) then to_crlf s else s.
Definition from_net (s : list Z) : list Z := if decide (on g G_crlf) then no_cr s else s.

Lemma to_net_app s t : to_net (s ++ t) = to_net s ++ to_net t.
Proof. unfold to_net. case_decide; [apply to_crlf_app|done]. Qed.
Lemma from_net_app s t : from_net (s ++ t) = from_net s ++ from_net t.
Proof. unfold from_net. case_decide; [apply no_cr_app|done]. Qed.

(** Since [w0] the input [i] and the data [r] were received, and [s] and [t] were sent
    to the socket and to the standard output. *)
Definition moved (i r s t : list Z) (cs : list call) : Prop :=
  received K STDIN_FILENO cs = received K STDIN_FILENO (w_calls w0) ++ i ∧
  recvd K sockfd cs = recvd K sockfd (w_calls w0) ++ r ∧
  sent K sockfd cs = sent K sockfd (w_calls w0) ++ s ∧
  sent K STDOUT_FILENO cs = sent K STDOUT_FILENO (w_calls w0) ++ t.

Definition copied (w : world) : Prop := ∃ i r, moved i r (to_net i) (from_net r) (w_calls w).
Definition copying (w : world) : Prop := ∃ i r s t,
  moved i r s t (w_calls w) ∧ s `prefix_of` to_net i ∧ t `prefix_of` from_net r.

Lemma copied_copying w : copied w → copying w.
Proof. intros (i & r & H). by exists i, r, (to_net i), (from_net r). Qed.

Lemma moved_same i r s t cs cs' : same K cs cs' → moved i r s t cs → moved i r s t cs'.
Proof.
  intros Hs (H1 & H2 & H3 & H4). destruct (Hs 0) as (_ & Hr & Hv). unfold moved.
  by rewrite Hr, Hv, !(same_sent K _ _ _ Hs).
Qed.

(** The outcomes that end the program. *)
Definition fails {A} (Q : outcome A → world → Prop) : Prop :=
  ∀ w, copying w → Q (Exit 1) w ∧ Q Aborted w ∧ Q Diverge w.

Lemma same_report cs cs' : Forall report_call cs → same K cs' (cs ++ cs').
Proof. intros Hcs fd. apply fd_keeps_app. eapply Forall_impl; [exact Hcs|]. by intros []. Qed.

Lemma wp_err_sys_same {A} msg w (Q : outcome A → world → Prop) :
  copying w → fails Q → wp K (err_sys msg) w Q.
Proof.
  intros (i & r & s & t & H & Hst) HQ. apply wp_err_sys. intros cs Hcs. apply HQ. exists i, r, s, t.
  split; [|done]. cbn [w_calls]. eapply moved_same; [by apply same_report|done].
Qed.

Lemma wp_err_quit_same {A} msg w (Q : outcome A → world → Prop) :
  copying w → fails Q → wp K (err_quit msg) w Q.
Proof.
  intros (i & r & s & t & H & Hst) HQ. apply wp_err_quit. intros cs Hcs. apply HQ. exists i, r, s, t.
  split; [|done]. cbn [w_calls]. eapply moved_same; [by apply same_report|done].
Qed.

(** A step that transfers nothing. *)
Lemma wp_idle {A} (m : M A) w (Q : outcome A → world → Prop) :
  emits no_fd m → exits1 m → copied w → fails Q →
  (∀ a w', copied w' → Q (Val a) w') → wp K m w Q.
Proof.
  intros Hm Hx (i & r & H) HQ HV. apply wp_same; [done|]. intros o w' Hs Ho.
  assert (Hc : copied w') by (exists i, r; eapply moved_same; done).
  destruct o as [a|c| |].
  - by apply HV.
  - rewrite (Hx K w c (eq_sym Ho)). by apply HQ, copied_copying.
  - by apply HQ, copied_copying.
  - by apply HQ, copied_copying.
Qed.

(** Sending input to the socket. *)
Lemma wp_put_tcp base i r data w (Q : outcome unit → world → Prop) :
  moved (i ++ data) r (to_net i) (from_net r) (w_calls w) → fails Q →
  (∀ w', copied w' → Q (Val tt) w') →
  wp K (put_tcp g sockfd base (to_net data)) w Q.
Proof.
  intros (H1 & H2 & H3 & H4) HQ HV. unfold put_tcp. wp_step. apply wp_dowrite; [done|].
  intros d n w1 Hd Hn Hs (Ho & Hr & Hv). cbn [bind_post].
  assert (Hm : moved (i ++ data) r (to_net i ++ d) (from_net r) (w_calls w1)).
  { unfold moved. rewrite Hr, Hv, Hs, H3, (Ho STDOUT_FILENO) by (unfold STDOUT_FILENO; lia).
    split_and!; try done. by rewrite app_assoc. }
  wp_if.
  - apply wp_err_sys_same; [|done]. eexists _, _, _, _. split; [exact Hm|]. split; [|done].
    rewrite to_net_app. by apply prefix_app.
  - wp_step. apply HV. exists (i ++ data), r. rewrite Hn in Hm by lia. by rewrite to_net_app.
Qed.

(** A read from the standard input, or a receipt from the socket. *)
Lemma moved_read i r s t n cs : moved i r s t cs →
  moved (i ++ match K cs (Cread STDIN_FILENO n) with ROk l => l | RErr _ => [] end) r s t
    (Cread STDIN_FILENO n :: cs).
Proof.
  intros (H1 & H2 & H3 & H4). unfold moved. rewrite received_read, !sent_read. cbn [recvd].
  split_and!; try done. by rewrite H1, app_assoc.
Qed.

Lemma moved_recv i r s t n cs : moved i r s t cs →
  moved i (r ++ match K cs (Crecv sockfd n 0) with ROk l => l | RErr _ => [] end) s t
    (Crecv sockfd n 0 :: cs).
Proof.
  intros (H1 & H2 & H3 & H4). unfold moved, received, sent. fold (received K STDIN_FILENO) (sent K sockfd) (sent K STDOUT_FILENO).
  unfold read_data, write_data. rewrite !app_nil_r. cbn [recvd]. rewrite decide_True by done.
  split_and!; try done. by rewrite H2, app_assoc.
Qed.

Lemma crlf_add_to_net d data out : crlf_add d data = Some out → out = to_crlf data.
Proof.
  unfold crlf_add. case_decide; [done|]. rewrite crlf_add_loop_spec. case_decide; congruence.
Qed.
Lemma crlf_strip_from_net d data out : crlf_strip d data = Some out → out = no_cr data.
Proof. unfold crlf_strip. rewrite crlf_strip_loop_spec. case_decide; congruence. Qed.

(** Failing once the input [data] was read. *)
Lemma moved_copying_in i r data w : moved (i ++ data) r (to_net i) (from_net r) (w_calls w) → copying w.
Proof.
  intros H. eexists _, _, _, _. split; [exact H|]. split; [|done]. rewrite to_net_app. by apply prefix_app_r.
Qed.
Lemma moved_copying_out i r data t w :
  moved i (r ++ data) (to_net i) (from_net r ++ t) (w_calls w) → t `prefix_of` from_net data → copying w.
Proof.
  intros H Ht. eexists _, _, _, _. split; [exact H|]. split; [done|]. rewrite from_net_app. by apply prefix_app.
Qed.

Lemma wp_loop_stdin rset w (Q : outcome stdin_step → world → Prop) :
  copied w → fails Q → (∀ step w', copied w' → Q (Val step) w') →
  wp K (loop_stdin g sockfd rset (put_tcp g sockfd)) w Q.
Proof.
  intros (i & r & H) HQ HV. unfold loop_stdin. wp_step. apply wp_or_err_sys. wp_step.
  apply (moved_read _ _ _ _ (ints g G_readlen)) in H.
  destruct (K (w_calls w) (Cread STDIN_FILENO _)) as [data|e] eqn:HK.
  2:{ intros cs Hcs. apply HQ, copied_copying. exists i, r. rewrite app_nil_r in H.
      eapply moved_same; [by apply same_report|done]. }
  cbn [bind_post].
  assert (Hput : ∀ base out w1, out = to_net data → moved (i ++ data) r (to_net i) (from_net r) (w_calls w1) →
    wp K (put_tcp g sockfd base out;; mret Goon) w1 Q).
  { intros base out w1 -> Hm. wp_step. eapply wp_put_tcp; [exact Hm| |].
    - intros w2 Hw2. by apply HQ.
    - intros w2 Hw2. cbn [bind_post]. wp_step. by apply HV. }
  wp_if.
  - destruct data; [|done]. rewrite app_nil_r in H. assert (Hc : copied (World (Cread STDIN_FILENO (ints g G_readlen) :: w_calls w) (w_errno w) (w_daemon w)))
      by by exists i, r.
    wp_if; [|wp_step; by apply HV]. wp_step. apply wp_idle; [..|done| |].
    + apply emits_or_err_sys; [by intros []|by apply emits_sys].
    + exits1_tac.
    + intros w1 Hw1. by apply HQ.
    + intros [] w1 Hw1. cbn [bind_post]. wp_step. by apply HV.
  - case_decide as Hcr.
    + destruct (crlf_add _ data) as [out|] eqn:Ha.
      * apply Hput; [unfold to_net; rewrite decide_True by done; by eapply crlf_add_to_net|done].
      * apply wp_err_quit_same; [|done]. by eapply moved_copying_in.
    + apply Hput; [unfold to_net; by rewrite decide_False|done].
Qed.

(** Data received and not yet written. *)
Lemma wp_loop_stdout fuel i r data w (Q : outcome unit → world → Prop) :
  moved i (r ++ data) (to_net i) (from_net r) (w_calls w) → fails Q →
  (∀ w', copied w' → Q (Val tt) w') →
  wp K (loop_stdout fuel g data) w Q.
Proof.
  intros H HQ HV.
  assert (Hout : ∀ out, out = from_net data → wp K (writen_stdout fuel out) w Q).
  { intros out ->. unfold writen_stdout. wp_step.
    assert (Hm : ∀ d w1, sent K STDOUT_FILENO (w_calls w1) = sent K STDOUT_FILENO (w_calls w) ++ d →
      keeps K STDOUT_FILENO (w_calls w) (w_calls w1) →
      moved i (r ++ data) (to_net i) (from_net r ++ d) (w_calls w1)).
    { intros d w1 Hs (Ho & Hr & Hv). destruct H as (H1 & H2 & H3 & H4). unfold moved.
      rewrite Hr, Hv, Hs, H4, (Ho sockfd) by (unfold STDOUT_FILENO; lia). split_and!; try done.
      by rewrite app_assoc. }
    apply (wp_fd_keeps K STDOUT_FILENO _ _ (λ o w1, ∃ d, d `prefix_of` from_net data ∧
      sent K STDOUT_FILENO (w_calls w1) = sent K STDOUT_FILENO (w_calls w) ++ d ∧
      match o with Val n => n = Z.of_nat (length (from_net data)) → d = from_net data | Exit c => False | _ => True end)).
    - by apply emits_writen.
    - apply wp_writen.
      + done.
      + intros w1 Hs _ _. by exists (from_net data).
      + intros w1 d Hd Hs _. split; [|intros _; by exists d]. exists d. split_and!; try done. lia.
    - intros o w1 (d & Hd & Hs & Ho) Hk. specialize (Hm d w1 Hs Hk).
      assert (Hc : copying w1) by by eapply moved_copying_out.
      destruct o as [n|c| |]; cbn [bind_post]; [|done|by apply HQ..].
      wp_if; [by apply wp_err_sys_same|]. wp_step. apply HV. exists i, (r ++ data).
      rewrite from_net_app. rewrite Ho in Hm by lia. done. }
  unfold loop_stdout. case_decide as Hcr.
  - destruct (crlf_strip _ data) as [out|] eqn:Ha.
    + apply Hout. unfold from_net. rewrite decide_True by done. by eapply crlf_strip_from_net.
    + apply wp_err_quit_same; [|done]. apply (moved_copying_out i r data []); [by rewrite app_nil_r|apply prefix_nil].
  - apply Hout. unfold from_net. by rewrite decide_False.
Qed.

Lemma emits_verbosely_no_fd text : emits no_fd (verbosely g text).
Proof. by apply emits_verbosely. Qed.
Lemma exits1_verbosely text : exits1 (verbosely g text).
Proof. unfold verbosely, eprintf, void. exits1_tac. Qed.

Lemma wp_recv_once fuel w (Q : outcome bool → world → Prop) :
  copied w → fails Q → (∀ eof w', copied w' → Q (Val eof) w') →
  wp K (recv_once fuel g sockfd 0) w Q.
Proof.
  intros (i & r & H) HQ HV. unfold recv_once. wp_step. apply wp_or_err_sys. wp_step.
  apply (moved_recv _ _ _ _ (ints g G_readlen)) in H.
  destruct (K (w_calls w) (Crecv sockfd _ 0)) as [data|e] eqn:HK.
  2:{ intros cs Hcs. apply HQ, copied_copying. exists i, r. rewrite app_nil_r in H.
      eapply moved_same; [by apply same_report|done]. }
  cbn [bind_post]. wp_if.
  - destruct data; [|done]. rewrite app_nil_r in H. wp_step.
    apply wp_idle; [apply emits_verbosely_no_fd|apply exits1_verbosely|by exists i, r|done|].
    intros [] w1 Hw1. cbn [bind_post]. wp_step. by apply HV.
  - wp_step. eapply wp_loop_stdout; [exact H|done|]. intros w1 Hw1. cbn [bind_post]. wp_step. by apply HV.
Qed.

Lemma wp_tcp_round fuel s w (Q : outcome (gset Z * bool + unit) → world → Prop) :
  copied w → fails Q → (∀ x w', copied w' → Q (Val x) w') →
  wp K (tcp_round fuel g sockfd s) w Q.
Proof.
  intros Hw HQ HV. destruct s as [rset stdineof]. unfold tcp_round. wp_step.
  apply wp_idle; [| |done|done|].
  { unfold loop_select. emits_tac. apply emits_or_err_sys; [by intros []|by apply emits_sys]. }
  { unfold loop_select. exits1_tac. }
  clear rset. intros rset w1 Hw1. cbn [bind_post]. wp_step.
  assert (Hrest : ∀ step w', copied w' → wp K match step with
      | Again rset => mret (inl (rset, true))
      | Stop => mret (inr tt)
      | Goon => if decide (sockfd ∈ rset) then
                  eof ← recv_peek fuel g sockfd;
                  if eof : bool then mret (inr tt) else mret (inl (rset, stdineof))
                else mret (inl (rset, stdineof))
      end w' Q).
  { intros [|rset'|] w2 Hw2; [|wp_step; by apply HV..]. wp_if; [|wp_step; by apply HV]. wp_step.
    unfold recv_peek. rewrite Hpeek. wp_step. apply wp_recv_once; [done|done|].
    intros eof w3 Hw3. cbn [bind_post]. rewrite (decide_False (P := on g G_msgpeek)) by (unfold on; lia).
    destruct eof; wp_step; wp_step; by apply HV. }
  wp_if; [apply wp_loop_stdin; [done|done|by intros; apply Hrest]|].
  wp_step. by apply (Hrest Goon).
Qed.
Lemma emits_sleep_us fuel n : emits no_fd (sleep_us fuel n).
Proof. unfold sleep_us. emits_tac; try done. apply emits_err_sys. by intros []. Qed.
Lemma exits1_sleep_us fuel n : exits1 (sleep_us fuel n).
Proof. unfold sleep_us. exits1_tac. Qed.

Lemma emits_pause fuel x : emits no_fd (pause fuel g x).
Proof. unfold pause. emits_tac. apply emits_sleep_us. Qed.
Lemma exits1_pause fuel x : exits1 (pause fuel g x).
Proof. unfold pause. exits1_tac. apply exits1_sleep_us. Qed.

Lemma emits_pause_close fuel : emits no_fd (pause_close fuel g sockfd).
Proof.
  unfold pause_close, when. emits_tac; [apply emits_verbosely_no_fd|apply emits_pause|].
  apply emits_or_err_sys; [by intros []|by apply emits_sys].
Qed.
Lemma exits1_pause_close fuel : exits1 (pause_close fuel g sockfd).
Proof. unfold pause_close, when. exits1_tac; [apply exits1_verbosely|apply exits1_pause]. Qed.

Lemma wp_loop_tcp fuel (Q : outcome unit → world → Prop) :
  fails Q → (∀ w', copied w' → Q (Val tt) w') → wp K (loop_tcp fuel g sockfd) w0 Q.
Proof.
  intros HQ HV. unfold loop_tcp. wp_step. apply wp_idle; [apply emits_pause|apply exits1_pause| |done|].
  { exists [], []. unfold moved, to_net, from_net. rewrite !app_nil_r. repeat case_decide; by rewrite !app_nil_r. }
  intros [] w1 Hw1. cbn [bind_post]. wp_step. apply (wp_iter K (λ _ w, copied w)); [done|..].
  - intros s w2 Hw2. apply wp_tcp_round; [done|done|]. intros [s'|[]] w3 Hw3; cbn [bind_post]; [done|].
    apply wp_idle; [apply emits_pause_close|apply exits1_pause_close|done|done|]. by intros [].
  - intros s w2 Hw2. by apply HQ, copied_copying.
Qed.
End loop.

(** C37: Without the option to peek, [loop_tcp] sends to the socket exactly what it
    reads from the standard input, with a return before each newline when -c was
    given, and writes to the standard output exactly what it receives from the
    socket, without the returns when -c was given: in order, whatever the sizes of the
    pieces and whether it writes at once, in chunks or with [writev].  What it has
    sent is at any time a prefix of what it should send, and all of it whenever
    it returns. *)
Theorem loop_tcp_copies (K : kernel) `{!KernelIo K} fuel g sockfd w :
  ints g G_msgpeek = 0 → 2 < sockfd →
  let '(o, w') := loop_tcp fuel g sockfd K w in
  ∃ i r s t,
    received K STDIN_FILENO (w_calls w') = received K STDIN_FILENO (w_calls w) ++ i ∧
    recvd K sockfd (w_calls w') = recvd K sockfd (w_calls w) ++ r ∧
    sent K sockfd (w_calls w') = sent K sockfd (w_calls w) ++ s ∧
    sent K STDOUT_FILENO (w_calls w') = sent K STDOUT_FILENO (w_calls w) ++ t ∧
    s `prefix_of` to_net g i ∧ t `prefix_of` from_net g r ∧
    match o with
    | Val _ => s = to_net g i ∧ t = from_net g r
    | Exit c => c = 1
    | _ => True
    end.
Proof.
  intros Hpeek Hfd.
  set (P := λ (o : outcome unit) w', ∃ i r s t, moved K sockfd w i r s t (w_calls w') ∧
    s `prefix_of` to_net g i ∧ t `prefix_of` from_net g r ∧
    match o with Val _ => s = to_net g i ∧ t = from_net g r | Exit c => c = 1 | _ => True end).
  assert (H : wp K (loop_tcp fuel g sockfd) w P).
  { apply wp_loop_tcp; try done.
    - intros w' (i & r & s & t & Hm & Hs & Ht). split_and!; by exists i, r, s, t.
    - intros w' (i & r & Hm). by exists i, r, (to_net g i), (from_net g r). }
  unfold wp in H. destruct (loop_tcp fuel g sockfd K w) as [o w'].
  destruct H as (i & r & s & t & (H1 & H2 & H3 & H4) & Hs & Ht & Ho). by exists i, r, s, t.
Qed.

(** Everything is ready at once; a line comes from each side. *)
Definition copy_kernel : kernel := λ cs c,
  match c with
  | Cselect _ rset _ _ => ROk (1, rset, ∅)
  | Crecv _ _ _ => ROk [98; ch_cr; ch_nl]
  | Cclose _ => ROk tt
  | c => script_kernel [ROk [97; ch_nl]] 4096 cs c
  end.

#[global] Instance copy_kernel_io : KernelIo copy_kernel.
Proof. destruct (script_kernel_io [ROk [97; ch_nl]] 4096) as [H1 H2 H3]. split; [apply H1|apply H2|apply H3]. Qed.

Definition crlf_globals : globals := set_int G_crlf 1 init_globals.

Lemma loop_tcp_copies_witness :
  sent copy_kernel 3 (w_calls (loop_tcp 9 crlf_globals 3 copy_kernel world0).2) = [97; ch_cr; ch_nl] ∧
  sent copy_kernel STDOUT_FILENO (w_calls (loop_tcp 9 crlf_globals 3 copy_kernel world0).2) = [98; ch_nl].
Proof.
  pose proof (loop_tcp_copies copy_kernel 9 crlf_globals 3 world0 eq_refl eq_refl) as H.
  destruct (loop_tcp 9 crlf_globals 3 copy_kernel world0) as [o w'] eqn:E.
  destruct H as (i & r & s & t & Hi & Hr & Hs & Ht & _ & _ & Ho).
  assert (Hv : o = Val tt ∧ received copy_kernel STDIN_FILENO (w_calls w') = [97; ch_nl] ∧
               recvd copy_kernel 3 (w_calls w') = [98; ch_cr; ch_nl]).
  { revert E. vm_compute. by intros [= <- <-]. }
  destruct Hv as (-> & Ei & Er). destruct Ho as [-> ->]. cbn [snd]. rewrite Hs, Ht.
  assert (i = [97; ch_nl]) as -> by (rewrite Ei in Hi; by symmetry).
  assert (r = [98; ch_cr; ch_nl]) as -> by (rewrite Er in Hr; by symmetry).
  split; reflexivity.
Defined.

(** * Behaviours on this host *)

Definition dotted (s : list Z) : option (list Z) :=
  match s with
  | [49] => Some [192; 0; 2; 1]
  | _ => None
  end.

(** The source route for one hop: the option has length 11, and its second address
    is what lay in memory behind the first one; the destination is stored behind
    it. *)
Lemma sroute_one_hop :
  let K : kernel := λ _ c, match c with Csetsockopt _ _ _ _ => ROk tt | c => default_ans c end in
  (g ← sroute_doopt dotted [7; 7; 7; 7] false (str "1") (set_servaddr (SaIn 0 [10; 0; 0; 9]) init_globals);
   sroute_set g 3) K world0 =
  (Val (set_int G_sroute_cnt 0
     (set_sroute ([IPOPT_LSRR; 11; 4] ++ [192; 0; 2; 1] ++ [7; 7; 7; 7] ++ [10; 0; 0; 9] ++ repeat 0 29) 20
       (set_int G_sroute_cnt 1
         (set_sroute ([IPOPT_LSRR; 0; 4] ++ [192; 0; 2; 1] ++ [7; 7; 7; 7] ++ repeat 0 33) 11
           (set_servaddr (SaIn 0 [10; 0; 0; 9]) init_globals))))),
   World [Csetsockopt 3 IPPROTO_IP IP_OPTIONS
            ([IPOPT_LSRR; 11; 4] ++ [192; 0; 2; 1] ++ [7; 7; 7; 7] ++ [10; 0; 0; 9] ++ repeat 0 5)] 0 false).
Proof. vm_compute. done. Qed.

(** The sixth hop is stored behind the end of the array. *)
Lemma sroute_overflows K :
  (for_each (repeat (str "1") 6) (λ s g, sroute_doopt dotted [0; 0; 0; 0] false s g) init_globals K world0).1
    = Aborted.
Proof. vm_compute. done. Qed.

(** A server bound to the group 224.0.0.1 does not join it. *)
Lemma join_mcast_224_0_0_1 K g fd w : join_mcast g fd [224; 0; 0; 1] K w = (Val tt, w).
Proof. done. Qed.

(** When the second child signals the parent after the parent has tested [sigflag], the
    parent waits for another signal. *)
Definition early_signal : kernel := λ cs c,
  match c with
  | Cdeliver s => if decide (s = SIGUSR2 ∧ (2 <= length cs)%nat) then 1%nat else 0%nat
  | c => default_ans c
  end.
Lemma wait_child_late :
  ∃ w', usr_point (Waiter false false) early_signal world0 = (Val (Waiter false false), w') ∧
    let '(st, w2) := usr_point (Waiter false false) early_signal w' in
    st = Val (Waiter true false) ∧
    w_calls (iter 1 (λ st,
      st ← usr_point st;
      if sigflag st then mret (inr st)
      else
        st ← usr_point st;
        signo ← sys (Csigsuspend zeromask);
        mret (inl (Waiter (sigflag st || bool_decide (signo = SIGUSR1 ∨ signo = SIGUSR2)) (blocked st))))
      (Waiter false false) early_signal world0).2 = Csigsuspend zeromask :: w_calls w2.
Proof. eexists. vm_compute. done. Qed.
