(* ===== verification/Sockopt.v ===== *)
(** [sockopt/]: the programs that print and set the buffer sizes and the segment size
    of a TCP socket.  [checkopts.c] is not here: it names [SO_USELOOPBACK], which the
    configuration does not have. *)

From S2P Require Import Prelude Net Sys Error Wrap TcpServ Packet Oob Sock.

Definition SO_RCVLOWAT : Z := 18.
Definition SO_SNDLOWAT : Z := 19.

(** prdefaults.c *)
Definition print_default (fd : Z) (name : list Z) (opt : Z) (optname what : string) : M unit :=
  val ← or_err_sys (str optname ++ str " getsockopt error") (sys (Cgetsockopt fd SOL_SOCKET opt));
  printf (name ++ str " " ++ str what ++ str " = " ++ fmt_d val ++ [ch_nl]).
Definition prdefaults_doit (fd : Z) (name : list Z) : M unit :=
  print_default fd name SO_SNDBUF "SO_SNDBUF" "send buffer size";;
  print_default fd name SO_RCVBUF "SO_RCVBUF" "recv buffer size";;
  print_default fd name SO_SNDLOWAT "SO_SNDLOWAT" "send low-water mark";;
  print_default fd name SO_RCVLOWAT "SO_RCVLOWAT" "receive low-water mark size".
Definition prdefaults : M unit :=
  tcpsock ← or_err_sys (str "TCP socket error") (sys (Csocket AF_INET SOCK_STREAM 0));
  prdefaults_doit tcpsock (str "tcp");;
  udpsock ← or_err_sys (str "UDP socket error") (sys (Csocket AF_INET SOCK_DGRAM 0));
  prdefaults_doit udpsock (str "udp");;
  exit 0.

(** rcvbuf.c and rcvbufset.c *)
Definition print_sizes (sockfd : Z) (when : string) : M unit :=
  rcvbuf ← Getsockopt sockfd SOL_SOCKET SO_RCVBUF;
  mss ← Getsockopt sockfd IPPROTO_TCP TCP_MAXSEG;
  printf (str when ++ str ": SO_RCVBUF = " ++ fmt_d rcvbuf ++ str ", MSS = " ++ fmt_d mss ++ [ch_nl]).
Definition connect_daytime (sockfd : Z) (host : list Z) : M unit :=
  addr ← Inet_pton AF_INET host;
  Connect sockfd (SaIn (htons 13) addr).
Definition rcvbuf_main (argv : list (list Z)) : M unit :=
  if decide (length argv ≠ 2%nat) then err_quit (str "usage: rcvbuf <IPaddress>")
  else
    sockfd ← Socket AF_INET SOCK_STREAM 0;
    print_sizes sockfd "defaults";;
    connect_daytime sockfd (nth 1 argv []);;
    print_sizes sockfd "after connect";;
    exit 0.
Definition rcvbufset_main (argv : list (list Z)) : M unit :=
  if decide (length argv ≠ 2%nat) then err_quit (str "usage: rcvbufset <IPaddress>")
  else
    sockfd ← Socket AF_INET SOCK_STREAM 0;
    print_sizes sockfd "defaults";;
    Setsockopt sockfd SOL_SOCKET SO_RCVBUF (le_bytes 4 9973);;
    rcvbuf ← Getsockopt sockfd SOL_SOCKET SO_RCVBUF;
    printf (str "SO_RCVBUF = " ++ fmt_d rcvbuf ++ str " (after setting it to 9973)" ++ [ch_nl]);;
    connect_daytime sockfd (nth 1 argv []);;
    print_sizes sockfd "after connect";;
    exit 0.

(** sockopt.c *)
Definition sockopt_main : M unit :=
  sockfd ← Socket AF_INET SOCK_STREAM 0;
  mss ← Getsockopt sockfd IPPROTO_TCP TCP_MAXSEG;
  printf (str "TCP mss = " ++ fmt_d mss ++ [ch_nl]);;
  Setsockopt sockfd SOL_SOCKET SO_SNDBUF (le_bytes 4 65536);;
  sendbuff ← Getsockopt sockfd SOL_SOCKET SO_SNDBUF;
  printf (str "send buffer size = " ++ fmt_d sendbuff ++ [ch_nl]);;
  exit 0.
