(* ===== verification/Udpcksum.v ===== *)
(** [udpcksum/]: a program that sends a DNS query as an IP datagram of its own
    making, through a raw socket, and tells from the reply whether UDP checksums are
    on.

    [struct udpiphdr] is that of BSD's <netinet/udp_var.h>: nine unused bytes, the
    protocol, a length and the two addresses in the place of the IP header, and the
    UDP header behind them.  The program that uses libnet is not here.  [cleanup] is
    also the handler of SIGTERM, SIGINT and SIGHUP, which end the process; the points
    where these arrive are not marked. *)

From S2P Require Import Prelude Net Sys Error Wrap SockAddr Io Connect TcpServ Cksum Packet Rtt Sock.

Definition TTL_OUT : Z := 64.
Definition IPVERSION : Z := 4.
Definition IP_HDRINCL : Z := 3.
Definition sizeof_udpiphdr : nat := 28.
Definition DLT_NULL : Z := 0.
Definition DLT_EN10MB : Z := 1.
Definition DLT_SLIP : Z := 8.
Definition DLT_PPP : Z := 9.
Definition ETHERTYPE_IP : Z := 2048.
Definition SIGINT : Z := 2.
Definition SIGTERM : Z := 15.

Section udpcksum.
Context (dest local : sockaddr) (verbose zerosum : bool).

(** * udpwrite.c *)

Definition open_output : M Z :=
  rawfd ← Socket (sa_family dest) SOCK_RAW 0;
  Setsockopt rawfd IPPROTO_IP IP_HDRINCL (le_bytes 4 1);;
  mret rawfd.

(** The addresses are read as [struct sockaddr_in]. *)
Definition sin_of (sa : sockaddr) : M (Z * list Z) :=
  match sa with SaIn p a => mret (p, a) | _ => abort end.

(** The UDP header and the pseudo-header in [buf], whose data has [userlen] bytes; the
    checksum is that of the two and the data. *)
Definition udp_header (buf : list Z) (userlen : Z) (src dst : Z * list Z) : list Z :=
  let buf := store_at buf 0 (repeat 0 sizeof_udpiphdr) in
  let ui_len := le_bytes 2 (htons (u16 (8 + userlen))) in
  let buf := store_at buf 10 ui_len in
  let buf := store_at buf 9 [IPPROTO_UDP] in
  let buf := store_at buf 12 src.2 in
  let buf := store_at buf 16 dst.2 in
  let buf := store_at buf 20 (le_bytes 2 src.1) in
  let buf := store_at buf 22 (le_bytes 2 dst.1) in
  let buf := store_at buf 24 ui_len in
  if zerosum then buf
  else
    let ui_sum := in_cksum (take (Z.to_nat (userlen + 28)) buf) in
    store_at buf 26 (le_bytes 2 (if decide (ui_sum = 0) then 65535 else ui_sum)).

(** The rest of the IP header.  [ui_len] stays in the place of the IP checksum, which
    the kernel computes. *)
Definition ip_header_out (buf : list Z) (len : Z) : list Z :=
  let buf := store_at buf 0 [Z.lor (Z.shiftl IPVERSION 4) (Z.shiftr 20 2)] in
  let buf := store_at buf 1 [0] in
  let buf := store_at buf 2 (le_bytes 2 (htons len)) in
  let buf := store_at buf 4 [0; 0] in
  let buf := store_at buf 6 [0; 0] in
  store_at buf 8 [TTL_OUT].

Definition udp_write (rawfd : Z) (buf : list Z) (userlen : Z) : M unit :=
  src ← sin_of local;
  dst ← sin_of dest;
  let buf := udp_header buf userlen src dst in
  let userlen := userlen + 28 in
  let buf := ip_header_out buf userlen in
  Sendto rawfd (take (Z.to_nat userlen) buf) dest.

(** * senddnsquery-raw.c *)

(** The query for the address of a.root-servers.net. *)
Definition dns_query : list Z :=
  le_bytes 2 (htons 1234) ++ le_bytes 2 (htons 256) ++ le_bytes 2 (htons 1) ++ le_bytes 2 0
    ++ le_bytes 2 0 ++ le_bytes 2 0
    ++ ([1] ++ str "a" ++ [12] ++ str "root-servers" ++ [3] ++ str "net" ++ [0])
    ++ le_bytes 2 (htons 1) ++ le_bytes 2 (htons 1).

(** [junk] is what the allocated memory holds. *)
Definition send_dns_query (junk : list Z) (rawfd : Z) : M unit :=
  Malloc 128;;
  let buf := store_at junk sizeof_udpiphdr dns_query in
  let nbytes := Z.of_nat (length dns_query) in
  udp_write rawfd buf nbytes;;
  if verbose then printf (str "sent: " ++ fmt_d nbytes ++ str " bytes of data" ++ [ch_nl]) else mret tt.

(** * pcap.c *)

Definition pcap_failed {A} (pd : Z) (what : string) : M A :=
  e ← sys (Cpcap (Pc_geterr pd));
  err_quit (str what ++ str ": " ++ e).

(** The device, if [-i] gave one; the results are the descriptor of the capture and
    the type of its link. *)
Definition open_pcap (device : option (list Z)) : M (Z * Z) :=
  device ← match device with
           | Some d => mret d
           | None =>
               r ← sys (Cpcap Pc_lookupdev);
               match r with inl e => err_quit (str "pcap_lookup: " ++ e) | inr d => mret d end
           end;
  printf (str "device = " ++ device ++ [ch_nl]);;
  r ← sys (Cpcap (Pc_open_live device 200 0 500));
  pd ← match r with inl e => err_quit (str "pcap_open_live: " ++ e) | inr pd => mret pd end;
  r ← sys (Cpcap (Pc_lookupnet device));
  '(localnet, netmask) ← match r with inl e => err_quit (str "pcap_lookupnet: " ++ e) | inr n => mret n end;
  (if verbose then
     str1 ← Inet_ntop AF_INET localnet (Some tt) INET_ADDRSTRLEN;
     str2 ← Inet_ntop AF_INET netmask (Some tt) INET_ADDRSTRLEN;
     printf (str "localnet = " ++ c_str str1 ++ str ", netmask = " ++ c_str str2 ++ [ch_nl])
   else mret tt);;
  host ← Sock_ntop_host dest (sa_len dest);
  let cmd := snprintf_trunc MAXLINE (str "udp and src host " ++ host ++ str " and src port "
                                      ++ fmt_d (ntohs (sock_get_port dest))) in
  (if verbose then printf (str "cmd = " ++ cmd ++ [ch_nl]) else mret tt);;
  n ← sys (Cpcap (Pc_compile pd cmd 0 netmask));
  (if decide (n < 0) then pcap_failed pd "pcap_compile" else mret tt);;
  n ← sys (Cpcap (Pc_setfilter pd));
  (if decide (n < 0) then pcap_failed pd "pcap_setfilter" else mret tt);;
  datalink ← sys (Cpcap (Pc_datalink pd));
  (if decide (datalink < 0) then pcap_failed pd "pcap_datalink" else mret tt);;
  (if verbose then printf (str "datalink = " ++ fmt_d datalink ++ [ch_nl]) else mret tt);;
  mret (pd, datalink).

(** [None] is the jump of the handler of [SIGALRM], which can come between two calls
    of [pcap_next]. *)
Definition next_pcap (fuel : nat) (pd : Z) : M (option (list Z)) :=
  iter fuel (λ _ : unit,
    jump ← interrupted;
    if jump : bool then mret (inr None)
    else
      ptr ← sys (Cpcap (Pc_next pd));
      match ptr with
      | None => mret (inl tt)
      | Some ptr => mret (inr (Some ptr))
      end) tt.

(** * udpread.c *)

(** [len] is compared as a [size_t].  Reading beyond the captured bytes, which a
    negative length leads to, is undefined behaviour, shown as [Aborted].  The result
    is the packet, with zero as its IP checksum. *)
Definition udp_check (ptr : list Z) (len : Z) : M (list Z) :=
  if decide (u64 len < 28) then err_quit (str "len = " ++ fmt_d len)
  else if decide (length ptr < 28)%nat then abort
  else
    let ip_v := Z.shiftr (byte_at ptr 0) 4 in
    if decide (ip_v ≠ IPVERSION) then err_quit (str "ip_v = " ++ fmt_d ip_v)
    else
      let hlen := ip_hlen ptr 0 in
      if decide (hlen < 20) then err_quit (str "ip_hl = " ++ fmt_d (Z.land (byte_at ptr 0) 15))
      else if decide (u64 len < hlen + 8) then
        err_quit (str "len = " ++ fmt_d len ++ str ", hlen = " ++ fmt_d hlen)
      else
        let ip_sum := in_cksum (take (Z.to_nat hlen) ptr) in
        if decide (ip_sum ≠ 0) then err_quit (str "ip checksum error")
        else if decide (ip_p ptr 0 = IPPROTO_UDP) then mret (store_at ptr 10 (le_bytes 2 ip_sum))
        else err_quit (str "not a UDP packet").

(** [check] of what follows a link header of [n] bytes. *)
Definition skip_link (n : nat) (ptr : list Z) : M (option (list Z)) :=
  ui ← udp_check (drop n ptr) (Z.of_nat (length ptr) - Z.of_nat n);
  mret (Some ui).

(** Every case of the loop returns. *)
Definition udp_read (fuel : nat) (pd datalink : Z) : M (option (list Z)) :=
  r ← next_pcap fuel pd;
  match r with
  | None => mret None
  | Some ptr =>
      if decide (datalink = DLT_NULL) then skip_link 4 ptr
      else if decide (datalink = DLT_EN10MB) then
        if decide (length ptr < 14)%nat then abort
        else
          let ether_type := ntohs (u16_at ptr 12) in
          if decide (ether_type ≠ ETHERTYPE_IP) then
            err_quit (str "Ethernet type " ++ fmt_x ether_type ++ str " not IP")
          else skip_link 14 ptr
      else if decide (datalink = DLT_SLIP ∨ datalink = DLT_PPP) then skip_link 24 ptr
      else err_quit (str "unsupported datalink (" ++ fmt_d datalink ++ str ")")
  end.

(** * udpcksum.c *)

(** What follows the jump to [sigsetjmp]. *)
Definition udp_timeout (nsent timeout : Z) : M (Z * Z + list Z) :=
  if decide (nsent >= 3) then err_quit (str "no response")
  else
    printf (str "timeout" ++ [ch_nl]);;
    mret (inl (nsent, timeout * 2)).

Definition query_round (fuel : nat) (junk : list Z) (rawfd pd datalink : Z) (s : Z * Z)
    : M (Z * Z + list Z) :=
  let '(nsent, timeout) := s in
  send_dns_query junk rawfd;;
  let nsent := nsent + 1 in
  sys (Calarm timeout);;
  ui ← udp_read fuel pd datalink;
  match ui with
  | None => udp_timeout nsent timeout
  | Some ui =>
      jump ← interrupted;
      if jump : bool then udp_timeout nsent timeout else mret (inr ui)
  end.

Definition ui_sum (ui : list Z) : Z := u16_at ui 26.

Definition test_udp (fuel : nat) (junk : list Z) (rawfd pd datalink : Z) : M unit :=
  Signal SIGALRM (Handler "sig_alrm");;
  ui ← iter fuel (query_round fuel junk rawfd pd datalink) (0, 3);
  sys (Calarm 0);;
  (if decide (ui_sum ui = 0) then printf (str "UDP checksums off" ++ [ch_nl])
   else printf (str "UDP checksums on" ++ [ch_nl]));;
  if verbose then printf (str "received UDP checksum = " ++ fmt_x (ntohs (ui_sum ui)) ++ [ch_nl])
  else mret tt.

(** * cleanup.c *)

Definition cleanup (pd : Z) : M unit :=
  printf [ch_nl];;
  (if verbose then
     r ← sys (Cpcap (Pc_stats pd));
     match r with
     | None => e ← sys (Cpcap (Pc_geterr pd)); err_quit (str "pcap_stats: " ++ e ++ [ch_nl])
     | Some (ps_recv, ps_drop) =>
         printf (fmt_d (s32 ps_recv) ++ str " packets received by filter" ++ [ch_nl]);;
         printf (fmt_d (s32 ps_drop) ++ str " packets dropped by kernel" ++ [ch_nl])
     end
   else mret tt);;
  exit 0.
End udpcksum.

(** * main.c *)

Definition udpcksum_usage {A} (msg : list Z) : M A :=
  err_msg (join [ch_nl] [
    str "usage: udpcksum [ options ] <host> <serv>";
    str "options: -0    send UDP datagram with checksum set to 0";
    str "         -i s  packet capture device";
    str "         -l a.b.c.d.p  local IP=a.b.c.d, local port=p";
    str "         -v    verbose output"]);;
  if decide (msg ≠ []) then err_quit msg else exit 1.

(** What the options set. *)
Record udpopts := Udpopts {
  o_zerosum : bool;
  o_device : option (list Z);
  o_local : option (list Z * list Z);
  o_verbose : bool
}.

Definition udp_option (o : ascii * list Z) (u : udpopts) : M udpopts :=
  let '(c, optarg) := o in
  if decide (c = "0"%char) then mret (Udpopts true (o_device u) (o_local u) (o_verbose u))
  else if decide (c = "i"%char) then mret (Udpopts (o_zerosum u) (Some optarg) (o_local u) (o_verbose u))
  else if decide (c = "l"%char) then
    match last_period optarg with
    | None => udpcksum_usage (str "invalid -l option")
    | Some l => mret (Udpopts (o_zerosum u) (o_device u) (Some l) (o_verbose u))
    end
  else if decide (c = "v"%char) then mret (Udpopts (o_zerosum u) (o_device u) (o_local u) true)
  else if decide (c = "?"%char) then udpcksum_usage (str "unrecognized option")
  else mret u.

(** [strncpy] leaves a name of 1024 bytes or more without an end. *)
Definition udp_local (o : option (list Z * list Z)) (dest : sockaddr) : M sockaddr :=
  match o with
  | Some (localname, localport) =>
      if decide (1024 <= length localname)%nat then abort
      else
        '(aip, _) ← Host_serv (Some localname) (Some localport) AF_INET SOCK_DGRAM;
        mret (ai_addr aip)
  | None =>
      s ← Socket AF_INET SOCK_DGRAM 0;
      Connect s dest;;
      local ← Getsockname s;
      '(_, sin_addr) ← sin_of local;
      (if decide (sin_addr = INADDR_ANY) then
         err_quit (str "Can't determine local address - use -l" ++ [ch_nl])
       else mret tt);;
      checked (sys (Cclose s));;
      mret local
  end.

Definition udpcksum_main (fuel : nat) (junk : list Z)
    (getopt : list (list Z) → list (ascii * list Z) * list (list Z)) (argv : list (list Z)) : M unit :=
  let '(opts, args) := getopt argv in
  u ← for_each opts udp_option (Udpopts false None None false);
  match args with
  | [host; serv] =>
      '(aip, _) ← Host_serv (Some host) (Some serv) AF_INET SOCK_DGRAM;
      let dest := ai_addr aip in
      local ← udp_local (o_local u) dest;
      rawfd ← open_output dest;
      '(pd, datalink) ← open_pcap dest (o_verbose u) (o_device u);
      uid ← sys Cgetuid;
      checked (sys (Csetuid uid));;
      Signal SIGTERM (Handler "cleanup");;
      Signal SIGINT (Handler "cleanup");;
      Signal SIGHUP (Handler "cleanup");;
      test_udp dest local (o_verbose u) (o_zerosum u) fuel junk rawfd pd datalink;;
      cleanup (o_verbose u) pd
  | _ => udpcksum_usage (str "missing <host> and/or <serv>")
  end.
