(* ===== verification/UdpcksumSpec.v ===== *)
(** Properties of [Udpcksum]: the datagram that [udp_write] sends, what [udp_check]
    accepts, and the queries of [test_udp]. *)

From S2P Require Import Prelude Net Sys Error Wrap SockAddr Io IoSpec Connect ConnectSpec TcpServ Cksum Packet Rtt Sock Ends Udpcksum.

(** * RFC 768 *)

(** The pseudo-header, and the UDP header with a checksum and the data behind it. *)
Definition pseudo_header (src dst : list Z) (ulen : Z) : list Z := src ++ dst ++ [0; IPPROTO_UDP] ++ be16 ulen.
Definition udp_datagram (sport dport : Z) (sum data : list Z) : list Z :=
  le_bytes 2 sport ++ le_bytes 2 dport ++ be16 (8 + Z.of_nat (length data)) ++ sum ++ data.

(** The one's complement sum over the pseudo-header and the datagram is all ones. *)
Definition udp_verifies (src dst : list Z) (udp : list Z) : Prop :=
  ones_fold (be_sum (pseudo_header src dst (Z.of_nat (length udp)) ++ udp)) = 65535.

Lemma le_bytes_2 x : le_bytes 2 x = [x mod 256; (x / 256) mod 256].
Proof. rewrite le_bytes_S. by rewrite le_bytes_S. Qed.

Lemma le_bytes_htons x : 0 <= x < 65536 → le_bytes 2 (htons x) = be16 x.
Proof.
  intros Hx. rewrite le_bytes_2. unfold htons, swap16, be16, u16.
  rewrite (Z.mod_small x) by (change (2 ^ 16) with 65536; lia).
  assert (Hh : (x / 256) mod 256 = x / 256) by (apply Z.mod_small; Z.div_mod_to_equations; lia).
  rewrite Hh. pose proof (Z.mod_pos_bound x 256 ltac:(lia)).
  assert (0 <= x / 256 < 256) by (Z.div_mod_to_equations; lia).
  rewrite (Z.add_comm (_ * 256)), Z.mod_add, Z.div_add by lia.
  by rewrite (Z.mod_small (x / 256)), (Z.div_small (x / 256)), Z.add_0_l, Z.mod_mod by lia.
Qed.

Lemma bytes_be16 x : bytes (be16 x).
Proof. unfold be16. repeat constructor; unfold is_byte; apply Z.mod_pos_bound; lia. Qed.

(** A checksum of zero is sent as its other representation, and the sum comes out as
    all ones. *)
Lemma ones_fold_complement S :
  0 < S → let s := 65535 - ones_fold S in ones_fold (S + (if decide (s = 0) then 65535 else s)) = 65535.
Proof.
  intros HS s. assert (Hf : 1 <= ones_fold S <= 65535 ∧ (ones_fold S - S) mod 65535 = 0).
  { unfold ones_fold. rewrite decide_False by lia. pose proof (Z.mod_pos_bound (S - 1) 65535).
    split; [lia|]. Z.div_mod_to_equations. lia. }
  subst s. revert Hf. generalize (ones_fold S). intros f [Hf Hc]. unfold ones_fold.
  rewrite (decide_False (P := _ + _ = 0)) by (case_decide; lia).
  case_decide; Z.div_mod_to_equations; lia.
Qed.

Lemma stored_sum_nonzero s :
  0 <= s < 65536 → le_bytes 2 (if decide (s = 0) then 65535 else s) ≠ [0; 0].
Proof.
  intros Hs. rewrite le_bytes_2. set (t := if decide (s = 0) then 65535 else s).
  assert (Ht : 1 <= t < 65536) by (unfold t; case_decide; lia). clearbody t.
  intros E. injection E as E0 E1. revert E0 E1. Z.div_mod_to_equations. lia.
Qed.

Lemma le_sum_le_bytes t : 0 <= t < 65536 → le_sum (le_bytes 2 t) = t.
Proof. intros Ht. rewrite le_bytes_2. cbn [le_sum]. Z.div_mod_to_equations. lia. Qed.

(** The sum in the order in which the program adds. *)
Lemma udp_sum_verifies src dst udp :
  bytes src → bytes dst → bytes udp → Nat.Even (length src) → Nat.Even (length dst) →
  ones_fold (le_sum src + le_sum dst + le_sum ([0; IPPROTO_UDP] ++ be16 (Z.of_nat (length udp))) + le_sum udp)
    = 65535 →
  udp_verifies src dst udp.
Proof.
  intros Hs Hd Hu Es Ed H. unfold udp_verifies. set (l := pseudo_header _ _ _ ++ udp).
  assert (Hb : bytes l).
  { unfold l, pseudo_header, bytes. rewrite !Forall_app. repeat split; try done; [by repeat constructor|].
    apply bytes_be16. }
  assert (Hle : le_sum l = le_sum src + le_sum dst + le_sum ([0; IPPROTO_UDP] ++ be16 (Z.of_nat (length udp))) + le_sum udp).
  { unfold l, pseudo_header. rewrite <- !app_assoc, !le_sum_app by done. cbn [app be16 le_sum]. lia. }
  rewrite <- (ones_fold_swap (le_sum l) (be_sum l)); [by rewrite Hle, H|..].
  - by apply le_sum_bound.
  - by apply be_sum_nonneg.
  - by apply be_le_sum.
  - by apply sums_zero.
Qed.

(** * udp_write *)

Lemma four_bytes (l : list Z) : length l = 4%nat → ∃ a b c d, l = [a; b; c; d].
Proof. destruct l as [|a [|b [|c [|d [|]]]]]; try done. intros _. by repeat eexists. Qed.

(** What lies before the checksum when it is computed. *)
Definition cksum_head (sport dport : Z) (src dst : list Z) (n : Z) : list Z :=
  repeat 0 9 ++ [IPPROTO_UDP] ++ be16 (8 + n) ++ src ++ dst ++ le_bytes 2 sport ++ le_bytes 2 dport ++ be16 (8 + n).

Lemma in_cksum_range l : 0 <= in_cksum l < 65536.
Proof. apply Z.mod_pos_bound. lia. Qed.

Lemma even_4 (l : list Z) : length l = 4%nat → Nat.Even (length l).
Proof. intros ->. by exists 2%nat. Qed.
Lemma even_le_bytes_2 x : Nat.Even (length (le_bytes 2 x)).
Proof. rewrite length_le_bytes. by exists 1%nat. Qed.
Lemma even_be16 x : Nat.Even (length (be16 x)).
Proof. by exists 1%nat. Qed.

Section checksum.
Context (sport dport : Z) (src dst : list Z).
Context (Hsrc : length src = 4%nat) (Hdst : length dst = 4%nat) (Hbs : bytes src) (Hbd : bytes dst).

Lemma cksum_head_bytes n : bytes (cksum_head sport dport src dst n).
Proof using Hbs Hbd.
  unfold cksum_head, bytes. rewrite !Forall_app.
  repeat split; try done; try apply bytes_be16; try apply bytes_le_bytes; by repeat constructor.
Qed.

Lemma cksum_head_length n : length (cksum_head sport dport src dst n) = 26%nat.
Proof using Hsrc Hdst. unfold cksum_head. rewrite !length_app, Hsrc, Hdst, !length_le_bytes. reflexivity. Qed.

Lemma cksum_head_sum n :
  le_sum (cksum_head sport dport src dst n) =
  256 * IPPROTO_UDP + le_sum (be16 (8 + n)) + le_sum src + le_sum dst
    + le_sum (le_bytes 2 sport) + le_sum (le_bytes 2 dport) + le_sum (be16 (8 + n)).
Proof using Hsrc Hdst.
  unfold cksum_head. rewrite (app_assoc (repeat 0 9)).
  rewrite (le_sum_app (repeat 0 9 ++ [IPPROTO_UDP])) by (by exists 5%nat).
  change (le_sum (repeat 0 9 ++ [IPPROTO_UDP])) with (256 * IPPROTO_UDP).
  rewrite !le_sum_app by first [by apply even_4|apply even_le_bytes_2|apply even_be16].
  lia.
Qed.

Lemma udp_sum_correct data :
  Z.of_nat (length data) <= 65507 → bytes data →
  let s := in_cksum (cksum_head sport dport src dst (Z.of_nat (length data)) ++ [0; 0] ++ data) in
  udp_verifies src dst (udp_datagram sport dport (le_bytes 2 (if decide (s = 0) then 65535 else s)) data).
Proof using Hsrc Hdst Hbs Hbd.
  intros Hd Hbl. set (n := Z.of_nat (length data)) in *.
  pose proof (cksum_head_length n) as Hlen. pose proof (cksum_head_bytes n) as Hhb.
  pose proof (cksum_head_sum n) as HhS. set (h := cksum_head sport dport src dst n) in *. clearbody h.
  assert (Hb0 : bytes (h ++ [0; 0] ++ data)).
  { unfold bytes. rewrite !Forall_app. split; [done|]. split; [by repeat constructor|done]. }
  rewrite in_cksum_val; [|done|rewrite !length_app, Hlen; simpl; lia].
  rewrite (le_sum_app h) by (rewrite Hlen; by exists 13%nat).
  change (le_sum ([0; 0] ++ data)) with (le_sum data). set (S := le_sum h + le_sum data).
  assert (HS : 0 < S).
  { pose proof (le_sum_bound data Hbl) as [? _]. pose proof (le_sum_bound src Hbs) as [? _].
    pose proof (le_sum_bound dst Hbd) as [? _]. pose proof (le_sum_bound _ (bytes_be16 (8 + n))) as [? _].
    pose proof (le_sum_bound _ (bytes_le_bytes 2 sport)) as [? _].
    pose proof (le_sum_bound _ (bytes_le_bytes 2 dport)) as [? _]. unfold S, IPPROTO_UDP in *. lia. }
  pose proof (ones_fold_complement S HS) as Hc. cbn zeta in *.
  pose proof (ones_fold_range S ltac:(lia)).
  assert (Ht : 0 <= (if decide (65535 - ones_fold S = 0) then 65535 else 65535 - ones_fold S) < 65536)
    by (case_decide; lia).
  set (t := if decide (65535 - ones_fold S = 0) then _ else _) in *. clearbody t.
  apply udp_sum_verifies; [done|done| |by apply even_4|by apply even_4|].
  { unfold udp_datagram, bytes. rewrite !Forall_app.
    repeat split; try done; try apply bytes_be16; apply bytes_le_bytes. }
  replace (Z.of_nat (length (udp_datagram sport dport (le_bytes 2 t) data))) with (8 + n).
  2:{ unfold udp_datagram. rewrite !length_app, !length_le_bytes. cbn [be16 length]. lia. }
  rewrite <- Hc. f_equal. unfold udp_datagram. fold n.
  rewrite (le_sum_app (le_bytes 2 sport)), (le_sum_app (le_bytes 2 dport)), (le_sum_app (be16 (8 + n))), (le_sum_app (le_bytes 2 t))
    by (apply even_le_bytes_2 || apply even_be16).
  rewrite (le_sum_le_bytes t) by done. rewrite (le_sum_app [0; IPPROTO_UDP]) by (by exists 1%nat).
  unfold S. rewrite HhS. cbn [le_sum]. lia.
Qed.
End checksum.

Lemma udp_header_bytes sport dport src dst zerosum head data rest :
  length src = 4%nat → length dst = 4%nat → length head = 28%nat → Z.of_nat (length data) <= 65507 →
  udp_header zerosum (head ++ data ++ rest) (Z.of_nat (length data)) (sport, src) (dport, dst) =
  cksum_head sport dport src dst (Z.of_nat (length data)) ++
    (if zerosum : bool then [0; 0]
     else let s := in_cksum (cksum_head sport dport src dst (Z.of_nat (length data)) ++ [0; 0] ++ data) in
          le_bytes 2 (if decide (s = 0) then 65535 else s)) ++ data ++ rest.
Proof.
  intros Hsrc Hdst Hh Hd. destruct (four_bytes _ Hsrc) as (a0 & a1 & a2 & a3 & ->).
  destruct (four_bytes _ Hdst) as (b0 & b1 & b2 & b3 & ->).
  unfold udp_header, cksum_head, u16. rewrite (Z.mod_small (8 + _)) by (change (2 ^ 16) with 65536; lia).
  rewrite !le_bytes_htons by lia. rewrite !le_bytes_2. unfold be16.
  assert (E : store_at (head ++ data ++ rest) 0 (repeat 0 sizeof_udpiphdr) = repeat 0 28 ++ data ++ rest).
  { unfold store_at. rewrite take_0, repeat_length. cbn [app Nat.add]. f_equal. by apply drop_app_length'. }
  rewrite E. unfold store_at. cbn [fst snd repeat app take drop length Nat.add].
  assert (Et : ∀ h, length h = 28%nat → take (Z.to_nat (Z.of_nat (length data) + 28)) (h ++ data ++ rest) = h ++ data).
  { intros h Hl. rewrite app_assoc. apply take_app_length'. rewrite length_app. lia. }
  match goal with |- context [in_cksum (take _ ?l)] =>
    change l with (take 28 l ++ data ++ rest); rewrite (Et (take 28 l)) by done end.
  destruct zerosum; reflexivity.
Qed.

(** The whole datagram. *)
Lemma udp_write_bytes sport dport src dst zerosum head data rest :
  length src = 4%nat → length dst = 4%nat → length head = 28%nat → Z.of_nat (length data) <= 65507 →
  let n := Z.of_nat (length data) in
  ∃ sum, length sum = 2%nat ∧
    take (Z.to_nat (n + 28))
      (ip_header_out (udp_header zerosum (head ++ data ++ rest) n (sport, src) (dport, dst)) (n + 28)) =
    [69; 0] ++ be16 (28 + n) ++ [0; 0; 0; 0; 64; 17] ++ be16 (8 + n) ++ src ++ dst
      ++ udp_datagram sport dport sum data ∧
    if zerosum : bool then sum = [0; 0]
    else sum ≠ [0; 0] ∧
         (bytes src → bytes dst → bytes data → udp_verifies src dst (udp_datagram sport dport sum data)).
Proof.
  intros Hsrc Hdst Hh Hd n. rewrite udp_header_bytes by done. fold n.
  set (sum := if zerosum then [0; 0] else _). exists sum.
  assert (Hsum : length sum = 2%nat) by (unfold sum; by destruct zerosum).
  split; [done|]. split.
  - destruct sum as [|s0 [|s1 [|]]]; try done. unfold ip_header_out, cksum_head, udp_datagram. fold n.
    destruct (four_bytes _ Hsrc) as (a0 & a1 & a2 & a3 & ->).
    destruct (four_bytes _ Hdst) as (b0 & b1 & b2 & b3 & ->).
    rewrite le_bytes_htons by lia. rewrite !le_bytes_2. unfold be16, store_at.
    cbn [repeat app take drop length Nat.add].
    replace (28 + n) with (n + 28) by lia.
    replace (Z.to_nat (n + 28)) with (28 + length data)%nat by lia. cbn [take Nat.add].
    rewrite take_app_length. reflexivity.
  - unfold sum. destruct zerosum; [done|]. split; [apply stored_sum_nonzero, in_cksum_range|].
    intros. by apply udp_sum_correct.
Qed.

(** * What the program does *)

(** The datagrams sent and the alarms set, in order. *)
Definition acts (cs : list call) : list (list Z + Z) :=
  reverse (omap (λ c, match c with
                      | Csendto _ d _ => Some (inl d)
                      | Calarm t => Some (inr t)
                      | _ => None end) cs).
Definition idle_call (c : call) : Prop := match c with Csendto _ _ _ | Calarm _ => False | _ => True end.

(** [l] is what was done from [w] to [w']. *)
Definition did (w w' : world) (l : list (list Z + Z)) : Prop :=
  ∃ cs, w_calls w' = cs ++ w_calls w ∧ acts cs = l.

Lemma acts_app cs1 cs2 : acts (cs1 ++ cs2) = acts cs2 ++ acts cs1.
Proof. unfold acts. by rewrite omap_app, reverse_app. Qed.

Lemma did_nil w w' : w_calls w' = w_calls w → did w w' [].
Proof. intros E. exists []. by rewrite E. Qed.

Lemma did_trans w w1 w2 l1 l2 : did w w1 l1 → did w1 w2 l2 → did w w2 (l1 ++ l2).
Proof.
  intros (cs1 & H1 & <-) (cs2 & H2 & <-). exists (cs2 ++ cs1). by rewrite H2, H1, acts_app, app_assoc.
Qed.

Lemma idle_report c : report_call c → idle_call c.
Proof. by destruct c. Qed.

Lemma acts_idle cs : Forall idle_call cs → acts cs = [].
Proof.
  intros H. unfold acts. enough (E : omap (λ c, match c with
    | Csendto _ d _ => Some (inl d) | Calarm t => Some (inr t) | _ => None end) cs = @nil (list Z + Z)) by by rewrite E.
  induction H as [|c cs Hc Hcs IH]; [done|]. simpl. destruct c; try done.
Qed.

Section idle.
Context (K : kernel).

(** A program that does nothing of this kind, exits only with an error, and ends. *)
Lemma wp_idle_call {A} (m : M A) w (Q : outcome A → world → Prop) :
  emits idle_call m → exits1 m → ends K m →
  (∀ o w', did w w' [] → o ≠ Diverge → (∀ c, o = Exit c → c = 1) → Q o w') →
  wp K m w Q.
Proof.
  intros Hm Hx He HQ. destruct (Hm K w) as (cs & Hw & Hcs). unfold wp. apply HQ.
  - exists cs. split; [done|]. by apply acts_idle.
  - apply He.
  - intros c. apply Hx.
Qed.

Lemma ends_exit {A} c : ends K (exit (A := A) c).
Proof. done. Qed.
Lemma ends_abort {A} : ends K (abort (A := A)).
Proof. done. Qed.
Lemma ends_err_quit {A} msg : ends K (err_quit (A := A) msg).
Proof.
  intros w. change (wp K (err_quit (A := A) msg) w (λ o _, o ≠ Diverge)). by apply wp_err_quit.
Qed.
End idle.

Lemma emits_idle_err_quit {A} msg : emits idle_call (err_quit (A := A) msg).
Proof. apply emits_err_quit, idle_report. Qed.
Lemma emits_idle_printf text : emits idle_call (printf text).
Proof. intros K w. by exists [Cfputs stdout text]; repeat constructor. Qed.

(** * udp_write *)

(** The datagram that carries [data]. *)
Definition query_of (sport dport : Z) (src dst sum data : list Z) : list Z :=
  [69; 0] ++ be16 (28 + Z.of_nat (length data)) ++ [0; 0; 0; 0; 64; 17] ++ be16 (8 + Z.of_nat (length data))
    ++ src ++ dst ++ udp_datagram sport dport sum data.

(** The datagram as it is computed. *)
Definition datagram_of (zerosum : bool) (sport dport : Z) (src dst buf : list Z) (n : Z) : list Z :=
  take (Z.to_nat (n + 28)) (ip_header_out (udp_header zerosum buf n (sport, src) (dport, dst)) (n + 28)).

Lemma wp_udp_write (K : kernel) zerosum rawfd sport dport src dst buf n w (Q : outcome unit → world → Prop) :
  (∀ o w', did w w' [inl (datagram_of zerosum sport dport src dst buf n)] → o = Val tt ∨ o = Exit 1 → Q o w') →
  wp K (udp_write (SaIn dport dst) (SaIn sport src) zerosum rawfd buf n) w Q.
Proof.
  intros HQ. unfold udp_write. cbn [sin_of]. do 2 (wp_step; wp_step). cbn zeta.
  change (take _ _) with (datagram_of zerosum sport dport src dst buf n).
  unfold Sendto, all_or_err_sys. do 3 wp_step.
  set (q := datagram_of zerosum sport dport src dst buf n) in *.
  assert (Hdid : ∀ cs e d, Forall report_call cs →
    did w (World (cs ++ Csendto rawfd q (SaIn dport dst) :: w_calls w) e d) [inl q]).
  { intros cs e d Hcs. exists (cs ++ [Csendto rawfd q (SaIn dport dst)]). split; [by rewrite <- app_assoc|].
    rewrite acts_app, (acts_idle cs); [done|]. eapply Forall_impl; [exact Hcs|apply idle_report]. }
  destruct (K _ (Csendto _ _ _)) as [n'|e]; cbn [bind_post].
  - wp_if; [|wp_step; apply HQ; [by apply (Hdid [])|by left]].
    apply wp_err_sys. intros cs Hcs. apply HQ; [by apply Hdid|by right].
  - apply wp_err_sys. intros cs Hcs. apply HQ; [by apply Hdid|by right].
Qed.

(** C39: The datagram that [udp_write] sends for [data] has an IPv4 header without
    options whose lengths, addresses, TTL and protocol are right, and a UDP header with
    the ports, the length of header and data, and a checksum; the data follow
    unchanged.  Unless checksums are turned off the checksum is never the zero that
    means "none", and the one's complement sum over pseudo-header, UDP header and data
    is all ones, as RFC 768 asks.  It returns when all of it was sent and exits with
    status 1 otherwise. *)
Theorem udp_write_datagram (K : kernel) (zerosum : bool) rawfd sport dport src dst head data rest w :
  length src = 4%nat → length dst = 4%nat → bytes src → bytes dst → bytes data →
  length head = 28%nat → Z.of_nat (length data) <= 65507 →
  let n := Z.of_nat (length data) in
  let '(o, w') := udp_write (SaIn dport dst) (SaIn sport src) zerosum rawfd (head ++ data ++ rest) n K w in
  (o = Val tt ∨ o = Exit 1) ∧
  ∃ sum, length sum = 2%nat ∧
    let udp := le_bytes 2 sport ++ le_bytes 2 dport ++ be16 (8 + n) ++ sum ++ data in
    did w w' [inl ([69; 0] ++ be16 (28 + n) ++ [0; 0; 0; 0; 64; 17] ++ be16 (8 + n) ++ src ++ dst ++ udp)] ∧
    if zerosum then sum = [0; 0] else sum ≠ [0; 0] ∧ udp_verifies src dst udp.
Proof.
  intros Hs Hd Hbs Hbd Hbl Hh Hl n.
  destruct (udp_write_bytes sport dport src dst zerosum head data rest Hs Hd Hh Hl) as (sum & Hsum & Hb & Hc).
  assert (H : wp K (udp_write (SaIn dport dst) (SaIn sport src) zerosum rawfd (head ++ data ++ rest) n) w
    (λ o w', (o = Val tt ∨ o = Exit 1) ∧ did w w' [inl (query_of sport dport src dst sum data)])).
  { apply wp_udp_write. unfold datagram_of. fold n in Hb. rewrite Hb. auto. }
  unfold wp in H. destruct (udp_write _ _ _ _ _ _ K w) as [o w']. destruct H as [Ho Hdid]. split; [done|].
  exists sum. split; [done|]. split; [done|]. destruct zerosum; [done|]. destruct Hc as [Hz Hv]. split; [done|].
  by apply Hv.
Qed.

(** * test_udp *)

(** The captures in a row that found nothing. *)
Fixpoint empties (cs : list call) : nat :=
  match cs with
  | Cpcap (Pc_next _) :: Cdeliver _ :: cs' => S (empties cs')
  | _ => 0
  end.

Section test.
Context (K : kernel) (T fuel : nat).
Context (Halarm : ∀ cs, (T <= empties cs)%nat → (0 < K cs (Cdeliver SIGALRM))%nat).

Lemma ends_interrupted : ends K interrupted.
Proof. done. Qed.
Lemma emits_idle_interrupted : emits idle_call interrupted.
Proof. intros K' w. by exists [Cdeliver SIGALRM]; repeat constructor. Qed.

(** The wait ends: with a packet, or with the alarm. *)
Lemma ends_next_pcap pd : (T < fuel)%nat → ends K (next_pcap fuel pd).
Proof using Halarm.
  intros Hf w. change (wp K (next_pcap fuel pd) w (λ o _, o ≠ Diverge)). unfold next_pcap.
  apply (wp_iter_count K (λ k _ w', (k <= empties (w_calls w') ∧ k <= T)%nat)); [split; lia| |intros; lia].
  intros k [] w1 [Hk HT]. wp_step. unfold interrupted. wp_step. wp_step. wp_step.
  case_bool_decide as Hi; [by wp_step|]. do 2 wp_step.
  destruct (K _ (Cpcap (Pc_next pd))); wp_step; [done|]. cbn [w_calls empties].
  assert (¬ (T <= empties (w_calls w1))%nat) by (intros H; apply Hi, Halarm, H). lia.
Qed.

Lemma emits_next_pcap pd : emits idle_call (next_pcap fuel pd).
Proof.
  unfold next_pcap. apply emits_iter. intros []. apply emits_bind; [apply emits_idle_interrupted|].
  intros []; by emits_tac.
Qed.

Ltac idle_step :=
  lazymatch goal with
  | |- emits _ (err_quit _) => apply emits_idle_err_quit
  | |- emits _ _ => emits_step
  | |- ends _ (err_quit _) => apply ends_err_quit
  | |- ends _ (exit _) => apply ends_exit
  | |- ends _ abort => apply ends_abort
  | |- ends _ _ => ends_step
  | |- exits1 _ => exits1_step
  end.

Lemma ends_udp_read pd datalink : (T < fuel)%nat → ends K (udp_read fuel pd datalink).
Proof using Halarm.
  intros Hf. unfold udp_read. apply ends_bind; [by apply ends_next_pcap|].
  intros [ptr|]; unfold skip_link, udp_check; repeat (idle_step; cbn beta iota zeta).
Qed.

Lemma emits_udp_read pd datalink : emits idle_call (udp_read fuel pd datalink).
Proof.
  unfold udp_read. apply emits_bind; [apply emits_next_pcap|].
  intros [ptr|]; unfold skip_link, udp_check; repeat (idle_step; cbn beta iota zeta).
Qed.

Lemma exits1_udp_read pd datalink : exits1 (udp_read fuel pd datalink).
Proof.
  unfold udp_read, next_pcap, interrupted, skip_link, udp_check. repeat (exits1_step; cbn beta iota zeta).
Qed.

(** * The queries *)

Context (verbose zerosum : bool) (rawfd pd datalink sport dport : Z) (src dst junk : list Z).
Local Abbreviation dest := (SaIn dport dst).
Local Abbreviation local := (SaIn sport src).

Definition query : list Z :=
  datagram_of zerosum sport dport src dst (store_at junk sizeof_udpiphdr dns_query) 36.

Lemma wp_send_dns_query w (Q : outcome unit → world → Prop) :
  (∀ w', did w w' [inl query] → Q (Val tt) w') →
  (∀ w' l, l = [] ∨ l = [inl query] → did w w' l → Q (Exit 1) w') →
  wp K (send_dns_query dest local verbose zerosum junk rawfd) w Q.
Proof using.
  intros HQ Hex. unfold send_dns_query. wp_step. unfold Malloc. apply wp_or_err_sys. wp_step.
  destruct (K _ (Cmalloc 128)) as [p|e].
  2:{ intros cs Hcs. apply (Hex _ []); [by left|]. exists (cs ++ [Cmalloc 128]).
      split; [by rewrite <- app_assoc|]. apply acts_idle, Forall_app. split; [|by repeat constructor].
      eapply Forall_impl; [exact Hcs|apply idle_report]. }
  wp_step. change (Z.of_nat (length dns_query)) with 36. apply wp_udp_write. fold query.
  set (w1 := World _ _ _). intros o w2 H2 Ho.
  assert (H02 : did w w2 [inl query]).
  { apply (did_trans w w1 w2 []); [|done]. by exists [Cmalloc 128]. }
  destruct Ho as [-> | ->]; cbn [bind_post]; [|by apply (Hex _ [inl query]); [right|]].
  destruct verbose; [|by apply HQ].
  unfold printf, void. do 3 wp_step. apply HQ. apply (did_trans _ w2 _ [inl query] []); [done|]. by exists [Cfputs stdout (str "sent: " ++ fmt_d 36 ++ str " bytes of data" ++ [ch_nl])].
Qed.

(** The exchange of three queries. *)
Definition exchange : list (list Z + Z) := [inl query; inr 3; inl query; inr 6; inl query; inr 12].

(** The loop after [k] rounds. *)
Definition queried (w : world) (k : nat) (s : Z * Z) (w' : world) : Prop :=
  (k < 3)%nat ∧ s = (Z.of_nat k, 3 * 2 ^ Z.of_nat k) ∧ did w w' (take (2 * k) exchange).

(** How [test_udp]'s loop can end. *)
Definition answered (w : world) (o : outcome (list Z)) (w' : world) : Prop :=
  match o with
  | Val _ => ∃ k, (1 <= k <= 3)%nat ∧ did w w' (take (2 * k) exchange)
  | Diverge => False
  | Exit c => c = 1 ∧ ∃ l, l `prefix_of` exchange ∧ did w w' l
  | Aborted => ∃ l, l `prefix_of` exchange ∧ did w w' l
  end.

(** After a query and its alarm, an idle step leads to the timeout or to the end. *)
Lemma wp_udp_timeout w w1 k (Q : outcome (Z * Z + list Z) → world → Prop) :
  (k < 3)%nat → did w w1 (take (2 * S k) exchange) →
  (∀ s w', queried w (S k) s w' → Q (Val (inl s)) w') →
  (∀ w', did w w' exchange → Q (Exit 1) w') →
  wp K (udp_timeout (Z.of_nat k + 1) (3 * 2 ^ Z.of_nat k)) w1 Q.
Proof.
  intros Hk H1 HQ Hex. unfold udp_timeout. case_decide as Hn.
  - apply wp_err_quit. intros cs Hcs. apply Hex. assert (k = 2%nat) as -> by lia.
    rewrite <- (app_nil_r exchange). apply (did_trans _ w1); [done|]. exists cs. split; [done|].
    apply acts_idle. eapply Forall_impl; [exact Hcs|apply idle_report].
  - unfold printf, void. do 5 wp_step. apply HQ. split; [lia|]. split.
    + f_equal; [lia|]. rewrite Nat2Z.inj_succ, Z.pow_succ_r by lia. lia.
    + rewrite <- (app_nil_r (take _ _)). apply (did_trans _ w1); [done|].
      by exists [Cfputs stdout (str "timeout" ++ [ch_nl])].
Qed.

Lemma exchange_next k : (k < 3)%nat →
  take (2 * k) exchange ++ [inl query; inr (3 * 2 ^ Z.of_nat k)] = take (2 * S k) exchange.
Proof using. destruct k as [|[|[|k]]]; [done..|lia]. Qed.

Lemma exchange_prefix l1 l2 k : (k < 3)%nat →
  l1 = take (2 * k) exchange → l2 = [] ∨ l2 = [inl query] → l1 ++ l2 `prefix_of` exchange.
Proof using.
  intros Hk -> [-> | ->].
  - rewrite app_nil_r. by apply prefix_take.
  - destruct k as [|[|[|k]]]; [..|lia]; by eexists.
Qed.

Lemma wp_query_round w w1 k s :
  (T < fuel)%nat → queried w k s w1 →
  wp K (query_round dest local verbose zerosum fuel junk rawfd pd datalink s) w1
    (bind_post (λ r w', match r with
       | inl s' => queried w (S k) s' w'
       | inr ui => answered w (Val ui) w' end) (answered w)).
Proof using Halarm.
  intros Hf (Hk & -> & H1). unfold query_round. wp_step. apply wp_send_dns_query.
  2:{ intros w' l Hl Hd. split; [done|]. exists (take (2 * k) exchange ++ l).
      split; [by eapply exchange_prefix|]. by eapply did_trans. }
  intros w2 H2. cbn [bind_post]. do 2 wp_step. set (w3 := World _ _ _).
  assert (H3 : did w w3 (take (2 * S k) exchange)).
  { rewrite <- exchange_next by done. apply (did_trans _ w1); [done|].
    apply (did_trans _ w2 _ [inl query] [inr (3 * 2 ^ Z.of_nat k)]); [done|].
    by exists [Calarm (3 * 2 ^ Z.of_nat k)]. }
  assert (Hpre : take (2 * S k) exchange `prefix_of` exchange) by apply prefix_take.
  assert (Hidle : ∀ w4, did w3 w4 [] → did w w4 (take (2 * S k) exchange)).
  { intros w4 H4. rewrite <- (app_nil_r (take _ _)). by eapply did_trans. }
  assert (Htime : ∀ w4, did w3 w4 [] → wp K (udp_timeout (Z.of_nat k + 1) (3 * 2 ^ Z.of_nat k)) w4
    (bind_post (λ r w', match r with
       | inl s' => queried w (S k) s' w' | inr ui => answered w (Val ui) w' end) (answered w))).
  { intros w4 H4. apply (wp_udp_timeout w); [done|by apply Hidle|done|].
    intros w' Hd. split; [done|]. by exists exchange. }
  wp_step. apply wp_idle_call; [apply emits_udp_read|apply exits1_udp_read|by apply ends_udp_read|].
  intros [[ui|]|c| |] w4 H4 Hd Hx; cbn [bind_post]; [|by apply Htime| | |done].
  - wp_step. unfold interrupted. do 3 wp_step. set (w5 := World _ _ _).
    assert (H5 : did w3 w5 []).
    { apply (did_trans _ w4 _ [] []); [done|]. by exists [Cdeliver SIGALRM]. }
    case_bool_decide; [by apply Htime|]. wp_step. exists (S k). split; [lia|]. by apply Hidle.
  - split; [by apply Hx|]. eexists. split; [exact Hpre|]. by apply Hidle.
  - eexists. split; [exact Hpre|]. by apply Hidle.
Qed.

Lemma wp_test_loop w w0 :
  (T < fuel)%nat → (3 <= fuel)%nat → did w w0 [] →
  wp K (iter fuel (query_round dest local verbose zerosum fuel junk rawfd pd datalink) (0, 3)) w0 (answered w).
Proof using Halarm.
  intros Hf H3 H0. apply (wp_iter_count K (queried w)).
  - split; [lia|]. by split.
  - intros k s w1 Hq. by apply wp_query_round.
  - intros s w1 (Hk & _). lia.
Qed.

(** What is printed at the end. *)
Lemma wp_report_sum (ui : list Z) w (Q : outcome unit → world → Prop) :
  (∀ w', did w w' [] → Q (Val tt) w') →
  wp K ((if decide (ui_sum ui = 0) then printf (str "UDP checksums off" ++ [ch_nl])
         else printf (str "UDP checksums on" ++ [ch_nl]));;
        if verbose then printf (str "received UDP checksum = " ++ fmt_x (ntohs (ui_sum ui)) ++ [ch_nl])
        else mret tt) w Q.
Proof using.
  intros HQ. wp_step. unfold printf, void.
  case_decide; do 3 wp_step; (destruct verbose; [do 3 wp_step|wp_step]); apply HQ;
    (by eexists [_; _]) || (by eexists [_]).
Qed.

(** [test_udp] sends the same query at most three times and waits 3, 6 and 12
    seconds for the answer: what it sends and the alarms it sets are in this order,
    from the first on.  If an alarm arrives at the latest after [T] captures in a row
    have found nothing, it ends: with an answer, after one to three queries, having
    turned the alarm off; with status 1; or with a captured packet too short to be
    read. *)
Theorem test_udp_queries w :
  (T < fuel)%nat → (3 <= fuel)%nat →
  let '(o, w') := test_udp dest local verbose zerosum fuel junk rawfd pd datalink K w in
  match o with
  | Val _ => ∃ k, (1 <= k <= 3)%nat ∧ did w w' (take (2 * k) exchange ++ [inr 0])
  | Exit c => c = 1 ∧ ∃ l, l `prefix_of` exchange ∧ did w w' l
  | Aborted => ∃ l, l `prefix_of` exchange ∧ did w w' l
  | Diverge => False
  end.
Proof using Halarm.
  intros Hf H3.
  set (Q := λ (o : outcome unit) w', match o with
    | Val _ => ∃ k, (1 <= k <= 3)%nat ∧ did w w' (take (2 * k) exchange ++ [inr 0])
    | Exit c => c = 1 ∧ ∃ l, l `prefix_of` exchange ∧ did w w' l
    | Aborted => ∃ l, l `prefix_of` exchange ∧ did w w' l
    | Diverge => False end).
  enough (H : wp K (test_udp dest local verbose zerosum fuel junk rawfd pd datalink) w Q)
    by (unfold wp in H; by destruct (test_udp _ _ _ _ _ _ _ _ _ K w)).
  unfold test_udp. wp_step. apply wp_Signal.
  2:{ intros e cs w' _ Hcs Hw. split; [done|]. exists []. split; [by eexists|].
      exists (cs ++ [Csigaction SIGALRM SA_INTERRUPT (Handler "sig_alrm")]). split; [by rewrite <- app_assoc, Hw|].
      apply acts_idle, Forall_app. split; [|by repeat constructor].
      eapply Forall_impl; [exact Hcs|apply idle_report]. }
  intros h _. cbn [bind_post]. wp_step. set (w1 := World _ _ _).
  eapply wp_mono; [apply (wp_test_loop w w1 Hf H3); by eexists [_]|].
  intros [ui|c| |] w2 H2; cbn [bind_post]; try done. destruct H2 as (k & Hk & H2).
  do 2 wp_step. set (w3 := World _ _ _). apply wp_report_sum. intros w4 H4. exists k. split; [done|].
  apply (did_trans _ w2); [done|]. apply (did_trans _ w3 _ [inr 0] []); [|done]. by exists [Calarm 0].
Qed.
End test.

(** * Concrete runs *)

(** A reply of ten bytes, in the null encapsulation, that is captured after the third
    query; an alarm ends every second fruitless capture. *)
Definition dns_reply : list Z :=
  repeat 0 4 ++ [69; 0; 0; 30; 0; 0; 0; 0; 64; 17; 102; 205] ++ [10; 0; 0; 1] ++ [10; 0; 0; 2]
    ++ [0; 53; 4; 210; 0; 10; 18; 52; 1; 2].
Definition alarms (cs : list call) : nat :=
  length (omap (λ c, match c with Calarm _ => Some tt | _ => None end) cs).
Definition third_kernel : kernel := λ cs c,
  match c with
  | Csigaction _ _ _ => ROk SIG_DFL
  | Cmalloc _ => ROk 4096
  | Csendto _ d _ => ROk (Z.of_nat (length d))
  | Cfputs _ _ => true
  | Cdeliver _ => if decide (2 <= empties cs)%nat then 1%nat else 0%nat
  | Cpcap (Pc_next _) => if decide (3 <= alarms cs)%nat then Some dns_reply else None
  | c => default_ans c
  end.

Lemma udp_write_datagram_witness :
  let run := udp_write (SaIn 13568 [10; 0; 0; 1]) (SaIn 53764 [10; 0; 0; 2]) false 3
               (repeat 7 28 ++ dns_query ++ repeat 7 64) 36 third_kernel world0 in
  run.1 = Val tt ∧
  ∃ sum, sum ≠ [0; 0] ∧
    udp_verifies [10; 0; 0; 2] [10; 0; 0; 1] (le_bytes 2 53764 ++ le_bytes 2 13568 ++ be16 44 ++ sum ++ dns_query).
Proof.
  intros run. split; [vm_compute; done|].
  pose proof (udp_write_datagram third_kernel false 3 53764 13568 [10; 0; 0; 2] [10; 0; 0; 1]
    (repeat 7 28) dns_query (repeat 7 64) world0 eq_refl eq_refl ltac:(by_decide) ltac:(by_decide)
    ltac:(by_decide) eq_refl ltac:(vm_compute; done)) as H.
  change (Z.of_nat (length dns_query)) with 36 in H. cbv zeta in H.
  change (udp_write _ _ _ _ _ _ _ _) with run in H. destruct run as [o w'].
  destruct H as (_ & sum & _ & _ & Hz & Hv). by exists sum.
Defined.

Lemma third_alarm cs : (2 <= empties cs)%nat → (0 < third_kernel cs (Cdeliver SIGALRM))%nat.
Proof. intros H. cbn. rewrite decide_True by done. lia. Qed.

Lemma test_udp_queries_witness :
  let run := test_udp (SaIn 13568 [10; 0; 0; 1]) (SaIn 53764 [10; 0; 0; 2]) true false 4 (repeat 7 128) 3 5
               DLT_NULL third_kernel world0 in
  run.1 = Val tt ∧
  ∃ k, (1 <= k <= 3)%nat ∧
    did world0 run.2 (take (2 * k) (exchange false 53764 13568 [10; 0; 0; 2] [10; 0; 0; 1] (repeat 7 128)) ++ [inr 0]).
Proof.
  intros run. assert (Ho : run.1 = Val tt) by (vm_compute; done). split; [done|].
  pose proof (test_udp_queries third_kernel 2 4 third_alarm true false 3 5 DLT_NULL
    53764 13568 [10; 0; 0; 2] [10; 0; 0; 1] (repeat 7 128) world0 ltac:(lia) ltac:(lia)) as H.
  change (test_udp _ _ _ _ _ _ _ _ _ _ _) with run in H. destruct run as [o w']. cbn [fst] in Ho. subst o.
  exact H.
Defined.

(** The field of the checksum is looked for behind a header without options: of a
    reply with four bytes of options, without checksum, the destination port is
    tested. *)
Definition options_reply : list Z :=
  [70; 0; 0; 32; 0; 0; 0; 0; 64; 17; 99; 202] ++ [10; 0; 0; 1] ++ [10; 0; 0; 2] ++ [1; 1; 1; 0]
    ++ [0; 53; 4; 210; 0; 8; 0; 0].
Lemma options_misread K w :
  udp_check options_reply 32 K w = (Val (store_at options_reply 10 [0; 0]), w) ∧
  bytes_at options_reply (24 + 6) 2 = [0; 0] ∧ ntohs (ui_sum options_reply) = 1234.
Proof. split; [|by vm_compute]. reflexivity. Qed.
