(* ===== verification/Ipopts.v ===== *)
(** [ipopts/]: IP source routes: the option that [inet_srcrt_init] and
    [inet_srcrt_add] build, what [inet_srcrt_print] prints of a received one, the TCP
    client and server that use them, and the IPv6 client with a routing header.

    The server for IPv6 is not here: its [dg_echo] sends the control information of a
    datagram back as it was received, which the interface of calls does not hold. *)

From S2P Require Import Prelude Net Sys Error Wrap SockAddr Io Connect TcpServ Packet Sock.

Definition IPOPT_NOP : Z := 1.
Definition IPV6_RTHDR : Z := 57.
Definition IPV6_RTHDR_TYPE_0 : Z := 0.
Definition SERV_PORT_STR : list Z := str "9877".

(** * sourceroute.c *)

(** The static variables, the pointers as offsets, and the memory of the option with
    its address. *)
Record srcrt := Srcrt {
  s_ptr : Z;
  s_buf : list Z;
  s_optr : nat;
  s_lenptr : nat;
  s_ocnt : Z
}.

Definition inet_srcrt_init (type : bool) : M srcrt :=
  p ← Malloc 44;
  let buf := repeat 0 44 in
  let buf := store_at buf 0 [IPOPT_NOP] in
  let buf := store_at buf 1 [if type then IPOPT_SSRR else IPOPT_LSRR] in
  let buf := store_at buf 3 [4] in
  mret (Srcrt p buf 4 2 0).

(** The address is read as a [struct sockaddr_in]; storing it behind the memory is
    undefined behaviour, shown as [Aborted].  The result is the size of the option. *)
Definition inet_srcrt_add (hostptr : list Z) (st : srcrt) : M (srcrt * Z) :=
  if decide (s_ocnt st > 9) then err_quit (str "too many source routes with: " ++ hostptr)
  else
    '(ai, _) ← Host_serv (Some hostptr) None AF_INET 0;
    match ai_addr ai with
    | SaIn _ sin_addr =>
        if decide (44 < s_optr st + 4)%nat then abort
        else
          let buf := store_at (s_buf st) (s_optr st) sin_addr in
          sys Cfreeaddrinfo;;
          let ocnt := s_ocnt st + 1 in
          let len := 3 + ocnt * 4 in
          mret (Srcrt (s_ptr st) (store_at buf (s_lenptr st) [u8 len]) (s_optr st + 4) (s_lenptr st) ocnt, len + 1)
    | _ => abort
    end.

(** [while ( (c = *ptr++) == IPOPT_NOP)]: the first other byte and what follows it. *)
Fixpoint skip_nops (ptr : list Z) : option (Z * list Z) :=
  match ptr with
  | [] => None
  | c :: ptr' => if decide (c = IPOPT_NOP) then skip_nops ptr' else Some (c, ptr')
  end.

Definition print_hop (addr : list Z) : M unit :=
  s ← Inet_ntop AF_INET addr (Some tt) INET_ADDRSTRLEN;
  printf (c_str s ++ str " ").

(** [while (len > 0)] *)
Fixpoint print_hops (len : Z) (ptr : list Z) : M unit :=
  if decide (len > 0) then
    match ptr with
    | a :: b :: c :: d :: ptr' =>
        print_hop [a; b; c; d];;
        print_hops (len - 4) ptr'
    | _ => abort
    end
  else mret tt.

(** [ptr] is the memory from the pointer on; reading behind it is undefined
    behaviour, shown as [Aborted]. *)
Definition inet_srcrt_print (ptr : list Z) : M unit :=
  if decide (length ptr < 4)%nat then abort
  else
    let hop1 := take 4 ptr in
    match skip_nops (drop 4 ptr) with
    | None => abort
    | Some (c, ptr) =>
        if decide (c ≠ IPOPT_LSRR ∧ c ≠ IPOPT_SSRR) then
          printf (str "received option type " ++ fmt_d c ++ [ch_nl])
        else
          (if decide (c = IPOPT_LSRR) then printf (str "received LSRR: ")
           else printf (str "received SSRR: "));;
          print_hop hop1;;
          match ptr with
          | lenbyte :: _ :: ptr =>
              print_hops (lenbyte - 4) ptr;;
              printf [ch_nl]
          | _ => abort
          end
    end.

(** * tcpcli01.c *)

Definition srcrt_option (o : ascii) (ptr : option srcrt) : M (option srcrt) :=
  if decide (o = "g"%char ∨ o = "G"%char) then
    match ptr with
    | Some _ => err_quit (str "can't use both -g and -G")
    | None => st ← inet_srcrt_init (bool_decide (o = "G"%char)); mret (Some st)
    end
  else if decide (o = "?"%char) then err_quit (str "unrecognized option: " ++ [chr o])
  else mret ptr.

(** All but the last of the arguments that are left. *)
Definition srcrt_hops (ptr : option srcrt) (args : list (list Z)) : M (option srcrt) :=
  match ptr with
  | Some st =>
      st ← for_each (removelast args) (λ h st, '(st, _) ← inet_srcrt_add h st; mret st) st;
      mret (Some st)
  | None =>
      if decide (1 < length args)%nat then err_quit (str "need -g or -G to specify route") else mret None
  end.

Definition ipopts_tcpcli01 (fuel : nat) (getopt : list (list Z) → list ascii * list (list Z))
    (argv : list (list Z)) : M unit :=
  if decide (length argv < 2)%nat then err_quit (str "usage: tcpcli01 [ -[gG] <hostname> ... ] <hostname>")
  else
    let '(opts, args) := getopt argv in
    ptr ← for_each opts srcrt_option None;
    ptr ← srcrt_hops ptr args;
    match last args with
    | None => err_quit (str "missing <hostname>")
    | Some host =>
        '(ai, _) ← Host_serv (Some host) (Some SERV_PORT_STR) AF_INET SOCK_STREAM;
        sockfd ← Socket (ai_family ai) (ai_socktype ai) (ai_protocol ai);
        match ptr with
        | None => mret tt
        | Some st =>
            '(st, len) ← inet_srcrt_add host st;
            Setsockopt sockfd IPPROTO_IP IP_OPTIONS (take (Z.to_nat len) (s_buf st));;
            sys (Cfree (s_ptr st))
        end;;
        Connect sockfd (ai_addr ai);;
        str_cli fuel (Rline 0 []) sockfd;;
        exit 0
    end.

(** * tcpserv01.c *)

(** [opts] is what the allocated memory holds. *)
Definition ipopts_tcpserv01 (fuel : nat) (opts : list Z) : M unit :=
  Malloc 44;;
  listenfd ← ipv4_listen SERV_PORT;
  Signal SIGCHLD (Handler "sig_chld");;
  iter fuel (λ opts,
    r ← checked (sys (Caccept listenfd));
    match r with
    | RErr _ =>
        errno ← get_errno;
        if decide (errno = EINTR) then mret (inl opts) else err_sys (str "accept error")
    | ROk (connfd, _) =>
        o ← or_err_sys (str "getsockopt error") (sys (Cgetsockopt_mem connfd IPPROTO_IP IP_OPTIONS 44));
        let opts := overwrite opts o in
        let len := Z.of_nat (length o) in
        (if decide (len > 0) then
           printf (str "received IP options, len = " ++ fmt_d len ++ [ch_nl]);;
           inet_srcrt_print opts
         else mret tt);;
        fork_child (str_echo fuel) listenfd connfd;;
        mret (inl opts)
    end) opts.

(** * udpcli01.c and sourceroute6.c *)

Definition sin6_of (sa : sockaddr) : M (list Z) :=
  match sa with SaIn6 _ a => mret a | _ => abort end.

Definition rth_of (hosts : list (list Z)) : M (option (Z * Z)) :=
  if decide (length hosts = 0%nat) then mret None
  else
    let segments := Z.of_nat (length hosts) in
    len ← Inet6_rth_space IPV6_RTHDR_TYPE_0 segments;
    ptr ← Malloc len;
    Inet6_rth_init ptr len IPV6_RTHDR_TYPE_0 segments;;
    for_each hosts (λ h _,
      '(ai, _) ← Host_serv (Some h) None AF_INET6 0;
      a ← sin6_of (ai_addr ai);
      Inet6_rth_add ptr a) tt;;
    mret (Some (ptr, len)).

(** [mem] is the memory that the functions of RFC 3542 have stored to. *)
Definition ipopts_udpcli01 (fuel : nat) (mem : Z → Z → list Z) (argv : list (list Z)) : M unit :=
  if decide (length argv < 2)%nat then err_quit (str "usage: udpcli01 [ <hostname> ... ] <hostname>")
  else
    rth ← rth_of (removelast (drop 1 argv));
    '(ai, _) ← Host_serv (last argv) (Some SERV_PORT_STR) AF_INET6 SOCK_DGRAM;
    sockfd ← Socket (ai_family ai) (ai_socktype ai) (ai_protocol ai);
    match rth with
    | None => mret tt
    | Some (ptr, len) =>
        Setsockopt sockfd IPPROTO_IPV6 IPV6_RTHDR (mem ptr len);;
        sys (Cfree ptr)
    end;;
    dg_cli fuel sockfd (ai_addr ai);;
    exit 0.

Definition inet6_srcrt_print (mem : Z → Z → list Z) (ptr : Z) : M unit :=
  segments ← Inet6_rth_segments ptr;
  printf (str "received source route: ");;
  for_each (seqZ 0 segments) (λ i _,
    a ← Inet6_rth_getaddr ptr i;
    s ← Inet_ntop AF_INET6 (mem a 16) (Some tt) INET6_ADDRSTRLEN;
    printf (c_str s ++ str " ")) tt;;
  printf [ch_nl].
