(* ===== verification/IpoptsSpec.v ===== *)
(** Properties of [Ipopts]: the option for a source route is built within its memory,
    and is printed as the addresses it was built of. *)

From S2P Require Import Prelude Net Sys Error Wrap SockAddr InetPton InetNtop Io IoSpec Connect TcpServ Packet Ends DaytimeSpec Sock Ipopts.

(** * The option *)

Definition srcrt_code (strict : bool) : Z := if strict then IPOPT_SSRR else IPOPT_LSRR.

(** The option for some addresses: its length is filled in with the first one, and
    zeros end it. *)
Definition srcrt_bytes (strict : bool) (addrs : list (list Z)) : list Z :=
  let n := length addrs in
  [IPOPT_NOP; srcrt_code strict; (if decide (n = 0%nat) then 0 else 3 + 4 * Z.of_nat n); 4]
    ++ concat addrs ++ repeat 0 (40 - 4 * n).

Definition hops (addrs : list (list Z)) : Prop := Forall (λ a, length a = 4%nat ∧ bytes a) addrs.

(** The state after some hops. *)
Definition built (strict : bool) (addrs : list (list Z)) (st : srcrt) : Prop :=
  s_buf st = srcrt_bytes strict addrs ∧ s_optr st = (4 + 4 * length addrs)%nat ∧ s_lenptr st = 2%nat ∧
  s_ocnt st = Z.of_nat (length addrs) ∧ (length addrs <= 10)%nat ∧ hops addrs.

Lemma concat_hops addrs : hops addrs → length (concat addrs) = (4 * length addrs)%nat.
Proof.
  induction 1 as [|a addrs [Ha _] _ IH]; [done|]. cbn [concat length]. rewrite length_app, IH, Ha. lia.
Qed.

Lemma drop_repeat {A} (x : A) k n : drop k (repeat x n) = repeat x (n - k).
Proof. revert k. induction n as [|n IH]; intros [|k]; [done..|]. apply IH. Qed.

Lemma built_add strict addrs st a :
  built strict addrs st → (length addrs < 10)%nat → length a = 4%nat → bytes a →
  built strict (addrs ++ [a])
    (Srcrt (s_ptr st) (store_at (store_at (s_buf st) (s_optr st) a) (s_lenptr st) [u8 (3 + (s_ocnt st + 1) * 4)])
       (s_optr st + 4) (s_lenptr st) (s_ocnt st + 1)).
Proof.
  intros (Hb & Ho & Hl & Hn & _ & Hh) Hlt Ha Hba. unfold built. cbn [s_buf s_optr s_lenptr s_ocnt].
  rewrite length_app. cbn [length]. repeat split; try lia.
  2:{ apply Forall_app. by repeat constructor. }
  rewrite Hb, Ho, Hl, Hn. unfold srcrt_bytes. rewrite length_app. cbn [length].
  pose proof (concat_hops addrs Hh) as Hc. set (n := length addrs) in *.
  rewrite (decide_False (P := (n + 1)%nat = 0%nat)) by lia.
  unfold u8. rewrite (Z.mod_small (3 + _)) by (change (2 ^ 8) with 256; lia).
  set (lb := if decide (n = 0%nat) then _ else _). rewrite concat_app. cbn [concat]. rewrite app_nil_r.
  unfold store_at at 2. replace (4 + 4 * n)%nat with (4 + length (concat addrs))%nat by lia.
  cbn [app take drop Nat.add]. rewrite take_app_length, Ha.
  rewrite drop_app_add, drop_repeat.
  replace (40 - 4 * n - 4)%nat with (40 - 4 * (n + 1))%nat by lia.
  unfold store_at. cbn [take drop app length Nat.add]. rewrite <- app_assoc. do 4 f_equal. lia.
Qed.

(** * Printing *)

Lemma quad_no_nul a : length a = 4%nat → bytes a → Forall (λ c, c ≠ 0) (quad a).
Proof.
  intros Hl Hb. rewrite quad_join by done. pose proof (quad_fields a Hb) as Hf.
  assert (Hd : ∀ f v, dec_field f v → Forall (λ c, c ≠ 0) f).
  { intros f v (_ & Hf' & _). eapply Forall_impl; [exact Hf'|]. unfold is_digit. intros c Hc. simpl in Hc. lia. }
  destruct a as [|a0 [|a1 [|a2 [|a3 [|]]]]]; try done. inversion Hf as [|? ? ? ? H0 Hf1]; subst.
  inversion Hf1 as [|? ? ? ? H1 Hf2]; subst. inversion Hf2 as [|? ? ? ? H2 Hf3]; subst.
  inversion Hf3 as [|? ? ? ? H3 _]; subst. cbn [map join].
  rewrite !Forall_app. repeat split; try done; try (by eapply Hd); by repeat constructor.
Qed.

Definition say (texts : list (list Z)) (w : world) : world :=
  World (reverse (map (Cfputs stdout) texts) ++ w_calls w) (w_errno w) (w_daemon w).

Lemma say_app t1 t2 w : say t2 (say t1 w) = say (t1 ++ t2) w.
Proof. unfold say. cbn [w_calls w_errno w_daemon]. by rewrite map_app, reverse_app, app_assoc. Qed.

Definition hop_text (a : list Z) : list Z := quad a ++ str " ".

Lemma printf_say K t w : printf t K w = (Val tt, say [t] w).
Proof. done. Qed.

Lemma print_hop_say K a w : length a = 4%nat → bytes a → print_hop a K w = (Val tt, say [hop_text a] w).
Proof.
  intros Hl Hb. unfold print_hop, Inet_ntop. change (inet_ntop AF_INET a INET_ADDRSTRLEN) with (inet_ntop4 a 16).
  unfold inet_ntop4. pose proof (quad_length a Hb Hl). rewrite decide_False by lia.
  unfold mbind, M_bind, mret, M_ret. rewrite c_str_text by (by apply quad_no_nul). done.
Qed.

Lemma print_hops_say K addrs rest w :
  hops addrs →
  print_hops (4 * Z.of_nat (length addrs) - 1) (concat addrs ++ rest) K w = (Val tt, say (map hop_text addrs) w).
Proof.
  intros Hh. revert w. induction Hh as [|a addrs [Ha Hb] Hh IH]; intros w.
  - cbn [concat length app map]. destruct rest; cbn [print_hops]; rewrite decide_False by (simpl; lia); by destruct w.
  - cbn [concat length map]. rewrite <- app_assoc. destruct a as [|a0 [|a1 [|a2 [|a3 [|]]]]]; try done.
    cbn [app print_hops]. rewrite decide_True by lia. unfold mbind at 1, M_bind at 1.
    rewrite print_hop_say by done.
    replace (4 * Z.of_nat (S (length addrs)) - 1 - 4) with (4 * Z.of_nat (length addrs) - 1) by lia.
    rewrite IH. by rewrite say_app.
Qed.

Definition received_text (strict : bool) : list Z := str (if strict then "received SSRR: " else "received LSRR: ").

Lemma inet_srcrt_print_say K strict hop1 addrs w :
  hops (hop1 :: addrs) →
  inet_srcrt_print (hop1 ++ srcrt_bytes strict addrs) K w =
    (Val tt, say (received_text strict :: map hop_text (hop1 :: addrs) ++ [[ch_nl]]) w).
Proof.
  intros [[Hl Hb] Hh]%Forall_cons. unfold inet_srcrt_print.
  rewrite decide_False by (rewrite length_app; lia). rewrite take_app_length', drop_app_length' by done.
  unfold srcrt_bytes. cbn [app skip_nops]. rewrite decide_True by done. rewrite decide_False by by destruct strict.
  rewrite decide_False by (destruct strict; intros [H1 H2]; (by apply H1) || (by apply H2)).
  assert (E : ∀ w, (if decide (srcrt_code strict = IPOPT_LSRR) then printf (str "received LSRR: ")
    else printf (str "received SSRR: ")) K w = (Val tt, say [received_text strict] w)) by (intros; by destruct strict).
  unfold mbind at 1, M_bind at 1. rewrite E. unfold mbind at 1, M_bind at 1. rewrite print_hop_say by done.
  unfold mbind at 1, M_bind at 1.
  replace ((if decide (length addrs = 0%nat) then 0 else 3 + 4 * Z.of_nat (length addrs)) - 4)
    with (4 * Z.of_nat (length addrs) - 1 - (if decide (length addrs = 0%nat) then 3 else 0))
    by (destruct (decide (length addrs = 0%nat)); lia).
  clear E. case_decide as Hn.
  - apply length_zero_iff_nil in Hn as ->. unfold mret, M_ret. cbn. done.
  - rewrite Z.sub_0_r, print_hops_say by done. rewrite printf_say, !say_app. done.
Qed.

(** * Building the option for some hosts *)

(** What the resolver promises: the addresses it answers are of the family asked. *)
Definition ipv4_resolver (K : kernel) : Prop :=
  ∀ cs h ai rest, K cs (Cgetaddrinfo (Some h) None (GaiHints AI_CANONNAME AF_INET 0 0)) = inr (ai, rest) →
    ∃ p a, ai_addr ai = SaIn p a ∧ length a = 4%nat ∧ bytes a.

(** The address that the resolver gave for a host. *)
Definition resolved (K : kernel) (h a : list Z) : Prop :=
  ∃ cs ai rest p, K cs (Cgetaddrinfo (Some h) None (GaiHints AI_CANONNAME AF_INET 0 0)) = inr (ai, rest) ∧
    ai_addr ai = SaIn p a.

Definition srcrt_build (strict : bool) (hosts : list (list Z)) : M srcrt :=
  st ← inet_srcrt_init strict;
  for_each hosts (λ h st, '(st, _) ← inet_srcrt_add h st; mret st) st.

Section build.
Context (K : kernel) (Hres : ipv4_resolver K) (strict : bool).

Lemma wp_srcrt_add h addrs st w (Q : outcome (srcrt * Z) → world → Prop) :
  built strict addrs st →
  (∀ st' a w', resolved K h a → (length addrs < 10)%nat → built strict (addrs ++ [a]) st' →
     Q (Val (st', 4 + 4 * Z.of_nat (length addrs + 1))) w') →
  (∀ w', Q (Exit 1) w') →
  wp K (inet_srcrt_add h st) w Q.
Proof using Hres.
  intros Hb HQ Hex. pose proof Hb as (_ & Ho & _ & Hn & Hle & _). unfold inet_srcrt_add.
  case_decide as Hc; [apply wp_err_quit; intros; apply Hex|].
  wp_step. unfold Host_serv. do 2 wp_step.
  destruct (K (w_calls w) (Cgetaddrinfo _ _ _)) as [n|[ai rest]] eqn:HK.
  { do 2 wp_step. apply wp_err_quit. intros. apply Hex. }
  wp_step. destruct (Hres _ _ _ _ HK) as (p & a & Ha & Hl & Hba). rewrite Ha.
  rewrite decide_False by lia. do 3 wp_step.
  replace (3 + (s_ocnt st + 1) * 4 + 1) with (4 + 4 * Z.of_nat (length addrs + 1)) by lia.
  apply (HQ _ a); [by exists (w_calls w), ai, rest, p|lia|]. apply built_add; [done|lia|done..].
Qed.

Lemma wp_srcrt_build hosts w :
  wp K (srcrt_build strict hosts) w (λ o _, match o with
    | Val st => ∃ addrs, Forall2 (resolved K) hosts addrs ∧ built strict addrs st
    | Exit c => c = 1
    | _ => False end).
Proof using Hres.
  unfold srcrt_build. wp_step. unfold inet_srcrt_init, Malloc. wp_step. apply wp_or_err_sys. wp_step.
  destruct (K (w_calls w) (Cmalloc 44)) as [ptr|e]; [|by intros]. wp_step.
  apply (wp_for_each K (λ l st _, ∃ done addrs, hosts = done ++ l ∧ Forall2 (resolved K) done addrs ∧
    built strict addrs st)).
  - exists [], []. split; [done|]. split; [done|]. unfold built. cbn. repeat split; try lia; try done. constructor.
  - intros h l st w1 (hs & addrs & -> & Hf & Hb). wp_step. apply (wp_srcrt_add h addrs); [done| |done].
    intros st' a w2 Ha _ Hb'. cbn [bind_post]. wp_step. exists (hs ++ [h]), (addrs ++ [a]).
    split; [by rewrite <- app_assoc|]. split; [|done]. apply Forall2_app; [done|by repeat constructor].
  - intros st w1 (hs & addrs & -> & Hf & Hb). rewrite app_nil_r. by exists addrs.
Qed.
End build.

(** C40: A source route is printed as it was built: for any hosts, of which there
    can be ten at most, [inet_srcrt_init] and [inet_srcrt_add] build, without storing
    outside of the 44 bytes, an option whose code, length and pointer are right and
    whose addresses are those the resolver gave, in order; they end the program when a
    host has no address, and before an eleventh is stored.  From the option, behind
    the address of the first hop, [inet_srcrt_print] prints exactly these addresses. *)
Theorem srcrt_round_trip (K : kernel) strict hosts w :
  ipv4_resolver K →
  let '(o, _) :=
    (st ← inet_srcrt_init strict;
     for_each hosts (λ h st, '(st, _) ← inet_srcrt_add h st; mret st) st) K w in
  match o with
  | Val st => ∃ addrs, Forall2 (resolved K) hosts addrs ∧ (length addrs <= 10)%nat ∧
      length (s_buf st) = 44%nat ∧
      s_buf st = [IPOPT_NOP; if strict then IPOPT_SSRR else IPOPT_LSRR;
                  if decide (hosts = []) then 0 else 3 + 4 * Z.of_nat (length hosts); 4]
                 ++ concat addrs ++ repeat 0 (40 - 4 * length addrs) ∧
      ∀ K' w' hop1, length hop1 = 4%nat → bytes hop1 →
        inet_srcrt_print (hop1 ++ s_buf st) K' w' =
          (Val tt, say (str (if strict then "received SSRR: " else "received LSRR: ")
                        :: map (λ a, quad a ++ str " ") (hop1 :: addrs) ++ [[ch_nl]]) w')
  | Exit c => c = 1
  | _ => False
  end.
Proof.
  intros Hres. pose proof (wp_srcrt_build K Hres strict hosts w) as H. unfold wp, srcrt_build in H.
  match type of H with match (?m K w).1 with _ => _ end => destruct (m K w) as [o w1] end.
  cbn [fst] in H. destruct o as [st|c| |]; try done.
  destruct H as (addrs & Hf & Hb & _ & _ & _ & Hle & Hh). exists addrs. split; [done|]. split; [done|].
  pose proof (Forall2_length _ _ _ Hf) as Hl. split; [|split].
  - rewrite Hb. unfold srcrt_bytes. rewrite !length_app, concat_hops, repeat_length by done. cbn [length]. lia.
  - rewrite Hb. unfold srcrt_bytes. rewrite Hl. do 3 f_equal. f_equal.
    destruct hosts; cbn [length] in *; [by rewrite <- Hl|]. rewrite <- Hl. done.
  - intros K' w' hop1 Hl1 Hb1. rewrite Hb. rewrite inet_srcrt_print_say; [done|]. by constructor.
Qed.

(** A resolver that knows every host by its first byte. *)
Definition byte_resolver : kernel := λ cs c,
  match c with
  | Cmalloc _ => ROk 4096
  | Cgetaddrinfo (Some [b]) None _ =>
      if decide (is_byte b) then inr (Addrinfo 0 AF_INET SOCK_STREAM 0 (SaIn 0 [10; 0; 0; b]) None, []) else inl 1
  | c => default_ans c
  end.

Lemma srcrt_round_trip_witness :
  ∃ st w1, srcrt_build false [[1]; [2]] byte_resolver world0 = (Val st, w1) ∧
    inet_srcrt_print ([10; 0; 0; 9] ++ s_buf st) byte_resolver world0 =
      (Val tt, say [str "received LSRR: "; str "10.0.0.9 "; str "10.0.0.1 "; str "10.0.0.2 "; [ch_nl]] world0).
Proof.
  assert (Hres : ipv4_resolver byte_resolver).
  { intros cs h ai rest H. destruct h as [|b [|]]; try done. cbn in H. case_decide; [|done].
    injection H as <- <-. exists 0, [10; 0; 0; b]. repeat split; try done. unfold bytes. rewrite !Forall_cons. split; [by_decide|]. by do 3 (split; [by_decide || done|]). }
  pose proof (srcrt_round_trip byte_resolver false [[1]; [2]] world0 Hres) as H.
  destruct (srcrt_build false [[1]; [2]] byte_resolver world0) as [o w1] eqn:E. unfold srcrt_build in E.
  rewrite E in H. destruct o as [st|c| |]; [|by vm_compute in E..]. exists st, w1. split; [done|].
  destruct H as (addrs & Hf & _ & _ & _ & Hp). rewrite (Hp _ world0 [10; 0; 0; 9]) by (done || by_decide).
  assert (addrs = [[10; 0; 0; 1]; [10; 0; 0; 2]]) as ->; [|reflexivity].
  assert (Hr : ∀ b a, is_byte b → resolved byte_resolver [b] a → a = [10; 0; 0; b]).
  { intros b a Hb (cs & ai & rest & p & HK & Ha). cbn in HK. rewrite decide_True in HK by done.
    injection HK as <- <-. cbn in Ha. congruence. }
  inversion Hf as [|? ? ? ? H1 Hf1]; subst. inversion Hf1 as [|? ? ? ? H2 Hf2]; subst. inversion Hf2; subst.
  f_equal; [by apply Hr|]. f_equal. by apply Hr.
Defined.
